(* ===== verification/_CoqProject ===== *)
-Q . S2P
Prelude.v
GoNet.v
GoFloat.v
FloatOrder.v
GoText.v
Json.v
GoJson.v
GoPrint.v
GoStruct.v
Redis.v
SlidingWindow.v
TokenBucket.v
Config.v
Ml.v
Sidecar.v
Parallel.v
Wire.v
Kafka.v
Engine.v
Http.v
BpfMap.v
Blocklist.v
Kernel.v
Loader.v
Filter.v
Attach.v
Restart.v
Server.v
Deadline.v
Counter.v
Fingerprint.v
Events.v
Retrain.v
System.v
Scoring.v
Nginx.v
Timed.v
Shutdown.v
