(* ===== verification/Prelude.v ===== *)
(** * Verification of the adaptive rate limiter

    The repository is a rate limiter in layers.  nginx (Lua) extracts a feature
    vector per request and asks the decision engine (Go) over a Unix socket; the
    engine takes a token from a bucket in Redis, asks an ML sidecar for an anomaly
    score over gRPC, answers allow, throttle or block, tells a kernel map about
    blocked addresses and publishes events to Kafka.  A second Go program, the
    loader, attaches an eBPF filter to a network interface and manages the
    filter's map of blocked addresses over HTTP.  This library models the two Go
    programs, the filter, nginx's scripts and the sidecar, and proves what they do alone
    and together, flaws included.

    ** Files, in the order in which they build

    - [Prelude]: results, panics and effects, machine integers, decimal texts,
      tactics and hints shared by all files.
    - [GoNet], [GoFloat], [GoText], [Json]: what the code uses of Go's standard
      library: [net.ParseIP] and byte orders; IEEE floats, [time.Duration];
      [strconv] and [strings]; the values given to [json.Marshal].
    - [FloatOrder]: the order of floats and the bounds of rounded sums and products.
    - [GoJson], [GoPrint], [GoStruct]: encoding/json as a reader.  The scanner and the
      values it delivers; texts that are read back; storing an object in a struct.
    - [Redis]: internal/redis/client.go.  [tokenBucketScript] is the Lua script,
      [Decrement] the client's call, over the class [RedisCmds] of the server's
      commands with the laws [RedisLaws]; the server may evict keys between two scripts
      ([redis_evict], redis.conf's volatile-lru); [MemRedis] is an instance.
    - [SlidingWindow]: redis/lua-scripts/*.lua, over the class [SortedSets], evictions
      included; [MemSets].
    - [TokenBucket]: the abstract bucket ([take], [expire]), the script's
      refinement of it, and theorems on traces of calls of many clients with time
      passing, evictions, lost replies and failures ([run_trace]).
    - [Config]: internal/config/config.go.  [Load] over the environment.
    - [Ml]: proto/*.pb.go and internal/ml/client.go.  Nil-safe getters, [New],
      [Score], [Close] over the class [Grpc].
    - [Sidecar]: ml-sidecar/*.py.  The sequences of the LSTM in Redis, the isolation
      forests, the weighted score, the servicer, over the classes [PyRedis], [Codecs],
      [Numpy], [Sklearn] and [Onnx]; the module [MemPy] has instances.
    - [Parallel]: the sidecar's requests as threads that interleave at Redis ([turn]).
    - [Wire]: the JSON form of a feature vector: struct tags, [Unmarshal], payloads.
    - [Kafka]: internal/kafka/producer.go, over the class [KafkaCluster].
    - [Engine]: internal/engine/*.go.  [Evaluate] over classes for the engine's
      collaborators; a [World] is the outside state plus the goroutines spawned and
      not yet run.  [policy] is the specification; [Evaluate] refines it.
    - [Http]: replies of HTTP handlers as values.
    - [BpfMap]: the kernel's map as the class [BpfMap] with laws [BpfMapLaws];
      [LruMap] is an instance.
    - [Blocklist]: cmd/ebpf/blocklist.go.
    - [Kernel]: ebpf/tc_blocker.c, on the bytes of a packet; the XDP placeholder.
    - [Loader]: the HTTP handlers of ebpf/loader/main.go and their JSON bodies.
    - [Filter]: what the loader and the engine write and what the filter makes of
      it, put together.
    - [Attach]: loadAndAttach and the start of main in ebpf/loader/main.go, over
      the class [BpfOs] with laws [BpfLaws]; [MemOs] is an instance.
    - [Restart]: whole runs of the loader, one after the other on a machine whose maps
      keep their content.
    - [Server]: cmd/server/main.go.  Lines, answers, a turn of [handleConn]'s loop, the
      accept loop, the HTTP routes.
    - [Deadline]: [handleConn] with its clock: segments of bytes that arrive over time,
      the incremental scanner, reads and writes that fail after 200 ms.
    - [Counter]: nginx/lua/counter.lua over the class [SharedDict] of OpenResty's
      dictionary; requests and pauses as a sequence ([happen]); [MemDict].
    - [Fingerprint]: nginx/lua/fingerprint.lua and access.lua: [build_vector],
      [query_engine], [evaluate] over the classes [Cosocket], [Ngx] and [Cjson].
    - [Events]: the goroutines spawned by decisions, run in any order, and the
      messages in Kafka afterwards.
    - [Retrain]: ml-sidecar/training/retrain.py over Python's dynamic values ([pyval])
      and the classes [KafkaReader], [PyJson], [Disk]; the engine's events as it reads
      them; [MemJob] has instances.
    - [System]: the implementations behind the engine's classes, the wiring of
      [main], and the requests in flight as a labelled transition system ([step],
      [steps]) in which the goroutines' calls interleave with time and evictions.
    - [Scoring]: the engine with the sidecar behind its client: [call] is an instance of
      [Grpc] that runs the servicer, with calls that are lost.
    - [Nginx]: the scripts with the engine behind their socket ([front]): connections
      kept for reuse, the engine's 200 ms, nginx's 50 ms.
    - [Timed]: a burst on the socket, and nginx's requests with pauses between them, both
      with lags in their calls and evictions at Redis ([timed_visits]); the clocks of
      Redis, the engine and nginx run together.
    - [Shutdown]: the life of that process: publishing goroutines, a network that comes
      and goes, the signal, the two seconds of draining, [main]'s deferred calls, fatal
      exits ([life_step], [lives]).

    ** How state and effects are represented

    Code that changes state takes and returns it.  [io S A] can fail with an error,
    [go S A] can panic; both keep the effects made before.  A nil pointer is
    [None].  Integers are [Z] with the wrap-around of their width written out
    where the code's values can reach it; floats are [SpecFloat] values with the
    rounding of binary32 and binary64; the result of an out-of-range conversion of
    a float to an integer, which Go leaves open, is the parameter [oob].  Logging
    is left out.

    ** What the theorems show

    - Token bucket: the script refines the abstract bucket; the exact replies over
      any trace, counted anew when the bucket is evicted; at most [bucketSize] grants
      per eviction and one between two silences longer than the TTL, also when the
      network makes the script run more than once; refill after such a silence;
      isolation of addresses; what an invalid TTL does.  A finding: the TTL is renewed
      by every call, so it is a time of silence, not a window.
    - Sliding window: the stand-alone script answers like a log of accepted requests that
      is never pruned but begun anew when the set is evicted, and accepts at most the
      maximum in any window without an eviction; calls within one microsecond count as
      one.
    - Engine: [Evaluate] implements [policy] with exactly the promised effects; it
      fails open; decisions are monotone in the score; the back-off under the
      default thresholds lies between 72 and 102 s and grows with the score.
    - System: [Evaluate] is the run of one flight of the transition system; the limit
      holds for any interleaving of requests, times and evictions; a failed dial of the
      sidecar makes the first request panic.
    - Server: answers are one line each and tell decisions apart; the accept loop
      survives errors.
    - Wire: which objects are accepted and what each field then holds; integers and
      rates are stored exactly or their line is refused.
    - Deadline: the lines handled are those of the bytes read in time, however they
      arrive; nothing later is read; vectors sent as JSON objects reach the engine
      unchanged and in order; a slow engine evaluates all requests of a burst, and the
      client reads exactly the answers of the first 200 ms; the loop ends on any input,
      at a time bounded by that of the evaluations.
    - Shutdown: what becomes of each decision's event, if the cluster accepts every
      write; the order of the clean-up; the HTTP server's timeouts exceed the two
      seconds for which [main] waits ([shutdown_cut_off]).
    - Sidecar: scores lie between 0 and 1, at most 0.8 without an LSTM; sequences stay
      within 20 rows; the LSTM sees the request it scores.  With the engine: such a score
      never blocks, so that blocks mean exhausted buckets.  In parallel: the sequences
      stay bounded and each subnet's own, and vectors can be lost.
    - Retraining: a client with 20 vectors gets its own forest, the old baseline is not
      lost; but the engine's events lack what the job looks for, so it never trains.
    - nginx: rates never exceed the requests of the last seconds, and fall short of them
      since the windows do not slide; requests are refused on the engine's word only;
      the engine's decision is the status if it comes in time.  With engine, Redis and
      sidecar, over time: of the answers that are there in time, those to the first
      [bucketSize] requests of an address since its bucket was evicted last are never 403
      and all later ones are; the other requests go on.  The same on the engine's socket
      for a burst.
    - Configuration: round trips of lists and numbers, up to the arguments of the
      script; defaults; what odd thresholds do.
    - Publishing: which events are written where, and which are dropped; every
      decision is published once, in whatever order the goroutines run.
    - Kernel filter: no access past the packet, and exactly the frames it drops.
    - Loader: conversions, bodies and handlers round trip; every request is answered.
    - Filter, Attach and Restart: a block reaches the filter on big-endian hosts only;
      it outlives its TTL; the engine's own blocks never reach it; a restart of the
      loader detaches the API from the filter, after which no packet is dropped;
      errors keep the old filter.

    ** Bounds and fuel

    [Server.scan_lines] takes fuel, one more than the length of its input, which is
    enough ([scan_lines_fuel]: more changes nothing; each token takes a byte).
    [GoJson.parse_value] takes [enough] fuel, twice the length of the text and two:
    it never runs out ([parse_value_total]) and more changes nothing
    ([parse_value_fuel]).  [Deadline.serve] takes a turn per segment and per byte
    ([serve_more]).  nginx's requests come one at a time, and lua-cjson writes whole
    numbers of up to 14 digits as they are, which is asked of a request in [sendable].  The
    parsers of [GoNet] are structural or run on the length of the text.  Nesting of
    JSON stops at encoding/json's 10000 levels.  Bucket sizes are assumed within 2^53
    (the numbers of Lua), TTLs within the seconds of a [time.Duration] ([max_ttl]);
    the timestamps given to the sliding window are whole numbers of [1/u] seconds, for any
    positive [u].

    ** Parameters and what is not modelled

    Redis, Kafka, gRPC, the BPF and netlink libraries and the kernel's map are
    classes; their laws state documented behaviour, and each class used with laws
    has an instance that satisfies them.  The Redis of the engine is one primary: it may
    evict keys that have an expiry between two scripts, as redis.conf has it, but a
    failover to a replica that lacks the last writes is not modelled; that of the sidecar
    keeps its keys during a request.  Time in [Deadline] is the class [Timer] with
    the laws of a clock.  MD5,
    [tonumber] of texts other than digits, the name of a Lua table, and Python's [float]
    of a text and [repr] of a float are parameters.  What gin makes of a request
    ([ShouldBindJSON], path parameters), the texts of encoding/json's errors and the
    printed form of a time are parameters.  Not modelled: the logs; gin's routing and
    the Prometheus handler; the read, write and idle timeouts of the HTTP server beyond
    their values; a failure of the loader's HTTP server; a Kafka write that is under way
    when the process ends (a goroutine publishes in one step); the generated reflection
    code of the protobuf files; of the sidecar, the start-up of its asyncio servers, the
    health endpoint, the reading of lstm.onnx, the expiry of its keys in Redis (after an
    hour or a week) and their eviction, and the clock arithmetic of the retraining job's cutoff, which is an
    argument of [retrain_main]; nginx's metrics.lua, a placeholder; the cluster's shell
    script; deployment files.  These are calls into libraries, text or configuration. *)

From stdpp Require Export base tactics numbers list strings gmap pretty.
From Stdlib Require Export ZArith Lia Ascii.

#[global] Open Scope Z_scope.

Declare Scope go_scope.
Delimit Scope go_scope with go.

(** ** Go errors, results and panics *)

(** A Go [error] is carried by the text its [Error()] method returns: the code
    only ever wraps, logs or returns it. *)
Abbreviation error := string.

(** The pair [(T, error)] of a Go function that sets exactly one of the two. *)
Inductive result (A : Type) : Type :=
| Ok (a : A)
| Err (e : error).
Arguments Ok {A} a.
Arguments Err {A} e.

#[export] Instance result_ret : MRet result := fun A a => Ok a.
#[export] Instance result_bind : MBind result := fun A B f r =>
  match r with Ok a => f a | Err e => Err e end.
#[export] Instance result_fmap : FMap result := fun A B f r =>
  match r with Ok a => Ok (f a) | Err e => Err e end.

(** [fmt.Errorf("...: %w", err)] *)
Definition wrap_err {A} (prefix : string) (r : result A) : result A :=
  match r with Ok a => Ok a | Err e => Err (prefix +:+ ": " +:+ e) end.

Definition is_ok {A} (r : result A) : bool :=
  match r with Ok _ => true | Err _ => false end.

(** How a Go call ends: it returns, or it panics (and, with no [recover] in
    the program, takes the whole process down). *)
Inductive outcome (A : Type) : Type :=
| Returns (a : A)
| Panics (msg : string).
Arguments Returns {A} a.
Arguments Panics {A} msg.

(** Stateful Go code that can panic: the state reached before the panic is
    kept, because what the call already did to the outside world stays done. *)
Definition go (S A : Type) : Type := S -> outcome A * S.

#[export] Instance go_ret S : MRet (go S) := fun A a s => (Returns a, s).
#[export] Instance go_bind S : MBind (go S) := fun A B f m s =>
  match m s with
  | (Returns a, s') => f a s'
  | (Panics e, s') => (Panics e, s')
  end.

Definition go_panic {S A} (msg : string) : go S A := fun s => (Panics msg, s).

(** Run a state transformer that cannot panic. *)
Definition go_lift {S A} (f : S -> A * S) : go S A := fun s =>
  let (a, s') := f s in (Returns a, s').

Definition go_modify {S} (f : S -> S) : go S unit := fun s => (Returns tt, f s).
Definition go_gets {S A} (f : S -> A) : go S A := fun s => (Returns (f s), s).

(** ** Machine integers *)

Definition int64_min : Z := - 2 ^ 63.
Definition int64_max : Z := 2 ^ 63 - 1.

(** Wrap-around of signed and unsigned 64-bit, and unsigned 32-bit and 8-bit
    arithmetic. *)
Definition int64 (z : Z) : Z := (z + 2 ^ 63) mod 2 ^ 64 - 2 ^ 63.
Definition uint64 (z : Z) : Z := z mod 2 ^ 64.
Definition uint32 (z : Z) : Z := z mod 2 ^ 32.
Definition uint8 (z : Z) : Z := z mod 2 ^ 8.

Definition is_int64 (z : Z) : bool := (int64_min <=? z) && (z <=? int64_max).
Definition is_byte (z : Z) : bool := (0 <=? z) && (z <? 256).

Create HintDb rl discriminated.
Create Rewrite HintDb rl.

(** The development's tactics: [case_all] splits the innermost [match] or [if]
    of the goal or a hypothesis and cleans up, [go_unfold] runs the monads. *)
Ltac case_all :=
  repeat (first [ case_match | progress simplify_eq/= ]).

(** Linear arithmetic with division and remainder. *)
Ltac divlia := Z.div_mod_to_equations; lia.

Ltac go_unfold :=
  unfold mbind, mret, fmap, go_bind, go_ret, go_lift, go_modify, go_gets,
    go_panic, result_bind, result_ret, result_fmap in *; simpl in *.

Lemma int64_id z : int64_min <= z <= int64_max -> int64 z = z.
Proof. unfold int64, int64_min, int64_max. intros. rewrite Z.mod_small; lia. Qed.

Lemma int64_range z : int64_min <= int64 z <= int64_max.
Proof.
  unfold int64, int64_min, int64_max.
  pose proof (Z.mod_pos_bound (z + 2 ^ 63) (2 ^ 64)). lia.
Qed.

Lemma uint64_id z : 0 <= z < 2 ^ 64 -> uint64 z = z.
Proof. apply Z.mod_small. Qed.

Lemma uint64_range z : 0 <= uint64 z < 2 ^ 64.
Proof. apply Z.mod_pos_bound. lia. Qed.

(** The two views of one 64-bit pattern. *)
Lemma int64_uint64 z : int64 (uint64 z) = int64 z.
Proof. unfold int64, uint64. rewrite Zplus_mod_idemp_l. done. Qed.

Lemma is_int64_spec z : is_int64 z = true <-> int64_min <= z <= int64_max.
Proof. unfold is_int64. rewrite andb_true_iff, !Z.leb_le. done. Qed.

Lemma is_byte_spec z : is_byte z = true <-> 0 <= z < 256.
Proof. unfold is_byte. rewrite andb_true_iff, Z.leb_le, Z.ltb_lt. done. Qed.

#[export] Hint Resolve int64_range uint64_range : rl.
#[export] Hint Rewrite int64_uint64 : rl.

(** Case analysis over all byte values. *)
Definition all_bytes : list Z := Eval vm_compute in seqZ 0 256.

Lemma byte_cases (P : Z -> Prop) :
  Forall P all_bytes -> forall v, 0 <= v < 256 -> P v.
Proof.
  intros H v Hv. rewrite Forall_forall in H. apply H.
  change all_bytes with (seqZ 0 256). apply elem_of_seqZ. lia.
Qed.

(** Bit operations on disjoint fields are additions. *)
Lemma lor_shiftl_add a b n :
  0 <= n -> 0 <= a < 2 ^ n -> Z.lor a (Z.shiftl b n) = a + b * 2 ^ n.
Proof.
  intros Hn Ha. rewrite Z.shiftl_mul_pow2 by done.
  symmetry. rewrite <- Z.add_lor_land.
  assert (Z.land a (b * 2 ^ n) = 0) as ->; [|lia].
  apply Z.bits_inj'. intros i Hi. rewrite Z.land_spec, Z.bits_0.
  destruct (Z.lt_ge_cases i n) as [Hlt|Hge].
  - rewrite Z.mul_pow2_bits_low by lia. apply andb_false_r.
  - destruct (Z.eq_dec a 0) as [->|Hne]; [by rewrite Z.bits_0|].
    rewrite (Z.bits_above_log2 a i); [done|lia|].
    apply Z.log2_lt_pow2; [lia|]. apply Z.lt_le_trans with (2 ^ n); [lia|].
    apply Z.pow_le_mono_r; lia.
Qed.

(** ** Strings as byte sequences *)

Lemma append_cons c (s t : string) : String c s +:+ t = String c (s +:+ t).
Proof. done. Qed.

Lemma append_assoc (s t u : string) : (s +:+ t) +:+ u = s +:+ (t +:+ u).
Proof. induction s as [|c s IH]; [done|]. by rewrite !append_cons, IH. Qed.

Lemma append_empty_r (s : string) : s +:+ "" = s.
Proof. induction s as [|c s IH]; [done|]. by rewrite append_cons, IH. Qed.

Lemma append_inj_l (s t u : string) : s +:+ t = s +:+ u -> t = u.
Proof. apply (inj (String.append s)). Qed.

Lemma append_length (s t : string) :
  String.length (s +:+ t) = (String.length s + String.length t)%nat.
Proof.
  induction s as [|c s IH]; [done|]. rewrite append_cons. cbn. by rewrite IH.
Qed.

Lemma append_inj_r (s t u : string) : s +:+ u = t +:+ u -> s = t.
Proof.
  revert t. induction s as [|c s IH]; intros [|d t] H; [done|..];
    rewrite ?append_cons in H.
  1,2: apply (f_equal String.length) in H; cbn in H;
    rewrite !append_length in H; cbn in H; lia.
  injection H as -> H. f_equal. auto.
Qed.

#[export] Hint Rewrite append_assoc append_cons append_empty_r : rl.

(** The decimal digits of a character, and the value of a digit string. *)
Definition digit_val (c : Ascii.ascii) : option Z :=
  let n := Z.of_nat (Ascii.nat_of_ascii c) in
  if (48 <=? n) && (n <=? 57) then Some (n - 48) else None.

Fixpoint digits_val (acc : Z) (s : string) : option Z :=
  match s with
  | EmptyString => Some acc
  | String c s =>
      match digit_val c with
      | Some d => digits_val (acc * 10 + d) s
      | None => None
      end
  end.

Lemma digit_val_pretty n : (n < 10)%N ->
  digit_val (pretty_N_char n) = Some (Z.of_N n).
Proof.
  intros H. destruct n as [|p]; [done|].
  do 4 (destruct p as [p|p|]; try done); lia.
Qed.

Lemma digits_val_pretty_go x s :
  digits_val 0 (pretty_N_go x s) = digits_val (Z.of_N x) s.
Proof.
  revert s. induction (N.lt_wf_0 x) as [x _ IH]; intros s.
  destruct (decide (0 < x)%N) as [Hx|Hx].
  - rewrite pretty_N_go_step by done. rewrite IH.
    2:{ apply N.div_lt; lia. }
    cbn [digits_val]. rewrite digit_val_pretty by (apply N.mod_lt; lia).
    f_equal. rewrite (N.div_mod' x 10) at 3. lia.
  - assert (x = 0%N) as -> by lia. by rewrite pretty_N_go_0.
Qed.

Lemma digits_val_pretty (x : N) : digits_val 0 (pretty x) = Some (Z.of_N x).
Proof.
  unfold pretty, pretty_N. case_decide as H; [by subst|].
  apply digits_val_pretty_go.
Qed.

Lemma pretty_N_go_app x s : pretty_N_go x s = pretty_N_go x "" +:+ s.
Proof.
  revert s. induction (N.lt_wf_0 x) as [x _ IH]; intros s.
  destruct (decide (0 < x)%N) as [Hx|Hx].
  - rewrite !(pretty_N_go_step x) by done.
    assert (x `div` 10 < x)%N as Hlt by (apply N.div_lt; lia).
    rewrite (IH _ Hlt), (IH _ Hlt (String _ "")).
    by rewrite append_assoc.
  - assert (x = 0%N) as -> by lia. by rewrite !pretty_N_go_0.
Qed.

(** Appending a digit to the decimal form of a positive number. *)
Lemma pretty_snoc (v d : N) :
  (0 < v)%N -> (d < 10)%N ->
  pretty (v * 10 + d)%N = pretty v +:+ String (pretty_N_char d) "".
Proof.
  intros Hv Hd. unfold pretty, pretty_N. rewrite !decide_False by lia.
  rewrite pretty_N_go_step by lia.
  replace ((v * 10 + d) `div` 10)%N with v by (apply (N.div_unique _ 10 v d); lia).
  replace ((v * 10 + d) `mod` 10)%N with d by (apply (N.mod_unique _ 10 v d); lia).
  apply pretty_N_go_app.
Qed.

(** The one-character decimal forms. *)
Lemma digit_val_Some c d :
  digit_val c = Some d ->
  0 <= d < 10 /\ c = pretty_N_char (Z.to_N d) /\ pretty d = String c "".
Proof.
  destruct c as [[] [] [] [] [] [] [] []]; vm_compute; intros H; try discriminate;
    injection H as <-; repeat split; discriminate.
Qed.

(** Stateful code that can fail: the effects before the failure are kept. *)
Definition io (S A : Type) : Type := S -> result A * S.

#[export] Instance io_ret S : MRet (io S) := fun A a s => (Ok a, s).
#[export] Instance io_bind S : MBind (io S) := fun A B f m s =>
  match m s with
  | (Ok a, s') => f a s'
  | (Err e, s') => (Err e, s')
  end.

Definition io_err {S A} (e : error) : io S A := fun s => (Err e, s).

Lemma io_bind_ok {S A B} (m : io S A) (f : A -> io S B) s a s' :
  m s = (Ok a, s') -> (m ≫= f) s = f a s'.
Proof. intros H. unfold mbind, io_bind. by rewrite H. Qed.

Lemma io_bind_err {S A B} (m : io S A) (f : A -> io S B) s e s' :
  m s = (Err e, s') -> (m ≫= f) s = (Err e, s').
Proof. intros H. unfold mbind, io_bind. by rewrite H. Qed.

(** The decimal text of an integer, read back. *)
Definition parse_decimal (s : string) : option Z :=
  match s with
  | EmptyString => None
  | String c s' =>
      if Ascii.eqb c "-" then
        match s' with EmptyString => None | _ => Z.opp <$> digits_val 0 s' end
      else digits_val 0 s
  end.

Lemma pretty_pos_cons p : exists c t, pretty (Npos p) = String c t /\ Ascii.eqb c "-" = false.
Proof.
  destruct (pretty (Npos p)) as [|c t] eqn:E.
  - exfalso. apply (f_equal (digits_val 0)) in E.
    rewrite digits_val_pretty in E. discriminate.
  - exists c, t. split; [done|]. destruct (Ascii.eqb_spec c "-") as [->|]; [|done].
    exfalso. apply (f_equal (digits_val 0)) in E.
    rewrite digits_val_pretty in E. discriminate.
Qed.

Lemma parse_decimal_pretty z : parse_decimal (pretty z) = Some z.
Proof.
  destruct z as [|p|p]; [done|..].
  - change (pretty (Zpos p)) with (pretty (Npos p)).
    destruct (pretty_pos_cons p) as (c & t & E & Hc).
    pose proof (digits_val_pretty (Npos p)) as H. rewrite E in *.
    unfold parse_decimal. rewrite Hc. exact H.
  - change (pretty (Zneg p)) with ("-" +:+ pretty (Npos p)).
    destruct (pretty_pos_cons p) as (c & t & E & _).
    pose proof (digits_val_pretty (Npos p)) as H. rewrite E in *.
    change ("-" +:+ String c t) with (String "-" (String c t)).
    unfold parse_decimal. change (Ascii.eqb "-" "-") with true. cbv iota.
    by rewrite H.
Qed.
#[export] Hint Rewrite parse_decimal_pretty : rl.

(** [strconv.Quote] ([%q]) on ASCII text; bytes from 128 on are copied. *)
Definition hex_digit (n : nat) : Ascii.ascii :=
  Ascii.ascii_of_nat (if (n <? 10)%nat then 48 + n else 87 + n)%nat.

Definition quote_char (c : Ascii.ascii) : string :=
  let n := Ascii.nat_of_ascii c in
  let esc (l : Ascii.ascii) := String "092" (String l "") in
  if (n =? 34)%nat then esc "034"%char
  else if (n =? 92)%nat then esc "092"%char
  else if (n =? 7)%nat then esc "a"%char
  else if (n =? 8)%nat then esc "b"%char
  else if (n =? 12)%nat then esc "f"%char
  else if (n =? 10)%nat then esc "n"%char
  else if (n =? 13)%nat then esc "r"%char
  else if (n =? 9)%nat then esc "t"%char
  else if (n =? 11)%nat then esc "v"%char
  else if (n <? 32)%nat || (n =? 127)%nat
  then esc "x"%char +:+ String (hex_digit (n / 16)) (String (hex_digit (n mod 16)) "")
  else String c "".

Fixpoint quote_body (s : string) : string :=
  match s with
  | EmptyString => EmptyString
  | String c s => quote_char c +:+ quote_body s
  end.

Definition go_quote (s : string) : string :=
  String "034" (quote_body s +:+ String "034" "").

Lemma prefix_app p s : String.prefix p s = true -> exists t, s = p +:+ t.
Proof.
  revert s. induction p as [|c p IH]; intros s H; [by exists s|].
  destruct s as [|d s]; [discriminate|]. cbn in H.
  destruct (Ascii.ascii_dec c d) as [->|]; [|discriminate].
  destruct (IH _ H) as [t ->]. by exists t.
Qed.
