(* ===== verification/GoNet.v ===== *)
(** * Go's [net], [net/netip] and [encoding/binary], as far as the program uses them

    [ParseIP] is Go 1.22's [net.ParseIP]: [netip.ParseAddr] without a zone,
    widened to 16 bytes.  [To4] and [IP_String] are the methods of [net.IP].
    Bytes are [Z] values in [0, 256).  The lemmas give the print/parse round
    trip of dotted-decimal addresses, in both directions. *)

From S2P Require Import Prelude.

Definition dot : Ascii.ascii := "."%char.
Definition colon : Ascii.ascii := ":"%char.
Definition percent : Ascii.ascii := "%"%char.

(** ** netip.parseIPv4 *)

(** The loop of [parseIPv4]: [prev] is [s[i-1]] ([None] at [i = 0]), [val],
    [digLen] describe the octet being read, [fields] the [pos] octets read. *)
Fixpoint parseIPv4_loop (prev : option Ascii.ascii) (val : Z) (digLen : nat)
    (fields : list Z) (s : string) : option (list Z) :=
  match s with
  | EmptyString =>
      if (length fields <? 3)%nat then None else Some (fields ++ [uint8 val])
  | String c s' =>
      match digit_val c with
      | Some d =>
          if (digLen =? 1)%nat && (val =? 0) then None
          else
            let val := val * 10 + d in
            if val >? 255 then None
            else parseIPv4_loop (Some c) val (S digLen) fields s'
      | None =>
          if Ascii.eqb c dot then
            if match prev with None => true | Some p => Ascii.eqb p dot end
               || (match s' with EmptyString => true | _ => false end)
            then None
            else if (length fields =? 3)%nat then None
            else parseIPv4_loop (Some c) 0 0 (fields ++ [uint8 val]) s'
          else None
      end
  end.

Definition parseIPv4 (s : string) : option (list Z) :=
  parseIPv4_loop None 0 0 [] s.

(** ** netip.parseIPv6 *)

Definition hex_val (c : Ascii.ascii) : option Z :=
  let n := Z.of_nat (Ascii.nat_of_ascii c) in
  if (48 <=? n) && (n <=? 57) then Some (n - 48)
  else if (97 <=? n) && (n <=? 102) then Some (n - 97 + 10)
  else if (65 <=? n) && (n <=? 70) then Some (n - 65 + 10)
  else None.

(** One group of hex digits: how many, their value, and the rest; [None] for
    a fifth digit. *)
Fixpoint hex_group (off : nat) (acc : Z) (s : string) : option (nat * Z * string) :=
  match s with
  | EmptyString => Some (off, acc, s)
  | String c s' =>
      match hex_val c with
      | Some d =>
          if (3 <? off)%nat then None
          else hex_group (S off) (acc * 16 + d) s'
      | None => Some (off, acc, s)
      end
  end.

(** The loop [for i < 16]; [ip] holds the [i] bytes read so far, [n] bounds the
    iterations (each of them reads at least two bytes, so 8 are enough). *)
Fixpoint parseIPv6_loop (n : nat) (ellipsis : option nat) (ip : list Z)
    (s : string) : option (string * option nat * list Z) :=
  match n with
  | O => Some (s, ellipsis, ip)
  | S n =>
      if (16 <=? length ip)%nat then Some (s, ellipsis, ip) else
      match hex_group 0 0 s with
      | None | Some (O, _, _) => None
      | Some (_, acc, rest) =>
          match rest with
          | String c rest' =>
              if Ascii.eqb c dot then
                if (match ellipsis with None => true | Some _ => false end)
                   && negb (length ip =? 12)%nat then None
                else if (16 <? length ip + 4)%nat then None
                else match parseIPv4 s with
                     | None => None
                     | Some ip4 => Some (EmptyString, ellipsis, ip ++ ip4)
                     end
              else
                let ip := ip ++ [uint8 (Z.shiftr acc 8); uint8 acc] in
                if negb (Ascii.eqb c colon) then None
                else match rest' with
                     | EmptyString => None
                     | String c' rest'' =>
                         if Ascii.eqb c' colon then
                           match ellipsis with
                           | Some _ => None
                           | None =>
                               match rest'' with
                               | EmptyString => Some (rest'', Some (length ip), ip)
                               | _ => parseIPv6_loop n (Some (length ip)) ip rest''
                               end
                           end
                         else parseIPv6_loop n ellipsis ip rest'
                     end
          | EmptyString =>
              Some (EmptyString, ellipsis, ip ++ [uint8 (Z.shiftr acc 8); uint8 acc])
          end
      end
  end.

Definition expand_ellipsis (e : nat) (ip : list Z) : list Z :=
  take e ip ++ replicate (16 - length ip) 0 ++ drop e ip.

(** A string with a [%] has a zone (or an empty one): [ParseIP] refuses both. *)
Fixpoint has_char (c : Ascii.ascii) (s : string) : bool :=
  match s with
  | EmptyString => false
  | String d s => Ascii.eqb d c || has_char c s
  end.

Definition parseIPv6 (s : string) : option (list Z) :=
  if has_char percent s then None else
  let run ellipsis s :=
    match parseIPv6_loop 8 ellipsis [] s with
    | Some (EmptyString, e, ip) =>
        if (length ip <? 16)%nat
        then match e with Some e => Some (expand_ellipsis e ip) | None => None end
        else match e with Some _ => None | None => Some ip end
    | _ => None
    end in
  match s with
  | String c (String c' s') =>
      if Ascii.eqb c colon && Ascii.eqb c' colon then
        match s' with
        | EmptyString => Some (replicate 16 0)
        | _ => run (Some 0%nat) s'
        end
      else run None s
  | _ => run None s
  end.

(** ** net.IP *)

Definition v4InV6Prefix : list Z := replicate 10 0 ++ [255; 255].

(** The first of ['.'], [':'] and ['%'] decides how the address is read. *)
Inductive addr_kind := KindV4 | KindV6 | KindNone.

Fixpoint addr_kind_of (s : string) : addr_kind :=
  match s with
  | EmptyString => KindNone
  | String c s =>
      if Ascii.eqb c dot then KindV4
      else if Ascii.eqb c colon then KindV6
      else if Ascii.eqb c percent then KindNone
      else addr_kind_of s
  end.

(** [net.ParseIP]: 16 bytes, or [nil]. *)
Definition ParseIP (s : string) : option (list Z) :=
  match addr_kind_of s with
  | KindV4 => ip4 ← parseIPv4 s; Some (v4InV6Prefix ++ ip4)
  | KindV6 => parseIPv6 s
  | KindNone => None
  end.

Definition To4 (ip : list Z) : option (list Z) :=
  if (length ip =? 4)%nat then Some ip
  else if (length ip =? 16)%nat && bool_decide (take 12 ip = v4InV6Prefix)
  then Some (drop 12 ip)
  else None.

(** [net.IP.String] of a 4-byte address. *)
Definition dotted (a b c d : Z) : string :=
  pretty a +:+ "." +:+ pretty b +:+ "." +:+ pretty c +:+ "." +:+ pretty d.

(** ** encoding/binary.BigEndian, and the host's byte order *)

Definition BigEndian_Uint32 (b : list Z) : Z :=
  match b with
  | [b0; b1; b2; b3] =>
      Z.lor (Z.lor (Z.lor b3 (Z.shiftl b2 8)) (Z.shiftl b1 16)) (Z.shiftl b0 24)
  | _ => 0
  end.

Definition BigEndian_PutUint32 (v : Z) : list Z :=
  [uint8 (Z.shiftr v 24); uint8 (Z.shiftr v 16); uint8 (Z.shiftr v 8); uint8 v].

(** The [n] low bytes of [v], least significant first. *)
Fixpoint le_bytes (n : nat) (v : Z) : list Z :=
  match n with
  | O => []
  | S n => uint8 v :: le_bytes n (Z.shiftr v 8)
  end.

Fixpoint le_value (b : list Z) : Z :=
  match b with
  | [] => 0
  | x :: b => x + 256 * le_value b
  end.

Inductive endianness := LittleEndian | BigEndian.
#[export] Instance endianness_eq_dec : EqDecision endianness.
Proof. solve_decision. Defined.

(** How a host of the given byte order lays out an [n]-byte unsigned integer. *)
Definition native_bytes (e : endianness) (n : nat) (v : Z) : list Z :=
  match e with LittleEndian => le_bytes n v | BigEndian => reverse (le_bytes n v) end.

Definition native_value (e : endianness) (b : list Z) : Z :=
  match e with LittleEndian => le_value b | BigEndian => le_value (reverse b) end.

(** ** Lemmas: bytes *)

Definition bytes (b : list Z) : Prop := Forall (fun x => 0 <= x < 256) b.

(** Closes [bytes] goals on explicit lists. *)
Ltac bytes_literal := unfold bytes; repeat (apply Forall_cons_2; [lia|]); apply Forall_nil_2.

Lemma uint8_range v : 0 <= uint8 v < 256.
Proof. apply (Z.mod_pos_bound v (2 ^ 8)). lia. Qed.

Lemma uint8_id v : 0 <= v < 256 -> uint8 v = v.
Proof. apply Z.mod_small. Qed.
#[export] Hint Resolve uint8_range : rl.

Lemma length_le_bytes n v : length (le_bytes n v) = n.
Proof. revert v. induction n as [|n IH]; intros v; cbn; [done|by rewrite IH]. Qed.

Lemma length_native_bytes e n v : length (native_bytes e n v) = n.
Proof.
  unfold native_bytes. destruct e; rewrite ?length_reverse; apply length_le_bytes.
Qed.

Lemma le_bytes_bytes n v : bytes (le_bytes n v).
Proof.
  revert v. induction n as [|n IH]; intros v; constructor; [auto with rl|apply IH].
Qed.

Lemma le_value_bytes n v :
  0 <= v < 2 ^ (8 * Z.of_nat n) -> le_value (le_bytes n v) = v.
Proof.
  revert v. induction n as [|n IH]; intros v Hv.
  - cbn in *. lia.
  - cbn [le_bytes le_value]. rewrite Z.shiftr_div_pow2 by lia.
    rewrite IH.
    + unfold uint8. change (2 ^ 8) with 256. pose proof (Z.div_mod v 256). lia.
    + replace (8 * Z.of_nat (S n)) with (8 * Z.of_nat n + 8) in Hv by lia.
      rewrite Z.pow_add_r in Hv by lia.
      split; [apply Z.div_pos; lia|apply Z.div_lt_upper_bound; lia].
Qed.

Lemma native_value_bytes e n v :
  0 <= v < 2 ^ (8 * Z.of_nat n) -> native_value e (native_bytes e n v) = v.
Proof.
  intros H. unfold native_value, native_bytes.
  destruct e; rewrite ?reverse_involutive; by apply le_value_bytes.
Qed.

Lemma le_bytes_value b : bytes b -> le_bytes (length b) (le_value b) = b.
Proof.
  induction 1 as [|x b Hx Hb IH]; cbn; [done|]. f_equal.
  - unfold uint8. rewrite Z.add_comm, Z.mul_comm.
    change (2 ^ 8) with 256. rewrite Z.add_comm, Z_mod_plus_full.
    by apply Z.mod_small.
  - rewrite Z.shiftr_div_pow2 by lia. change (2 ^ 8) with 256.
    rewrite Z.mul_comm, Z.div_add, (Z.div_small x), Z.add_0_l by lia. done.
Qed.

Lemma bytes4 a b c d :
  bytes [a; b; c; d] <-> 0 <= a < 256 /\ 0 <= b < 256 /\ 0 <= c < 256 /\ 0 <= d < 256.
Proof. unfold bytes. rewrite !Forall_cons, Forall_nil. tauto. Qed.

Lemma BigEndian_Uint32_sum a b c d :
  bytes [a; b; c; d] ->
  BigEndian_Uint32 [a; b; c; d] = d + c * 2 ^ 8 + b * 2 ^ 16 + a * 2 ^ 24.
Proof.
  intros (Ha & Hb & Hc & Hd)%bytes4. unfold BigEndian_Uint32.
  rewrite (lor_shiftl_add d c 8) by lia.
  rewrite (lor_shiftl_add _ b 16) by lia.
  rewrite (lor_shiftl_add _ a 24) by lia. done.
Qed.

Lemma BigEndian_Uint32_range a b c d :
  bytes [a; b; c; d] -> 0 <= BigEndian_Uint32 [a; b; c; d] < 2 ^ 32.
Proof.
  intros H. rewrite BigEndian_Uint32_sum by done.
  apply bytes4 in H. lia.
Qed.

(** [PutUint32] after [Uint32] is the identity on four bytes, and conversely. *)
Lemma BigEndian_put_get a b c d :
  bytes [a; b; c; d] -> BigEndian_PutUint32 (BigEndian_Uint32 [a; b; c; d]) = [a; b; c; d].
Proof.
  intros H. rewrite BigEndian_Uint32_sum by done.
  apply bytes4 in H.
  unfold BigEndian_PutUint32, uint8. rewrite !Z.shiftr_div_pow2 by lia.
  do 3 (f_equal; [divlia|]). f_equal. divlia.
Qed.

Lemma BigEndian_bytes v : bytes (BigEndian_PutUint32 v).
Proof. apply bytes4. auto 6 using uint8_range. Qed.

Lemma BigEndian_get_put v :
  0 <= v < 2 ^ 32 -> BigEndian_Uint32 (BigEndian_PutUint32 v) = v.
Proof.
  intros H. unfold BigEndian_PutUint32. rewrite BigEndian_Uint32_sum by apply BigEndian_bytes.
  unfold uint8. rewrite !Z.shiftr_div_pow2 by lia. divlia.
Qed.

(** A [uint32] read big-endian and laid out by the host: the same four bytes on
    a big-endian host, the reversed ones on a little-endian host. *)
Lemma native_bytes_Uint32 e a b c d :
  bytes [a; b; c; d] ->
  native_bytes e 4 (BigEndian_Uint32 [a; b; c; d]) =
    match e with LittleEndian => [d; c; b; a] | BigEndian => [a; b; c; d] end.
Proof.
  intros H.
  assert (le_bytes 4 (BigEndian_Uint32 [a; b; c; d]) = [d; c; b; a]) as E.
  { rewrite BigEndian_Uint32_sum by done.
    rewrite <- (le_bytes_value [d; c; b; a]).
    - cbn [length]. f_equal. cbn. lia.
    - apply bytes4. apply bytes4 in H. tauto. }
  destruct e; cbn [native_bytes]; by rewrite E.
Qed.

(** ** Lemmas: dotted-decimal text *)

(** Reading an octet's decimal form from the start of a field. *)
Lemma parseIPv4_octet prev v fields rest :
  0 <= v < 256 ->
  exists c n, is_Some (digit_val c) /\ Ascii.eqb c dot = false /\
    parseIPv4_loop prev 0 0 fields (pretty v +:+ rest) =
      parseIPv4_loop (Some c) v (S n) fields rest.
Proof.
  revert v. apply byte_cases.
  repeat (apply Forall_cons_2;
    [do 2 eexists; split; cycle 1;
       [split; cycle 1; reflexivity|eexists; reflexivity]|]).
  apply Forall_nil_2.
Qed.

(** Digits do not decide the kind of an address. *)
Lemma addr_kind_octet v rest :
  0 <= v < 256 -> addr_kind_of (pretty v +:+ rest) = addr_kind_of rest.
Proof.
  revert v. apply byte_cases.
  repeat (apply Forall_cons_2; [reflexivity|]). apply Forall_nil_2.
Qed.

Lemma pretty_octet_cons v : 0 <= v < 256 -> exists c t, pretty v = String c t.
Proof.
  revert v. apply byte_cases.
  repeat (apply Forall_cons_2; [do 2 eexists; reflexivity|]). apply Forall_nil_2.
Qed.

(** A whole octet with the dot after it, and the last octet. *)
Lemma parseIPv4_octet_dot prev v w fields rest :
  0 <= v < 256 -> 0 <= w < 256 -> (length fields < 3)%nat ->
  parseIPv4_loop prev 0 0 fields (pretty v +:+ "." +:+ pretty w +:+ rest) =
    parseIPv4_loop (Some dot) 0 0 (fields ++ [v]) (pretty w +:+ rest).
Proof.
  intros Hv Hw Hf.
  destruct (parseIPv4_octet prev v fields ("." +:+ pretty w +:+ rest) Hv)
    as (c & n & _ & Hc & ->).
  destruct (pretty_octet_cons w Hw) as (c' & t & ->).
  rewrite !append_cons. cbn [parseIPv4_loop String.append].
  change (digit_val ".") with (@None Z). rewrite Ascii.eqb_refl, Hc. cbn [orb].
  destruct (Nat.eqb_spec (length fields) 3) as [?|_]; [lia|].
  by rewrite uint8_id.
Qed.

Lemma parseIPv4_octet_end prev v fields :
  0 <= v < 256 -> length fields = 3%nat ->
  parseIPv4_loop prev 0 0 fields (pretty v) = Some (fields ++ [v]).
Proof.
  intros Hv Hf. rewrite <- (append_empty_r (pretty v)).
  destruct (parseIPv4_octet prev v fields "" Hv) as (c & n & _ & _ & ->).
  cbn [parseIPv4_loop]. rewrite Hf. cbn. by rewrite uint8_id.
Qed.

Theorem parseIPv4_dotted a b c d :
  bytes [a; b; c; d] -> parseIPv4 (dotted a b c d) = Some [a; b; c; d].
Proof.
  intros (Ha & Hb & Hc & Hd)%bytes4. unfold parseIPv4, dotted.
  rewrite <- (append_empty_r (pretty d)).
  rewrite !parseIPv4_octet_dot by (done || cbn; lia).
  rewrite append_empty_r. by apply parseIPv4_octet_end.
Qed.

(** Octets separated by dots. *)
Fixpoint join_dots (l : list Z) : string :=
  match l with
  | [] => ""
  | [v] => pretty v
  | v :: l => pretty v +:+ "." +:+ join_dots l
  end.

Lemma join_dots_cons v w l :
  join_dots (v :: w :: l) = pretty v +:+ "." +:+ join_dots (w :: l).
Proof. done. Qed.

(** The text of the octet being read. *)
Definition partial_octet (val : Z) (digLen : nat) : string :=
  match digLen with O => "" | S _ => pretty val end.

(** The invariant of the loop: an octet in progress is in range, a leading zero
    is its only digit, and [prev] is a digit exactly when one is in progress. *)
Definition octet_inv (prev : option Ascii.ascii) (val : Z) (digLen : nat)
    (fields : list Z) (s : string) : Prop :=
  match digLen with
  | O => val = 0 /\ match prev with None => fields = [] | Some c => c = dot /\ s <> "" end
  | S n => 0 <= val < 256 /\ (val = 0 -> n = O) /\
           match prev with None => False | Some c => Ascii.eqb c dot = false end
  end.

(** One more digit. *)
Lemma octet_inv_digit prev c d val digLen fields s s' :
  octet_inv prev val digLen fields s -> digit_val c = Some d ->
  ((digLen =? 1)%nat && (val =? 0)) = false -> (val * 10 + d >? 255) = false ->
  octet_inv (Some c) (val * 10 + d) (S digLen) fields s' /\
  partial_octet (val * 10 + d) (S digLen) = partial_octet val digLen +:+ String c "".
Proof.
  intros Hinv Hd Hz Hmax. destruct (digit_val_Some _ _ Hd) as (Hr & Hc & Hp).
  assert (Ascii.eqb c dot = false) as Hcd.
  { destruct (Ascii.eqb_spec c dot) as [->|]; [discriminate|done]. }
  destruct digLen as [|n]; cbn in Hinv |- *.
  - destruct Hinv as [-> _]. split; [|done]. split_and!; [lia..|done].
  - destruct Hinv as (Hval & Hn & _).
    assert (0 < val).
    { destruct (Z.eqb_spec val 0) as [->|]; [|lia].
      rewrite (Hn eq_refl) in Hz. discriminate. }
    split; [split_and!; [lia..|done]|].
    rewrite Hc. replace (val * 10 + d) with (Z.of_N (Z.to_N val * 10 + Z.to_N d)) by lia.
    rewrite <- (Z2N.id val) at 2 by lia.
    assert (forall n, (0 < n)%N -> pretty (Z.of_N n) = pretty n) as E by (intros []; done).
    rewrite !E by lia. apply pretty_snoc; lia.
Qed.

(** What the loop accepts is the canonical text of the octets it returns. *)
Lemma parseIPv4_loop_sound s prev val digLen fields ip :
  octet_inv prev val digLen fields s -> (length fields <= 3)%nat ->
  parseIPv4_loop prev val digLen fields s = Some ip ->
  exists v rest, ip = fields ++ v :: rest /\ bytes (v :: rest) /\
    (length fields + S (length rest) = 4)%nat /\
    partial_octet val digLen +:+ s = join_dots (v :: rest).
Proof.
  revert prev val digLen fields.
  induction s as [|c s IH]; intros prev val digLen fields Hinv Hf Hloop;
    cbn [parseIPv4_loop] in Hloop.
  - destruct (Nat.ltb_spec (length fields) 3) as [?|Hlen]; [discriminate|].
    destruct digLen as [|n]; cbn in Hinv.
    + destruct Hinv as [-> Hprev].
      destruct prev as [p|]; [by destruct Hprev|].
      subst. cbn in Hlen. lia.
    + destruct Hinv as (Hval & _ & _). injection Hloop as <-.
      rewrite uint8_id by done. exists val, []. cbn. split_and!; [done| |lia|].
      * by constructor.
      * apply append_empty_r.
  - destruct (digit_val c) as [d|] eqn:Hd.
    + destruct ((digLen =? 1)%nat && (val =? 0)) eqn:Hz; [discriminate|].
      destruct (val * 10 + d >? 255) eqn:Hmax; [discriminate|].
      destruct (octet_inv_digit prev c d val digLen fields _ s Hinv Hd Hz Hmax)
        as [Hinv' Htext].
      destruct (IH _ _ _ _ Hinv' Hf Hloop) as (v & rest & Hip & Hb & Hl & Hs).
      exists v, rest. split_and!; try done.
      rewrite <- Hs, Htext, append_assoc. done.
    + destruct (Ascii.eqb_spec c dot) as [->|_]; [|discriminate].
      destruct prev as [p|]; [|discriminate].
      destruct (Ascii.eqb p dot) eqn:Hp; [discriminate|]. cbn [orb] in Hloop.
      destruct s as [|c' s]; [discriminate|].
      destruct (Nat.eqb_spec (length fields) 3) as [?|Hne]; [discriminate|].
      destruct digLen as [|n]; cbn in Hinv.
      { destruct Hinv as [_ [-> _]]. discriminate. }
      destruct Hinv as (Hval & _ & _). rewrite uint8_id in Hloop by done.
      destruct (IH (Some dot) 0 0%nat (fields ++ [val])) as (v & rest & -> & Hb & Hl & Hs);
        [done|rewrite length_app; cbn; lia|done|].
      exists val, (v :: rest). rewrite length_app in Hl. cbn [length] in Hl |- *.
      split_and!; [by rewrite <- app_assoc|by constructor|lia|].
      cbn [partial_octet] in Hs |- *. rewrite join_dots_cons, <- Hs. done.
Qed.

(** [parseIPv4] accepts exactly the canonical dotted-decimal texts. *)
Theorem parseIPv4_Some s ip :
  parseIPv4 s = Some ip <->
  exists a b c d, ip = [a; b; c; d] /\ bytes [a; b; c; d] /\ s = dotted a b c d.
Proof.
  split.
  - unfold parseIPv4. intros H.
    destruct (parseIPv4_loop_sound s None 0 0 [] ip) as (v & rest & -> & Hb & Hl & Hs);
      [done|cbn; lia|done|].
    cbn in Hl. destruct rest as [|b [|c [|d [|]]]]; cbn in Hl; try lia.
    exists v, b, c, d. split_and!; [done|done|exact Hs].
  - intros (a & b & c & d & -> & Hb & ->). by apply parseIPv4_dotted.
Qed.

(** ** Lemmas: ParseIP and To4 *)

Lemma addr_kind_dotted a b c d :
  bytes [a; b; c; d] -> addr_kind_of (dotted a b c d) = KindV4.
Proof. intros H%bytes4. unfold dotted. by rewrite addr_kind_octet by lia. Qed.

Lemma To4_mapped a b c d : To4 (v4InV6Prefix ++ [a; b; c; d]) = Some [a; b; c; d].
Proof. done. Qed.

Lemma ParseIP_dotted a b c d :
  bytes [a; b; c; d] -> ParseIP (dotted a b c d) = Some (v4InV6Prefix ++ [a; b; c; d]).
Proof.
  intros H. unfold ParseIP. by rewrite addr_kind_dotted, parseIPv4_dotted by done.
Qed.

(** The four bytes of an address text, as both handlers compute them. *)
Definition text_to_ip4 (s : string) : option (list Z) := ip ← ParseIP s; To4 ip.

Lemma text_to_ip4_dotted a b c d :
  bytes [a; b; c; d] -> text_to_ip4 (dotted a b c d) = Some [a; b; c; d].
Proof. intros H. unfold text_to_ip4. by rewrite ParseIP_dotted. Qed.

(** What is accumulated in [parseIPv6]: whole 16-bit groups of bytes, at most
    16 of them, with the ellipsis inside. *)
Definition ip6_inv (ell : option nat) (ip : list Z) : Prop :=
  bytes ip /\ (length ip <= 16)%nat /\ Nat.Even (length ip) /\
  match ell with Some e => (e <= length ip)%nat | None => True end.

Lemma ip6_inv_snoc ell ip x y :
  ip6_inv ell ip -> (length ip < 16)%nat ->
  ip6_inv ell (ip ++ [uint8 x; uint8 y]) /\
  ip6_inv (Some (length (ip ++ [uint8 x; uint8 y]))) (ip ++ [uint8 x; uint8 y]).
Proof.
  intros (Hb & Hl & [k Hk] & He) Hlt.
  assert (bytes (ip ++ [uint8 x; uint8 y])).
  { apply Forall_app; split; [done|]. repeat constructor; apply uint8_range. }
  assert (Nat.Even (length (ip ++ [uint8 x; uint8 y]))).
  { exists (S k). rewrite length_app. cbn. lia. }
  unfold ip6_inv. rewrite !length_app in *. cbn in *.
  repeat split; try done; try lia. destruct ell; [lia|done].
Qed.

Lemma parseIPv6_loop_inv n ell ip s s' ell' ip' :
  ip6_inv ell ip -> parseIPv6_loop n ell ip s = Some (s', ell', ip') -> ip6_inv ell' ip'.
Proof.
  revert ell ip s. induction n as [|n IH]; intros ell ip s Hinv H;
    cbn [parseIPv6_loop] in H; [by simplify_eq|].
  destruct (Nat.leb_spec 16 (length ip)) as [|Hlt]; [by simplify_eq|].
  destruct (hex_group 0 0 s) as [[[[|off] acc] rest]|]; [discriminate| |discriminate].
  destruct (ip6_inv_snoc ell ip (Z.shiftr acc 8) acc Hinv Hlt) as [Hsn Hsn'].
  destruct rest as [|c rest]; [by simplify_eq|].
  destruct (Ascii.eqb c dot).
  - destruct (_ && _); [discriminate|].
    destruct (Nat.ltb_spec 16 (length ip + 4)) as [|Hroom]; [discriminate|].
    destruct (parseIPv4 s) as [ip4|] eqn:E4; [|discriminate]. simplify_eq.
    apply parseIPv4_Some in E4 as (a & b & c' & d & -> & Hb4 & _).
    destruct Hinv as (Hb & Hl & [k Hk] & He). unfold ip6_inv.
    rewrite length_app. cbn [length]. split_and!.
    + by apply Forall_app.
    + lia.
    + exists (S (S k)). lia.
    + destruct ell'; [lia|done].
  - destruct (negb _); [discriminate|]. destruct rest as [|c' rest]; [discriminate|].
    destruct (Ascii.eqb c' colon).
    + destruct ell; [discriminate|]. destruct rest; [by simplify_eq|eauto].
    + eauto.
Qed.

Lemma expand_ellipsis_bytes e ip :
  ip6_inv (Some e) ip -> bytes (expand_ellipsis e ip) /\ length (expand_ellipsis e ip) = 16%nat.
Proof.
  intros (Hb & Hl & _ & He). unfold expand_ellipsis. split.
  - repeat (apply Forall_app; split); [by apply Forall_take| |by apply Forall_drop].
    apply Forall_replicate. lia.
  - rewrite !length_app, length_take, length_replicate, length_drop. lia.
Qed.

Lemma parseIPv6_bytes s ip : parseIPv6 s = Some ip -> bytes ip /\ length ip = 16%nat.
Proof.
  assert (forall ell s ip, (ell = None \/ ell = Some 0%nat) ->
    match parseIPv6_loop 8 ell [] s with
    | Some (EmptyString, e, ip) =>
        if (length ip <? 16)%nat
        then match e with Some e => Some (expand_ellipsis e ip) | None => None end
        else match e with Some _ => None | None => Some ip end
    | _ => None
    end = Some ip -> bytes ip /\ length ip = 16%nat) as Hrun.
  { intros ell s0 ip0 Hell H.
    destruct (parseIPv6_loop 8 ell [] s0) as [[[rest e] ip1]|] eqn:E; [|discriminate].
    assert (ip6_inv e ip1) as Hinv.
    { eapply parseIPv6_loop_inv; [|exact E].
      split_and!; [constructor|cbn; lia|by exists 0%nat|].
      by destruct Hell as [-> | ->]. }
    destruct rest; [|discriminate]. destruct (Nat.ltb_spec (length ip1) 16).
    - destruct e; [|discriminate]. simplify_eq. by apply expand_ellipsis_bytes.
    - destruct e; [discriminate|]. simplify_eq.
      destruct Hinv as (Hb & Hl & _). split; [done|lia]. }
  unfold parseIPv6. destruct (has_char percent s); [discriminate|].
  destruct s as [|c [|c' s']]; [by apply Hrun; left..|].
  destruct (_ && _); [|by apply Hrun; left].
  destruct s' as [|c'' s']; [|by apply Hrun; right].
  intros [= <-]. split; [bytes_literal|done].
Qed.

(** Every address [net.ParseIP] returns is 16 bytes, and [To4] cuts four out. *)
Lemma ParseIP_bytes s ip : ParseIP s = Some ip -> bytes ip /\ length ip = 16%nat.
Proof.
  unfold ParseIP. destruct (addr_kind_of s).
  - destruct (parseIPv4 s) as [ip4|] eqn:E; [|discriminate]. intros [= <-].
    apply parseIPv4_Some in E as (a & b & c & d & -> & Hb & _).
    apply bytes4 in Hb. split; [bytes_literal|done].
  - apply parseIPv6_bytes.
  - discriminate.
Qed.

Lemma text_to_ip4_bytes s ip4 :
  text_to_ip4 s = Some ip4 -> exists a b c d, ip4 = [a; b; c; d] /\ bytes [a; b; c; d].
Proof.
  unfold text_to_ip4. destruct (ParseIP s) as [ip|] eqn:E; [|discriminate]. cbn.
  destruct (ParseIP_bytes _ _ E) as [Hb Hl]. unfold To4. rewrite Hl. cbn.
  case_bool_decide; [|discriminate]. intros [= <-].
  do 16 (destruct ip as [|? ip]; [discriminate|]). destruct ip; [|discriminate].
  do 4 eexists. split; [reflexivity|].
  by apply (Forall_drop _ 12) in Hb.
Qed.

(** A text without a colon that names an IPv4 address is its canonical form. *)
Lemma text_to_ip4_canonical s a b c d :
  text_to_ip4 s = Some [a; b; c; d] -> has_char colon s = false -> s = dotted a b c d.
Proof.
  unfold text_to_ip4, ParseIP. intros H Hc.
  destruct (addr_kind_of s) eqn:Ek.
  - destruct (parseIPv4 s) as [ip4|] eqn:E; [|discriminate].
    apply parseIPv4_Some in E as (a' & b' & c' & d' & -> & Hb & Hs).
    cbn [mbind option_bind] in H. rewrite To4_mapped in H. by simplify_eq.
  - exfalso. clear H. induction s as [|x s IH]; [discriminate|]. cbn in Ek, Hc.
    apply orb_false_iff in Hc as [Hx Hc].
    destruct (Ascii.eqb x dot); [discriminate|]. rewrite Hx in Ek.
    destruct (Ascii.eqb x percent); [discriminate|]. auto.
  - discriminate.
Qed.

Example ParseIP_examples :
  (text_to_ip4 "192.168.1.7", text_to_ip4 "::ffff:10.0.0.1", text_to_ip4 "01.2.3.4",
   text_to_ip4 "1.2.3", text_to_ip4 "256.1.1.1", text_to_ip4 "", text_to_ip4 "::1%eth0")
  = (Some [192; 168; 1; 7], Some [10; 0; 0; 1], None, None, None, None, None).
Proof. vm_compute. reflexivity. Qed.

Example ParseIP_v6_examples :
  (ParseIP "2001:db8::1", ParseIP "1:2:3:4:5:6:7:8:9", ParseIP "::", ParseIP "1::2::3",
   ParseIP "12345::", text_to_ip4 "::ffff:a00:1")
  = (Some [32; 1; 13; 184; 0; 0; 0; 0; 0; 0; 0; 0; 0; 0; 0; 1], None,
     Some (replicate 16 0), None, None, Some [10; 0; 0; 1]).
Proof. vm_compute. reflexivity. Qed.
