(* ===== verification/GoFloat.v ===== *)
(** * Go's [float32] and [float64]

    IEEE 754 binary32 and binary64, over the Standard Library's executable
    specification [SpecFloat] (one NaN, round to nearest even).  The operations
    are the ones the program uses: comparison, conversion, multiplication by a
    constant, and truncation to [int].  The lemmas show that converting an
    integer below 2^53 is exact, and that rounding is to the nearest. *)

From S2P Require Import Prelude.
From Stdlib Require Export SpecFloat.

Definition float32 : Type := spec_float.
Definition float64 : Type := spec_float.

Definition valid32 (x : float32) : bool := valid_binary 24 128 x.
Definition valid64 (x : float64) : bool := valid_binary 53 1024 x.

(** ** Conversions *)

(** [float32(x)] for a [float64] [x]. *)
Definition f64_to_f32 (x : float64) : float32 :=
  match x with
  | S754_finite s m e => binary_round 24 128 s m e
  | _ => x
  end.

(** The floating-point constants and conversions of an integer. *)
Definition f32_of_Z (z : Z) : float32 := binary_normalize 24 128 z 0 false.
Definition f64_of_Z (z : Z) : float64 := binary_normalize 53 1024 z 0 false.

(** The [float64] nearest to [mant * 10 ^ exp]: decimal constants, and what
    [strconv.ParseFloat] computes. *)
Definition f64_of_dec (neg : bool) (mant : Z) (exp : Z) : float64 :=
  if mant =? 0 then S754_zero neg
  else if 0 <=? exp then
    match mant * 10 ^ exp with
    | Zpos m => binary_round 53 1024 neg m 0
    | _ => S754_zero neg
    end
  else
    let '(q, e, l) := SFdiv_core_binary 53 1024 mant 0 (10 ^ (- exp)) 0 in
    binary_round_aux 53 1024 neg q e l.

(** ** Arithmetic and comparison *)

Definition f32_mul (x y : float32) : float32 := SFmul 24 128 x y.
Definition f64_add (x y : float64) : float64 := SFadd 53 1024 x y.
Definition f64_div (x y : float64) : float64 := SFdiv 53 1024 x y.

(** [x > y]: false when either side is NaN. *)
Definition f_gt (x y : spec_float) : bool := SFltb y x.

Definition is_nan (x : spec_float) : bool :=
  match x with S754_nan => true | _ => false end.
Definition is_finite (x : spec_float) : bool :=
  match x with S754_zero _ | S754_finite _ _ _ => true | _ => false end.

(** The integer part of a float, if it is a number. *)
Definition f_trunc (x : spec_float) : option Z :=
  match x with
  | S754_zero _ => Some 0
  | S754_finite s m e =>
      let a := if 0 <=? e then Zpos m * 2 ^ e else Zpos m / 2 ^ (- e) in
      Some (if s then - a else a)
  | _ => None
  end.

(** [int(x)] and [int64(x)]: truncation when the result fits.  Otherwise the
    language leaves the value to the implementation, here the function [oob]. *)
Definition f_to_int64 (oob : spec_float -> Z) (x : spec_float) : Z :=
  match f_trunc x with
  | Some z => if is_int64 z then z else oob x
  | None => oob x
  end.

(** On amd64 the conversion instruction yields the smallest integer. *)
Definition amd64_oob (_ : spec_float) : Z := int64_min.

(** ** Lemmas: exact results *)

Lemma digits2_log2 m : Zpos (digits2_pos m) = Z.log2 (Zpos m) + 1.
Proof.
  induction m as [m IH|m IH|]; cbn [digits2_pos]; [| |done].
  - rewrite Pos2Z.inj_succ, IH. rewrite Pos2Z.inj_xI, Z.log2_succ_double by lia. lia.
  - rewrite Pos2Z.inj_succ, IH. rewrite Pos2Z.inj_xO, Z.log2_double by lia. lia.
Qed.

Lemma digits2_bounds m :
  2 ^ (Zpos (digits2_pos m) - 1) <= Zpos m < 2 ^ Zpos (digits2_pos m).
Proof.
  rewrite digits2_log2. pose proof (Z.log2_spec (Zpos m) (eq_refl _)).
  replace (Z.log2 (Zpos m) + 1 - 1) with (Z.log2 (Zpos m)) by lia. done.
Qed.

Lemma digits2_unique m d :
  0 < d -> 2 ^ (d - 1) <= Zpos m < 2 ^ d -> Zpos (digits2_pos m) = d.
Proof.
  intros Hd H. rewrite digits2_log2. rewrite (Z.log2_unique (Zpos m) (d - 1)); [lia..|].
  by replace (Z.succ (d - 1)) with d by lia.
Qed.

Lemma iter_xO m k : Zpos (Pos.iter xO m k) = Zpos m * 2 ^ Zpos k.
Proof.
  induction k as [|k IH] using Pos.peano_ind; [cbn; lia|].
  rewrite Pos.iter_succ, Pos2Z.inj_xO, IH, Pos2Z.inj_succ, Z.pow_succ_r by lia. lia.
Qed.

(** Rounding leaves a representable mantissa alone. *)
Lemma round_aux_exact prec emax s m e :
  bounded prec emax m e = true ->
  binary_round_aux prec emax s (Zpos m) e loc_Exact = S754_finite s m e.
Proof.
  unfold bounded, canonical_mantissa. intros [Hc He]%andb_true_iff.
  apply Z.eqb_eq in Hc.
  assert (forall l, shr_fexp prec emax (Zpos m) e l = (shr_record_of_loc (Zpos m) l, e)) as E.
  { intros l. unfold shr_fexp. cbn [Zdigits2]. rewrite Hc, Z.sub_diag. done. }
  unfold binary_round_aux. rewrite E. cbn [shr_record_of_loc shr_m loc_of_shr_record round_nearest_even].
  rewrite E. cbn [shr_record_of_loc shr_m]. by rewrite He.
Qed.

(** The mantissa of an integer below 2^prec is shifted up to [prec] digits. *)
Lemma binary_round_int prec emax s m :
  1 < prec -> 2 * prec < emax -> Zpos m < 2 ^ prec ->
  exists m' k, 0 <= k /\ Zpos m' = Zpos m * 2 ^ k /\
    binary_round prec emax s m 0 = S754_finite s m' (- k).
Proof.
  intros Hp He Hm. pose proof (digits2_bounds m) as Hd.
  set (d := Zpos (digits2_pos m)) in *.
  assert (d <= prec) as Hdp.
  { destruct (Z.le_gt_cases d prec) as [|Hgt]; [done|].
    assert (2 ^ prec <= 2 ^ (d - 1)) by (apply Z.pow_le_mono_r; lia). lia. }
  assert (forall m' k, 0 <= k -> Zpos m' = Zpos m * 2 ^ k -> d + k = prec ->
    bounded prec emax m' (- k) = true) as Hb.
  { intros m' k Hk Hm' Hdk. unfold bounded, canonical_mantissa, fexp, emin.
    rewrite (digits2_unique m' prec); [|lia|].
    - apply andb_true_iff. split; [apply Z.eqb_eq|apply Z.leb_le]; lia.
    - rewrite Hm'. replace (prec - 1) with (d - 1 + k) by lia.
      rewrite <- Hdk. rewrite !Z.pow_add_r by lia.
      pose proof (Z.pow_pos_nonneg 2 k). nia. }
  exists (match prec - d with Zpos k => Pos.iter xO m k | _ => m end), (prec - d).
  assert (Zpos (match (prec - d)%Z with Zpos k => Pos.iter xO m k | _ => m end)
          = Zpos m * 2 ^ (prec - d)) as Hval.
  { destruct (prec - d) as [|k|k] eqn:Ek; [lia|apply iter_xO|lia]. }
  split; [lia|]. split; [done|].
  unfold binary_round, shl_align. fold d. rewrite Z.add_0_r, Z.sub_0_r.
  assert (fexp prec emax d = - (prec - d)) as -> by (unfold fexp, emin; lia).
  specialize (Hb _ (prec - d) ltac:(lia) Hval ltac:(lia)).
  destruct (prec - d) as [|k|k] eqn:Ek; cbn [Z.opp] in *; [|..|lia];
    by apply round_aux_exact.
Qed.

(** Integers below 2^53 survive the trip through [float64]. *)
Lemma f64_of_Z_trunc z : - 2 ^ 53 < z < 2 ^ 53 -> f_trunc (f64_of_Z z) = Some z.
Proof.
  intros Hz. destruct z as [|m|m]; cbn [f64_of_Z binary_normalize]; [done|..].
  all: unfold f64_of_Z, binary_normalize.
  1: destruct (binary_round_int 53 1024 false m) as (m' & k & Hk & Hm & ->); [lia..|].
  2: destruct (binary_round_int 53 1024 true m) as (m' & k & Hk & Hm & ->); [lia..|].
  all: cbn [f_trunc]; rewrite Hm, Z.opp_involutive.
  all: destruct (Z.leb_spec 0 (- k)) as [Hk0|Hk0];
    [assert (k = 0) as -> by lia; cbn; f_equal; lia|].
  all: rewrite Z.div_mul by (apply Z.pow_nonzero; lia); done.
Qed.

(** ** Lemmas: rounding is to the nearest *)

Lemma iter_pos_iter {A} (f : A -> A) p x :
  iter_pos f p x = Nat.iter (Pos.to_nat p) f x.
Proof.
  revert x. induction p as [p IH|p IH|]; intros x; cbn [iter_pos]; [..|done];
    rewrite !IH, <- Nat.iter_add; [|f_equal; lia].
  rewrite <- Nat.iter_succ_r. f_equal. lia.
Qed.

(** After [k] right shifts of [m]: the quotient, the last bit shifted out, and
    whether a bit below it was set. *)
Definition shr_spec (m k : Z) (mrs : shr_record) : Prop :=
  shr_m mrs = m / 2 ^ k /\
  shr_r mrs = (2 ^ k <=? 2 * (m mod 2 ^ k)) /\
  shr_s mrs = negb (m mod 2 ^ k =? 0) && negb (2 * (m mod 2 ^ k) =? 2 ^ k).

Lemma shr_spec_0 m : shr_spec m 0 (Build_shr_record m false false).
Proof. unfold shr_spec. cbn. by rewrite Z.div_1_r, Z.mod_1_r. Qed.

(** One right shift of a non-negative mantissa. *)
Lemma shr_1_nonneg q r s :
  0 <= q -> shr_1 (Build_shr_record q r s) = Build_shr_record (q / 2) (Z.odd q) (r || s).
Proof.
  intros Hq. destruct q as [|[p|p|]|p]; [done|..|done|lia]; cbn [shr_1 Z.odd]; f_equal.
  - rewrite Pos2Z.inj_xI. divlia.
  - rewrite Pos2Z.inj_xO. divlia.
Qed.

Lemma mod_double m k :
  0 <= m -> 0 <= k ->
  m mod 2 ^ (k + 1) = m mod 2 ^ k + 2 ^ k * (if Z.odd (m / 2 ^ k) then 1 else 0) /\
  m / 2 ^ (k + 1) = m / 2 ^ k / 2.
Proof.
  intros Hm Hk. pose proof (Z.pow_pos_nonneg 2 k).
  rewrite Z.pow_add_r by lia. change (2 ^ 1) with 2.
  rewrite Z.rem_mul_r, Z.div_div, Zmod_odd by lia. done.
Qed.

Lemma shr_spec_step m k mrs :
  0 <= m -> 0 <= k -> shr_spec m k mrs -> shr_spec m (k + 1) (shr_1 mrs).
Proof.
  destruct mrs as [q r s]. intros Hm Hk (Hq & Hr & Hs). cbn in Hq, Hr, Hs. subst.
  pose proof (Z.pow_pos_nonneg 2 k). pose proof (Z.mod_pos_bound m (2 ^ k)).
  pose proof (Z.div_pos m (2 ^ k)).
  destruct (mod_double m k Hm Hk) as [Hmod Hdiv].
  rewrite shr_1_nonneg by lia. unfold shr_spec. cbn [shr_m shr_r shr_s].
  rewrite Hmod, Hdiv. rewrite Z.pow_add_r by lia. change (2 ^ 1) with 2.
  set (t := m mod 2 ^ k) in *. set (P := 2 ^ k) in *.
  split_and!; [done|..]; destruct (Z.odd (m / P));
    destruct (Z.leb_spec P (2 * t)); destruct (Z.eqb_spec t 0);
    destruct (Z.eqb_spec (2 * t) P); cbn; lia.
Qed.

Lemma shr_spec_iter m n :
  0 <= m -> shr_spec m (Z.of_nat n) (Nat.iter n shr_1 (Build_shr_record m false false)).
Proof.
  intros Hm. induction n as [|n IH]; [apply shr_spec_0|].
  rewrite Nat2Z.inj_succ, <- Z.add_1_r. cbn [Nat.iter].
  apply shr_spec_step; [lia..|done].
Qed.

Definition nearest (m n q : Z) : Prop := 2 * Z.abs (q * 2 ^ n - m) <= 2 ^ n.

(** Rounding the shifted mantissa gives a nearest integer. *)
Lemma round_nearest_spec m n mrs :
  0 <= n -> shr_spec m n mrs ->
  nearest m n (round_nearest_even (shr_m mrs) (loc_of_shr_record mrs)).
Proof.
  intros Hn (Hq & Hr & Hs). destruct mrs as [q r s]. cbn in Hq, Hr, Hs.
  pose proof (Z.pow_pos_nonneg 2 n). pose proof (Z.mod_pos_bound m (2 ^ n)).
  pose proof (Z.div_mod m (2 ^ n)). unfold nearest.
  set (t := m mod 2 ^ n) in *. set (P := 2 ^ n) in *. rewrite <- Hq in *.
  cbn [shr_m loc_of_shr_record].
  destruct (Z.leb_spec P (2 * t)); destruct (Z.eqb_spec t 0);
    destruct (Z.eqb_spec (2 * t) P); cbn in Hs; subst r s; cbn [round_nearest_even];
    try case_match; lia.
Qed.

(** A mantissa with more than [prec] digits, no underflow: the result is a
    nearest multiple of [2 ^ n], unless it needs one more digit. *)
Lemma round_aux_nearest prec emax s m e n :
  0 < prec -> 0 < n -> Zpos (digits2_pos m) = prec + n -> emin prec emax <= e + n ->
  e + n <= emax - prec ->
  exists q, nearest (Zpos m) n q /\ 2 ^ (prec - 1) <= q /\
    (q < 2 ^ prec -> exists q', q = Zpos q' /\
       binary_round_aux prec emax s (Zpos m) e loc_Exact = S754_finite s q' (e + n)).
Proof.
  intros Hp Hn Hd Hmin Hmax.
  assert (shr_fexp prec emax (Zpos m) e loc_Exact =
          (Nat.iter (Z.to_nat n) shr_1 (Build_shr_record (Zpos m) false false), e + n)) as E1.
  { unfold shr_fexp, fexp. cbn [Zdigits2 shr_record_of_loc]. rewrite Hd.
    replace (Z.max (prec + n + e - prec) (emin prec emax) - e) with n by lia.
    destruct n as [|n|n]; try lia. cbn [shr]. rewrite iter_pos_iter. done. }
  pose proof (shr_spec_iter (Zpos m) (Z.to_nat n)) as Hspec.
  rewrite Z2Nat.id in Hspec by lia. specialize (Hspec ltac:(lia)).
  set (mrs := Nat.iter _ _ _) in *.
  set (q := round_nearest_even (shr_m mrs) (loc_of_shr_record mrs)).
  assert (nearest (Zpos m) n q) as Hnear by (apply round_nearest_spec; [lia|done]).
  assert (2 ^ (prec - 1) <= q) as Hq.
  { pose proof (digits2_bounds m) as [Hlo _]. rewrite Hd in Hlo.
    replace (prec + n - 1) with (prec - 1 + n) in Hlo by lia.
    rewrite Z.pow_add_r in Hlo by lia. unfold nearest in Hnear.
    pose proof (Z.pow_pos_nonneg 2 n). nia. }
  exists q. split; [done|]. split; [done|]. intros Hlt.
  pose proof (Z.pow_pos_nonneg 2 (prec - 1)).
  destruct q as [|q'|q'] eqn:Eq; [lia| |lia]. exists q'. split; [done|].
  unfold binary_round_aux. rewrite E1. fold q. rewrite Eq.
  assert (shr_fexp prec emax (Zpos q') (e + n) loc_Exact =
          (Build_shr_record (Zpos q') false false, e + n)) as ->.
  { unfold shr_fexp, fexp. cbn [Zdigits2 shr_record_of_loc].
    rewrite (digits2_unique q' prec) by lia.
    replace (Z.max (prec + (e + n) - prec) (emin prec emax) - (e + n)) with 0 by lia. done. }
  cbn [shr_m]. destruct (Z.leb_spec (e + n) (emax - prec)); [done|lia].
Qed.

(** Nearest integers are ordered as the numbers they round. *)
Lemma nearest_mono m1 m2 n q1 q2 :
  0 <= n -> nearest m1 n q1 -> nearest m2 n q2 -> m1 < m2 -> q1 <= q2.
Proof.
  unfold nearest. intros Hn H1 H2 Hlt. pose proof (Z.pow_pos_nonneg 2 n). nia.
Qed.

(** ** time.Duration, in nanoseconds *)

Definition Second : Z := 1000000000.
Definition Millisecond : Z := 1000000.

(** [Duration.Seconds]: whole seconds and the fraction, added as [float64]. *)
Definition Duration_Seconds (d : Z) : float64 :=
  f64_add (f64_of_Z (Z.quot d Second))
          (f64_div (f64_of_Z (Z.rem d Second)) (f64_of_Z 1000000000)).

(** A whole number of seconds is read back exactly. *)
Lemma Duration_Seconds_whole oob n :
  - 2 ^ 53 < n < 2 ^ 53 -> f_to_int64 oob (Duration_Seconds (n * Second)) = n.
Proof.
  intros Hn. unfold Duration_Seconds.
  rewrite Z.quot_mul, Z.rem_mul by done.
  assert (f64_add (f64_of_Z n) (f64_div (f64_of_Z 0) (f64_of_Z 1000000000)) = f64_of_Z n) as ->.
  { change (f64_div (f64_of_Z 0) (f64_of_Z 1000000000)) with (S754_zero false).
    assert (exists z, f_trunc (f64_of_Z n) = Some z) as [z Hz]
      by (eexists; by apply f64_of_Z_trunc).
    destruct n as [|m|m]; [done|..]; unfold f64_add;
      destruct (f64_of_Z _) as [[]| | |] eqn:E; try done.
    all: apply (f_equal f_trunc) in E; rewrite f64_of_Z_trunc in E by done; discriminate. }
  unfold f_to_int64. rewrite f64_of_Z_trunc by done.
  assert (is_int64 n = true) as ->; [|done].
  apply is_int64_spec. unfold int64_min, int64_max. lia.
Qed.

(** ** Lemmas: comparison *)

(** Finite numbers of one sign compare by exponent, then by mantissa. *)
Lemma f_gt_finite s m1 e1 m2 e2 :
  f_gt (S754_finite s m1 e1) (S754_finite s m2 e2) = true <->
  if s then e1 < e2 \/ e1 = e2 /\ Zpos m1 < Zpos m2
  else e2 < e1 \/ e1 = e2 /\ Zpos m2 < Zpos m1.
Proof.
  unfold f_gt, SFltb, SFcompare.
  destruct s; destruct (Z.compare_spec e2 e1);
    try (change (Pos.compare_cont Eq m2 m1) with (Pos.compare m2 m1);
         destruct (Pos.compare_spec m2 m1)); cbn; subst; split; intros; try done; lia.
Qed.

Lemma f_gt_signs m1 e1 m2 e2 :
  f_gt (S754_finite false m1 e1) (S754_finite true m2 e2) = true /\
  f_gt (S754_finite true m1 e1) (S754_finite false m2 e2) = false.
Proof. done. Qed.

Lemma f_gt_trans x y z : f_gt x y = true -> f_gt y z = true -> f_gt x z = true.
Proof.
  destruct x as [[]|[]| |[] mx ex], y as [[]|[]| |[] my ey], z as [[]|[]| |[] mz ez];
    try done; rewrite !f_gt_finite; lia.
Qed.

Lemma f_gt_nan_l x : f_gt S754_nan x = false.
Proof. by destruct x as [[]|[]| |[] m e]. Qed.

Lemma f_gt_nan_r x : f_gt x S754_nan = false.
Proof. by destruct x as [[]|[]| |[] m e]. Qed.

(** A number between two positive finite ones of the same binade. *)
Lemma f_gt_between x m1 m2 e :
  f_gt x (S754_finite false m1 e) = true -> f_gt x (S754_finite false m2 e) = false ->
  exists m, x = S754_finite false m e /\ Zpos m1 < Zpos m <= Zpos m2.
Proof.
  intros H1 H2. destruct x as [[]|[]| |[] m ex]; try done.
  apply f_gt_finite in H1.
  assert (~ (e < ex \/ ex = e /\ Zpos m2 < Zpos m)) as H2'.
  { intros H. apply (f_gt_finite false) in H. congruence. }
  assert (ex = e) as -> by lia. exists m. split; [done|lia].
Qed.

(** ** No NaN from rounding *)

Lemma shr_1_nonneg_m mrs : 0 <= shr_m mrs -> 0 <= shr_m (shr_1 mrs).
Proof. destruct mrs as [[|[p|p|]|p] r s]; cbn; lia. Qed.

Lemma shr_fexp_nonneg prec emax m e l :
  0 <= m -> 0 <= shr_m (fst (shr_fexp prec emax m e l)).
Proof.
  intros Hm. unfold shr_fexp, shr.
  assert (0 <= shr_m (shr_record_of_loc m l)) as H0 by (destruct l as [|[]]; exact Hm).
  destruct (fexp _ _ _ - e) as [|p|p]; cbn [fst]; [done| |done].
  rewrite iter_pos_iter. generalize (Pos.to_nat p) as n. intros n.
  induction n as [|n IH]; [done|]. cbn [Nat.iter]. by apply shr_1_nonneg_m.
Qed.

Lemma round_nearest_even_nonneg m l : 0 <= m -> 0 <= round_nearest_even m l.
Proof. intros Hm. destruct l as [|[]]; cbn; [lia| |lia|lia]. destruct (Z.even m); lia. Qed.

Lemma binary_round_aux_not_nan prec emax s m e l :
  0 <= m -> is_nan (binary_round_aux prec emax s m e l) = false.
Proof.
  intros Hm. unfold binary_round_aux.
  pose proof (shr_fexp_nonneg prec emax m e l Hm) as H1.
  destruct (shr_fexp prec emax m e l) as [mrs e1]. cbn [fst] in H1.
  pose proof (round_nearest_even_nonneg _ (loc_of_shr_record mrs) H1) as H2.
  pose proof (shr_fexp_nonneg prec emax _ e1 loc_Exact H2) as H3.
  destruct (shr_fexp _ _ _ _ _) as [mrs2 e2]. cbn [fst] in H3.
  destruct (shr_m mrs2); [done| |lia]. by destruct (_ <=? _).
Qed.

Lemma binary_round_not_nan prec emax s m e : is_nan (binary_round prec emax s m e) = false.
Proof.
  unfold binary_round. destruct (shl_align _ _ _) as [mz ez].
  apply binary_round_aux_not_nan. lia.
Qed.

Lemma f64_of_dec_not_nan neg mant exp : 0 <= mant -> is_nan (f64_of_dec neg mant exp) = false.
Proof.
  intros Hm. unfold f64_of_dec. destruct (Z.eqb_spec mant 0); [done|]. destruct (Z.leb_spec 0 exp).
  { destruct (mant * 10 ^ exp); [done|apply binary_round_not_nan|done]. }
  unfold SFdiv_core_binary. cbv zeta.
  match goal with |- context [Z.div_eucl ?a ?b] => set (m' := a); set (d := b) end.
  assert (0 <= m') as Hm'.
  { subst m'. match goal with |- context [match ?x with _ => _ end] => destruct x end; [lia| |lia].
    apply Z.shiftl_nonneg. lia. }
  assert (0 < d) as Hd by (subst d; apply Z.pow_pos_nonneg; lia).
  pose proof (Z.div_pos m' d Hm' Hd) as Hq. unfold Z.div in Hq.
  destruct (Z.div_eucl m' d) as [q r]. by apply binary_round_aux_not_nan.
Qed.
