(* ===== verification/FloatOrder.v ===== *)
(** * Bounds on rounded results

    Every rounded operation of [GoFloat] stays below a representable bound of its
    exact result, and its results are well-formed floats.  Numbers are dyadic:
    [m * 2 ^ e] is the pair of [m] and [e]. *)

From S2P Require Import Prelude GoFloat.

(** ** Dyadic numbers *)

(** [m1 * 2 ^ e1 <= m2 * 2 ^ e2] *)
Definition dle (m1 e1 m2 e2 : Z) : Prop :=
  m1 * 2 ^ (e1 - Z.min e1 e2) <= m2 * 2 ^ (e2 - Z.min e1 e2).

Lemma dle_at k m1 e1 m2 e2 :
  k <= e1 -> k <= e2 -> dle m1 e1 m2 e2 <-> m1 * 2 ^ (e1 - k) <= m2 * 2 ^ (e2 - k).
Proof.
  intros H1 H2. unfold dle. set (n := Z.min e1 e2).
  replace (e1 - k) with (e1 - n + (n - k)) by lia. replace (e2 - k) with (e2 - n + (n - k)) by lia.
  rewrite !Z.pow_add_r, !Z.mul_assoc by lia. apply Z.mul_le_mono_pos_r. apply Z.pow_pos_nonneg; lia.
Qed.

Lemma dle_trans m1 e1 m2 e2 m3 e3 : dle m1 e1 m2 e2 -> dle m2 e2 m3 e3 -> dle m1 e1 m3 e3.
Proof.
  set (k := Z.min e1 (Z.min e2 e3)).
  rewrite (dle_at k _ e1 _ e2), (dle_at k _ e2 _ e3), (dle_at k _ e1 _ e3) by lia. lia.
Qed.

(** The exponent can be lowered. *)
Lemma dle_shift m k e m' e' : 0 <= k -> dle (m * 2 ^ k) e m' e' <-> dle m (e + k) m' e'.
Proof.
  intros Hk. rewrite (dle_at (Z.min e e') _ e), (dle_at (Z.min e e') _ (e + k)) by lia.
  replace (e + k - Z.min e e') with (k + (e - Z.min e e')) by lia.
  rewrite Z.pow_add_r by lia. by rewrite Z.mul_assoc.
Qed.

Lemma dle_mul m1 e1 b1 f1 m2 e2 b2 f2 :
  0 <= m1 -> 0 <= m2 -> dle m1 e1 b1 f1 -> dle m2 e2 b2 f2 ->
  dle (m1 * m2) (e1 + e2) (b1 * b2) (f1 + f2).
Proof.
  intros Hm1 Hm2 H1 H2. set (k1 := Z.min e1 f1). set (k2 := Z.min e2 f2).
  rewrite (dle_at k1) in H1 by lia. rewrite (dle_at k2) in H2 by lia.
  rewrite (dle_at (k1 + k2)) by lia.
  replace (e1 + e2 - (k1 + k2)) with (e1 - k1 + (e2 - k2)) by lia.
  replace (f1 + f2 - (k1 + k2)) with (f1 - k1 + (f2 - k2)) by lia.
  rewrite !Z.pow_add_r by lia.
  pose proof (Z.pow_nonneg 2 (e1 - k1)). pose proof (Z.pow_nonneg 2 (e2 - k2)).
  replace (m1 * m2 * (2 ^ (e1 - k1) * 2 ^ (e2 - k2)))
    with ((m1 * 2 ^ (e1 - k1)) * (m2 * 2 ^ (e2 - k2))) by ring.
  replace (b1 * b2 * (2 ^ (f1 - k1) * 2 ^ (f2 - k2)))
    with ((b1 * 2 ^ (f1 - k1)) * (b2 * 2 ^ (f2 - k2))) by ring.
  apply Z.mul_le_mono_nonneg; nia.
Qed.

(** Larger numbers reach at least as high. *)
Lemma dle_digits m1 e1 m2 e2 :
  dle (Zpos m1) e1 (Zpos m2) e2 ->
  Zpos (digits2_pos m1) + e1 <= Zpos (digits2_pos m2) + e2.
Proof.
  rewrite (dle_at (Z.min e1 e2)) by lia. set (k := Z.min e1 e2). intros H.
  pose proof (digits2_bounds m1) as [H1 _]. pose proof (digits2_bounds m2) as [_ H2].
  set (d1 := Zpos (digits2_pos m1)) in *. set (d2 := Zpos (digits2_pos m2)) in *.
  assert (0 < d1 /\ 0 < d2) as [? ?] by lia.
  destruct (Z.le_gt_cases (d1 + e1) (d2 + e2)) as [|Hgt]; [done|exfalso].
  assert (2 ^ (d2 + (e2 - k)) <= 2 ^ (d1 - 1 + (e1 - k))) as Hp by (apply Z.pow_le_mono_r; lia).
  rewrite !Z.pow_add_r in Hp by lia.
  assert (0 < 2 ^ (e1 - k) /\ 0 < 2 ^ (e2 - k)) as [? ?] by (split; apply Z.pow_pos_nonneg; lia).
  nia.
Qed.

(** ** Rounding *)

Section Rounding.
Variables prec emax : Z.
Hypothesis Hprec : 1 < prec.
Hypothesis Hemax : prec < emax.

#[local] Abbreviation emin := (emin prec emax).
#[local] Abbreviation fexp := (fexp prec emax).
#[local] Abbreviation bounded := (bounded prec emax).
#[local] Abbreviation canonical := (canonical_mantissa prec emax).

Lemma canonical_spec m e :
  canonical m e = true <->
  emin <= e /\ Zpos (digits2_pos m) <= prec /\ (emin < e -> Zpos (digits2_pos m) = prec).
Proof.
  unfold canonical_mantissa, SpecFloat.fexp. rewrite Z.eqb_eq. lia.
Qed.

Lemma bounded_spec m e : bounded m e = true <-> canonical m e = true /\ e <= emax - prec.
Proof. unfold SpecFloat.bounded. rewrite andb_true_iff, Z.leb_le. done. Qed.

(** Well-formed numbers compare as their values. *)
Lemma dle_not_gt m1 e1 m2 e2 :
  canonical m1 e1 = true -> canonical m2 e2 = true -> dle (Zpos m1) e1 (Zpos m2) e2 ->
  f_gt (S754_finite false m1 e1) (S754_finite false m2 e2) = false.
Proof.
  intros (H1 & H1d & H1n)%canonical_spec (H2 & H2d & H2n)%canonical_spec Hle.
  pose proof (dle_digits _ _ _ _ Hle) as Hd.
  destruct (f_gt _ _) eqn:Hgt; [|done]. exfalso. apply f_gt_finite in Hgt.
  destruct Hgt as [Hlt|[<- Hlt]]; [lia|].
  rewrite (dle_at e1), Z.sub_diag in Hle by lia. lia.
Qed.

Lemma not_gt_dle m1 e1 m2 e2 :
  canonical m1 e1 = true -> canonical m2 e2 = true ->
  f_gt (S754_finite false m1 e1) (S754_finite false m2 e2) = false ->
  dle (Zpos m1) e1 (Zpos m2) e2.
Proof.
  intros (H1 & H1d & H1n)%canonical_spec (H2 & H2d & H2n)%canonical_spec Hgt.
  assert (~ (e2 < e1 \/ e1 = e2 /\ Zpos m2 < Zpos m1)) as Hn
    by (intros H%(f_gt_finite false); congruence).
  rewrite (dle_at e1), Z.sub_diag by lia.
  destruct (decide (e1 = e2)) as [->|]; [rewrite Z.sub_diag; lia|].
  pose proof (digits2_bounds m1) as [_ Hb1]. pose proof (digits2_bounds m2) as [Hb2 _].
  rewrite H2n in Hb2 by lia.
  assert (2 ^ Zpos (digits2_pos m1) <= 2 ^ prec) by (apply Z.pow_le_mono_r; lia).
  assert (2 ^ prec <= 2 ^ (prec - 1 + (e2 - e1))) as Hp by (apply Z.pow_le_mono_r; lia).
  rewrite Z.pow_add_r in Hp by lia.
  assert (0 < 2 ^ (e2 - e1)) by (apply Z.pow_pos_nonneg; lia). nia.
Qed.

Lemma shr_fexp_shift m e n :
  0 <= n -> fexp (Zdigits2 m + e) - e = n ->
  shr_fexp prec emax m e loc_Exact =
    (Nat.iter (Z.to_nat n) shr_1 (Build_shr_record m false false), e + n).
Proof.
  intros Hn E. unfold shr_fexp. rewrite E. cbn [shr_record_of_loc].
  destruct n as [|n|n]; [by rewrite Z.add_0_r| |lia]. cbn [shr]. by rewrite iter_pos_iter.
Qed.

Lemma shr_fexp_none m e :
  fexp (Zdigits2 m + e) <= e -> shr_fexp prec emax m e loc_Exact = (Build_shr_record m false false, e).
Proof.
  intros E. unfold shr_fexp. cbn [shr_record_of_loc].
  destruct (fexp (Zdigits2 m + e) - e) as [|n|n] eqn:En; [done|lia|done].
Qed.

(** The second step of rounding, on a mantissa of at most [2 ^ prec]: one more digit
    is shifted out, exactly. *)
Lemma renormalize q e :
  Zpos q <= 2 ^ prec -> emin <= e -> (emin < e -> 2 ^ (prec - 1) <= Zpos q) ->
  exists m' k, (k = 0 \/ k = 1) /\ Zpos q = Zpos m' * 2 ^ k /\ canonical m' (e + k) = true /\
    shr_fexp prec emax (Zpos q) e loc_Exact = (Build_shr_record (Zpos m') false false, e + k).
Proof.
  intros Hq He Hlo. pose proof (digits2_bounds q) as Hd. set (d := Zpos (digits2_pos q)) in *.
  destruct (decide (Zpos q = 2 ^ prec)) as [Htop|Htop].
  - assert (d = prec + 1) as Hdp.
    { apply digits2_unique; [lia|]. rewrite Htop. split; [apply Z.pow_le_mono_r|apply Z.pow_lt_mono_r]; lia. }
    assert (2 ^ prec = 2 * 2 ^ (prec - 1)) as Hhalf.
    { rewrite <- Z.pow_succ_r by lia. f_equal. lia. }
    destruct q as [q|q|]; [lia| |pose proof (Z.pow_gt_1 2 prec); lia].
    exists q, 1. split_and!; [by right|lia| |].
    + apply canonical_spec. rewrite (digits2_unique q prec); [lia..|].
      split; [lia|]. rewrite Hhalf in Htop. pose proof (Z.pow_pos_nonneg 2 (prec - 1)). lia.
    + rewrite (shr_fexp_shift _ _ 1); [done|lia|]. cbn [Zdigits2]. fold d. rewrite Hdp.
      unfold SpecFloat.fexp. lia.
  - assert (d <= prec) as Hdp.
    { destruct (Z.le_gt_cases d prec) as [|Hgt]; [done|].
      assert (2 ^ prec <= 2 ^ (d - 1)) by (apply Z.pow_le_mono_r; lia). lia. }
    exists q, 0. rewrite Z.add_0_r. split_and!; [by left|lia| |].
    + apply canonical_spec. fold d. split_and!; [done..|]. intros Hlt. specialize (Hlo Hlt).
      destruct (Z.le_gt_cases prec d) as [|Hgt]; [lia|].
      assert (2 ^ d <= 2 ^ (prec - 1)) by (apply Z.pow_le_mono_r; lia). lia.
    + apply shr_fexp_none. cbn [Zdigits2]. fold d. unfold SpecFloat.fexp. lia.
Qed.

(** Rounding [m * 2 ^ e]: to a nearest multiple [q] of [2 ^ (e + n)], the unit in the
    last place of the result. *)
Lemma round_aux_cases s m e n :
  0 <= n -> fexp (Zpos (digits2_pos m) + e) = e + n ->
  exists q, nearest (Zpos m) n q /\
    match binary_round_aux prec emax s (Zpos m) e loc_Exact with
    | S754_zero _ => q = 0
    | S754_finite s' m' e' => s' = s /\ bounded m' e' = true /\ e + n <= e' /\ q = Zpos m' * 2 ^ (e' - (e + n))
    | S754_infinity s' => s' = s /\
        exists m' e', emax - prec < e' /\ canonical m' e' = true /\ e + n <= e' /\ q = Zpos m' * 2 ^ (e' - (e + n))
    | S754_nan => False
    end.
Proof.
  intros Hn Hf. pose proof (digits2_bounds m) as Hd. set (d := Zpos (digits2_pos m)) in *.
  assert (emin <= e + n /\ d <= prec + n /\ (emin < e + n -> d = prec + n)) as (Hmin & Hdn & Hnorm)
    by (unfold SpecFloat.fexp in Hf; lia).
  pose proof (shr_spec_iter (Zpos m) (Z.to_nat n) ltac:(lia)) as Hspec. rewrite Z2Nat.id in Hspec by lia.
  assert (shr_fexp prec emax (Zpos m) e loc_Exact =
    (Nat.iter (Z.to_nat n) shr_1 (Build_shr_record (Zpos m) false false), e + n)) as E.
  { apply shr_fexp_shift; [done|]. cbn [Zdigits2]. fold d. lia. }
  unfold binary_round_aux. rewrite E.
  set (mrs := Nat.iter _ _ _) in *. clearbody mrs.
  pose proof (round_nearest_spec _ _ _ Hn Hspec) as Hnear.
  set (q := round_nearest_even (shr_m mrs) (loc_of_shr_record mrs)) in *. clearbody q.
  exists q. split; [done|].
  pose proof (Z.pow_pos_nonneg 2 n ltac:(lia) Hn) as HP.
  assert (Zpos m < 2 ^ prec * 2 ^ n) as Htop.
  { rewrite <- Z.pow_add_r by lia. eapply Z.lt_le_trans; [apply Hd|]. apply Z.pow_le_mono_r; lia. }
  assert (0 <= q <= 2 ^ prec) as Hq by (unfold nearest in Hnear; split; nia).
  assert (emin < e + n -> 2 ^ (prec - 1) <= q) as Hlo.
  { intros Hlt. specialize (Hnorm Hlt). destruct Hd as [Hd _].
    replace (d - 1) with (prec - 1 + n) in Hd by lia. rewrite Z.pow_add_r in Hd by lia.
    unfold nearest in Hnear. nia. }
  destruct q as [|q|q]; [|clear Hnear|lia].
  - rewrite shr_fexp_none; [done|]. cbn [Zdigits2]. unfold SpecFloat.fexp. lia.
  - destruct (renormalize q (e + n)) as (m' & k & Hk & Hqm & Hcan & ->); [lia|done..|].
    cbn [shr_m]. destruct (Z.leb_spec (e + n + k) (emax - prec)).
    + split_and!; [done|by apply bounded_spec|lia|]. by replace (e + n + k - (e + n)) with k by lia.
    + split; [done|]. exists m', (e + n + k). split_and!; [lia|done|lia|].
      by replace (e + n + k - (e + n)) with k by lia.
Qed.

(** A well-formed number between 0 and [mb * 2 ^ eb]. *)
Definition upto (mb eb : Z) (x : spec_float) : Prop :=
  match x with
  | S754_zero _ => True
  | S754_finite false m e => bounded m e = true /\ dle (Zpos m) e mb eb
  | _ => False
  end.

Lemma upto_trans mb eb mb' eb' x : upto mb eb x -> dle mb eb mb' eb' -> upto mb' eb' x.
Proof.
  destruct x as [| | |[] m e]; try done. intros [H1 H2] H3. split; [done|]. by eapply dle_trans.
Qed.

(** A representable bound of the exact value bounds the rounded value. *)
Lemma round_aux_upto m e mb eb :
  e <= fexp (Zpos (digits2_pos m) + e) -> bounded mb eb = true -> dle (Zpos m) e (Zpos mb) eb ->
  upto (Zpos mb) eb (binary_round_aux prec emax false (Zpos m) e loc_Exact).
Proof.
  intros Hf [Hcb Hmax]%bounded_spec Hle. apply canonical_spec in Hcb as (Hb & Hbd & Hbn).
  set (n := fexp (Zpos (digits2_pos m) + e) - e).
  pose proof (dle_digits _ _ _ _ Hle) as Hdig.
  assert (e + n <= eb) as Heb by (unfold n, SpecFloat.fexp; lia).
  destruct (round_aux_cases false m e n) as (q & Hnear & Hres); [lia|unfold n; lia|].
  assert (q <= Zpos mb * 2 ^ (eb - (e + n))) as Hq.
  { rewrite (dle_at e) in Hle by lia. rewrite Z.sub_diag in Hle.
    replace (eb - e) with (eb - (e + n) + n) in Hle by lia. rewrite Z.pow_add_r in Hle by lia.
    unfold nearest in Hnear. pose proof (Z.pow_pos_nonneg 2 n ltac:(lia) ltac:(lia)). nia. }
  assert (forall m' e', e + n <= e' -> q = Zpos m' * 2 ^ (e' - (e + n)) ->
    dle (Zpos m') e' (Zpos mb) eb) as Hval.
  { intros m' e' He' ->. by rewrite (dle_at (e + n)) by lia. }
  destruct (binary_round_aux _ _ _ _ _ _) as [s|s| |s m' e']; [done| |done|].
  - destruct Hres as (-> & m' & e' & Hbig & (_ & _ & Hn)%canonical_spec & He' & Hqv).
    specialize (Hval m' e' He' Hqv). apply dle_digits in Hval. cbn. rewrite Hn in Hval by lia. lia.
  - destruct Hres as (-> & Hbo & He' & Hqv). split; [done|]. by apply Hval.
Qed.

(** [binary_round] shifts up first, without changing the value. *)
Lemma shl_align_value m e e' :
  let '(m', e1) := shl_align m e e' in e1 = Z.min e e' /\ Zpos m' = Zpos m * 2 ^ (e - e1).
Proof.
  unfold shl_align. destruct (e' - e) as [|d|d] eqn:Ed; [split; [lia|rewrite Z.sub_diag; lia]..|].
  split; [lia|]. replace (e - e') with (Zpos d) by lia. apply iter_xO.
Qed.

Lemma digits_scale m m' k :
  0 <= k -> Zpos m' = Zpos m * 2 ^ k -> Zpos (digits2_pos m') = Zpos (digits2_pos m) + k.
Proof.
  intros Hk E. pose proof (digits2_bounds m) as [H1 H2]. apply digits2_unique; [lia|].
  replace (Zpos (digits2_pos m) + k - 1) with (Zpos (digits2_pos m) - 1 + k) by lia.
  rewrite E, !Z.pow_add_r by lia. pose proof (Z.pow_pos_nonneg 2 k). nia.
Qed.

Lemma binary_round_upto m e mb eb :
  bounded mb eb = true -> dle (Zpos m) e (Zpos mb) eb ->
  upto (Zpos mb) eb (binary_round prec emax false m e).
Proof.
  intros Hb Hle. unfold binary_round. pose proof (shl_align_value m e (fexp (Zpos (digits2_pos m) + e))) as Hs.
  destruct (shl_align _ _ _) as [m' e']. destruct Hs as [He' Hm'].
  pose proof (digits_scale m m' (e - e') ltac:(lia) Hm') as Hd.
  apply round_aux_upto; [|done|].
  - rewrite Hd. replace (Zpos (digits2_pos m) + (e - e') + e') with (Zpos (digits2_pos m) + e) by lia. lia.
  - rewrite Hm'. apply dle_shift; [lia|]. by replace (e' + (e - e')) with e by lia.
Qed.

(** What rounding gives is well formed. *)
Definition wf_float (x : spec_float) : Prop := valid_binary prec emax x = true.

Lemma binary_round_wf_float s m e : wf_float (binary_round prec emax s m e).
Proof.
  unfold binary_round. pose proof (shl_align_value m e (fexp (Zpos (digits2_pos m) + e))) as Hs.
  destruct (shl_align _ _ _) as [m' e']. destruct Hs as [He' Hm'].
  pose proof (digits_scale m m' (e - e') ltac:(lia) Hm') as Hd.
  destruct (round_aux_cases s m' e' (fexp (Zpos (digits2_pos m') + e') - e')) as (q & _ & H); [|lia|].
  - rewrite Hd. replace (Zpos (digits2_pos m) + (e - e') + e') with (Zpos (digits2_pos m) + e) by lia. lia.
  - unfold wf_float. destruct (binary_round_aux _ _ _ _ _ _); try done. by destruct H as (_ & ? & _).
Qed.

Lemma SFsub_wf_float x y : wf_float x -> wf_float y -> wf_float (SFsub prec emax x y).
Proof.
  destruct x as [sx|sx| |sx mx ex], y as [sy|sy| |sy my ey]; try done;
    try by destruct sx, sy.
  intros _ _. cbn [SFsub]. destruct (_ - _) as [|p|p]; [done|apply binary_round_wf_float..].
Qed.

(** A well-formed number that is neither below 0 nor above [mb * 2 ^ eb]. *)
Lemma upto_range x mb eb :
  bounded mb eb = true -> wf_float x -> is_nan x = false ->
  f_gt (S754_zero false) x = false -> f_gt x (S754_finite false mb eb) = false ->
  upto (Zpos mb) eb x.
Proof.
  intros [Hcb _]%bounded_spec Hx Hnan Hlo Hhi. destruct x as [s|[]| |[] m e]; try done.
  split; [done|]. apply bounded_spec in Hx as [Hc _]. by apply not_gt_dle.
Qed.

Lemma upto_not_gt mb eb x :
  bounded mb eb = true -> upto (Zpos mb) eb x -> f_gt x (S754_finite false mb eb) = false.
Proof.
  intros [Hb _]%bounded_spec. destruct x as [s| | |[] m e]; try done.
  intros [[Hm _]%bounded_spec Hle]. by apply dle_not_gt.
Qed.

(** ** Arithmetic *)

(** A product with a number of full precision. *)
Lemma mul_upto mc ec mx ex mb eb x :
  Zpos (digits2_pos mc) = prec -> bounded mb eb = true ->
  upto mx ex x -> dle (Zpos mc * mx) (ec + ex) (Zpos mb) eb ->
  upto (Zpos mb) eb (SFmul prec emax (S754_finite false mc ec) x).
Proof.
  intros Hc Hb Hx Hle. destruct x as [s| | |[] m e]; try done. destruct Hx as [[Hm _]%bounded_spec Hx].
  apply canonical_spec in Hm as (He & Hd & _). cbn [SFmul xorb].
  apply round_aux_upto; [|done|].
  - assert (prec <= Zpos (digits2_pos (mc * m))) as Hdig.
    { destruct (Z.le_gt_cases prec (Zpos (digits2_pos (mc * m)))) as [|Hgt]; [done|exfalso].
      pose proof (digits2_bounds mc) as [H1 _]. pose proof (digits2_bounds (mc * m)) as [_ H2].
      rewrite Hc in H1. rewrite Pos2Z.inj_mul in H2.
      assert (2 ^ Zpos (digits2_pos (mc * m)) <= 2 ^ (prec - 1)) by (apply Z.pow_le_mono_r; lia). nia. }
    unfold SpecFloat.fexp. lia.
  - rewrite Pos2Z.inj_mul. eapply dle_trans; [|exact Hle].
    apply (dle_mul (Zpos mc) ec (Zpos mc) ec); [lia..| |done]. unfold dle. lia.
Qed.

(** A sum of numbers bounded by multiples of one unit. *)
Lemma add_upto mx my k mb eb x y :
  bounded mb eb = true -> upto mx k x -> upto my k y -> 0 <= mx -> 0 <= my ->
  dle (mx + my) k (Zpos mb) eb -> upto (Zpos mb) eb (SFadd prec emax x y).
Proof.
  intros Hb Hx Hy Hmx Hmy Hle.
  assert (forall m, 0 <= m <= mx + my -> dle m k (mx + my) k) as Hpart.
  { intros m Hm. rewrite (dle_at k), Z.sub_diag by lia. lia. }
  destruct x as [sx| | |[] m1 e1]; try done; destruct y as [sy| | |[] m2 e2]; try done; cbn [SFadd].
  - by destruct sx, sy.
  - eapply upto_trans; [|exact Hle]. eapply upto_trans; [exact Hy|]. apply Hpart. lia.
  - eapply upto_trans; [|exact Hle]. eapply upto_trans; [exact Hx|]. apply Hpart. lia.
  - destruct Hx as [_ Hx], Hy as [_ Hy]. set (ez := Z.min e1 e2).
    pose proof (shl_align_value m1 e1 ez) as H1. pose proof (shl_align_value m2 e2 ez) as H2.
    destruct (shl_align m1 e1 ez) as [n1 f1], (shl_align m2 e2 ez) as [n2 f2].
    destruct H1 as [Hf1 E1], H2 as [Hf2 E2]. cbn [fst cond_Zopp binary_normalize].
    assert (f1 = ez) as -> by lia. assert (f2 = ez) as -> by lia.
    cbn [Z.add binary_normalize]. apply binary_round_upto; [done|]. eapply dle_trans; [|exact Hle].
    rewrite Pos2Z.inj_add, E1, E2. set (j := Z.min ez k).
    rewrite (dle_at j) in Hx, Hy by lia. rewrite (dle_at j) by lia.
    replace (e1 - j) with (e1 - ez + (ez - j)) in Hx by lia.
    replace (e2 - j) with (e2 - ez + (ez - j)) in Hy by lia.
    rewrite Z.pow_add_r in Hx, Hy by lia. lia.
Qed.
End Rounding.

(** ** Conversion to [float32] *)

Lemma f64_to_f32_upto mb eb mb' eb' x :
  bounded 24 128 mb' eb' = true -> dle (Zpos mb) eb (Zpos mb') eb' ->
  upto 53 1024 (Zpos mb) eb x -> upto 24 128 (Zpos mb') eb' (f64_to_f32 x).
Proof.
  intros Hb Hle Hx. destruct x as [s| | |[] m e]; try done. destruct Hx as [_ Hx]. cbn [f64_to_f32].
  apply binary_round_upto; [lia..|done|]. by eapply dle_trans.
Qed.
