(* ===== verification/GoText.v ===== *)
(** * Text functions of Go's standard library

    What the configuration loader and the JSON reader call: [strconv.ParseInt] and [ParseFloat] (an
    error is [None], since the callers only test for it), [strings.TrimSpace] on
    UTF-8 bytes, and [strings.Split] at a single byte. *)

From S2P Require Import Prelude GoFloat.
From Stdlib Require Strings.String.

Abbreviation text := (list ascii).
Definition to_text : string -> text := Strings.String.list_ascii_of_string.
Definition of_text : text -> string := Strings.String.string_of_list_ascii.

Definition code (c : ascii) : Z := Z.of_nat (nat_of_ascii c).

(** The byte function [lower] of strconv: [c | ('x' - 'X')]. *)
Definition lower (c : ascii) : Z := Z.lor (code c) 32.

Definition is_digit (c : ascii) : bool := (48 <=? code c) && (code c <=? 57).
Definition is_hex_letter (c : ascii) : bool := (97 <=? lower c) && (lower c <=? 102).
Definition is_underscore (c : ascii) : bool := code c =? 95.
Definition is_dot (c : ascii) : bool := code c =? 46.
Definition is_plus (c : ascii) : bool := code c =? 43.
Definition is_minus (c : ascii) : bool := code c =? 45.

(** An optional sign: is it a minus, and what follows. *)
Definition read_sign (l : text) : bool * text :=
  match l with
  | c :: l' => if is_plus c then (false, l') else if is_minus c then (true, l') else (false, l)
  | [] => (false, [])
  end.

(** ** [strconv.ParseInt(s, 10, 64)] *)

Definition ParseInt (s : string) : option Z :=
  let '(neg, l) := read_sign (to_text s) in
  match l with
  | [] => None
  | _ =>
      n ← digits_val 0 (of_text l);
      let v := if neg : bool then - n else n in
      if is_int64 v then Some v else None
  end.

(** ** [strconv.ParseFloat(s, 64)] *)

(** The function [underscoreOK]: underscores only between digits, or after a base
    prefix. *)
Inductive saw := SawStart | SawDigit | SawUnderscore | SawOther.

Fixpoint underscores_ok (hex : bool) (st : saw) (l : text) : bool :=
  match l with
  | [] => match st with SawUnderscore => false | _ => true end
  | c :: l =>
      if is_digit c || (hex && is_hex_letter c) then underscores_ok hex SawDigit l
      else if is_underscore c then
        match st with SawDigit => underscores_ok hex SawUnderscore l | _ => false end
      else match st with SawUnderscore => false | _ => underscores_ok hex SawOther l end
  end.

Definition underscoreOK (s : text) : bool :=
  let l := snd (read_sign s) in
  match l with
  | c :: d :: l' =>
      if (code c =? 48) && ((lower d =? 98) || (lower d =? 111) || (lower d =? 120))
      then underscores_ok (lower d =? 120) SawDigit l'
      else underscores_ok false SawStart l
  | _ => underscores_ok false SawStart l
  end.

(** The mantissa loop of [readFloat]: the digits as one integer, and how many of
    them follow the point. *)
Record mantissa := Mantissa {
  m_dot : bool; m_digits : bool; m_val : Z; m_frac : Z; m_underscore : bool
}.

Definition push_digit (base d : Z) (m : mantissa) : mantissa :=
  Mantissa (m_dot m) true (m_val m * base + d)
           (if m_dot m then m_frac m + 1 else m_frac m) (m_underscore m).

Fixpoint scan_mantissa (hex : bool) (l : text) (m : mantissa) : mantissa * text :=
  match l with
  | [] => (m, [])
  | c :: l' =>
      if is_underscore c then
        scan_mantissa hex l' (Mantissa (m_dot m) (m_digits m) (m_val m) (m_frac m) true)
      else if is_dot c then
        if m_dot m then (m, l)
        else scan_mantissa hex l' (Mantissa true (m_digits m) (m_val m) (m_frac m) (m_underscore m))
      else if is_digit c then
        scan_mantissa hex l' (push_digit (if hex then 16 else 10) (code c - 48) m)
      else if hex && is_hex_letter c then
        scan_mantissa hex l' (push_digit 16 (lower c - 97 + 10) m)
      else (m, l)
  end.

(** The exponent loop: it stops accumulating at 10000. *)
Fixpoint scan_exponent (l : text) (e : Z) (us : bool) : Z * bool * text :=
  match l with
  | [] => (e, us, [])
  | c :: l' =>
      if is_underscore c then scan_exponent l' e true
      else if is_digit c then
        scan_exponent l' (if e <? 10000 then e * 10 + (code c - 48) else e) us
      else (e, us, l)
  end.

(** The exponent of [readFloat] from the character after the mantissa on: its
    value, whether it has underscores, and what follows; [None] if malformed. *)
Definition read_exponent (hex : bool) (l : text) : option (Z * bool * text) :=
  match l with
  | c :: l' =>
      if lower c =? (if hex then 112 else 101) then
        let '(neg, ds) := read_sign l' in
        match ds with
        | d :: _ =>
            if is_digit d then
              let '(e, us, rest) := scan_exponent ds 0 false in
              Some (if neg : bool then - e else e, us, rest)
            else None
        | [] => None
        end
      else if hex then None else Some (0, false, l)
  | [] => if hex then None else Some (0, false, [])
  end.

(** [special]: infinities and NaN, in any case of letters. *)
Definition lower_text (l : text) : list Z :=
  (fun c => if (65 <=? code c) && (code c <=? 90) then code c + 32 else code c) <$> l.

Definition special (s : text) : option float64 :=
  let '(neg, l) := read_sign s in
  let t := lower_text l in
  if bool_decide (t = lower_text (to_text "inf")) || bool_decide (t = lower_text (to_text "infinity"))
  then Some (S754_infinity neg)
  else if bool_decide (lower_text s = lower_text (to_text "nan")) then Some S754_nan
  else None.

(** [mant * 2 ^ exp], correctly rounded. *)
Definition f64_of_bin (neg : bool) (mant exp : Z) : float64 :=
  match mant with
  | Zpos m => binary_round 53 1024 neg m exp
  | _ => S754_zero neg
  end.

Definition read_number (s : text) : option float64 :=
  let '(neg, l) := read_sign s in
  let '(hex, l) :=
    match l with
    | c :: d :: (_ :: _) as l' =>
        if (code c =? 48) && (lower d =? 120) then (true, drop 2 l) else (false, l)
    | _ => (false, l)
    end in
  let '(m, rest) := scan_mantissa hex l (Mantissa false false 0 0 false) in
  if negb (m_digits m) then None else
  '(e, us, rest) ← read_exponent hex rest;
  match rest with
  | _ :: _ => None
  | [] =>
      if (m_underscore m || us) && negb (underscoreOK s) then None else
      Some (if hex : bool then f64_of_bin neg (m_val m) (e - 4 * m_frac m)
            else f64_of_dec neg (m_val m) (e - m_frac m))
  end.

(** A number that overflows is a range error. *)
Definition ParseFloat (s : string) : option float64 :=
  let l := to_text s in
  match special l with
  | Some x => Some x
  | None =>
      x ← read_number l;
      match x with S754_infinity _ => None | _ => Some x end
  end.

(** ** [strings.TrimSpace] *)

(** The UTF-8 encodings of the characters of [unicode.IsSpace]. *)
Definition space1 (c : ascii) : bool := ((9 <=? code c) && (code c <=? 13)) || (code c =? 32).
Definition space2 (c d : ascii) : bool :=
  (code c =? 194) && ((code d =? 133) || (code d =? 160)).
Definition space3 (c d e : ascii) : bool :=
  let '(c, d, e) := (code c, code d, code e) in
  ((c =? 225) && (d =? 154) && (e =? 128))
  || ((c =? 226) && (d =? 128) && (((128 <=? e) && (e <=? 138)) || (e =? 168) || (e =? 169) || (e =? 175)))
  || ((c =? 226) && (d =? 129) && (e =? 159))
  || ((c =? 227) && (d =? 128) && (e =? 128)).

(** Remove leading characters given by their encodings of one to three bytes. *)
Section Strip.
Variables (one : ascii -> bool) (two : ascii -> ascii -> bool)
  (three : ascii -> ascii -> ascii -> bool).

Fixpoint strip (l : text) : text :=
  match l with
  | [] => []
  | c :: l1 =>
      if one c then strip l1
      else match l1 with
           | [] => l
           | d :: l2 =>
               if two c d then strip l2
               else match l2 with
                    | [] => l
                    | e :: l3 => if three c d e then strip l3 else l
                    end
           end
  end.
End Strip.

Definition trim_left : text -> text := strip space1 space2 space3.
Definition trim_right (l : text) : text :=
  reverse (strip space1 (fun d c => space2 c d) (fun e d c => space3 c d e) (reverse l)).

Definition TrimSpace (s : string) : string := of_text (trim_right (trim_left (to_text s))).

(** ** [strings.Split(s, sep)] for a separator of one byte *)

Fixpoint split_text (sep : ascii) (acc l : text) : list text :=
  match l with
  | [] => [reverse acc]
  | c :: l => if bool_decide (c = sep) then reverse acc :: split_text sep [] l
              else split_text sep (c :: acc) l
  end.

Definition Split (s : string) (sep : ascii) : list string :=
  of_text <$> split_text sep [] (to_text s).

(** ** Lemmas *)

Lemma of_to_text s : of_text (to_text s) = s.
Proof. apply Strings.String.string_of_list_ascii_of_string. Qed.

Lemma to_of_text l : to_text (of_text l) = l.
Proof. apply Strings.String.list_ascii_of_string_of_list_ascii. Qed.

#[export] Hint Rewrite of_to_text to_of_text : rl.

Lemma to_text_app s t : to_text (s +:+ t) = to_text s ++ to_text t.
Proof. induction s as [|c s IH]; [done|]. rewrite append_cons. cbn. by f_equal. Qed.

Lemma of_text_nil l : of_text l = "" -> l = [].
Proof. by destruct l. Qed.

(** *** Integers *)

Lemma digit_val_sign c d : digit_val c = Some d -> is_plus c = false /\ is_minus c = false.
Proof.
  destruct c as [[] [] [] [] [] [] [] []]; vm_compute; intros H; by try discriminate.
Qed.

(** Decimal texts are read back when the number fits. *)
Lemma ParseInt_pretty z : ParseInt (pretty z) = if is_int64 z then Some z else None.
Proof.
  assert (forall p, exists c l, to_text (pretty (Npos p)) = c :: l /\
    is_plus c = false /\ is_minus c = false /\
    digits_val 0 (of_text (c :: l)) = Some (Zpos p)) as Hpos.
  { intros p. destruct (pretty_pos_cons p) as (c & t & E & _).
    pose proof (digits_val_pretty (Npos p)) as H. rewrite E in H.
    exists c, (to_text t). rewrite E. split; [done|]. cbn [digits_val] in H.
    destruct (digit_val c) as [d|] eqn:Ed; [|discriminate].
    destruct (digit_val_sign _ _ Ed) as [-> ->]. split_and!; [done..|].
    cbn [of_text Strings.String.string_of_list_ascii digits_val]. fold of_text.
    change (Strings.String.string_of_list_ascii (to_text t)) with (of_text (to_text t)).
    by rewrite of_to_text, Ed. }
  unfold ParseInt. destruct z as [|p|p]; [done|..].
  - destruct (Hpos p) as (c & l & E & Hp & Hm & Hd).
    change (pretty (Zpos p)) with (pretty (Npos p)). rewrite E. cbn [read_sign].
    rewrite Hp, Hm, Hd. done.
  - destruct (Hpos p) as (c & l & E & Hp & Hm & Hd).
    change (pretty (Zneg p)) with ("-" +:+ pretty (Npos p)).
    rewrite to_text_app, E. cbn [to_text Strings.String.list_ascii_of_string app read_sign].
    change (is_plus "-") with false. change (is_minus "-") with true. cbv iota.
    rewrite Hd. done.
Qed.

(** *** Trimming *)

Section StripLemmas.
Variables (one : ascii -> bool) (two : ascii -> ascii -> bool)
  (three : ascii -> ascii -> ascii -> bool).

Definition leading (l : text) : bool :=
  match l with
  | c :: d :: e :: _ => one c || two c d || three c d e
  | [c; d] => one c || two c d
  | [c] => one c
  | [] => false
  end.

(** What is removed is a prefix, and nothing removable is left. *)
Lemma strip_spec l :
  (exists p, l = p ++ strip one two three l) /\ leading (strip one two three l) = false.
Proof.
  remember (length l) as n eqn:Hn. revert l Hn.
  induction (Nat.lt_wf_0 n) as [n _ IH]. intros l ->.
  assert (forall p l', l = p ++ l' -> p <> [] ->
    (exists p, l = p ++ strip one two three l') /\ leading (strip one two three l') = false) as Hrec.
  { intros p l' -> Hp. destruct (IH (length l')) with (l := l') as [[q Hq] Hl]; [|done|].
    - rewrite length_app. destruct p; cbn; [done|lia].
    - split; [|done]. exists (p ++ q). by rewrite <- app_assoc, <- Hq. }
  destruct l as [|c [|d [|e l]]]; cbn [strip leading].
  - split; [by exists []|done].
  - destruct (one c) eqn:E1; [by apply (Hrec [c] [])|].
    cbn. rewrite E1. split; [by exists []|done].
  - destruct (one c) eqn:E1; [by apply (Hrec [c] [d])|].
    destruct (two c d) eqn:E2; [by apply (Hrec [c; d] [])|].
    cbn. rewrite E1, E2. split; [by exists []|done].
  - destruct (one c) eqn:E1; [by apply (Hrec [c] (d :: e :: l))|].
    destruct (two c d) eqn:E2; [by apply (Hrec [c; d] (e :: l))|].
    destruct (three c d e) eqn:E3; [by apply (Hrec [c; d; e] l)|].
    cbn. rewrite E1, E2, E3. split; [by exists []|done].
Qed.

Lemma strip_done l : leading l = false -> strip one two three l = l.
Proof.
  destruct l as [|c [|d [|e l]]]; cbn; [done|..]; rewrite ?orb_false_iff; intros H;
    destruct_and?; by repeat case_match.
Qed.

Lemma leading_app l k : leading l = true -> leading (l ++ k) = true.
Proof.
  destruct l as [|c [|d [|e l]]]; cbn; [done|..]; [|..|done]; rewrite ?orb_true_iff.
  - destruct k as [|? [|]]; intros ->; done.
  - destruct k; intros [-> | ->]; by rewrite ?orb_true_r.
Qed.

(** Padding of one-byte characters on the left goes. *)
Lemma strip_padding p l : Forall (fun c => one c = true) p ->
  strip one two three (p ++ l) = strip one two three l.
Proof. induction 1 as [|c p Hc _ IH]; [done|]. cbn. by rewrite Hc. Qed.

(** Bytes that end no longer sequence do not make one with what precedes. *)
Lemma leading_app_pad l p :
  l <> [] -> leading l = false ->
  Forall (fun c => (forall a, two a c = false) /\ (forall a b, three a b c = false) /\
                   (forall a b, three a c b = false)) p ->
  leading (l ++ p) = false.
Proof.
  intros Hne Hl Hp. destruct l as [|c [|d [|e l]]]; [done|..|done].
  - destruct p as [|x [|y p]]; [done|..]; apply Forall_cons in Hp as [(H2 & H3 & H4) _];
      cbn in *; by rewrite Hl, H2, ?H4.
  - destruct p as [|x p]; [done|]. apply Forall_cons in Hp as [(H2 & H3 & H4) _].
    cbn in *. by rewrite Hl, H3.
Qed.
End StripLemmas.

Definition starts_with_space : text -> bool := leading space1 space2 space3.
Definition ends_with_space (l : text) : bool :=
  leading space1 (fun d c => space2 c d) (fun e d c => space3 c d e) (reverse l).

(** No white space at either end. *)
Definition trimmed (s : string) : bool :=
  negb (starts_with_space (to_text s)) && negb (ends_with_space (to_text s)).

Lemma trimmed_spec s :
  trimmed s = true <-> starts_with_space (to_text s) = false /\ ends_with_space (to_text s) = false.
Proof. unfold trimmed. by rewrite andb_true_iff, !negb_true_iff. Qed.

(** [TrimSpace] returns a part of the text without white space at its ends. *)
Lemma TrimSpace_part s :
  trimmed (TrimSpace s) = true /\
  exists p q, to_text s = p ++ to_text (TrimSpace s) ++ q.
Proof.
  rewrite trimmed_spec. unfold TrimSpace, trim_left, trim_right, starts_with_space, ends_with_space.
  rewrite to_of_text. set (l := to_text s).
  destruct (strip_spec space1 space2 space3 l) as [[p Hp] Hl].
  set (l1 := strip _ _ _ l) in *.
  destruct (strip_spec space1 (fun d c => space2 c d) (fun e d c => space3 c d e) (reverse l1))
    as [[q Hq] Hr].
  set (l2 := strip _ _ _ (reverse l1)) in *.
  apply (f_equal reverse) in Hq. rewrite reverse_involutive, reverse_app in Hq.
  rewrite reverse_involutive. split; [split; [|done]|].
  - destruct (leading space1 space2 space3 (reverse l2)) eqn:E; [|done].
    apply (leading_app _ _ _ _ (reverse q)) in E. by rewrite <- Hq, Hl in E.
  - exists p, (reverse q). by rewrite Hp at 1; rewrite Hq at 1.
Qed.

Lemma space1_no_tail c : space1 c = true ->
  (forall a, space2 a c = false) /\ (forall a b, space3 a b c = false) /\
  (forall a b, space3 a c b = false).
Proof.
  unfold space1, space2, space3. intros H. assert (code c < 128) as Hc.
  { rewrite orb_true_iff, andb_true_iff, !Z.leb_le, Z.eqb_eq in H. lia. }
  assert (forall n, 128 <= n -> (code c =? n) = false) as Hn by (intros; apply Z.eqb_neq; lia).
  assert ((128 <=? code c) = false) as Hle by (apply Z.leb_gt; lia).
  split_and!; intros; rewrite ?Hle, !Hn by lia; by rewrite ?andb_false_r.
Qed.

Lemma space1_no_head c : space1 c = true ->
  (forall a, space2 c a = false) /\ (forall a b, space3 c a b = false).
Proof.
  unfold space1, space2, space3. intros H. assert (code c < 128) as Hc.
  { rewrite orb_true_iff, andb_true_iff, !Z.leb_le, Z.eqb_eq in H. lia. }
  assert (forall n, 128 <= n -> (code c =? n) = false) as Hn by (intros; apply Z.eqb_neq; lia).
  split; intros; by rewrite !Hn by lia.
Qed.

(** ASCII padding around a trimmed text is removed, and nothing else. *)
Lemma TrimSpace_padding p s q :
  s <> "" -> trimmed s = true ->
  Forall (fun c => space1 c = true) p -> Forall (fun c => space1 c = true) q ->
  TrimSpace (of_text (p ++ to_text s ++ q)) = s.
Proof.
  rewrite trimmed_spec. intros Hne [Hl Hr] Hp Hq.
  assert (to_text s <> []) as Hne' by (by destruct s).
  unfold TrimSpace, trim_left, trim_right. rewrite to_of_text.
  rewrite strip_padding by done.
  rewrite (strip_done _ _ _ (to_text s ++ q)).
  2:{ apply leading_app_pad; [done..|]. eapply Forall_impl; [exact Hq|]. exact space1_no_tail. }
  rewrite reverse_app, strip_padding by (by apply Forall_reverse).
  rewrite strip_done by done. by rewrite reverse_involutive, of_to_text.
Qed.

(** *** Splitting *)

Definition has_byte (c : ascii) (s : string) : Prop := c ∈ to_text s.

Lemma split_text_parts sep acc l x :
  sep ∉ acc -> x ∈ split_text sep acc l -> sep ∉ x.
Proof.
  revert acc. induction l as [|c l IH]; intros acc Hacc; cbn [split_text].
  - intros ->%list_elem_of_singleton. by rewrite elem_of_reverse.
  - case_bool_decide as Hc.
    + intros [->|Hx]%elem_of_cons; [by rewrite elem_of_reverse|].
      apply (IH [] (not_elem_of_nil _) Hx).
    + apply IH. rewrite not_elem_of_cons. done.
Qed.

Lemma Split_parts s sep p : p ∈ Split s sep -> ~ has_byte sep p.
Proof.
  unfold Split, has_byte. intros (l & -> & Hl)%list_elem_of_fmap. rewrite to_of_text.
  eapply split_text_parts; [apply not_elem_of_nil|done].
Qed.

Lemma split_text_app sep acc x l :
  sep ∉ x -> split_text sep acc (x ++ sep :: l) = (reverse acc ++ x) :: split_text sep [] l.
Proof.
  revert acc. induction x as [|c x IH]; intros acc Hx; cbn [app split_text].
  - by rewrite bool_decide_eq_true_2, app_nil_r.
  - apply not_elem_of_cons in Hx as [Hc Hx]. rewrite bool_decide_eq_false_2 by done.
    rewrite IH by done. by rewrite reverse_cons, <- app_assoc.
Qed.

Lemma split_text_last sep acc x : sep ∉ x -> split_text sep acc x = [reverse acc ++ x].
Proof.
  revert acc. induction x as [|c x IH]; intros acc Hx; cbn [split_text].
  - by rewrite app_nil_r.
  - apply not_elem_of_cons in Hx as [Hc Hx]. rewrite bool_decide_eq_false_2 by done.
    rewrite IH by done. by rewrite reverse_cons, <- app_assoc.
Qed.

(** [strings.Join] with a one-byte separator, on byte lists. *)
Fixpoint join (sep : ascii) (ls : list text) : text :=
  match ls with
  | [] => []
  | [l] => l
  | l :: ls => l ++ sep :: join sep ls
  end.

Lemma Split_join sep ls :
  ls <> [] -> Forall (fun l => sep ∉ l) ls ->
  Split (of_text (join sep ls)) sep = of_text <$> ls.
Proof.
  intros Hne Hls. unfold Split. rewrite to_of_text. f_equal.
  induction Hls as [|l ls Hl Hls IH]; [done|].
  destruct ls as [|l' ls]; [by apply split_text_last|].
  change (join sep (l :: l' :: ls)) with (l ++ sep :: join sep (l' :: ls)).
  rewrite split_text_app by done. cbn [reverse app]. by rewrite IH.
Qed.

(** ** What [ParseFloat] can return *)

Lemma code_range c : 0 <= code c < 256.
Proof. unfold code. pose proof (nat_ascii_bounded c). lia. Qed.

Lemma scan_mantissa_nonneg hex l m :
  0 <= m_val m -> 0 <= m_val (fst (scan_mantissa hex l m)).
Proof.
  revert m. induction l as [|c l IH]; intros m Hm; [done|]. cbn [scan_mantissa].
  destruct (is_underscore c); [by apply IH|]. destruct (is_dot c).
  { destruct (m_dot m); [done|by apply IH]. }
  destruct (is_digit c) eqn:Hd.
  { apply IH. cbn. unfold is_digit in Hd. destruct hex; lia. }
  destruct (hex && is_hex_letter c) eqn:Hh; [|done].
  apply IH. cbn. apply andb_true_iff in Hh as [_ Hh]. unfold is_hex_letter in Hh. lia.
Qed.

Lemma read_number_not_nan s x : read_number s = Some x -> is_nan x = false.
Proof.
  unfold read_number. destruct (read_sign s) as [neg l].
  match goal with |- context [let '(hex, l) := ?p in _] => destruct p as [hex l'] end.
  pose proof (scan_mantissa_nonneg hex l' (Mantissa false false 0 0 false)) as Hm.
  destruct (scan_mantissa _ _ _) as [m rest]. cbn [fst m_val] in Hm.
  destruct (negb (m_digits m)); [done|].
  destruct (read_exponent hex rest) as [[[e us] rest']|]; [|done]. cbn.
  destruct rest'; [|done]. destruct (_ && _); [done|]. intros [= <-]. destruct hex.
  - unfold f64_of_bin. destruct (m_val m); [done|apply binary_round_not_nan|done].
  - apply f64_of_dec_not_nan. apply Hm. lia.
Qed.

(** Infinities and NaN only come from their names. *)
Lemma ParseFloat_finite s x :
  special (to_text s) = None -> ParseFloat s = Some x -> is_finite x = true.
Proof.
  unfold ParseFloat. intros ->. destruct (read_number (to_text s)) as [y|] eqn:E; [|done].
  apply read_number_not_nan in E. by destruct y; intros [= <-].
Qed.
