(* ===== verification/Json.v ===== *)
(** * JSON values

    What [json.Marshal] is given: the Go values of the program, with numbers kept
    at their type.  A message or a reply is kept as the value its bytes encode;
    [Marshal] says when there is an encoding.  [json_string] is the text of a
    string, for the one place where the bytes matter (the engine's answers). *)

From S2P Require Import Prelude GoFloat.

#[warnings="-register-all"]
Inductive json : Type :=
| JString (s : string)
| JInt (z : Z)
| JFloat32 (f : float32)
| JFloat64 (f : float64)
| JTime (unix_ns : Z)
| JArray (l : list json)
| JObject (fields : list (string * json)).

(** [Time.MarshalJSON] refuses years outside 0 to 9999. *)
Definition year_ok (unix_ns : Z) : bool :=
  (-62167219200 * Second <=? unix_ns) && (unix_ns <? 253402300800 * Second).

(** Floats must be finite, times of a four-digit year. *)
Fixpoint encodable (j : json) : bool :=
  match j with
  | JString _ | JInt _ => true
  | JFloat32 f | JFloat64 f => is_finite f
  | JTime t => year_ok t
  | JArray l => forallb encodable l
  | JObject kvs => forallb (fun kv => encodable kv.2) kvs
  end.

Definition Marshal (j : json) : result json :=
  if encodable j then Ok j else Err "json: unsupported value".

(** ** The text of a string *)

(** Valid UTF-8 is copied, except for quotes, backslashes, control characters and
    the characters [<], [>] and [&] of HTML. *)
Definition json_char (c : ascii) : string :=
  let n := nat_of_ascii c in
  let esc (l : ascii) := String "092" (String l "") in
  let hex := esc "u"%char +:+ "00" +:+
             String (hex_digit (n / 16)) (String (hex_digit (n mod 16)) "") in
  if (n =? 34)%nat then esc "034"%char
  else if (n =? 92)%nat then esc "092"%char
  else if (n =? 8)%nat then esc "b"%char
  else if (n =? 12)%nat then esc "f"%char
  else if (n =? 10)%nat then esc "n"%char
  else if (n =? 13)%nat then esc "r"%char
  else if (n =? 9)%nat then esc "t"%char
  else if (n <? 32)%nat || (n =? 60)%nat || (n =? 62)%nat || (n =? 38)%nat then hex
  else String c "".

Fixpoint json_chars (s : string) : string :=
  match s with
  | EmptyString => EmptyString
  | String c s => json_char c +:+ json_chars s
  end.

Definition json_string (s : string) : string :=
  String "034" (json_chars s +:+ String "034" "").
