(* ===== verification/GoJson.v ===== *)
(** * Reading JSON (encoding/json)

    The scanner and the values it delivers to a decoder: numbers as the text of
    their literal, strings after unquoting.  [parse_value] recurses on fuel and
    says so when it runs out, which [parse_value_total] excludes. *)

From S2P Require Import Prelude GoFloat GoText Json.

(** ** Values *)

#[warnings="-register-all"]
Inductive jvalue : Type :=
| VNull
| VBool (b : bool)
| VNumber (lit : text)
| VString (s : text)
| VArray (l : list jvalue)
| VObject (l : list (text * jvalue)).

(** An induction principle with the values inside. *)
Section Induction.
Variable P : jvalue -> Prop.
Hypothesis P_null : P VNull.
Hypothesis P_bool : forall b, P (VBool b).
Hypothesis P_number : forall lit, P (VNumber lit).
Hypothesis P_string : forall s, P (VString s).
Hypothesis P_array : forall l, Forall P l -> P (VArray l).
Hypothesis P_object : forall l, Forall (fun kv => P kv.2) l -> P (VObject l).

Fixpoint jvalue_nested_ind (v : jvalue) : P v :=
  match v with
  | VNull => P_null
  | VBool b => P_bool b
  | VNumber lit => P_number lit
  | VString s => P_string s
  | VArray l =>
      P_array l ((fix go l : Forall P l :=
        match l with
        | [] => Forall_nil_2 _
        | v :: l => Forall_cons_2 _ _ _ (jvalue_nested_ind v) (go l)
        end) l)
  | VObject l =>
      P_object l ((fix go l : Forall (fun kv => P kv.2) l :=
        match l with
        | [] => Forall_nil_2 _
        | kv :: l => Forall_cons_2 _ _ _ (jvalue_nested_ind kv.2) (go l)
        end) l)
  end.
End Induction.

(** ** UTF-8 *)

Definition byte (z : Z) : ascii := ascii_of_nat (Z.to_nat z).

Definition within (lo hi : Z) (c : ascii) : bool := (lo <=? code c) && (code c <=? hi).
Definition continuation : ascii -> bool := within 128 191.

(** [utf8.EncodeRune] on a valid rune. *)
Definition encode_rune (r : Z) : text :=
  if r <? 128 then [byte r]
  else if r <? 2048 then [byte (192 + r / 64); byte (128 + r mod 64)]
  else if r <? 65536 then
    [byte (224 + r / 4096); byte (128 + r / 64 mod 64); byte (128 + r mod 64)]
  else [byte (240 + r / 262144); byte (128 + r / 4096 mod 64);
        byte (128 + r / 64 mod 64); byte (128 + r mod 64)].

(** [unicode.ReplacementChar] *)
Definition replacement : text := encode_rune 65533.

Definition utf8_2 (a b : ascii) : bool := within 194 223 a && continuation b.
Definition utf8_3 (a b c : ascii) : bool :=
  ((within 224 224 a && within 160 191 b) || (within 225 236 a && continuation b)
   || (within 237 237 a && within 128 159 b) || (within 238 239 a && continuation b))
  && continuation c.
Definition utf8_4 (a b c d : ascii) : bool :=
  ((within 240 240 a && within 144 191 b) || (within 241 243 a && continuation b)
   || (within 244 244 a && within 128 143 b)) && continuation c && continuation d.

(** ** Strings *)

(** What a string is made of: bytes (also the one-letter escapes) and code units
    written as [\uXXXX]. *)
Inductive item := Byte (c : ascii) | Unit (u : Z).

Definition hex_val (c : ascii) : option Z :=
  if is_digit c then Some (code c - 48)
  else if is_hex_letter c then Some (lower c - 87) else None.

(** The function [getu4] on the four characters after [\u]. *)
Definition hex4 (a b c d : ascii) : option Z :=
  a ← hex_val a; b ← hex_val b; c ← hex_val c; d ← hex_val d;
  Some (((a * 16 + b) * 16 + c) * 16 + d).

(** The character after a backslash. *)
Definition escape (c : ascii) : option ascii :=
  match code c with
  | 34 => Some "034" | 92 => Some "092" | 47 => Some "/"
  | 98 => Some "008" | 102 => Some "012" | 110 => Some "010"
  | 114 => Some "013" | 116 => Some "009"
  | _ => None
  end%char.

(** From after the opening quote to after the closing one. *)
Fixpoint scan_string (l : text) : option (list item * text) :=
  match l with
  | [] => None
  | c :: l1 =>
      if code c =? 34 then Some ([], l1)
      else if code c =? 92 then
        match l1 with
        | [] => None
        | e :: l2 =>
            match escape e with
            | Some x => '(its, rest) ← scan_string l2; Some (Byte x :: its, rest)
            | None =>
                if code e =? 117 then
                  match l2 with
                  | h1 :: h2 :: h3 :: h4 :: l3 =>
                      u ← hex4 h1 h2 h3 h4;
                      '(its, rest) ← scan_string l3; Some (Unit u :: its, rest)
                  | _ => None
                  end
                else None
            end
        end
      else if code c <? 32 then None
      else '(its, rest) ← scan_string l1; Some (Byte c :: its, rest)
  end.

Definition is_surrogate (u : Z) : bool := (55296 <=? u) && (u <? 57344).

(** [utf16.DecodeRune], when the two halves fit. *)
Definition surrogate_pair (u1 u2 : Z) : option Z :=
  if (55296 <=? u1) && (u1 <? 56320) && (56320 <=? u2) && (u2 <? 57344)
  then Some ((u1 - 55296) * 1024 + (u2 - 56320) + 65536) else None.

(** [unquote]: half surrogates and bytes that are not UTF-8 become U+FFFD. *)
Fixpoint unquote (l : list item) : text :=
  match l with
  | [] => []
  | Unit u :: l1 =>
      if is_surrogate u then
        match l1 with
        | Unit u2 :: l2 =>
            match surrogate_pair u u2 with
            | Some r => encode_rune r ++ unquote l2
            | None => replacement ++ unquote l1
            end
        | _ => replacement ++ unquote l1
        end
      else encode_rune u ++ unquote l1
  | Byte a :: l1 =>
      if code a <? 128 then a :: unquote l1
      else match l1 with
           | Byte b :: l2 =>
               if utf8_2 a b then a :: b :: unquote l2
               else match l2 with
                    | Byte c :: l3 =>
                        if utf8_3 a b c then a :: b :: c :: unquote l3
                        else match l3 with
                             | Byte d :: l4 =>
                                 if utf8_4 a b c d then a :: b :: c :: d :: unquote l4
                                 else replacement ++ unquote l1
                             | _ => replacement ++ unquote l1
                             end
                    | _ => replacement ++ unquote l1
                    end
           | _ => replacement ++ unquote l1
           end
  end.

(** ** Numbers and literals *)

Fixpoint scan_digits (l : text) : text * text :=
  match l with
  | c :: l' => if is_digit c then let (ds, rest) := scan_digits l' in (c :: ds, rest) else ([], l)
  | [] => ([], [])
  end.

(** One or more digits. *)
Definition scan_digits1 (l : text) : option (text * text) :=
  match scan_digits l with ([], _) => None | (ds, rest) => Some (ds, rest) end.

(** The integer part: a zero, or digits that do not start with one. *)
Definition scan_int (l : text) : option (text * text) :=
  match l with
  | c :: l' => if code c =? 48 then Some ([c], l') else scan_digits1 l
  | [] => None
  end.

Definition scan_fraction (l : text) : option (text * text) :=
  match l with
  | c :: l' =>
      if is_dot c then '(ds, rest) ← scan_digits1 l'; Some (c :: ds, rest) else Some ([], l)
  | [] => Some ([], [])
  end.

Definition scan_sign (l : text) : text * text :=
  match l with
  | c :: l' => if is_plus c || is_minus c then ([c], l') else ([], l)
  | [] => ([], [])
  end.

Definition scan_exp (l : text) : option (text * text) :=
  match l with
  | c :: l' =>
      if lower c =? 101 then
        let (sgn, l2) := scan_sign l' in
        '(ds, rest) ← scan_digits1 l2; Some (c :: sgn ++ ds, rest)
      else Some ([], l)
  | [] => Some ([], [])
  end.

Definition scan_number (l : text) : option (text * text) :=
  let '(sgn, l) := match l with
                   | c :: l' => if is_minus c then ([c], l') else ([], l)
                   | [] => ([], [])
                   end in
  '(int, l) ← scan_int l;
  '(frac, l) ← scan_fraction l;
  '(exp, l) ← scan_exp l;
  Some (sgn ++ int ++ frac ++ exp, l).

(** [t], [f] or [n]: the rest of the word. *)
Fixpoint expect (w l : text) : option text :=
  match w, l with
  | [], _ => Some l
  | c :: w, d :: l => if Ascii.eqb c d then expect w l else None
  | _, [] => None
  end.

(** ** Values *)

Definition is_space (c : ascii) : bool :=
  let n := code c in (n =? 32) || (n =? 9) || (n =? 13) || (n =? 10).

Fixpoint skip_space (l : text) : text :=
  match l with
  | c :: l' => if is_space c then skip_space l' else l
  | [] => []
  end.

Inductive presult (A : Type) :=
| Done (a : A) (rest : text)
| Syntax
| OutOfFuel.
Arguments Done {A}.
Arguments Syntax {A}.
Arguments OutOfFuel {A}.

(** The scanner's [maxNestingDepth]. *)
Definition maxNestingDepth : Z := 10000.

Definition of_option {A B} (f : A -> B) (o : option (A * text)) : presult B :=
  match o with Some (a, rest) => Done (f a) rest | None => Syntax end.

Definition of_word (v : jvalue) (o : option text) : presult jvalue :=
  match o with Some rest => Done v rest | None => Syntax end.

(** [depth] is the number of open arrays and objects. *)
Fixpoint parse_value (fuel : nat) (depth : Z) (l : text) : presult jvalue :=
  match fuel with
  | O => OutOfFuel
  | S fuel =>
      match skip_space l with
      | [] => Syntax
      | c :: l1 =>
          if code c =? 123 then
            if maxNestingDepth <=? depth then Syntax
            else match skip_space l1 with
                 | d :: l2 => if code d =? 125 then Done (VObject []) l2
                              else parse_members fuel (depth + 1) l1 []
                 | [] => Syntax
                 end
          else if code c =? 91 then
            if maxNestingDepth <=? depth then Syntax
            else match skip_space l1 with
                 | d :: l2 => if code d =? 93 then Done (VArray []) l2
                              else parse_elements fuel (depth + 1) l1 []
                 | [] => Syntax
                 end
          else if code c =? 34 then of_option (fun its => VString (unquote its)) (scan_string l1)
          else if code c =? 116 then of_word (VBool true) (expect (to_text "rue") l1)
          else if code c =? 102 then of_word (VBool false) (expect (to_text "alse") l1)
          else if code c =? 110 then of_word VNull (expect (to_text "ull") l1)
          else of_option VNumber (scan_number (c :: l1))
      end
  end
with parse_members (fuel : nat) (depth : Z) (l : text) (acc : list (text * jvalue))
    : presult jvalue :=
  match fuel with
  | O => OutOfFuel
  | S fuel =>
      match skip_space l with
      | q :: l1 =>
          if code q =? 34 then
            match scan_string l1 with
            | None => Syntax
            | Some (its, l2) =>
                match skip_space l2 with
                | c :: l3 =>
                    if code c =? 58 then
                      match parse_value fuel depth l3 with
                      | Done v l4 =>
                          let acc := acc ++ [(unquote its, v)] in
                          match skip_space l4 with
                          | d :: l5 =>
                              if code d =? 44 then parse_members fuel depth l5 acc
                              else if code d =? 125 then Done (VObject acc) l5 else Syntax
                          | [] => Syntax
                          end
                      | Syntax => Syntax
                      | OutOfFuel => OutOfFuel
                      end
                    else Syntax
                | [] => Syntax
                end
            end
          else Syntax
      | [] => Syntax
      end
  end
with parse_elements (fuel : nat) (depth : Z) (l : text) (acc : list jvalue) : presult jvalue :=
  match fuel with
  | O => OutOfFuel
  | S fuel =>
      match parse_value fuel depth l with
      | Done v l4 =>
          let acc := acc ++ [v] in
          match skip_space l4 with
          | d :: l5 =>
              if code d =? 44 then parse_elements fuel depth l5 acc
              else if code d =? 93 then Done (VArray acc) l5 else Syntax
          | [] => Syntax
          end
      | Syntax => Syntax
      | OutOfFuel => OutOfFuel
      end
  end.

(** A token takes a character or ends the parse; an element costs a call more. *)
Definition enough (l : text) : nat := S (S (2 * length l)).

(** [checkValid] and decoding: the whole text is one value. *)
Definition parse (l : text) : option jvalue :=
  match parse_value (enough l) 0 l with
  | Done v rest => match skip_space rest with [] => Some v | _ => None end
  | _ => None
  end.

(** What a [json.Decoder] reads first: a value, whatever follows it. *)
Definition parse_first (l : text) : option jvalue :=
  match parse_value (enough l) 0 l with Done v _ => Some v | _ => None end.

(** ** Lemmas: every step consumes the text *)

Lemma skip_space_length l : (length (skip_space l) <= length l)%nat.
Proof. induction l as [|c l IH]; [done|]. cbn. destruct (is_space c); cbn; lia. Qed.

Lemma scan_string_length n l its rest :
  (length l <= n)%nat -> scan_string l = Some (its, rest) -> (length rest < length l)%nat.
Proof.
  revert l its rest. induction n as [|n IH]; intros [|c l] its rest Hn; cbn in *; [done|lia|done|].
  assert (forall l' (f : list item -> list item) its rest, (length l' <= n)%nat ->
    ('(its, rest) ← scan_string l'; Some (f its, rest)) = Some (its, rest) ->
    (length rest < length l')%nat) as Hrec.
  { intros l' f its' rest' Hl'. destruct (scan_string l') as [[i r]|] eqn:E; [|done].
    cbn. intros [= _ <-]. by eapply IH. }
  destruct (code c =? 34); [intros [= _ <-]; lia|].
  destruct (code c =? 92).
  2:{ destruct (code c <? 32); [done|]. intros E%(Hrec _ (cons (Byte c))); lia. }
  destruct l as [|e l2]; [done|]. cbn in *. destruct (escape e) as [x|].
  { intros E%(Hrec _ (cons (Byte x))); lia. }
  destruct (code e =? 117); [|done].
  destruct l2 as [|h1 [|h2 [|h3 [|h4 l3]]]]; try done. cbn in *.
  destruct (hex4 h1 h2 h3 h4) as [u|]; [|done]. cbn.
  intros E%(Hrec _ (cons (Unit u))); lia.
Qed.

Lemma scan_digits_app l ds rest : scan_digits l = (ds, rest) -> l = ds ++ rest.
Proof.
  revert ds. induction l as [|c l IH]; intros ds; cbn; [by intros [= <- <-]|].
  destruct (is_digit c); [|by intros [= <- <-]].
  destruct (scan_digits l) as [ds' r']. intros [= <- <-]. cbn. f_equal. by apply IH.
Qed.

Lemma scan_digits1_app l ds rest :
  scan_digits1 l = Some (ds, rest) -> l = ds ++ rest /\ ds <> [].
Proof.
  unfold scan_digits1. destruct (scan_digits l) as [[|c ds'] r'] eqn:E; [done|].
  intros [= <- <-]. split; [by apply scan_digits_app|done].
Qed.

(** A number literal is the text it was read from. *)
Lemma scan_number_app l lit rest :
  scan_number l = Some (lit, rest) -> l = lit ++ rest /\ lit <> [].
Proof.
  unfold scan_number.
  assert (exists sgn l0, (match l with
    | c :: l' => if is_minus c then ([c], l') else ([], l) | [] => ([], []) end) = (sgn, l0) /\
    l = sgn ++ l0) as (sgn & l0 & -> & ->).
  { destruct l as [|c l]; [by exists [], []|]. destruct (is_minus c); by do 2 eexists. }
  destruct (scan_int l0) as [[int l1]|] eqn:Ei; [|done]. cbn.
  destruct (scan_fraction l1) as [[frac l2]|] eqn:Ef; [|done]. cbn.
  destruct (scan_exp l2) as [[exp l3]|] eqn:Ee; [|done]. cbn. intros [= <- <-].
  assert (l0 = int ++ l1 /\ int <> []) as [-> Hne].
  { destruct l0 as [|c l0]; [done|]. cbn [scan_int] in Ei. destruct (code c =? 48).
    - by injection Ei as <- <-.
    - by apply scan_digits1_app. }
  assert (l1 = frac ++ l2) as ->.
  { destruct l1 as [|c l1]; [by injection Ef as <- <-|]. cbn [scan_fraction] in Ef.
    destruct (is_dot c); [|by injection Ef as <- <-].
    destruct (scan_digits1 l1) as [[ds r]|] eqn:Ed; [|done]. injection Ef as <- <-.
    by apply scan_digits1_app in Ed as [-> _]. }
  assert (l2 = exp ++ l3) as ->.
  { destruct l2 as [|c l2]; [by injection Ee as <- <-|]. cbn [scan_exp] in Ee.
    destruct (lower c =? 101); [|by injection Ee as <- <-].
    assert (exists s r, scan_sign l2 = (s, r) /\ l2 = s ++ r) as (s & r & Hs & ->).
    { destruct l2 as [|d l2]; [by exists [], []|]. cbn [scan_sign].
      destruct (is_plus d || is_minus d); by do 2 eexists. }
    rewrite Hs in Ee. destruct (scan_digits1 r) as [[ds r']|] eqn:Ed; [|done].
    injection Ee as <- <-. apply scan_digits1_app in Ed as [-> _]. cbn. by rewrite <- app_assoc. }
  rewrite <- !app_assoc. split; [done|]. destruct sgn; [|done]. by destruct int.
Qed.

Lemma scan_number_length l lit rest :
  scan_number l = Some (lit, rest) -> (length rest < length l)%nat.
Proof.
  intros [-> Hne]%scan_number_app. rewrite length_app. destruct lit; [done|]. cbn. lia.
Qed.

Lemma expect_length w l rest : expect w l = Some rest -> (length rest <= length l)%nat.
Proof.
  revert l. induction w as [|c w IH]; intros l; [by intros [= ->]|].
  destruct l as [|d l]; [done|]. cbn. destruct (Ascii.eqb c d); [|done].
  intros E%IH. lia.
Qed.

(** The outcome of a parse with enough fuel: not [OutOfFuel], and less text. *)
Definition consumes (n : nat) {A} (r : presult A) : Prop :=
  match r with Done _ rest => (length rest < n)%nat | Syntax => True | OutOfFuel => False end.

Lemma consumes_mono n m {A} (r : presult A) : consumes n r -> (n <= m)%nat -> consumes m r.
Proof. destruct r; cbn; [lia|done..]. Qed.

Lemma parse_consumes fuel :
  (forall depth l, (2 * length l < fuel)%nat -> consumes (length l) (parse_value fuel depth l)) /\
  (forall depth l acc, (2 * length l < fuel)%nat ->
     consumes (length l) (parse_members fuel depth l acc)) /\
  (forall depth l acc, (S (2 * length l) < fuel)%nat ->
     consumes (length l) (parse_elements fuel depth l acc)).
Proof.
  induction fuel as [|fuel (IHv & IHm & IHe)]; [split_and!; lia|]. split_and!.
  - intros depth l Hl. cbn [parse_value]. pose proof (skip_space_length l) as Hs.
    destruct (skip_space l) as [|c l1]; [done|]. cbn [length] in Hs.
    pose proof (skip_space_length l1) as Hs1.
    destruct (code c =? 123).
    { destruct (maxNestingDepth <=? depth); [done|].
      destruct (skip_space l1) as [|d l2]; [done|]. cbn [length] in Hs1.
      destruct (code d =? 125); [cbn; lia|].
      eapply consumes_mono; [apply IHm|]; lia. }
    destruct (code c =? 91).
    { destruct (maxNestingDepth <=? depth); [done|].
      destruct (skip_space l1) as [|d l2]; [done|]. cbn [length] in Hs1.
      destruct (code d =? 93); [cbn; lia|].
      eapply consumes_mono; [apply IHe|]; lia. }
    destruct (code c =? 34).
    { destruct (scan_string l1) as [[its rest]|] eqn:E; [|done]. cbn.
      apply (scan_string_length (length l1)) in E; lia. }
    assert (forall v w, consumes (length l) (of_word v (expect w l1))) as Hw.
    { intros v w. destruct (expect w l1) as [rest|] eqn:E; [|done]. cbn.
      apply expect_length in E. lia. }
    destruct (code c =? 116); [apply Hw|]. destruct (code c =? 102); [apply Hw|].
    destruct (code c =? 110); [apply Hw|].
    destruct (scan_number (c :: l1)) as [[lit rest]|] eqn:E; [|done]. cbn.
    apply scan_number_length in E. cbn in E. lia.
  - intros depth l acc Hl. cbn [parse_members]. pose proof (skip_space_length l) as Hs.
    destruct (skip_space l) as [|q l1]; [done|]. cbn [length] in Hs.
    destruct (code q =? 34); [|done]. destruct (scan_string l1) as [[its l2]|] eqn:E; [|done].
    apply (scan_string_length (length l1)) in E; [|lia]. pose proof (skip_space_length l2) as Hs2.
    destruct (skip_space l2) as [|c l3]; [done|]. cbn [length] in Hs2.
    destruct (code c =? 58); [|done].
    pose proof (IHv depth l3 ltac:(lia)) as Hv.
    destruct (parse_value fuel depth l3) as [v l4| |]; [|done..]. cbn in Hv.
    pose proof (skip_space_length l4) as Hs4.
    destruct (skip_space l4) as [|d l5]; [done|]. cbn [length] in Hs4.
    destruct (code d =? 44); [|destruct (code d =? 125); cbn; [lia|done]].
    eapply consumes_mono; [apply IHm|]; lia.
  - intros depth l acc Hl. cbn [parse_elements]. pose proof (IHv depth l ltac:(lia)) as Hv.
    destruct (parse_value fuel depth l) as [v l4| |]; [|done..]. cbn in Hv.
    pose proof (skip_space_length l4) as Hs4.
    destruct (skip_space l4) as [|d l5]; [done|]. cbn [length] in Hs4.
    destruct (code d =? 44); [|destruct (code d =? 93); cbn; [lia|done]].
    eapply consumes_mono; [apply IHe|]; lia.
Qed.

(** The fuel of [parse] is enough for any text. *)
Lemma parse_value_total depth l : parse_value (enough l) depth l <> OutOfFuel.
Proof.
  destruct (parse_consumes (enough l)) as (Hv & _ & _).
  specialize (Hv depth l). unfold enough in *. intros E. rewrite E in Hv. apply Hv. lia.
Qed.

(** ** The numbers of a value *)

(** A digit, perhaps after a minus. *)
Definition starts_number (lit : text) : Prop :=
  exists c t, is_digit c = true /\ (lit = c :: t \/ exists m, is_minus m = true /\ lit = m :: c :: t).

Lemma scan_int_starts l ds rest :
  scan_int l = Some (ds, rest) -> exists c t, is_digit c = true /\ ds = c :: t.
Proof.
  destruct l as [|c l]; [done|]. cbn [scan_int]. destruct (code c =? 48) eqn:E0.
  - intros [= <- _]. exists c, []. split; [|done]. unfold is_digit. lia.
  - unfold scan_digits1. cbn [scan_digits]. destruct (is_digit c) eqn:Hc; [|done].
    destruct (scan_digits l) as [ds' r]. intros [= <- _]. eauto.
Qed.

Lemma scan_number_starts l lit rest : scan_number l = Some (lit, rest) -> starts_number lit.
Proof.
  unfold scan_number. intros H.
  assert (forall sgn l0, ('(int, l1) ← scan_int l0; '(frac, l2) ← scan_fraction l1;
      '(exp, l3) ← scan_exp l2; Some (sgn ++ int ++ frac ++ exp, l3)) = Some (lit, rest) ->
    exists c t, is_digit c = true /\ lit = sgn ++ c :: t) as Hint.
  { clear. intros sgn l0. destruct (scan_int l0) as [[int l1]|] eqn:E; [|done].
    apply scan_int_starts in E as (c & t & Hc & ->). cbn.
    destruct (scan_fraction l1) as [[frac l2]|]; [|done]. cbn.
    destruct (scan_exp l2) as [[exp l3]|]; [|done]. cbn. intros [= <- _]. eauto. }
  destruct l as [|m l].
  - apply Hint in H as (c & t & Hc & ->). exists c, t. eauto.
  - destruct (is_minus m) eqn:Hm; apply Hint in H as (c & t & Hc & ->); exists c, t; cbn; eauto.
Qed.

Lemma lower_text_head c u d w :
  code c < 65 -> lower_text (c :: u) = d :: w -> d < 65.
Proof.
  unfold lower_text. cbn [fmap list_fmap]. intros Hc E. injection E as E _.
  assert ((65 <=? code c) = false) as Hf by lia. rewrite Hf in E. cbn [andb] in E. lia.
Qed.

Lemma number_not_special lit : starts_number lit -> special lit = None.
Proof.
  intros (c & t & Hc & Hlit).
  assert (code c < 65 /\ is_plus c = false /\ is_minus c = false) as (Hlow & Hp & Hm).
  { unfold is_digit, is_plus, is_minus in *. lia. }
  unfold special. destruct Hlit as [->|(m & Hminus & ->)]; cbn [read_sign].
  - rewrite Hp, Hm, !bool_decide_eq_false_2; [done|..];
      (intros E; apply lower_text_head in E; [by vm_compute in E|done]).
  - assert (is_plus m = false) as -> by (unfold is_plus, is_minus in *; lia).
    assert (code m < 65) as Hm' by (unfold is_minus in Hminus; lia).
    rewrite Hminus, !bool_decide_eq_false_2; [done|..];
      (intros E; apply lower_text_head in E; [by vm_compute in E|done]).
Qed.

(** The numbers directly in an object come from the scanner. *)
Definition member_number (v : jvalue) : Prop :=
  match v with VNumber lit => starts_number lit | _ => True end.

Definition sound (v : jvalue) : Prop :=
  member_number v /\
  match v with VObject kvs => Forall (fun kv => member_number kv.2) kvs | _ => True end.

Definition yields {A} (P : A -> Prop) (r : presult A) : Prop :=
  match r with Done a _ => P a | _ => True end.

Lemma parse_sound fuel :
  (forall depth l, yields sound (parse_value fuel depth l)) /\
  (forall depth l acc, Forall (fun kv => member_number kv.2) acc ->
     yields sound (parse_members fuel depth l acc)) /\
  (forall depth l acc, yields sound (parse_elements fuel depth l acc)).
Proof.
  induction fuel as [|fuel (IHv & IHm & IHe)]; [done|]. split_and!.
  - intros depth l. cbn [parse_value]. destruct (skip_space l) as [|c l1]; [done|].
    destruct (code c =? 123).
    { destruct (maxNestingDepth <=? depth); [done|]. destruct (skip_space l1) as [|d l2]; [done|].
      destruct (code d =? 125); [by repeat split|]. by apply IHm. }
    destruct (code c =? 91).
    { destruct (maxNestingDepth <=? depth); [done|]. destruct (skip_space l1) as [|d l2]; [done|].
      destruct (code d =? 93); [done|]. apply IHe. }
    destruct (code c =? 34); [by destruct (scan_string l1) as [[its rest]|]|].
    destruct (code c =? 116); [by destruct (expect _ l1)|].
    destruct (code c =? 102); [by destruct (expect _ l1)|].
    destruct (code c =? 110); [by destruct (expect _ l1)|].
    destruct (scan_number (c :: l1)) as [[lit rest]|] eqn:E; [|done].
    split; [|done]. by eapply scan_number_starts.
  - intros depth l acc Hacc. cbn [parse_members]. destruct (skip_space l) as [|q l1]; [done|].
    destruct (code q =? 34); [|done]. destruct (scan_string l1) as [[its l2]|]; [|done].
    destruct (skip_space l2) as [|c l3]; [done|]. destruct (code c =? 58); [|done].
    pose proof (IHv depth l3) as Hv. destruct (parse_value fuel depth l3) as [v l4| |]; [|done..].
    assert (Forall (fun kv => member_number kv.2) (acc ++ [(unquote its, v)])) as Hacc'.
    { apply Forall_app. split; [done|]. apply Forall_singleton. apply Hv. }
    destruct (skip_space l4) as [|d l5]; [done|]. destruct (code d =? 44); [by apply IHm|].
    by destruct (code d =? 125).
  - intros depth l acc. cbn [parse_elements].
    destruct (parse_value fuel depth l) as [v l4| |]; [|done..].
    destruct (skip_space l4) as [|d l5]; [done|]. destruct (code d =? 44); [apply IHe|].
    by destruct (code d =? 93).
Qed.

(** ** More fuel changes nothing *)

Lemma parse_fuel n m : (n <= m)%nat ->
  (forall depth l, parse_value n depth l <> OutOfFuel ->
     parse_value m depth l = parse_value n depth l) /\
  (forall depth l acc, parse_members n depth l acc <> OutOfFuel ->
     parse_members m depth l acc = parse_members n depth l acc) /\
  (forall depth l acc, parse_elements n depth l acc <> OutOfFuel ->
     parse_elements m depth l acc = parse_elements n depth l acc).
Proof.
  revert m. induction n as [|n IH]; intros m Hm; [done|].
  destruct m as [|m]; [lia|]. destruct (IH m ltac:(lia)) as (IHv & IHm & IHe). split_and!.
  - intros depth l. cbn [parse_value]. destruct (skip_space l) as [|c l1]; [done|].
    destruct (code c =? 123).
    { destruct (maxNestingDepth <=? depth); [done|]. destruct (skip_space l1) as [|d l2]; [done|].
      destruct (code d =? 125); [done|]. apply IHm. }
    destruct (code c =? 91); [|done].
    destruct (maxNestingDepth <=? depth); [done|]. destruct (skip_space l1) as [|d l2]; [done|].
    destruct (code d =? 93); [done|]. apply IHe.
  - intros depth l acc. cbn [parse_members]. destruct (skip_space l) as [|q l1]; [done|].
    destruct (code q =? 34); [|done]. destruct (scan_string l1) as [[its l2]|]; [|done].
    destruct (skip_space l2) as [|c l3]; [done|]. destruct (code c =? 58); [|done].
    intros H. rewrite IHv by (by intros E; rewrite E in H).
    destruct (parse_value n depth l3) as [v l4| |]; [|done..].
    destruct (skip_space l4) as [|d l5]; [done|]. destruct (code d =? 44); [by apply IHm|done].
  - intros depth l acc. cbn [parse_elements].
    intros H. rewrite IHv by (by intros E; rewrite E in H).
    destruct (parse_value n depth l) as [v l4| |]; [|done..].
    destruct (skip_space l4) as [|d l5]; [done|]. destruct (code d =? 44); [by apply IHe|done].
Qed.

Lemma parse_value_fuel n depth l :
  (enough l <= n)%nat -> parse_value n depth l = parse_value (enough l) depth l.
Proof. intros Hn. apply (parse_fuel (enough l) n Hn), parse_value_total. Qed.
