(* ===== verification/GoPrint.v ===== *)
(** * JSON texts that are read back (encoding/json)

    [print] writes a value without spaces, with the escapes of [json.Marshal];
    [parse_print] says that [parse_value] reads back what it wrote.  A printed value
    holds no control characters, so it fits on a line. *)

From S2P Require Import Prelude GoFloat GoText Json GoJson.

(** ** Printing *)

Definition dquote : ascii := "034".

Definition quoted (s : text) : text :=
  dquote :: concat (map (fun c => to_text (json_char c)) s) ++ [dquote].

Fixpoint print (v : jvalue) : text :=
  match v with
  | VNull => to_text "null"
  | VBool b => to_text (if b then "true" else "false")
  | VNumber lit => lit
  | VString s => quoted s
  | VArray l => "["%char :: join "," (map print l) ++ ["]"%char]
  | VObject l =>
      "{"%char :: join "," (map (fun kv => quoted kv.1 ++ ":"%char :: print kv.2) l) ++ ["}"%char]
  end.

Definition ascii_text (s : text) : Prop := Forall (fun c => code c < 128) s.

(** A number literal, all of it. *)
Definition number_literal (lit : text) : Prop := scan_number lit = Some (lit, []).

Fixpoint printable (v : jvalue) : Prop :=
  match v with
  | VNull | VBool _ => True
  | VNumber lit => number_literal lit
  | VString s => ascii_text s
  | VArray l => (fix go l := match l with [] => True | v :: l => printable v /\ go l end) l
  | VObject l =>
      (fix go l := match l with
                   | [] => True
                   | kv :: l => (ascii_text kv.1 /\ printable kv.2) /\ go l
                   end) l
  end.

Fixpoint nesting (v : jvalue) : Z :=
  match v with
  | VArray l => 1 + foldr Z.max 0 (map nesting l)
  | VObject l => 1 + foldr Z.max 0 (map (fun kv => nesting kv.2) l)
  | _ => 0
  end.

(** *** Strings *)

Definition item_of (c : ascii) : item :=
  let n := code c in
  if ((n <? 32) && negb ((n =? 8) || (n =? 9) || (n =? 10) || (n =? 12) || (n =? 13)))
     || (n =? 60) || (n =? 62) || (n =? 38)
  then Unit n else Byte c.

Lemma scan_string_char c l :
  code c < 128 ->
  scan_string (to_text (json_char c) ++ l) =
    ('(its, rest) ← scan_string l; Some (item_of c :: its, rest)).
Proof.
  destruct c as [[] [] [] [] [] [] [] []]; intros Hc; try (exfalso; vm_compute in Hc; discriminate);
    reflexivity.
Qed.

Lemma unquote_char c its : code c < 128 -> unquote (item_of c :: its) = c :: unquote its.
Proof.
  destruct c as [[] [] [] [] [] [] [] []]; intros Hc; try (exfalso; vm_compute in Hc; discriminate);
    reflexivity.
Qed.

Lemma scan_string_quoted s rest :
  ascii_text s ->
  exists its, scan_string (concat (map (fun c => to_text (json_char c)) s) ++ dquote :: rest)
      = Some (its, rest) /\ unquote its = s.
Proof.
  induction 1 as [|c s Hc _ (its & E & Hu)]; [by exists []|].
  exists (item_of c :: its). cbn [map concat]. rewrite <- app_assoc, scan_string_char, E by done.
  cbn [mbind option_bind]. by rewrite unquote_char, Hu.
Qed.

(** *** Numbers *)

(** What can follow a number without becoming part of it. *)
Definition stops (rest : text) : bool :=
  match rest with
  | [] => true
  | c :: _ => negb (is_digit c || is_dot c || (lower c =? 101))
  end.

Lemma scan_digits_stop l ds r rest :
  scan_digits l = (ds, r) -> (r = [] -> stops rest = true) ->
  scan_digits (l ++ rest) = (ds, r ++ rest).
Proof.
  revert ds. induction l as [|c l IH]; intros ds; cbn [scan_digits app].
  - intros [= <- <-] Hs. specialize (Hs eq_refl). destruct rest as [|c rest]; [done|].
    cbn in *. by destruct (is_digit c).
  - destruct (is_digit c); [|by intros [= <- <-]].
    destruct (scan_digits l) as [ds' r']. intros [= <- <-] Hs. by rewrite (IH ds').
Qed.

Lemma scan_digits1_stop l ds r rest :
  scan_digits1 l = Some (ds, r) -> (r = [] -> stops rest = true) ->
  scan_digits1 (l ++ rest) = Some (ds, r ++ rest).
Proof.
  unfold scan_digits1. destruct (scan_digits l) as [ds' r'] eqn:E. intros H Hs.
  assert (r' = r) as -> by (destruct ds'; [done|congruence]).
  rewrite (scan_digits_stop _ _ _ _ E Hs). by destruct ds'; [|injection H as <-].
Qed.

Lemma scan_int_stop l a r rest :
  scan_int l = Some (a, r) -> (r = [] -> stops rest = true) ->
  scan_int (l ++ rest) = Some (a, r ++ rest).
Proof.
  destruct l as [|c l]; [done|]. cbn [scan_int app]. destruct (code c =? 48).
  - by intros [= <- <-].
  - intros H Hs. change (c :: l ++ rest) with ((c :: l) ++ rest). by apply scan_digits1_stop.
Qed.

Lemma scan_fraction_stop l a r rest :
  scan_fraction l = Some (a, r) -> (r = [] -> stops rest = true) ->
  scan_fraction (l ++ rest) = Some (a, r ++ rest).
Proof.
  destruct l as [|c l]; cbn [scan_fraction app].
  - intros [= <- <-] Hs. specialize (Hs eq_refl). destruct rest as [|c rest]; [done|].
    cbn in *. by destruct (is_digit c), (is_dot c).
  - destruct (is_dot c); [|by intros [= <- <-]].
    destruct (scan_digits1 l) as [[ds r']|] eqn:E; [|done]. intros [= <- <-] Hs.
    by rewrite (scan_digits1_stop _ _ _ _ E Hs).
Qed.

Lemma scan_exp_stop l a r rest :
  scan_exp l = Some (a, r) -> (r = [] -> stops rest = true) ->
  scan_exp (l ++ rest) = Some (a, r ++ rest).
Proof.
  destruct l as [|c l]; cbn [scan_exp app].
  - intros [= <- <-] Hs. specialize (Hs eq_refl). destruct rest as [|c rest]; [done|].
    cbn in *. destruct (lower c =? 101); [|done]. by rewrite orb_true_r in Hs.
  - destruct (lower c =? 101); [|by intros [= <- <-]].
    assert (l <> [] -> scan_sign (l ++ rest) =
      let (s, r) := scan_sign l in (s, r ++ rest)) as Hsign.
    { destruct l as [|d l]; [done|]. intros _. cbn. by destruct (is_plus d || is_minus d). }
    destruct l as [|d l]; [done|]. rewrite Hsign by done.
    destruct (scan_sign (d :: l)) as [s r1].
    destruct (scan_digits1 r1) as [[ds r']|] eqn:E; [|done]. intros [= <- <-] Hs.
    by rewrite (scan_digits1_stop _ _ _ _ E Hs).
Qed.

Lemma scan_number_stop lit rest :
  number_literal lit -> stops rest = true -> scan_number (lit ++ rest) = Some (lit, rest).
Proof.
  unfold number_literal, scan_number. intros H Hs.
  assert (lit <> []) as Hne by (intros ->; discriminate).
  set (sign := fun l : text => match l with
    | c :: l' => if is_minus c then ([c], l') else ([], l) | [] => ([], []) end).
  change (match lit ++ rest with
    | c :: l' => if is_minus c then ([c], l') else ([], lit ++ rest) | [] => ([], []) end)
    with (sign (lit ++ rest)).
  change (match lit with
    | c :: l' => if is_minus c then ([c], l') else ([], lit) | [] => ([], []) end)
    with (sign lit) in H.
  assert (sign (lit ++ rest) = let (s, r) := sign lit in (s, r ++ rest)) as ->.
  { destruct lit as [|c lit]; [done|]. cbn. by destruct (is_minus c). }
  destruct (sign lit) as [sgn l0].
  destruct (scan_int l0) as [[int l1]|] eqn:Ei; [|done]. cbn [mbind option_bind] in *.
  destruct (scan_fraction l1) as [[frac l2]|] eqn:Ef; [|done]. cbn [mbind option_bind] in *.
  destruct (scan_exp l2) as [[exp l3]|] eqn:Ee; [|done]. cbn [mbind option_bind] in *.
  injection H as Hlit ->.
  rewrite (scan_int_stop _ _ _ rest Ei) by done. cbn [mbind option_bind].
  rewrite (scan_fraction_stop _ _ _ rest Ef) by done. cbn [mbind option_bind].
  rewrite (scan_exp_stop _ _ _ rest Ee) by done. cbn [mbind option_bind].
  by rewrite Hlit.
Qed.

(** A literal starts with a digit or a minus. *)
Lemma number_literal_head lit :
  number_literal lit -> exists c t, lit = c :: t /\ is_digit c || is_minus c = true.
Proof.
  unfold number_literal, scan_number. destruct lit as [|c t]; [done|].
  intros H. exists c, t. split; [done|]. destruct (is_minus c); [apply orb_true_r|].
  rewrite orb_false_r. cbn [scan_int] in H. destruct (code c =? 48) eqn:E0.
  { unfold is_digit. apply Z.eqb_eq in E0. by rewrite E0. }
  cbn [scan_digits1 scan_digits] in H. unfold scan_digits1 in H. cbn [scan_digits] in H.
  by destruct (is_digit c).
Qed.

(** *** Values *)

(** The first character of a value: no space, and no closing bracket. *)
Lemma print_head v : printable v ->
  exists c t, print v = c :: t /\ is_space c = false /\ (code c =? 93) = false /\
    (code c =? 125) = false.
Proof.
  destruct v as [|[]|lit|s|l|l]; cbn; intros Hp; try (do 2 eexists; split; [reflexivity|done]).
  destruct (number_literal_head lit Hp) as (c & t & -> & Hc). do 2 eexists. split; [reflexivity|].
  clear Hp. destruct c as [[] [] [] [] [] [] [] []]; vm_compute in Hc |- *; done.
Qed.

(** The dispatch of [parse_value] on the head of a number. *)
Lemma parse_value_number fuel depth lit rest :
  number_literal lit -> stops rest = true ->
  parse_value (S fuel) depth (lit ++ rest) = Done (VNumber lit) rest.
Proof.
  intros Hl Hs. pose proof (scan_number_stop lit rest Hl Hs) as E.
  destruct (number_literal_head lit Hl) as (c & t & -> & Hc).
  cbn [app parse_value skip_space].
  assert (is_space c = false /\ (code c =? 123) = false /\ (code c =? 91) = false /\
    (code c =? 34) = false /\ (code c =? 116) = false /\ (code c =? 102) = false /\
    (code c =? 110) = false) as (-> & -> & -> & -> & -> & -> & ->).
  { clear -Hc. destruct c as [[] [] [] [] [] [] [] []]; vm_compute in Hc |- *; done. }
  cbn [app] in E. by rewrite E.
Qed.

Lemma skip_space_head c l : is_space c = false -> skip_space (c :: l) = c :: l.
Proof. intros H. cbn. by rewrite H. Qed.

Lemma parse_value_string fuel depth s rest :
  ascii_text s -> parse_value (S fuel) depth (quoted s ++ rest) = Done (VString s) rest.
Proof.
  intros Hs. unfold quoted. cbn [app]. rewrite <- app_assoc. cbn [app parse_value].
  rewrite skip_space_head by done. change (code dquote) with 34. cbn [Z.eqb Pos.eqb].
  destruct (scan_string_quoted s rest Hs) as (its & -> & Hu). cbn. by rewrite Hu.
Qed.

(** Only a number needs something to end it. *)
Definition ends (v : jvalue) (rest : text) : bool :=
  match v with VNumber _ => stops rest | _ => true end.

Lemma ends_stops v rest : stops rest = true -> ends v rest = true.
Proof. by destruct v. Qed.

Definition parses_back (v : jvalue) : Prop :=
  printable v -> forall fuel depth rest,
    (2 * length (print v ++ rest) < fuel)%nat -> ends v rest = true ->
    depth + nesting v <= maxNestingDepth ->
    parse_value fuel depth (print v ++ rest) = Done v rest.

Definition printable_pair (kv : text * jvalue) : Prop := ascii_text kv.1 /\ printable kv.2.

Lemma printable_array l : printable (VArray l) <-> Forall printable l.
Proof. induction l as [|v l IH]; [done|]. rewrite Forall_cons, <- IH. done. Qed.

Lemma printable_object l : printable (VObject l) <-> Forall printable_pair l.
Proof. induction l as [|kv l IH]; [done|]. rewrite Forall_cons, <- IH. done. Qed.

Lemma foldr_max_le {A} (f : A -> Z) (l : list A) n :
  foldr Z.max 0 (map f l) <= n -> Forall (fun x => f x <= n) l.
Proof. induction l as [|x l IH]; cbn; constructor; [lia|apply IH; lia]. Qed.

Lemma foldr_max_nonneg {A} (f : A -> Z) (l : list A) : 0 <= foldr Z.max 0 (map f l).
Proof. induction l; cbn; lia. Qed.

Lemma parse_elements_back l acc fuel depth rest :
  l <> [] -> Forall parses_back l -> Forall printable l ->
  Forall (fun v => depth + nesting v <= maxNestingDepth) l ->
  (S (2 * length (join "," (map print l) ++ "]"%char :: rest)) < fuel)%nat ->
  parse_elements fuel depth (join "," (map print l) ++ "]"%char :: rest) acc =
    Done (VArray (acc ++ l)) rest.
Proof.
  intros Hne Hback Hp Hd. revert acc fuel.
  induction Hback as [|v l Hv Hback IH]; [done|]. intros acc fuel Hf.
  apply Forall_cons in Hp as [Hpv Hp]. apply Forall_cons in Hd as [Hdv Hd].
  destruct fuel as [|fuel]; [lia|]. cbn [parse_elements]. destruct l as [|v' l].
  - cbn [map join] in *. rewrite Hv by (by apply ends_stops || lia || done). done.
  - change (join "," (map print (v :: v' :: l)))
      with (print v ++ ","%char :: join "," (map print (v' :: l))) in *.
    rewrite <- app_assoc in *. cbn [app] in *. rewrite Hv by (by apply ends_stops || lia || done).
    rewrite skip_space_head by done. change (code ",") with 44. cbn [Z.eqb Pos.eqb].
    rewrite IH; [|done..|].
    + by rewrite <- app_assoc.
    + rewrite !length_app in *. cbn [length] in *. rewrite length_app in *. cbn [length] in *. lia.
Qed.

Lemma parse_members_back l acc fuel depth rest :
  l <> [] -> Forall (fun kv => parses_back kv.2) l -> Forall printable_pair l ->
  Forall (fun kv => depth + nesting kv.2 <= maxNestingDepth) l ->
  (2 * length (join "," (map (fun kv => quoted kv.1 ++ ":"%char :: print kv.2) l) ++ "}"%char :: rest)
     < fuel)%nat ->
  parse_members fuel depth
    (join "," (map (fun kv => quoted kv.1 ++ ":"%char :: print kv.2) l) ++ "}"%char :: rest) acc =
    Done (VObject (acc ++ l)) rest.
Proof.
  intros Hne Hback Hp Hd. revert acc fuel.
  induction Hback as [|[k v] l Hv Hback IH]; [done|]. intros acc fuel Hf.
  apply Forall_cons in Hp as [[Hk Hpv] Hp]. apply Forall_cons in Hd as [Hdv Hd].
  cbn [fst snd] in *. destruct fuel as [|fuel]; [lia|]. cbn [parse_members].
  set (tail := match l with
    | [] => "}"%char :: rest
    | _ => ","%char :: join "," (map (fun kv => quoted kv.1 ++ ":"%char :: print kv.2) l) ++ "}"%char :: rest
    end).
  assert (join "," (map (fun kv => quoted kv.1 ++ ":"%char :: print kv.2) ((k, v) :: l)) ++ "}"%char :: rest
          = dquote :: concat (map (fun c => to_text (json_char c)) k) ++ dquote :: ":"%char :: print v ++ tail)
    as Eall.
  { unfold tail, quoted. destruct l as [|kv' l]; cbn [map join fst snd];
      rewrite <- ?app_assoc; cbn [app]; rewrite <- ?app_assoc; cbn [app];
      by rewrite <- ?app_assoc. }
  rewrite Eall in *. rewrite skip_space_head by done. change (code dquote) with 34. cbn [Z.eqb Pos.eqb].
  destruct (scan_string_quoted k (":"%char :: print v ++ tail) Hk) as (its & -> & Hu).
  rewrite skip_space_head by done. change (code ":") with 58. cbn [Z.eqb Pos.eqb].
  cbn [length] in Hf. rewrite length_app in Hf. cbn [length] in Hf.
  rewrite Hv; [|done|lia|by unfold tail; destruct l; apply ends_stops|done].
  rewrite Hu. unfold tail. destruct l as [|kv' l].
  - rewrite skip_space_head by done. done.
  - rewrite skip_space_head by done. change (code ",") with 44. cbn [Z.eqb Pos.eqb].
    rewrite IH; [by rewrite <- app_assoc|done..|].
    unfold tail in Hf. rewrite length_app in Hf. cbn [length] in Hf. lia.
Qed.

(** Printing and parsing: what is written is read back, and no more is read, whatever
    follows (but for a number). *)
Lemma parse_print v : parses_back v.
Proof.
  induction v as [|b|lit|s|l IH|l IH] using jvalue_nested_ind; intros Hp fuel depth rest Hf Hs Hd;
    (destruct fuel as [|fuel]; [lia|]).
  - done.
  - by destruct b.
  - by apply parse_value_number.
  - by apply parse_value_string.
  - apply printable_array in Hp. cbn [print nesting] in *. cbn [app parse_value].
    rewrite skip_space_head by done. change (code "[") with 91. cbn [Z.eqb Pos.eqb].
    pose proof (foldr_max_le nesting l (maxNestingDepth - depth - 1) ltac:(lia)) as Hn.
    assert ((maxNestingDepth <=? depth) = false) as ->.
    { apply Z.leb_gt. pose proof (foldr_max_nonneg nesting l). lia. }
    rewrite <- app_assoc. cbn [app]. destruct l as [|v l]; [done|].
    assert (exists c t, join "," (map print (v :: l)) ++ "]"%char :: rest = c :: t /\
      is_space c = false /\ (code c =? 93) = false) as (c & t & Ec & Hsp & Hc).
    { apply Forall_cons in Hp as [Hv _]. destruct (print_head v Hv) as (c & t & Ev & ? & ? & _).
      destruct l; cbn [map join]; rewrite Ev; cbn [app]; eauto. }
    rewrite Ec, skip_space_head, Hc by done. rewrite <- Ec.
    rewrite parse_elements_back; [done..| |].
    + eapply Forall_impl; [exact Hn|]. cbn. lia.
    + cbn [app length] in Hf. rewrite <- app_assoc in Hf. cbn [app] in Hf. lia.
  - apply printable_object in Hp. cbn [print nesting] in *. cbn [app parse_value].
    rewrite skip_space_head by done. change (code "{") with 123. cbn [Z.eqb Pos.eqb].
    pose proof (foldr_max_le (fun kv => nesting kv.2) l (maxNestingDepth - depth - 1)
      ltac:(lia)) as Hn.
    assert ((maxNestingDepth <=? depth) = false) as ->.
    { apply Z.leb_gt. pose proof (foldr_max_nonneg (fun kv => nesting kv.2) l). lia. }
    rewrite <- app_assoc. cbn [app]. destruct l as [|kv l]; [done|].
    assert (exists t, join "," (map (fun kv => quoted kv.1 ++ ":"%char :: print kv.2) (kv :: l))
      ++ "}"%char :: rest = dquote :: t) as (t & Et).
    { destruct l; cbn [map join]; unfold quoted; cbn [app]; eauto. }
    rewrite Et, skip_space_head by done. rewrite <- Et.
    change (code dquote =? 125) with false. cbv iota.
    rewrite parse_members_back; [done..| |].
    + eapply Forall_impl; [exact Hn|]. cbn. lia.
    + cbn [app length] in Hf. rewrite <- app_assoc in Hf. cbn [app] in Hf. lia.
Qed.

(** The whole text. *)
Lemma parse_whole v : printable v -> nesting v <= maxNestingDepth -> parse (print v) = Some v.
Proof.
  intros Hp Hn. unfold parse, enough. pose proof (parse_print v Hp) as H.
  specialize (H (S (S (2 * length (print v)))) 0 []). rewrite app_nil_r in H.
  by rewrite H by (by apply ends_stops || done || lia).
Qed.

(** A bound on names and values bounds the text of an object. *)
Lemma print_object_length n l :
  Forall (fun kv => length (quoted kv.1) <= n /\ length (print kv.2) <= n)%nat l ->
  (length (print (VObject l)) <= 2 + (2 * n + 2) * length l)%nat.
Proof.
  intros Hl. cbn [print length]. rewrite length_app. cbn [length].
  enough (length (join "," (map (fun kv => quoted kv.1 ++ ":"%char :: print kv.2) l)) <=
    (2 * n + 2) * length l)%nat by lia.
  induction Hl as [|kv l [Hk Hv] _ IH]; [cbn; lia|]. cbn [map length join] in *.
  destruct (map _ l) as [|x xs]; rewrite !length_app; cbn [length] in *; lia.
Qed.

(** ** Decimal texts are literals *)

Lemma scan_digits_all l : Forall (fun c => is_digit c = true) l -> scan_digits l = (l, []).
Proof. induction 1 as [|c l Hc _ IH]; [done|]. cbn [scan_digits]. by rewrite Hc, IH. Qed.

Lemma pretty_N_digits (n : N) :
  exists c l, to_text (pretty n) = c :: l /\ is_digit c = true /\
    Forall (fun c => is_digit c = true) l /\ ((code c =? 48) = true -> l = []).
Proof.
  assert (forall d, (d < 10)%N -> is_digit (pretty_N_char d) = true /\
    ((0 < d)%N -> (code (pretty_N_char d) =? 48) = false)) as Hdigit.
  { intros d Hd. destruct d as [|p]; [done|]. do 4 (destruct p as [p|p|]; try done); lia. }
  induction (N.lt_wf_0 n) as [n _ IH]. destruct (decide (n < 10)%N) as [Hn|Hn].
  - exists (pretty_N_char n), []. split_and!; [|by apply Hdigit|done|done].
    destruct n as [|p]; [done|]. do 4 (destruct p as [p|p|]; try done); lia.
  - destruct (IH (n / 10)%N) as (c & l & E & Hc & Hl & Hz); [apply N.div_lt; lia|].
    exists c, (l ++ [pretty_N_char (n mod 10)]).
    assert (n mod 10 < 10)%N as Hmod by (apply N.mod_lt; lia).
    pose proof (N.div_mod' n 10) as Hdm.
    assert (0 < n / 10)%N as Hpos by (apply N.div_str_pos; lia).
    split_and!; [|done| |].
    + replace n with (n / 10 * 10 + n mod 10)%N at 1 by lia.
      rewrite pretty_snoc, to_text_app, E by done. done.
    + apply Forall_app. split; [done|]. by apply Forall_singleton, Hdigit.
    + intros Hc0. exfalso. specialize (Hz Hc0). subst l.
      pose proof (digits_val_pretty (n / 10)%N) as Hv.
      rewrite <- (of_to_text (pretty (n / 10)%N)), E in Hv. cbn in Hv.
      unfold digit_val in Hv. unfold code in Hc0. apply Z.eqb_eq in Hc0.
      rewrite Hc0 in Hv. cbn in Hv. injection Hv as Hv. lia.
Qed.

Lemma pretty_length k (n : N) :
  (n < 10 ^ N.of_nat (S k))%N -> (String.length (pretty n) <= S k)%nat.
Proof.
  revert n. induction k as [|k IH]; intros n Hn.
  - assert (String.length (pretty n) = 1%nat) as ->; [|lia]. change (10 ^ N.of_nat 1)%N with 10%N in Hn.
    destruct n as [|p]; [done|]. do 4 (destruct p as [p|p|]; try done); lia.
  - destruct (decide (n < 10)%N) as [Hd|Hd].
    { etrans; [apply (IH n)|lia]. apply (N.lt_le_trans _ 10); [done|].
      rewrite Nat2N.inj_succ, N.pow_succ_r'. pose proof (N.pow_nonzero 10 (N.of_nat k)). lia. }
    rewrite (N.div_mod n 10) by lia. rewrite (N.mul_comm 10), pretty_snoc.
    + rewrite append_length. cbn. enough (String.length (pretty (n / 10)%N) <= S k)%nat by lia.
      apply IH. rewrite Nat2N.inj_succ, N.pow_succ_r' in Hn. by apply N.Div0.div_lt_upper_bound.
    + apply N.div_str_pos. lia.
    + by apply N.mod_lt.
Qed.

Lemma number_literal_pretty (z : Z) : number_literal (to_text (pretty z)).
Proof.
  assert (forall n : N, scan_number (to_text (pretty n)) = Some (to_text (pretty n), []) /\
    exists c l, to_text (pretty n) = c :: l /\
      scan_int (c :: l) = Some (c :: l, [])) as Hn.
  { intros n. destruct (pretty_N_digits n) as (c & l & E & Hc & Hl & Hz). rewrite E.
    assert (scan_int (c :: l) = Some (c :: l, [])) as Hi.
    { cbn [scan_int]. destruct (code c =? 48); [by rewrite Hz|].
      unfold scan_digits1. rewrite scan_digits_all; [done|by constructor]. }
    split; [|by eauto]. unfold scan_number.
    assert (is_minus c = false) as -> by (unfold is_digit, is_minus in *; lia).
    rewrite Hi. cbn. by rewrite app_nil_r. }
  unfold number_literal. destruct z as [|p|p]; [done|exact (proj1 (Hn (Npos p)))|].
  destruct (Hn (Npos p)) as (_ & c & l & E & Hi).
  change (pretty (Zneg p)) with ("-" +:+ pretty (Npos p)). rewrite to_text_app, E.
  cbn [to_text Strings.String.list_ascii_of_string app]. unfold scan_number.
  change (is_minus "-") with true. cbv iota. rewrite Hi. cbn. by rewrite app_nil_r.
Qed.

(** ** Decimal texts are numbers *)

Lemma scan_mantissa_digits l v v' dig :
  Forall (fun c => is_digit c = true) l -> digits_val v (of_text l) = Some v' ->
  scan_mantissa false l (Mantissa false dig v 0 false) =
    (Mantissa false (dig || negb (bool_decide (l = []))) v' 0 false, []).
Proof.
  intros Hl. revert v dig. induction Hl as [|c l Hc Hl IH]; intros v dig.
  { cbn. intros [= <-]. by rewrite orb_false_r. }
  cbn [of_text Strings.String.string_of_list_ascii digits_val scan_mantissa].
  assert (is_underscore c = false /\ is_dot c = false) as [-> ->]
    by (unfold is_digit, is_underscore, is_dot, code in *; lia).
  rewrite Hc. unfold digit_val, is_digit, code in *. rewrite Hc. intros Hv.
  unfold push_digit. cbn [m_dot m_val m_frac m_underscore]. rewrite (IH _ _ Hv).
  rewrite (bool_decide_eq_false_2 (c :: l = [])) by done. by rewrite orb_true_r.
Qed.

Lemma lower_text_digit c l :
  is_digit c = true -> exists t, lower_text (c :: l) = code c :: t /\ 48 <= code c <= 57.
Proof.
  intros Hc. eexists. cbn [lower_text fmap list_fmap].
  assert ((65 <=? code c) && (code c <=? 90) = false) as -> by (unfold is_digit, code in *; lia).
  split; [reflexivity|]. unfold is_digit in Hc. lia.
Qed.

Lemma ParseFloat_digits c l v :
  is_digit c = true -> Forall (fun c => is_digit c = true) l ->
  digits_val 0 (of_text (c :: l)) = Some v -> 0 <= v < 2 ^ 53 ->
  ParseFloat (of_text (c :: l)) = Some (f64_of_Z v).
Proof.
  intros Hc Hl Hv Hlt. unfold ParseFloat. rewrite to_of_text.
  assert (is_plus c = false /\ is_minus c = false) as [Hp Hm]
    by (unfold is_digit, is_plus, is_minus in *; lia).
  assert (read_sign (c :: l) = (false, c :: l)) as Hsign by (cbn; by rewrite Hp, Hm).
  assert (special (c :: l) = None) as ->.
  { unfold special. rewrite Hsign. destruct (lower_text_digit c l Hc) as (t & -> & Hcode).
    rewrite !bool_decide_eq_false_2; [done|..]; intros E;
      apply (f_equal (hd 0)) in E; cbn [hd] in E; rewrite E in Hcode; by destruct Hcode as [_ Hcode]; vm_compute in Hcode. }
  assert (read_number (c :: l) = Some (f64_of_dec false v 0)) as ->.
  { unfold read_number. rewrite Hsign.
    assert ((match c :: l with
             | c0 :: d :: (_ :: _) as l' =>
                 if (code c0 =? 48) && (lower d =? 120) then (true, drop 2 (c :: l)) else (false, c :: l)
             | _ => (false, c :: l)
             end) = (false, c :: l)) as ->.
    { destruct l as [|d [|d' l]]; [done..|]. apply Forall_cons in Hl as [Hd _].
      assert ((lower d =? 120) = false) as ->; [|by rewrite andb_false_r].
      clear -Hd. destruct d as [[] [] [] [] [] [] [] []]; vm_compute in Hd |- *; done. }
    rewrite (scan_mantissa_digits (c :: l) 0 v false) by (done || by constructor).
    rewrite bool_decide_eq_false_2 by done. done. }
  cbn [mbind option_bind]. unfold f64_of_dec, f64_of_Z, binary_normalize.
  destruct v as [|m|m]; [done| |lia]. cbn [Z.eqb]. change (0 <=? 0) with true. cbv iota.
  change (10 ^ 0) with 1. rewrite Z.mul_1_r. destruct (binary_round_int 53 1024 false m) as (m' & k & _ & _ & ->); [lia..|done].
Qed.

Lemma ParseFloat_pretty z : 0 <= z < 2 ^ 53 -> ParseFloat (pretty z) = Some (f64_of_Z z).
Proof.
  intros Hz. assert (pretty z = pretty (Z.to_N z)) as -> by (destruct z; done || lia).
  destruct (pretty_N_digits (Z.to_N z)) as (c & l & E & Hc & Hl & _).
  rewrite <- (of_to_text (pretty _)), E. apply ParseFloat_digits; [done..| |done].
  rewrite <- E, of_to_text, digits_val_pretty. f_equal. lia.
Qed.

(** ** No control characters *)

Definition graphic (c : ascii) : Prop := 32 <= code c.

Lemma digits_graphic l : Forall (fun c => is_digit c = true) l -> Forall graphic l.
Proof.
  intros H. eapply Forall_impl; [exact H|]. intros c. unfold is_digit, graphic. lia.
Qed.

Lemma scan_digits_digits l ds rest :
  scan_digits l = (ds, rest) -> Forall (fun c => is_digit c = true) ds.
Proof.
  revert ds. induction l as [|c l IH]; intros ds; cbn [scan_digits]; [by intros [= <- _]|].
  destruct (is_digit c) eqn:Hc; [|by intros [= <- _]].
  destruct (scan_digits l) as [ds' r]. intros [= <- <-]. constructor; [done|by apply IH].
Qed.

Lemma scan_digits1_graphic l ds rest : scan_digits1 l = Some (ds, rest) -> Forall graphic ds.
Proof.
  unfold scan_digits1. destruct (scan_digits l) as [ds' r] eqn:E. intros H.
  apply scan_digits_digits, digits_graphic in E. destruct ds'; [done|]. by injection H as <- _.
Qed.

Lemma scan_number_graphic l lit rest : scan_number l = Some (lit, rest) -> Forall graphic lit.
Proof.
  assert (forall c, lower c = 101 -> graphic c) as Hexp.
  { intros c Hc. destruct c as [[] [] [] [] [] [] [] []]; vm_compute in Hc |- *; done. }
  unfold scan_number.
  assert (exists sgn l0, (match l with
    | c :: l' => if is_minus c then ([c], l') else ([], l) | [] => ([], []) end) = (sgn, l0) /\
    Forall graphic sgn) as (sgn & l0 & -> & Hsgn).
  { destruct l as [|c l]; [by exists [], []|]. destruct (is_minus c) eqn:Hm; do 2 eexists;
      (split; [reflexivity|]); [|done]. repeat constructor. unfold is_minus, graphic in *. lia. }
  destruct (scan_int l0) as [[int l1]|] eqn:Ei; [|done]. cbn.
  destruct (scan_fraction l1) as [[frac l2]|] eqn:Ef; [|done]. cbn.
  destruct (scan_exp l2) as [[exp l3]|] eqn:Ee; [|done]. cbn. intros [= <- _].
  rewrite !Forall_app. split_and!; [done|..].
  - destruct l0 as [|c l0]; [done|]. cbn [scan_int] in Ei. destruct (code c =? 48) eqn:E0.
    + injection Ei as <- _. repeat constructor. unfold graphic. lia.
    + by eapply scan_digits1_graphic.
  - destruct l1 as [|c l1]; [by injection Ef as <- _|]. cbn [scan_fraction] in Ef.
    destruct (is_dot c) eqn:Hd; [|by injection Ef as <- _].
    destruct (scan_digits1 l1) as [[ds r]|] eqn:Ed; [|done]. injection Ef as <- _.
    constructor; [unfold is_dot, graphic in *; lia|by eapply scan_digits1_graphic].
  - destruct l2 as [|c l2]; [by injection Ee as <- _|]. cbn [scan_exp] in Ee.
    destruct (Z.eqb_spec (lower c) 101) as [Hc|]; [|by injection Ee as <- _].
    assert (Forall graphic (fst (scan_sign l2))) as Hs.
    { destruct l2 as [|d l2]; [done|]. cbn [scan_sign].
      destruct (is_plus d || is_minus d) eqn:Hd; [|done]. repeat constructor.
      unfold is_plus, is_minus, graphic in *. lia. }
    destruct (scan_sign l2) as [s r]. destruct (scan_digits1 r) as [[ds r']|] eqn:Ed; [|done].
    injection Ee as <- _. constructor; [by apply Hexp|]. apply Forall_app.
    split; [done|by eapply scan_digits1_graphic].
Qed.

Lemma quoted_graphic s : ascii_text s -> Forall graphic (quoted s).
Proof.
  intros Hs. unfold quoted. constructor; [done|]. apply Forall_app. split; [|by repeat constructor].
  induction Hs as [|c s Hc _ IH]; [done|]. cbn [map concat]. apply Forall_app. split; [|done].
  destruct c as [[] [] [] [] [] [] [] []]; try (exfalso; vm_compute in Hc; discriminate);
    repeat constructor; done.
Qed.

Lemma join_graphic sep ls : graphic sep -> Forall (Forall graphic) ls -> Forall graphic (join sep ls).
Proof.
  intros Hsep. induction 1 as [|l [|l' ls] Hl Hls IH]; [done|by cbn|].
  change (join sep (l :: l' :: ls)) with (l ++ sep :: join sep (l' :: ls)).
  apply Forall_app. split; [done|]. by constructor.
Qed.

Lemma print_graphic v : printable v -> Forall graphic (print v).
Proof.
  induction v as [|b|lit|s|l IH|l IH] using jvalue_nested_ind; intros Hp.
  - by repeat constructor.
  - destruct b; by repeat constructor.
  - by eapply scan_number_graphic.
  - by apply quoted_graphic.
  - apply printable_array in Hp. cbn [print]. constructor; [done|].
    apply Forall_app. split; [|by repeat constructor]. apply join_graphic; [done|].
    apply Forall_map. induction Hp as [|v l Hv _ IHp]; [done|].
    apply Forall_cons in IH as [? ?]. constructor; eauto.
  - apply printable_object in Hp. cbn [print]. constructor; [done|].
    apply Forall_app. split; [|by repeat constructor]. apply join_graphic; [done|].
    apply Forall_map. induction Hp as [|kv l [Hk Hv] _ IHp]; [done|].
    apply Forall_cons in IH as [? ?]. constructor; [|eauto].
    apply Forall_app. split; [by apply quoted_graphic|]. constructor; [done|eauto].
Qed.

(** ** Texts for examples *)

(** Apostrophes stand for quotation marks in a text. *)
Fixpoint quotes (s : string) : string :=
  match s with
  | EmptyString => EmptyString
  | String c s => String (if Ascii.eqb c "'" then dquote else c) (quotes s)
  end.
