(* ===== verification/GoStruct.v ===== *)
(** * Decoding a JSON object into a struct (encoding/json)

    A struct type is a list of fields with their JSON names and kinds;
    [decode_struct] stores the members of an object one after the other, the way
    the decoder does.  [store_members_read] says what each field holds afterwards. *)

From S2P Require Import Prelude GoFloat GoText Json GoJson GoPrint.

(** ** Names *)

(** [foldName]: letters in upper case.  Of the characters outside ASCII only
    U+017F and U+212A fold to an ASCII letter; the others stay what they are, which
    no name of a field is. *)
Fixpoint fold_name (l : text) : text :=
  match l with
  | [] => []
  | a :: l1 =>
      if within 97 122 a then byte (code a - 32) :: fold_name l1
      else match l1 with
           | b :: l2 =>
               if (code a =? 197) && (code b =? 191) then "S"%char :: fold_name l2
               else match l2 with
                    | c :: l3 =>
                        if (code a =? 226) && (code b =? 132) && (code c =? 170)
                        then "K"%char :: fold_name l3 else a :: fold_name l1
                    | [] => a :: fold_name l1
                    end
           | [] => [a]
           end
  end.

(** ** Fields *)

(** The Go types of the fields: [string], signed integers of some bits, [float64]. *)
Inductive kind := KString | KInt (bits : Z) | KFloat.

Definition kind_type (k : kind) : Type :=
  match k with KString => string | KInt _ => Z | KFloat => float64 end.

Definition zero_value (k : kind) : kind_type k :=
  match k with KString => "" | KInt _ => 0 | KFloat => S754_zero false end.

Definition fits (bits n : Z) : bool := (- 2 ^ (bits - 1) <=? n) && (n <? 2 ^ (bits - 1)).

(** What a value other than null is as a value of the kind; [None] is an
    [UnmarshalTypeError]. *)
Definition convert (k : kind) (v : jvalue) : option (kind_type k) :=
  match k, v with
  | KString, VString s => Some (of_text s)
  | KInt bits, VNumber lit =>
      n ← ParseInt (of_text lit);
      if fits bits n then Some n else None
  | KFloat, VNumber lit => ParseFloat (of_text lit)
  | _, _ => None
  end.

Record field (T : Type) := Field {
  f_name : string; f_kind : kind; f_set : kind_type f_kind -> T -> T
}.
Arguments Field {T}.
Arguments f_name {T}.
Arguments f_kind {T}.
Arguments f_set {T}.

Section Struct.
Context {T : Type}.
Variable fields : list (field T).
Variable zero : T.

(** The field of a member: by its name, else by its folded name. *)
Definition field_of (key : text) : option (field T) :=
  match find (fun f => bool_decide (to_text (f_name f) = key)) fields with
  | Some f => Some f
  | None => find (fun f => bool_decide (fold_name (to_text (f_name f)) = fold_name key)) fields
  end.

(** null leaves the field as it is, and a member that no field has is skipped. *)
Definition store_member (t : T) (kv : text * jvalue) : option T :=
  match field_of kv.1, kv.2 with
  | None, _ | _, VNull => Some t
  | Some f, v => x ← convert (f_kind f) v; Some (f_set f x t)
  end.

(** The decoder goes on after a member of the wrong type and reports the first
    such error at the end; its callers then discard the struct, which is [None]. *)
Fixpoint store_members (t : T) (kvs : list (text * jvalue)) : option T :=
  match kvs with
  | [] => Some t
  | kv :: kvs => t ← store_member t kv; store_members t kvs
  end.

(** null is accepted for the whole struct, too. *)
Definition decode_struct (v : jvalue) : option T :=
  match v with
  | VNull => Some zero
  | VObject kvs => store_members zero kvs
  | _ => None
  end.

(** ** What is stored *)

Definition names_field (f : field T) (key : text) : bool :=
  bool_decide (fold_name (to_text (f_name f)) = fold_name key).

Definition is_null (v : jvalue) : bool := match v with VNull => true | _ => false end.

(** The value that decides a field: the last member of its name that is not null. *)
Fixpoint last_value (f : field T) (kvs : list (text * jvalue)) : option jvalue :=
  match kvs with
  | [] => None
  | kv :: kvs =>
      match last_value f kvs with
      | Some v => Some v
      | None => if names_field f kv.1 && negb (is_null kv.2) then Some kv.2 else None
      end
  end.

Definition read (f : field T) (old : kind_type (f_kind f)) (kvs : list (text * jvalue))
    : kind_type (f_kind f) :=
  match last_value f kvs with
  | Some v => default (zero_value (f_kind f)) (convert (f_kind f) v)
  | None => old
  end.

(** A member that no field has, null, or of the right type. *)
Definition member_ok (kv : text * jvalue) : Prop :=
  forall f, f ∈ fields -> names_field f kv.1 = true ->
    is_null kv.2 = true \/ is_Some (convert (f_kind f) kv.2).

(** No two fields have the same name. *)
Definition distinct_names : Prop := NoDup ((fun f => fold_name (to_text (f_name f))) <$> fields).

Hypothesis Hnames : distinct_names.

Lemma names_field_unique f g key :
  f ∈ fields -> g ∈ fields -> names_field f key = true -> names_field g key = true -> f = g.
Proof.
  unfold names_field. intros Hf Hg Ef%bool_decide_eq_true Eg%bool_decide_eq_true.
  apply list_elem_of_lookup in Hf as [i Hi], Hg as [j Hj].
  assert (i = j) as ->; [|congruence]. eapply (NoDup_lookup _ _ _ _ Hnames).
  - rewrite list_lookup_fmap, Hi. reflexivity.
  - rewrite list_lookup_fmap, Hj. cbn. congruence.
Qed.

(** The exact match never decides: folded names tell the fields apart. *)
Lemma field_of_spec key f :
  field_of key = Some f <-> f ∈ fields /\ names_field f key = true.
Proof.
  assert (forall p (g : field T), find p fields = Some g -> g ∈ fields /\ p g = true) as Hfind.
  { intros p g E. apply find_some in E as [? ?]. by rewrite list_elem_of_In. }
  assert (forall g, field_of key = Some g -> g ∈ fields /\ names_field g key = true) as Hone.
  { intros g. unfold field_of. destruct (find _ fields) as [h|] eqn:E.
    - intros [= ->]. apply Hfind in E as [Hin E]. split; [done|].
      apply bool_decide_eq_true in E. unfold names_field. by rewrite E, bool_decide_eq_true.
    - by intros ?%Hfind. }
  split; [apply Hone|]. intros [Hin Hf].
  destruct (field_of key) as [g|] eqn:E.
  - destruct (Hone g eq_refl) as [Hg Hn]. f_equal. by eapply names_field_unique.
  - exfalso. unfold field_of in E. destruct (find _ fields); [done|].
    apply list_elem_of_In in Hin. pose proof (find_none _ _ E f Hin) as Hno.
    unfold names_field in Hf. congruence.
Qed.

Lemma store_member_ok t kv : is_Some (store_member t kv) <-> member_ok kv.
Proof.
  unfold store_member, member_ok. destruct (field_of kv.1) as [f|] eqn:E.
  - pose proof E as [Hin Hn]%field_of_spec.
    assert (is_Some (match kv.2 with VNull => Some t
      | v => x ← convert (f_kind f) v; Some (f_set f x t) end) <->
      is_null kv.2 = true \/ is_Some (convert (f_kind f) kv.2)) as ->.
    { destruct kv.2; cbn [is_null]; [split; eauto|..];
        (destruct (convert _ _) as [x|]; cbn; split;
          [eauto|by eauto|by intros [? [=]]|by intros [[=]|[? [=]]]]). }
    split; [|eauto]. intros H g Hg Hng. by rewrite (names_field_unique g f kv.1).
  - split; [|by eauto]. intros _ f Hin Hn. exfalso.
    rewrite (proj2 (field_of_spec kv.1 f)) in E; [done|by split].
Qed.

(** The object is accepted when all its members are of the right types. *)
Lemma store_members_ok t kvs : is_Some (store_members t kvs) <-> Forall member_ok kvs.
Proof.
  revert t. induction kvs as [|kv kvs IH]; intros t; cbn [store_members]; [split; eauto|].
  rewrite Forall_cons, <- (store_member_ok t). destruct (store_member t kv) as [t'|]; cbn.
  - rewrite IH. split; [eauto|by intros [_ ?]].
  - split; [by intros [? [=]]|by intros [[? [=]] _]].
Qed.

(** A member of the right type for the one field it names. *)
Lemma member_ok_named f kv :
  f ∈ fields -> names_field f kv.1 = true -> is_Some (convert (f_kind f) kv.2) -> member_ok kv.
Proof. intros Hf Hn Hc g Hg Hng. right. by rewrite (names_field_unique g f kv.1). Qed.

(** A field that one member names. *)
Lemma last_value_unique f kvs kv :
  kv ∈ kvs -> names_field f kv.1 = true -> is_null kv.2 = false ->
  (forall kv', kv' ∈ kvs -> names_field f kv'.1 = true -> kv' = kv) ->
  last_value f kvs = Some kv.2.
Proof.
  intros Hin Hn Hv. induction kvs as [|kv1 kvs IH]; intros Huniq; [by apply elem_of_nil in Hin|].
  cbn [last_value]. apply elem_of_cons in Hin as [<-|Hin].
  - destruct (last_value f kvs) as [v|] eqn:E; [|by rewrite Hn, Hv].
    assert (exists kv', kv' ∈ kvs /\ names_field f kv'.1 = true /\ v = kv'.2) as (kv' & Hin & Hn' & ->).
    { clear -E. induction kvs as [|kv' kvs IH]; [done|]. cbn [last_value] in E.
      destruct (last_value f kvs) as [w|].
      - destruct (IH E) as (k & ? & ? & ?). exists k. split; [by right|done].
      - destruct (names_field f kv'.1) eqn:Hn; [|done]. destruct (is_null kv'.2); [done|].
        injection E as <-. exists kv'. split; [by left|done]. }
    by rewrite (Huniq kv') by (by right || done).
  - rewrite IH; [done..|]. intros kv' Hin' Hn'. apply Huniq; [by right|done].
Qed.

(** A member that names a field is converted to its type, and decides the field if no
    member of that name follows. *)
Lemma last_value_last f pre kv post :
  names_field f kv.1 = true -> is_null kv.2 = false ->
  Forall (fun kv => names_field f kv.1 = false) post -> last_value f (pre ++ kv :: post) = Some kv.2.
Proof.
  intros Hn Hv Hpost. induction pre as [|kv' pre IH]; [|cbn [app last_value]; by rewrite IH].
  cbn [app last_value]. assert (last_value f post = None) as ->; [|by rewrite Hn, Hv].
  induction Hpost as [|kv' post Hkv' _ IH]; [done|]. cbn [last_value]. by rewrite IH, Hkv'.
Qed.

Lemma member_converted f t pre kv post t' old :
  f ∈ fields -> names_field f kv.1 = true -> is_null kv.2 = false ->
  store_members t (pre ++ kv :: post) = Some t' ->
  exists x, convert (f_kind f) kv.2 = Some x /\
    (Forall (fun kv => names_field f kv.1 = false) post -> read f old (pre ++ kv :: post) = x).
Proof.
  intros Hf Hn Hv E. assert (Forall member_ok (pre ++ kv :: post)) as Hok.
  { apply (store_members_ok t). by eexists. }
  apply Forall_app in Hok as [_ Hok]. apply Forall_cons in Hok as [Hkv _].
  destruct (Hkv f Hf Hn) as [|[x Hx]]; [congruence|]. exists x. split; [done|].
  intros Hpost. unfold read. by rewrite last_value_last, Hx.
Qed.

(** Each field then holds the last value of its name. *)
Section Read.
Variable f : field T.
Variable get : T -> kind_type (f_kind f).
Hypothesis Hf : f ∈ fields.
Hypothesis get_set : forall x t, get (f_set f x t) = x.
Hypothesis get_other : forall g x t, g ∈ fields -> f_name g <> f_name f -> get (f_set g x t) = get t.

Lemma store_member_read t kv t' :
  store_member t kv = Some t' -> get t' = read f (get t) [kv].
Proof.
  unfold store_member, read. cbn [last_value]. destruct (field_of kv.1) as [g|] eqn:E.
  - apply field_of_spec in E as [Hg Hn].
    destruct (decide (f_name g = f_name f)) as [Heq|Hne].
    + assert (g = f) as ->.
      { eapply (names_field_unique g f); [done..|]. unfold names_field in *. by rewrite <- Heq. }
      rewrite Hn. cbn [andb]. destruct kv.2; cbn [is_null negb]; [by intros [= ->]|..];
        (destruct (convert _ _) as [x|]; [|done]; cbn; intros [= <-]; by rewrite get_set).
    + assert (names_field f kv.1 = false) as ->.
      { destruct (names_field f kv.1) eqn:Hn'; [|done]. by destruct Hne; rewrite (names_field_unique g f kv.1). }
      cbn [andb]. destruct kv.2; [by intros [= ->]|..];
        (destruct (convert _ _) as [x|]; [|done]; cbn; intros [= <-]; by apply get_other).
  - intros [= ->]. destruct (names_field f kv.1) eqn:Hn; [|done].
    rewrite (proj2 (field_of_spec kv.1 f)) in E; [done|by split].
Qed.

Lemma store_members_read t kvs t' :
  store_members t kvs = Some t' -> get t' = read f (get t) kvs.
Proof.
  revert t. induction kvs as [|kv kvs IH]; intros t; cbn [store_members]; [by intros [= ->]|].
  destruct (store_member t kv) as [t1|] eqn:E; [|done]. cbn. intros ->%IH.
  apply store_member_read in E. unfold read in *. cbn [last_value] in *.
  destruct (last_value f kvs); [done|]. rewrite E. by destruct (_ && _).
Qed.
End Read.

(** A property that every store of a member preserves. *)
Lemma store_members_preserves (P : T -> Prop) (Q : jvalue -> Prop) t kvs t' :
  (forall f v x t, f ∈ fields -> Q v -> convert (f_kind f) v = Some x -> P t -> P (f_set f x t)) ->
  Forall (fun kv => Q kv.2) kvs -> P t -> store_members t kvs = Some t' -> P t'.
Proof.
  intros Hset HQ. revert t. induction HQ as [|kv kvs Hq _ IH]; intros t Ht; cbn [store_members].
  - by intros [= <-].
  - destruct (store_member t kv) as [t1|] eqn:E; [|done]. cbn. apply IH.
    unfold store_member in E. destruct (field_of kv.1) as [g|] eqn:Eg; [|by simplify_eq].
    apply field_of_spec in Eg as [Hg _]. revert E Hq.
    destruct kv.2; [by intros [= ->]|..];
      (destruct (convert _ _) as [x|] eqn:Ex; [|done]; cbn; intros [= <-] ?; eauto).
Qed.
(** ** Objects that a client sends *)

(** A member that no field has. *)
Definition unknown (kv : text * jvalue) : Prop :=
  Forall (fun f => names_field f kv.1 = false) fields.

Lemma store_unknown t kvs : Forall unknown kvs -> store_members t kvs = Some t.
Proof.
  induction 1 as [|kv kvs Hkv _ IH]; [done|]. cbn [store_members].
  assert (store_member t kv = Some t) as ->; [|exact IH].
  unfold store_member. destruct (field_of kv.1) as [f|] eqn:E; [|done].
  apply field_of_spec in E as [Hf Hn]. unfold unknown in Hkv. rewrite Forall_forall in Hkv.
  by rewrite Hkv in Hn.
Qed.

(** A field converts the member of its name. *)
Definition slot (f : field T) (kv : text * jvalue) : Prop :=
  names_field f kv.1 = true /\ is_null kv.2 = false /\ is_Some (convert (f_kind f) kv.2).

Section Payload.
Variables payload extra kvs : list (text * jvalue).
Hypothesis Hperm : kvs ≡ₚ payload ++ extra.
Hypothesis Hextra : Forall unknown extra.
Hypothesis Hslots : Forall2 slot fields payload.

Lemma store_payload t : is_Some (store_members t kvs).
Proof.
  apply store_members_ok. rewrite Hperm. apply Forall_app. split.
  - apply Forall_forall. intros kv (i & Hi)%list_elem_of_lookup.
    destruct (Forall2_lookup_r _ _ _ _ _ Hslots Hi) as (f & Hf & Hn & _ & Hc).
    apply (member_ok_named f); [|done..]. by eapply list_elem_of_lookup_2.
  - eapply Forall_impl; [exact Hextra|]. intros kv Hkv f Hf Hnf. unfold unknown in Hkv.
    rewrite Forall_forall in Hkv. by rewrite Hkv in Hnf.
Qed.
End Payload.
End Struct.

(** The member of its name decides a field. *)
Lemma slot_read {T} (fields : list (field T)) payload extra kvs f kv z x :
  NoDup ((fun kv => fold_name kv.1) <$> payload) ->
  kvs ≡ₚ payload ++ extra -> Forall (unknown fields) extra -> Forall2 slot fields payload ->
  (f, kv) ∈ zip fields payload -> convert (f_kind f) kv.2 = Some x -> read f z kvs = x.
Proof.
  intros Hnames Hperm Hextra Hslots (i & Hi)%list_elem_of_lookup Hx.
  apply lookup_zip_with_Some in Hi as (f' & kv' & [= <- <-] & Hf & Hkv).
  pose proof (Forall2_lookup_lr _ _ _ _ _ _ Hslots Hf Hkv) as (Hn & Hnull & _).
  unfold read. rewrite (last_value_unique f kvs kv); [by rewrite Hx| |done..|].
  { rewrite Hperm. apply elem_of_app. left. by eapply list_elem_of_lookup_2. }
  intros kv' Hin' Hn'. rewrite Hperm in Hin'. apply elem_of_app in Hin' as [Hin'|Hin'].
  - apply list_elem_of_lookup in Hin' as [j Hj].
    assert (i = j) as ->; [|congruence].
    unfold names_field in *. apply bool_decide_eq_true in Hn, Hn'.
    eapply (NoDup_lookup _ _ _ _ Hnames).
    + rewrite list_lookup_fmap, Hkv. reflexivity.
    + rewrite list_lookup_fmap, Hj. cbn. congruence.
  - rewrite Forall_forall in Hextra. specialize (Hextra kv' Hin').
    unfold unknown in Hextra. rewrite Forall_forall in Hextra.
    rewrite (Hextra f) in Hn'; [done|]. by eapply list_elem_of_lookup_2.
Qed.

(** ** Conversions *)

Lemma fits_64 n : fits 64 n = is_int64 n.
Proof. unfold fits, is_int64, int64_min, int64_max. lia. Qed.

Lemma convert_int_fits bits v n : convert (KInt bits) v = Some n -> fits bits n = true.
Proof.
  destruct v; try done. cbn. destruct (ParseInt _) as [m|]; [|done]. cbn.
  destruct (fits bits m) eqn:E; [|done]. by intros [= <-].
Qed.

Lemma convert_float_finite v x : member_number v -> convert KFloat v = Some x -> is_finite x = true.
Proof.
  destruct v; try done. cbn. intros H. apply ParseFloat_finite. rewrite to_of_text.
  by apply number_not_special.
Qed.

(** [lit] is a literal that denotes [x]. *)
Definition denotes (lit : text) (x : float64) : Prop :=
  number_literal lit /\ ParseFloat (of_text lit) = Some x.

Lemma convert_pretty bits z :
  fits bits z = true -> 0 < bits <= 64 ->
  convert (KInt bits) (VNumber (to_text (pretty z))) = Some z.
Proof.
  intros Hz Hbits. cbn [convert]. rewrite of_to_text, ParseInt_pretty, <- fits_64.
  assert (fits 64 z = true) as ->; [|cbn; by rewrite Hz].
  unfold fits in *. pose proof (Z.pow_le_mono_r 2 (bits - 1) 63 ltac:(lia) ltac:(lia)). lia.
Qed.

Lemma convert_text s : convert KString (VString (to_text s)) = Some s.
Proof. cbn. by rewrite of_to_text. Qed.

Lemma convert_denoted lit x : denotes lit x -> convert KFloat (VNumber lit) = Some x.
Proof. by intros []. Qed.

Ltac in_list := repeat first [apply list_elem_of_here | apply list_elem_of_further].

(** Closes [get t = read f (get zero) kvs] for a decoded struct [t]: storing one of
    the fields of the list leaves the others as they were. *)
Ltac stored fields names :=
  lazymatch goal with
  | H : store_members _ ?z ?kvs = Some ?t |- ?get ?t = read ?f _ ?kvs =>
      refine (store_members_read _ names f get _ _ _ z kvs t H);
      [unfold fields; in_list
      |by intros ? []
      |let g := fresh in let x := fresh in let t := fresh in let Hg := fresh in let Hne := fresh in
       intros g x t Hg Hne; unfold fields in Hg; rewrite !elem_of_cons, elem_of_nil in Hg;
       destruct_or! Hg; subst g; destruct t; first [done | by destruct Hne]]
  end.
