(* ===== verification/Redis.v ===== *)
(** * The token bucket (internal/redis/client.go)

    The Redis server is not part of the repository: it is the interface
    [RedisCmds] (the five commands the script calls and the passing of time),
    with the documented behaviour of those commands as the laws [RedisLaws].
    The script and the client are translated against the interface, and
    [MemRedis] is an instance of it on which the definitions run.

    redis/redis.conf gives the server 512 MB and the policy [volatile-lru]: a key
    with an expiry may be evicted at any time between two scripts ([redis_evict];
    REDIS.md, section 5).  The interface is one primary of the cluster: a failover
    that loses the writes its replica has not seen is not modelled. *)

From S2P Require Import Prelude GoFloat.

(** ** The server *)

(** A string key: its value and its expiry time in milliseconds. *)
Record entry := Entry { e_value : string; e_deadline : option Z }.

Definition alive (now : Z) (e : entry) : Prop :=
  match e_deadline e with Some d => now <= d | None => True end.

#[export] Instance alive_dec now e : Decision (alive now e).
Proof. unfold alive. destruct (e_deadline e); apply _. Defined.

Class RedisCmds (St : Type) := {
  redis_now : St -> Z;
  redis_live : St -> gmap string entry;
  redis_exists : string -> St -> Z;
  redis_get : string -> St -> option string;
  redis_set_ex : string -> string -> Z -> io St unit;
  redis_expire : string -> Z -> io St Z;
  redis_decrby : string -> Z -> io St Z;
  redis_advance : Z -> St -> St;
  redis_evict : string -> St -> St
}.

(** The longest expiry the client can ask for: the seconds of the largest
    [time.Duration].  The server refuses an expiry time past 2^63 ms, which its
    clock plus such a TTL never reaches. *)
Definition max_ttl : Z := 9223372036.

(** The commands as https://redis.io/docs/latest/commands describes them.  The policy
    only evicts keys with an expiry. *)
Class RedisLaws (St : Type) `{RedisCmds St} : Prop := {
  exists_law k s :
    redis_exists k s = match redis_live s !! k with Some _ => 1 | None => 0 end;
  get_law k s : redis_get k s = e_value <$> redis_live s !! k;
  set_ex_law k v ttl s : 0 < ttl <= max_ttl ->
    exists s', redis_set_ex k v ttl s = (Ok tt, s') /\ redis_now s' = redis_now s /\
      redis_live s' = <[k := Entry v (Some (redis_now s + ttl * 1000))]> (redis_live s);
  set_ex_invalid k v ttl s : ttl <= 0 ->
    exists e, redis_set_ex k v ttl s = (Err e, s);
  expire_law k ttl s e : 0 < ttl <= max_ttl -> redis_live s !! k = Some e ->
    exists s', redis_expire k ttl s = (Ok 1, s') /\ redis_now s' = redis_now s /\
      redis_live s' =
        <[k := Entry (e_value e) (Some (redis_now s + ttl * 1000))]> (redis_live s);
  decrby_law k n s e v : redis_live s !! k = Some e ->
    parse_decimal (e_value e) = Some v -> is_int64 v = true -> is_int64 (v - n) = true ->
    exists s', redis_decrby k n s = (Ok (v - n), s') /\ redis_now s' = redis_now s /\
      redis_live s' = <[k := Entry (pretty (v - n)) (e_deadline e)]> (redis_live s);
  advance_law d s : 0 <= d ->
    redis_now (redis_advance d s) = redis_now s + d /\
    redis_live (redis_advance d s) =
      filter (fun ke => alive (redis_now s + d) ke.2) (redis_live s);
  evict_law k s :
    redis_now (redis_evict k s) = redis_now s /\
    redis_live (redis_evict k s) =
      match redis_live s !! k ≫= e_deadline with
      | Some _ => delete k (redis_live s)
      | None => redis_live s
      end
}.

(** ** The Lua script *)

Section Script.
Context {St : Type} `{RedisCmds St}.

(** [tokenBucketScript]: Lua numbers are [Z] here, exact for the integers up
    to 2^53 that bucket sizes are; [tonumber] is applied to the decimal texts
    the script itself stored, and comparing its [nil] with 0 is an error. *)
Definition tokenBucketScript (key : string) (capacity ttl : Z) : io St Z := fun s =>
  if redis_exists key s =? 0 then
    (_ ← redis_set_ex key (pretty (capacity - 1)) ttl;
     mret (capacity - 1)) s
  else
    match redis_get key s ≫= parse_decimal with
    | None => (Err "attempt to compare nil with number", s)
    | Some remaining =>
        if remaining <=? 0 then
          (_ ← redis_expire key ttl; mret (-1)) s
        else
          (_ ← redis_decrby key 1;
           _ ← redis_expire key ttl;
           mret (remaining - 1)) s
    end.
End Script.

(** ** The client *)

(** [Client]; the cluster connection is the server state the calls take. *)
Record Client := MkClient { bucketSize : Z; bucketTTL : Z }.

(** [New]: [ping] is the outcome of the connection test. *)
Definition New (addrs : list string) (size ttl : Z) (ping : option error) : result Client :=
  match ping with
  | Some e => Err ("redis ping: " +:+ e)
  | None => Ok (MkClient size ttl)
  end.

(** [Close]: [close] is the outcome of closing the connection pool. *)
Definition Close (c : Client) (close : option error) : option error := close.

(** How one [Script.Run] fares on the network: the client library retries, so
    the script may have run [lost] times before the run whose reply arrived,
    or [executed] times without any reply arriving.  These runs are at one time of
    the server: a retry after a while, or after the bucket was evicted, is in a trace
    a [Failure] followed by the call whose reply arrived. *)
Inductive delivery :=
| Reply (lost : nat)
| Failure (executed : nat) (e : error).

(** How often the server ran the script. *)
Definition executions (d : delivery) : nat :=
  match d with Reply lost => S lost | Failure executed _ => executed end.

Definition bucket_key (ip : string) : string := "bucket:{" +:+ ip +:+ "}".

Section Decrement.
Context {St : Type} `{RedisCmds St}.
Variable oob : spec_float -> Z.

(** [int64(c.bucketTTL.Seconds())] *)
Definition ttl_arg (c : Client) : Z := f_to_int64 oob (Duration_Seconds (bucketTTL c)).

Definition run_once (c : Client) (ip : string) : io St Z :=
  tokenBucketScript (bucket_key ip) (bucketSize c) (ttl_arg c).

Fixpoint run_lost (c : Client) (ip : string) (n : nat) (s : St) : St :=
  match n with
  | O => s
  | S n => run_lost c ip n (snd (run_once c ip s))
  end.

(** [tokenBucketScript.Run(...).Int64()] over the network. *)
Definition script_run (d : delivery) (c : Client) (ip : string) : io St Z := fun s =>
  match d with
  | Reply lost => run_once c ip (run_lost c ip lost s)
  | Failure executed e => (Err e, run_lost c ip executed s)
  end.

(** [Client.Decrement]: the pair the Go code returns. *)
Definition Decrement (d : delivery) (c : Client) (ip : string) (s : St)
    : (Z * option error) * St :=
  match script_run d c ip s with
  | (Ok n, s') => ((n, None), s')
  | (Err e, s') => ((0, Some ("token bucket script: " +:+ e)), s')
  end.
End Decrement.

(** ** A server in memory *)

Module MemRedis.
Record t := Mem { clock : Z; store : gmap string entry }.

Definition set (k : string) (e : entry) (s : t) : t :=
  Mem (clock s) (<[k := e]> (store s)).

#[global] Instance cmds : RedisCmds t := {|
  redis_now := clock;
  redis_live := store;
  redis_exists k s := match store s !! k with Some _ => 1 | None => 0 end;
  redis_get k s := e_value <$> store s !! k;
  redis_set_ex k v ttl s :=
    if ttl <=? 0 then (Err "ERR invalid expire time in 'set' command", s)
    else (Ok tt, set k (Entry v (Some (clock s + ttl * 1000))) s);
  redis_expire k ttl s :=
    match store s !! k with
    | None => (Ok 0, s)
    | Some e =>
        if ttl <=? 0 then (Ok 1, Mem (clock s) (delete k (store s)))
        else (Ok 1, set k (Entry (e_value e) (Some (clock s + ttl * 1000))) s)
    end;
  redis_decrby k n s :=
    let e := default (Entry "0" None) (store s !! k) in
    match parse_decimal (e_value e) with
    | Some v =>
        if is_int64 v && is_int64 (v - n)
        then (Ok (v - n), set k (Entry (pretty (v - n)) (e_deadline e)) s)
        else (Err "ERR value is not an integer or out of range", s)
    | None => (Err "ERR value is not an integer or out of range", s)
    end;
  redis_advance d s :=
    Mem (clock s + d) (filter (fun ke => alive (clock s + d) ke.2) (store s));
  redis_evict k s :=
    match store s !! k ≫= e_deadline with
    | Some _ => Mem (clock s) (delete k (store s))
    | None => s
    end
|}.

#[global] Instance laws : RedisLaws t.
Proof.
  split; cbn.
  - done.
  - done.
  - intros k v ttl s Httl. destruct (Z.leb_spec ttl 0); [lia|].
    by eexists.
  - intros k v ttl s Httl. destruct (Z.leb_spec ttl 0); [|lia]. by eexists.
  - intros k ttl s e Httl Hk. rewrite Hk. destruct (Z.leb_spec ttl 0); [lia|].
    by eexists.
  - intros k n s e v Hk Hv H1 H2. rewrite Hk. cbn. rewrite Hv, H1, H2. by eexists.
  - done.
  - intros k s. by destruct (store s !! k ≫= e_deadline).
Qed.

Definition empty : t := Mem 0 ∅.
End MemRedis.
