(* ===== verification/SlidingWindow.v ===== *)
(** * The stand-alone Redis scripts (redis/lua-scripts/)

    token_bucket.lua keeps the accepted requests of a window in a sorted set, and
    get_set_model.lua reads a stored model.  No program of the repository loads them.
    The server's commands on sorted sets are the class [SortedSets]; its clock is in
    microseconds, as TIME tells it, and it may evict a set between two scripts
    ([z_evict]; redis.conf's volatile-lru, REDIS.md, section 5).

    The caller's timestamps are integers, in units of a [u]-th of a second: [u] = 1 for
    whole seconds, a power of two for the fractions.  Lua's numbers hold such times
    exactly while they are below 2^53; how a decimal text is rounded to one is not
    modelled. *)

From S2P Require Import Prelude GoText GoPrint Redis.

(** ** The server *)

(** A sorted set, its members with their scores, and the expiry of its key. *)
Record zset := ZSet { z_members : gmap string Z; z_deadline : option Z }.

Definition z_alive (now : Z) (z : zset) : Prop :=
  match z_deadline z with Some d => now <= d | None => True end.

#[export] Instance z_alive_dec now z : Decision (z_alive now z).
Proof. unfold z_alive. destruct (z_deadline z); apply _. Defined.

Definition second : Z := 1000000.

Class SortedSets (St : Type) := {
  z_clock : St -> Z;
  z_live : St -> gmap string zset;
  zremrangebyscore : string -> Z -> io St Z;
  zcard : string -> St -> Z;
  zadd : string -> Z -> string -> io St Z;
  z_expire : string -> Z -> io St Z;
  z_time : St -> string * string;
  z_advance : Z -> St -> St;
  z_evict : string -> St -> St
}.

Definition members_of (o : option zset) : gmap string Z := from_option z_members ∅ o.

(** A set without members is removed. *)
Definition put_members (k : string) (m : gmap string Z) (d : option Z) (live : gmap string zset) :=
  if decide (m = ∅) then delete k live else <[k := ZSet m d]> live.

(** The commands as https://redis.io/docs/latest/commands describes them, for keys that
    hold nothing else.  ZREMRANGEBYSCORE is from [-inf], both ends included. *)
Class SortedSetsLaws (St : Type) `{SortedSets St} : Prop := {
  zrem_law k max s : exists n s', zremrangebyscore k max s = (Ok n, s') /\ z_clock s' = z_clock s /\
    z_live s' = match z_live s !! k with
                | Some z => put_members k (filter (fun mx => max < mx.2) (z_members z)) (z_deadline z) (z_live s)
                | None => z_live s
                end;
  zcard_law k s : zcard k s = Z.of_nat (size (members_of (z_live s !! k)));
  zadd_law k score m s : exists n s', zadd k score m s = (Ok n, s') /\ z_clock s' = z_clock s /\
    z_live s' = <[k := ZSet (<[m := score]> (members_of (z_live s !! k)))
                            (z_live s !! k ≫= z_deadline)]> (z_live s);
  z_expire_law k ttl s : 0 < ttl <= max_ttl ->
    exists n s', z_expire k ttl s = (Ok n, s') /\ z_clock s' = z_clock s /\
    z_live s' = alter (fun z => ZSet (z_members z) (Some (z_clock s + ttl * second))) k (z_live s);
  z_time_law s : z_time s = (pretty (z_clock s / second), pretty (z_clock s mod second));
  z_advance_law d s : 0 <= d -> z_clock (z_advance d s) = z_clock s + d /\
    z_live (z_advance d s) = filter (fun kz => z_alive (z_clock s + d) kz.2) (z_live s);
  z_evict_law k s : z_clock (z_evict k s) = z_clock s /\
    z_live (z_evict k s) = match z_live s !! k ≫= z_deadline with
                           | Some _ => delete k (z_live s)
                           | None => z_live s
                           end
}.

(** ** token_bucket.lua *)

Section Script.
Context {St : Type} `{SortedSets St}.
Variable u : Z.

(** Steps 2 and 3: count, and accept or deny. *)
Definition allow_or_deny (key : string) (max_tokens window_seconds now : Z) : io St Z := fun s =>
  let current_count := zcard key s in
  if current_count <? max_tokens then
    let time_parts := z_time s in
    let member := time_parts.1 +:+ "." +:+ time_parts.2 in
    (_ ← zadd key now member;
     _ ← z_expire key window_seconds;
     mret 1) s
  else
    (_ ← z_expire key window_seconds;
     mret 0) s.

Definition token_bucket (key : string) (max_tokens window_seconds now : Z) : io St Z :=
  let window_start := now - window_seconds * u in
  _ ← zremrangebyscore key window_start;
  allow_or_deny key max_tokens window_seconds now.

(** What happens to the server, after a wait of so many microseconds; [stamp] is what the
    callers' clock shows at a time of the server. *)
Inductive action := Call (key : string) | Evict (key : string).

Fixpoint run (max w : Z) (stamp : Z -> Z) (calls : list (Z * action)) (s : St) : list (string * result Z) * St :=
  match calls with
  | [] => ([], s)
  | (d, Call key) :: calls =>
      let s := z_advance d s in
      let (r, s) := token_bucket key max w (stamp (z_clock s)) s in
      let (rs, s) := run max w stamp calls s in
      ((key, r) :: rs, s)
  | (d, Evict key) :: calls => run max w stamp calls (z_evict key (z_advance d s))
  end.
End Script.

(** ** The reference: a log of accepted requests that is never pruned *)

Definition in_window (w now : Z) (log : list Z) : list Z := filter (fun x => now - w < x) log.

(** Requests at some times, and evictions ([None]), which begin a new log; [w] in units.
    The logs come with the last one first. *)
Fixpoint window_replies (max w : Z) (log : list Z) (old : list (list Z)) (reqs : list (option Z))
    : list Z * list (list Z) :=
  match reqs with
  | [] => ([], log :: old)
  | None :: reqs => window_replies max w [] (log :: old) reqs
  | Some now :: reqs =>
      if Z.of_nat (length (in_window w now log)) <? max then
        let (rs, logs) := window_replies max w (now :: log) old reqs in (1 :: rs, logs)
      else
        let (rs, logs) := window_replies max w log old reqs in (0 :: rs, logs)
  end.

(** The times of the calls for a key, and its evictions. *)
Fixpoint asked (key : string) (now : Z) (calls : list (Z * action)) : list (option Z) :=
  match calls with
  | [] => []
  | (d, Call key') :: calls =>
      (if decide (key' = key) then [Some (now + d)] else []) ++ asked key (now + d) calls
  | (d, Evict key') :: calls =>
      (if decide (key' = key) then [None] else []) ++ asked key (now + d) calls
  end.

(** Calls are at different microseconds. *)
Definition wait_ok (c : Z * action) : Prop :=
  match c.2 with Call _ => 0 < c.1 | Evict _ => 0 <= c.1 end.

Definition replies_for (key : string) (rs : list (string * result Z)) : list (result Z) :=
  snd <$> filter (fun kr => kr.1 = key) rs.

(** A clock that does not go back and passes [w] seconds when the server's does. *)
Record keeps_time (u w : Z) (stamp : Z -> Z) : Prop := {
  stamp_mono t t' : t <= t' -> stamp t <= stamp t';
  stamp_window t t' : t + w * second <= t' -> stamp t + w * u <= stamp t'
}.

(** ** get_set_model.lua *)

(** [TTL]: -2 without the key, -1 without an expiry. *)
Class RedisTTL (St : Type) := { redis_ttl : string -> St -> Z }.

Definition get_set_model {St} `{RedisCmds St, RedisTTL St} (key : string) (s : St) : option (string * Z) :=
  if redis_exists key s =? 0 then None
  else
    let model_bytes := redis_get key s in
    let ttl_remaining := redis_ttl key s in
    match model_bytes with
    | None => None
    | Some bytes => Some (bytes, ttl_remaining)
    end.

(** ** Lemmas *)

(** The member of a call. *)
Definition member (t : Z) : string := pretty (t / second) +:+ "." +:+ pretty (t mod second).

Lemma pretty_digits z : 0 <= z -> Forall (fun c => is_digit c = true) (to_text (pretty z)).
Proof.
  intros Hz. assert (pretty z = pretty (Z.to_N z)) as -> by (destruct z; done || lia).
  destruct (pretty_N_digits (Z.to_N z)) as (c & l & -> & Hc & Hl & _). by constructor.
Qed.

Lemma split_at_dot l1 l2 k1 k2 :
  Forall (fun c => is_digit c = true) l1 -> Forall (fun c => is_digit c = true) l2 ->
  l1 ++ "."%char :: k1 = l2 ++ "."%char :: k2 -> l1 = l2 /\ k1 = k2.
Proof.
  intros H1. revert l2. induction H1 as [|c l1 Hc _ IH]; intros l2 H2 E; destruct H2 as [|c' l2 Hc' H2].
  - by injection E.
  - injection E as <- _. by vm_compute in Hc'.
  - injection E as -> _. by vm_compute in Hc.
  - injection E as -> E. by destruct (IH l2 H2 E) as [-> ->].
Qed.

Lemma member_inj t t' : 0 <= t -> 0 <= t' -> member t = member t' -> t = t'.
Proof.
  intros Ht Ht' E. apply (f_equal to_text) in E. unfold member in E. rewrite !to_text_app in E.
  assert (0 <= t / second /\ 0 <= t' / second /\ 0 <= t mod second /\ 0 <= t' mod second)
    as (H1 & H2 & H3 & H4) by (unfold second; divlia).
  apply split_at_dot in E as [E1 E2]; [|by apply pretty_digits..].
  assert (forall a b : Z, to_text (pretty a) = to_text (pretty b) -> a = b) as Hinj.
  { intros a b Eab. apply (f_equal of_text) in Eab. rewrite !of_to_text in Eab. by apply (inj pretty). }
  apply Hinj in E1, E2. rewrite (Z.div_mod t second), (Z.div_mod t' second) by done. congruence.
Qed.

(** The sorted set of calls at some times. *)
Definition entries (stamp : Z -> Z) (log : list Z) : gmap string Z :=
  list_to_map ((fun t => (member t, stamp t)) <$> log).

Lemma entries_fresh stamp log t :
  0 <= t -> Forall (fun t => 0 <= t) log -> t ∉ log -> entries stamp log !! member t = None.
Proof.
  intros Ht Hlog Hnew. apply not_elem_of_list_to_map_1. rewrite <- list_fmap_compose.
  intros (t' & E & Hin)%list_elem_of_fmap. cbn in E. rewrite Forall_forall in Hlog.
  apply member_inj in E as ->; [done|done|by apply Hlog].
Qed.

Lemma entries_size stamp log :
  NoDup log -> Forall (fun t => 0 <= t) log -> size (entries stamp log) = length log.
Proof.
  induction 1 as [|t log Hnew _ IH]; intros Hlog; [done|]. apply Forall_cons in Hlog as [Ht Hlog].
  change (entries stamp (t :: log)) with (<[member t := stamp t]> (entries stamp log)).
  rewrite map_size_insert_None by (by apply entries_fresh). cbn. by rewrite IH.
Qed.

Lemma entries_filter stamp c log :
  NoDup log -> Forall (fun t => 0 <= t) log ->
  filter (fun mx => c < mx.2) (entries stamp log) = entries stamp (filter (fun t => c < stamp t) log).
Proof.
  induction 1 as [|t log Hnew _ IH]; intros Hlog; [done|]. apply Forall_cons in Hlog as [Ht Hlog].
  change (entries stamp (t :: log)) with (<[member t := stamp t]> (entries stamp log)).
  rewrite filter_cons. destruct (decide (c < stamp t)) as [Hc|Hc].
  - rewrite map_filter_insert_True, IH by done. done.
  - rewrite map_filter_insert_False, delete_id by (done || by apply entries_fresh). by apply IH.
Qed.

Lemma filter_stamps (stamp : Z -> Z) (c : Z) (log : list Z) :
  length (filter (fun x => c < x) (stamp <$> log)) = length (filter (fun t => c < stamp t) log).
Proof.
  induction log as [|t log IH]; [done|]. cbn [fmap list_fmap]. rewrite !filter_cons.
  repeat case_decide; cbn [length]; lia.
Qed.

Lemma filter_none {A} (P : A -> Prop) `{forall x, Decision (P x)} l :
  Forall (fun x => ~ P x) l -> filter P l = [].
Proof. induction 1 as [|x l Hx _ IH]; [done|]. by rewrite filter_cons_False. Qed.

Lemma Forall_filter {A} (P Q : A -> Prop) `{forall x, Decision (P x)} l :
  Forall Q l -> Forall Q (filter P l).
Proof.
  induction 1 as [|x l Hx _ IH]; [done|]. rewrite filter_cons. by case_decide; [constructor|].
Qed.

Lemma filter_later (stamp : Z -> Z) (c c' : Z) (log : list Z) : c <= c' ->
  filter (fun t => c' < stamp t) (filter (fun t => c < stamp t) log) = filter (fun t => c' < stamp t) log.
Proof. intros Hc. rewrite list_filter_filter_l; [done|]. intros t. lia. Qed.

Section Lemmas.
Context {St : Type} `{SortedSetsLaws St}.
Variables (u max w : Z) (stamp : Z -> Z).
Hypothesis Hu : 0 < u.
Hypothesis Hw : 0 < w <= max_ttl.
Hypothesis Hstamp : keeps_time u w stamp.

(** [log]: the times of the accepted calls for [key].  What the server still holds are
    those after some past start of a window. *)
Record tracks (key : string) (log : list Z) (s : St) : Prop := {
  track_distinct : NoDup log;
  track_past : Forall (fun t => 0 <= t <= z_clock s) log;
  track_members : exists start, start + w * u <= stamp (z_clock s) /\
    members_of (z_live s !! key) = entries stamp (filter (fun t => start < stamp t) log);
  track_deadline : forall z, z_live s !! key = Some z ->
    exists l, z_deadline z = Some (l + w * second) /\ Forall (fun t => t <= l) log
}.

Lemma track_nonneg key log s : tracks key log s -> Forall (fun t => 0 <= t) log.
Proof. intros Ht. eapply Forall_impl; [exact (track_past _ _ _ Ht)|]. intros t. cbn. lia. Qed.

(** Waiting: a set expires when all its members have left the window. *)
Lemma advance_tracks key log s d :
  0 <= d -> tracks key log s -> tracks key log (z_advance d s).
Proof.
  intros Hd Ht. destruct (z_advance_law d s Hd) as [Hc Hl]. destruct Ht as [Hnd Hpast (start & Hs & Hm) Hdl].
  assert (stamp (z_clock s) <= stamp (z_clock s + d)) as Hmono by (apply (stamp_mono _ _ _ Hstamp); lia).
  split.
  - done.
  - eapply Forall_impl; [exact Hpast|]. intros t. cbn. lia.
  - rewrite Hc, Hl. destruct (z_live s !! key) as [z|] eqn:Ez.
    + destruct (decide (z_alive (z_clock s + d) z)) as [Ha|Ha].
      * rewrite (map_lookup_filter_Some_2 _ _ _ z) by done. exists start. split; [lia|done].
      * destruct (Hdl z eq_refl) as (l & El & Hlog). unfold z_alive in Ha. rewrite El in Ha.
        change (~ z_clock s + d <= l + w * second) in Ha.
        assert (filter (fun kz => z_alive (z_clock s + d) kz.2) (z_live s) !! key = None) as ->.
        { apply map_lookup_filter_None. right. intros z' Ez'. rewrite Ez in Ez'. injection Ez' as <-.
          cbn. unfold z_alive. by rewrite El. }
        exists (stamp (z_clock s + d) - w * u). split; [lia|].
        rewrite filter_none; [done|].
        eapply Forall_impl; [exact Hlog|]. intros t Htl. cbn in Htl |- *.
        pose proof (stamp_mono _ _ _ Hstamp t l Htl).
        assert (stamp l + w * u <= stamp (z_clock s + d)) by (apply (stamp_window _ _ _ Hstamp); lia). lia.
    + assert (filter (fun kz => z_alive (z_clock s + d) kz.2) (z_live s) !! key = None) as ->
        by (apply map_lookup_filter_None; by left).
      exists start. split; [lia|done].
  - rewrite Hl. intros z (Ez & _)%map_lookup_filter_Some. by apply Hdl.
Qed.

Lemma zrem_members key ws s :
  exists n s', zremrangebyscore key ws s = (Ok n, s') /\ z_clock s' = z_clock s /\
    members_of (z_live s' !! key) = filter (fun mx => ws < mx.2) (members_of (z_live s !! key)) /\
    forall key', key' <> key -> z_live s' !! key' = z_live s !! key'.
Proof.
  destruct (zrem_law key ws s) as (n & s' & E & Hc & Hl). exists n, s'. split; [done|]. split; [done|].
  rewrite Hl. destruct (z_live s !! key) as [z|] eqn:Ez.
  - unfold put_members. cbn [members_of from_option]. case_decide as Hd.
    + rewrite lookup_delete_eq, Hd. split; [done|]. intros key' Hne. by rewrite lookup_delete_ne.
    + rewrite lookup_insert_eq. split; [done|]. intros key' Hne. by rewrite lookup_insert_ne.
  - rewrite Ez. split; [done|done].
Qed.

(** A call: the script answers like the reference, and changes only its key. *)
Lemma token_bucket_tracks key log s :
  0 <= z_clock s -> tracks key log s -> Forall (fun t => t < z_clock s) log ->
  let accept := Z.of_nat (length (in_window (w * u) (stamp (z_clock s)) (stamp <$> log))) <? max in
  exists s', token_bucket u key max w (stamp (z_clock s)) s = (Ok (if accept then 1 else 0), s') /\
    z_clock s' = z_clock s /\ tracks key (if accept then z_clock s :: log else log) s' /\
    forall key', key' <> key -> z_live s' !! key' = z_live s !! key'.
Proof.
  intros Hpos Ht Hlt. cbv zeta. set (c := z_clock s) in *. set (ws := stamp c - w * u).
  pose proof (track_nonneg _ _ _ Ht) as Hnn. destruct Ht as [Hnd Hpast (start & Hstart & Hm) _].
  destruct (zrem_members key ws s) as (n & s1 & E1 & Hc1 & Hm1 & Hf1). fold c in Hc1.
  assert (start <= ws) as Hws by (unfold ws, c; lia).
  rewrite Hm, entries_filter, filter_later in Hm1
    by (first [done | by apply NoDup_filter | by apply Forall_filter]).
  assert (zcard key s1 = Z.of_nat (length (in_window (w * u) (stamp c) (stamp <$> log)))) as Hcard.
  { rewrite zcard_law, Hm1, entries_size by (first [by apply NoDup_filter | by apply Forall_filter]).
    unfold in_window. by rewrite filter_stamps. }
  assert (0 < w /\ ws < stamp c) as [Hw0 Hwsc] by (unfold ws; nia).
  unfold token_bucket, mbind, io_bind. fold ws. rewrite E1. unfold allow_or_deny, mbind, io_bind.
  rewrite Hcard. destruct (_ <? max).
  - rewrite z_time_law, Hc1. cbn [fst snd]. fold (member c).
    destruct (zadd_law key (stamp c) (member c) s1) as (n2 & s2 & -> & Hc2 & Hl2).
    destruct (z_expire_law key w s2 Hw) as (n3 & s3 & -> & Hc3 & Hl3).
    assert (z_live s3 !! key = Some (ZSet (<[member c := stamp c]> (members_of (z_live s1 !! key)))
      (Some (c + w * second)))) as Hkey.
    { rewrite Hl3, lookup_alter_eq, Hl2, lookup_insert_eq, Hc2, Hc1. done. }
    exists s3. split; [done|]. split; [congruence|]. split.
    + split.
      * apply NoDup_cons. split; [|done]. intros Hin. rewrite Forall_forall in Hlt. specialize (Hlt c Hin). lia.
      * rewrite Hc3, Hc2, Hc1. constructor; [lia|done].
      * exists ws. rewrite Hc3, Hc2, Hc1, Hkey. split; [unfold ws; lia|].
        rewrite filter_cons, decide_True by done. cbn [members_of from_option z_members]. by rewrite Hm1.
      * rewrite Hkey. intros z [= <-]. exists c. split; [done|]. constructor; [lia|].
        eapply Forall_impl; [exact Hlt|]. intros t. cbn. lia.
    + intros key' Hne. rewrite Hl3, lookup_alter_ne by done. rewrite Hl2, lookup_insert_ne by done. by apply Hf1.
  - destruct (z_expire_law key w s1 Hw) as (n3 & s3 & -> & Hc3 & Hl3).
    assert (z_live s3 !! key = (fun z => ZSet (z_members z) (Some (c + w * second))) <$> z_live s1 !! key) as Hkey.
    { by rewrite Hl3, lookup_alter_eq, Hc1. }
    exists s3. split; [done|]. split; [congruence|]. split.
    + split.
      * done.
      * by rewrite Hc3, Hc1.
      * exists ws. rewrite Hc3, Hc1, Hkey. split; [unfold ws; lia|]. rewrite <- Hm1. by destruct (z_live s1 !! key).
      * rewrite Hkey. intros z (z1 & _ & ->)%fmap_Some. exists c. split; [done|].
        eapply Forall_impl; [exact Hlt|]. intros t. cbn. lia.
    + intros key' Hne. rewrite Hl3, lookup_alter_ne by done. by apply Hf1.
Qed.

(** An eviction begins a new log. *)
Lemma evict_tracks key log s : tracks key log s -> tracks key [] (z_evict key s).
Proof.
  intros Ht. destruct (z_evict_law key s) as [Hc Hl].
  assert (z_live (z_evict key s) !! key = None) as Hnone.
  { rewrite Hl. destruct (z_live s !! key) as [z|] eqn:Ez; [|done].
    destruct (track_deadline _ _ _ Ht z Ez) as (l & El & _). cbn. rewrite El. apply lookup_delete_eq. }
  split; [constructor|done| |by rewrite Hnone].
  exists (stamp (z_clock (z_evict key s)) - w * u). split; [lia|]. by rewrite Hnone.
Qed.

Lemma evict_other key key' log s : key <> key' -> tracks key log s -> tracks key log (z_evict key' s).
Proof.
  intros Hne Ht. destruct (z_evict_law key' s) as [Hc Hl].
  assert (z_live (z_evict key' s) !! key = z_live s !! key) as He
    by (rewrite Hl; case_match; [by rewrite lookup_delete_ne|done]).
  destruct Ht. split; rewrite ?Hc, ?He; done.
Qed.

(** All keys together. *)
Definition tracks_all (logs : string -> list Z) (s : St) : Prop :=
  0 <= z_clock s /\ forall key, tracks key (logs key) s.

Lemma run_replies key calls logs old s :
  Forall wait_ok calls -> tracks_all logs s ->
  replies_for key (fst (run u max w stamp calls s)) =
    Ok <$> fst (window_replies max (w * u) (stamp <$> logs key) old
                  (option_map stamp <$> asked key (z_clock s) calls)).
Proof.
  intros Hcalls. revert logs old s.
  induction Hcalls as [|[d [key'|key']] calls Hd _ IH]; intros logs old s [Hpos Hall]; [done|..];
    cbn [run asked]; unfold wait_ok in Hd; cbn [fst snd] in Hd;
    destruct (z_advance_law d s ltac:(lia)) as [Hc _];
    assert (forall k, tracks k (logs k) (z_advance d s)) as Hall1
      by (intros k; apply advance_tracks; [lia|done]).
  - assert (Forall (fun t => t < z_clock (z_advance d s)) (logs key')) as Hlt.
    { eapply Forall_impl; [exact (track_past _ _ _ (Hall key'))|]. intros t. cbn. lia. }
    destruct (token_bucket_tracks key' (logs key') (z_advance d s)) as (s' & E & Hc' & Ht' & Hf); [lia|done|done|].
    rewrite E. set (accept := Z.of_nat _ <? max) in *.
    destruct (run u max w stamp calls s') as [rs s''] eqn:Er.
    set (logs' := fun k => if decide (k = key')
      then if accept then z_clock (z_advance d s) :: logs key' else logs key' else logs k).
    assert (tracks_all logs' s') as Hall'.
    { split; [lia|]. intros k. unfold logs'. destruct (decide (k = key')) as [->|Hne]; [done|].
      destruct (Hall1 k). split; rewrite ?Hc', ?Hf by done; done. }
    specialize (IH logs' old s' Hall'). rewrite Er, Hc', Hc in IH. cbn [fst] in IH |- *.
    unfold replies_for in IH |- *. rewrite filter_cons. cbn [fst]. unfold logs' in IH.
    destruct (decide (key' = key)) as [->|Hne].
    + rewrite (decide_True _ _ eq_refl) in IH. cbn [app fmap list_fmap option_map window_replies].
      rewrite <- Hc. fold accept. cbn [snd]. rewrite IH, Hc. destruct accept; cbn [fmap list_fmap].
      * by destruct (window_replies max (w * u) (_ :: _) _ _).
      * by destruct (window_replies max (w * u) (stamp <$> logs key) _ _).
    + rewrite decide_False in IH by done. exact IH.
  - set (logs' := fun k => if decide (k = key') then [] else logs k).
    assert (tracks_all logs' (z_evict key' (z_advance d s))) as Hall'.
    { destruct (z_evict_law key' (z_advance d s)) as [Hc' _]. split; [lia|].
      intros k. unfold logs'. destruct (decide (k = key')) as [->|Hne]; [by eapply evict_tracks|by apply evict_other]. }
    destruct (z_evict_law key' (z_advance d s)) as [Hc' _].
    destruct (decide (key' = key)) as [->|Hne]; cbn [app fmap list_fmap option_map window_replies].
    + rewrite (IH logs' ((stamp <$> logs key) :: old) _ Hall'), Hc', Hc.
      unfold logs'. by rewrite (decide_True _ _ eq_refl).
    + rewrite (IH logs' old _ Hall'), Hc', Hc. unfold logs'. by rewrite decide_False.
Qed.
End Lemmas.

(** The reference accepts at most [max] requests in any window. *)
Definition window_ok (max w : Z) (log : list Z) : Prop :=
  forall now, Z.of_nat (length (filter (fun x => now - w < x <= now) log)) <= Z.max 0 max.

Lemma in_window_bound w now t (log : list Z) : t <= now ->
  (length (filter (fun x => (now - w < x <= now)%Z) (t :: log)) <=
   S (length (in_window w t log)))%nat.
Proof.
  intros Ht. rewrite filter_cons. assert (forall l : list Z,
    (length (filter (fun x => (now - w < x <= now)%Z) l) <= length (in_window w t l))%nat) as H.
  { unfold in_window. intros l. induction l as [|x l IH]; [done|]. rewrite !filter_cons.
    repeat case_decide; cbn [length]; lia. }
  specialize (H log). case_decide; cbn [length]; lia.
Qed.

Lemma window_replies_ok max w log old reqs :
  window_ok max w log -> Forall (window_ok max w) old ->
  Forall (window_ok max w) (snd (window_replies max w log old reqs)).
Proof.
  revert log old. induction reqs as [|[t|] reqs IH]; intros log old Hok Hold; cbn [window_replies].
  - by constructor.
  - destruct (Z.ltb_spec (Z.of_nat (length (in_window w t log))) max) as [Hlt|Hge].
    + assert (window_ok max w (t :: log)) as Hnew.
      { intros now. destruct (decide (t <= now)) as [Hle|Hgt].
        - pose proof (in_window_bound w now t log Hle). lia.
        - rewrite filter_cons, decide_False by lia. apply Hok. }
      specialize (IH _ _ Hnew Hold). by destruct (window_replies max w (t :: log) old reqs).
    + specialize (IH _ _ Hok Hold). by destruct (window_replies max w log old reqs).
  - apply IH; [|by constructor]. intros now. cbn. lia.
Qed.

(** One log more than there are evictions. *)
Lemma window_replies_logs max w log old reqs :
  length (snd (window_replies max w log old reqs)) =
    (1 + length old + length (filter (fun r => r = None) reqs))%nat.
Proof.
  revert log old. induction reqs as [|[t|] reqs IH]; intros log old; cbn [window_replies];
    rewrite ?filter_cons.
  - cbn. lia.
  - rewrite decide_False by done. case_match.
    + specialize (IH (t :: log) old). by destruct (window_replies max w (t :: log) old reqs).
    + specialize (IH log old). by destruct (window_replies max w log old reqs).
  - rewrite decide_True, IH by done. cbn [length]. lia.
Qed.

Lemma windows_total max w (logs : list (list Z)) now :
  Forall (window_ok max w) logs ->
  Z.of_nat (length (filter (fun x => now - w < x <= now) (concat logs))) <= Z.max 0 max * Z.of_nat (length logs).
Proof.
  induction 1 as [|log logs Hok _ IH]; [cbn; lia|]. cbn [concat length].
  rewrite filter_app, length_app. specialize (Hok now). lia.
Qed.

Lemma window_ok_nil max w : window_ok max w [].
Proof. intros now. cbn. lia. Qed.

Lemma get_set_model_live {St} `{RedisLaws St, RedisTTL St} key (s : St) :
  get_set_model key s = (fun e => (e_value e, redis_ttl key s)) <$> redis_live s !! key.
Proof.
  unfold get_set_model. rewrite exists_law, Redis.get_law. by destruct (redis_live s !! key).
Qed.

(** ** Properties *)

Section Properties.
Context {St : Type} `{SortedSetsLaws St}.

(** C40: the script is a sliding window.  The callers' timestamps are integers (whole
    seconds, or 1/[u] of a second), of a clock that does not go back and passes a window
    whenever the server's clock does.  On a server without the keys, and with calls at
    different microseconds, the replies for every key are those of the reference, which
    counts a log of all accepted requests that is never pruned and never expires:
    whatever the calls for other keys, whatever the waits, whenever the server has
    expired a set.  Only when the server evicts the set of the key to make room does the
    log begin anew.  And the reference never accepts more than [max_tokens] requests
    within any [window_seconds] between two evictions of the key, so no more than
    [max_tokens] times one plus the number of these evictions in all. *)
Theorem token_bucket_slides u max w stamp key calls (s : St) :
  0 < u -> 0 < w <= max_ttl -> keeps_time u w stamp -> 0 <= z_clock s -> z_live s = ∅ ->
  Forall wait_ok calls ->
  let reqs := option_map stamp <$> asked key (z_clock s) calls in
  let logs := snd (window_replies max (w * u) [] [] reqs) in
  replies_for key (fst (run u max w stamp calls s)) = Ok <$> fst (window_replies max (w * u) [] [] reqs) /\
  Forall (window_ok max (w * u)) logs /\
  forall now, Z.of_nat (length (filter (fun x => now - w * u < x <= now) (concat logs)))
                <= Z.max 0 max * (1 + Z.of_nat (length (filter (fun r => r = None) reqs))).
Proof.
  intros Hu Hw Hstamp Hpos Hempty Hcalls reqs logs.
  assert (Forall (window_ok max (w * u)) logs) as Hok by (apply window_replies_ok; [apply window_ok_nil|constructor]).
  split; [|split; [done|]].
  - apply (run_replies u max w stamp Hu Hw Hstamp key calls (fun _ => []) [] s Hcalls). split; [done|].
    intros k. split; [constructor|done| |by rewrite Hempty].
    exists (stamp (z_clock s) - w * u). split; [lia|]. by rewrite Hempty.
  - intros now. etrans; [by apply (windows_total max)|]. unfold logs. rewrite window_replies_logs.
    cbn [length]. lia.
Qed.
End Properties.

(** ** A server in memory *)

Module MemSets.
Record t := Mem { clock : Z; store : gmap string zset }.

#[global] Instance cmds : SortedSets t := {|
  z_clock := clock;
  z_live := store;
  zremrangebyscore k max s :=
    match store s !! k with
    | Some z =>
        let kept := filter (fun mx => max < mx.2) (z_members z) in
        (Ok (Z.of_nat (size (z_members z) - size kept)),
         Mem (clock s) (put_members k kept (z_deadline z) (store s)))
    | None => (Ok 0, s)
    end;
  zcard k s := Z.of_nat (size (members_of (store s !! k)));
  zadd k score m s :=
    let members := members_of (store s !! k) in
    (Ok (if decide (is_Some (members !! m)) then 0 else 1),
     Mem (clock s) (<[k := ZSet (<[m := score]> members) (store s !! k ≫= z_deadline)]> (store s)));
  z_expire k ttl s :=
    if ttl <=? 0 then (Ok (if decide (is_Some (store s !! k)) then 1 else 0), Mem (clock s) (delete k (store s)))
    else (Ok (if decide (is_Some (store s !! k)) then 1 else 0),
          Mem (clock s) (alter (fun z => ZSet (z_members z) (Some (clock s + ttl * second))) k (store s)));
  z_time s := (pretty (clock s / second), pretty (clock s mod second));
  z_advance d s := Mem (clock s + d) (filter (fun kz => z_alive (clock s + d) kz.2) (store s));
  z_evict k s :=
    match store s !! k ≫= z_deadline with
    | Some _ => Mem (clock s) (delete k (store s))
    | None => s
    end
|}.

#[global] Instance laws : SortedSetsLaws t.
Proof.
  split; cbn.
  - intros k max s. destruct (store s !! k) as [z|]; by do 2 eexists.
  - done.
  - intros k score m s. by do 2 eexists.
  - intros k ttl s Httl. destruct (Z.leb_spec ttl 0); [lia|]. by do 2 eexists.
  - done.
  - done.
  - intros k s. by destruct (store s !! k ≫= z_deadline).
Qed.

Definition empty : t := Mem 1700000000000000 ∅.
End MemSets.

(** The server's clock, in whole units. *)
Definition units (u t : Z) : Z := t * u / second.

Lemma units_keep_time u w : 0 < u -> keeps_time u w (units u).
Proof.
  intros Hu. split; intros t t' Ht; unfold units.
  - apply Z.div_le_mono; [done|nia].
  - rewrite <- Z.div_add by done. apply Z.div_le_mono; [done|]. unfold second in *. nia.
Qed.

(** Calls within one microsecond have the same member, so that they count as one: all of
    them are accepted by a bucket of two. *)
Lemma same_microsecond_uncounted n :
  snd <$> fst (run 1 2 60 (units 1) (replicate n (0, Call "k")) MemSets.empty) = replicate n (Ok 1).
Proof.
  destruct n as [|n]; [done|]. cbn [replicate run].
  set (call s := token_bucket 1 "k" 2 60 (units 1 (z_clock (z_advance 0 s))) (z_advance 0 s)).
  change (token_bucket 1 "k" 2 60 _ _) with (call MemSets.empty).
  set (s1 := snd (call MemSets.empty)).
  assert (call MemSets.empty = (Ok 1, s1)) as -> by (vm_compute; reflexivity).
  assert (call s1 = (Ok 1, s1)) as Hs1 by (vm_compute; reflexivity).
  unfold call in Hs1. clearbody s1.
  assert (snd <$> fst (run 1 2 60 (units 1) (replicate n (0, Call "k")) s1) = replicate n (Ok 1)) as IH.
  { induction n as [|n IH]; [done|]. cbn [replicate run]. rewrite Hs1.
    destruct (run 1 2 60 (units 1) (replicate n (0, Call "k")) s1) as [rs s2]. cbn. by f_equal. }
  destruct (run 1 2 60 (units 1) (replicate n (0, Call "k")) s1) as [rs s2]. cbn. by f_equal.
Qed.

(** A bucket of two, stamped with quarters of a second: the third request is denied; a
    minute after the first there is room for one more; the eviction makes room for two. *)
Lemma token_bucket_slides_witness :
  replies_for "k" (fst (run 4 2 60 (units 4)
    [(1, Call "k"); (1000000, Call "j"); (20000000, Call "k"); (1, Call "k"); (39000000, Call "k");
     (1, Call "k"); (0, Evict "k"); (1, Call "k"); (1, Call "k"); (1, Call "k")] MemSets.empty)) =
  [Ok 1; Ok 1; Ok 0; Ok 1; Ok 0; Ok 1; Ok 1; Ok 0].
Proof.
  etrans; [apply (token_bucket_slides 4 2 60 (units 4) "k");
    [done| |by apply units_keep_time|done|done|]|].
  - by vm_compute.
  - repeat constructor; done.
  - vm_compute. reflexivity.
Defined.
