(* ===== verification/TokenBucket.v ===== *)
(** * What the token bucket promises

    An abstract bucket (tokens left and expiry time) with the operations [take]
    and [expire], the refinement of it by [Redis.tokenBucketScript], and what
    follows for traces of requests of many clients over one server, which may evict
    buckets between two requests. *)

From S2P Require Import Prelude GoFloat Redis.

(** ** The abstract bucket *)

(** The tokens left and the time (ms) until which they are remembered. *)
Definition bucket : Type := option (Z * Z).

Definition take (cap ttl now : Z) (b : bucket) : Z * bucket :=
  match b with
  | None => (cap - 1, Some (cap - 1, now + ttl * 1000))
  | Some (v, _) =>
      if v <=? 0 then (-1, Some (v, now + ttl * 1000))
      else (v - 1, Some (v - 1, now + ttl * 1000))
  end.

Definition expire (now : Z) (b : bucket) : bucket :=
  match b with
  | Some (v, d) => if now <=? d then Some (v, d) else None
  | None => None
  end.

(** Bucket sizes are integers that Lua numbers represent exactly. *)
Definition cap_ok (cap : Z) : Prop := - 2 ^ 53 <= cap <= 2 ^ 53.

(** The server state holds bucket [b] under [key]. *)
Definition represents {St} `{RedisCmds St} (s : St) (key : string) (b : bucket) : Prop :=
  match b with
  | None => redis_live s !! key = None
  | Some (v, d) =>
      redis_live s !! key = Some (Entry (pretty v) (Some d)) /\ - 2 ^ 53 - 1 <= v <= 2 ^ 53
  end.

(** [s'] differs from [s] at most in [key]. *)
Definition only_key {St} `{RedisCmds St} (s s' : St) (key : string) : Prop :=
  redis_now s' = redis_now s /\
  forall k, k <> key -> redis_live s' !! k = redis_live s !! k.

Section Refinement.
Context {St : Type} `{RedisLaws St}.

Lemma only_key_refl (s : St) key : only_key s s key.
Proof. done. Qed.

Lemma only_key_trans (s1 s2 s3 : St) key :
  only_key s1 s2 key -> only_key s2 s3 key -> only_key s1 s3 key.
Proof.
  intros [N1 L1] [N2 L2]. split; [congruence|]. intros k Hk.
  by rewrite L2, L1.
Qed.

Lemma only_key_insert (s s' : St) key e :
  redis_now s' = redis_now s -> redis_live s' = <[key := e]> (redis_live s) ->
  only_key s s' key.
Proof. intros Hn Hl. split; [done|]. intros k Hk. by rewrite Hl, lookup_insert_ne. Qed.

Lemma represents_other (s s' : St) key key' b :
  only_key s s' key -> key' <> key -> represents s key' b -> represents s' key' b.
Proof.
  intros [_ Hl] Hk. unfold represents. destruct b as [[v d]|]; by rewrite Hl.
Qed.

(** The script takes a token of the bucket its key represents, and touches no
    other key. *)
Lemma script_take key cap ttl (s : St) b :
  cap_ok cap -> 0 < ttl <= max_ttl -> represents s key b ->
  exists s', tokenBucketScript key cap ttl s = (Ok (take cap ttl (redis_now s) b).1, s') /\
    represents s' key (take cap ttl (redis_now s) b).2 /\ only_key s s' key.
Proof.
  intros Hcap Httl Hrep. unfold tokenBucketScript. rewrite exists_law, get_law.
  destruct b as [[v d]|]; cbn [represents] in Hrep.
  - destruct Hrep as [Hl Hv]. rewrite Hl. cbn [fmap option_fmap option_map e_value].
    change (1 =? 0) with false. cbv iota.
    cbn [mbind option_bind]. rewrite parse_decimal_pretty. cbn [take].
    destruct (Z.leb_spec v 0) as [Hv0|Hv0].
    + destruct (expire_law key ttl s _ Httl Hl) as (s' & E & Hn & Hl').
      exists s'. rewrite (io_bind_ok _ _ _ _ _ E). split; [done|].
      split; [|by eapply only_key_insert]. cbn [snd represents].
      rewrite Hl', lookup_insert_eq. done.
    + destruct (decrby_law key 1 s _ v Hl) as (s1 & E1 & Hn1 & Hl1);
        [apply parse_decimal_pretty|apply is_int64_spec; unfold int64_min, int64_max; lia..|].
      assert (redis_live s1 !! key = Some (Entry (pretty (v - 1)) (Some d))) as Hk1.
      { by rewrite Hl1, lookup_insert_eq. }
      destruct (expire_law key ttl s1 _ Httl Hk1) as (s2 & E2 & Hn2 & Hl2).
      exists s2. rewrite (io_bind_ok _ _ _ _ _ E1), (io_bind_ok _ _ _ _ _ E2).
      split; [done|]. split.
      * cbn [snd represents e_value] in *. rewrite Hl2, lookup_insert_eq, Hn1.
        split; [done|lia].
      * eapply only_key_trans; by eapply only_key_insert.
  - rewrite Hrep. change (0 =? 0) with true. cbv iota. cbn [take].
    destruct (set_ex_law key (pretty (cap - 1)) ttl s Httl) as (s' & E & Hn & Hl).
    exists s'. rewrite (io_bind_ok _ _ _ _ _ E). split; [done|].
    split; [|by eapply only_key_insert]. cbn [snd represents].
    rewrite Hl, lookup_insert_eq. unfold cap_ok in Hcap. split; [done|lia].
Qed.

(** The passing of time expires the bucket. *)
Lemma advance_expire d (s : St) key b :
  0 <= d -> represents s key b ->
  represents (redis_advance d s) key (expire (redis_now s + d) b).
Proof.
  intros Hd Hrep. destruct (advance_law d s Hd) as [_ Hl].
  destruct b as [[v dl]|]; cbn [represents expire] in *.
  - destruct Hrep as [Hk Hv]. destruct (Z.leb_spec (redis_now s + d) dl) as [Hle|Hgt].
    + cbn [represents]. rewrite Hl. split; [|done]. by apply map_lookup_filter_Some.
    + cbn [represents]. rewrite Hl. apply map_lookup_filter_None. right.
      intros e He. rewrite Hk in He. simplify_eq. cbn. lia.
  - rewrite Hl. apply map_lookup_filter_None. by left.
Qed.

(** An eviction takes the bucket of its key, and nothing else. *)
Lemma evict_bucket (s : St) key b :
  represents s key b -> represents (redis_evict key s) key None.
Proof.
  destruct (evict_law key s) as [_ Hl]. destruct b as [[v dl]|]; cbn [represents].
  - intros [Hk _]. rewrite Hl, Hk. cbn. apply lookup_delete_eq.
  - intros Hk. by rewrite Hl, Hk.
Qed.

Lemma evict_only_key (s : St) key : only_key s (redis_evict key s) key.
Proof.
  destruct (evict_law key s) as [Hn Hl]. split; [done|]. intros k Hk. rewrite Hl.
  case_match; [by rewrite lookup_delete_ne|done].
Qed.

Lemma advance_now d (s : St) : 0 <= d -> redis_now (redis_advance d s) = redis_now s + d.
Proof. intros Hd. apply (advance_law d s Hd). Qed.
End Refinement.

(** Distinct addresses have distinct keys. *)
Lemma bucket_key_inj ip1 ip2 : bucket_key ip1 = bucket_key ip2 -> ip1 = ip2.
Proof. unfold bucket_key. intros H%append_inj_l. by apply append_inj_r in H. Qed.

(** ** One call of the client *)

Section Calls.
Context {St : Type} `{RedisLaws St}.
Variable oob : spec_float -> Z.

Definition now_ttl (c : Client) (s : St) : Z := redis_now s + ttl_arg oob c * 1000.

(** A configuration under which the script's commands are accepted. *)
Definition client_ok (c : Client) : Prop :=
  cap_ok (bucketSize c) /\ 0 < ttl_arg oob c <= max_ttl.

Lemma run_once_take c ip (s : St) b :
  client_ok c -> represents s (bucket_key ip) b ->
  exists s', run_once oob c ip s = (Ok (take (bucketSize c) (ttl_arg oob c) (redis_now s) b).1, s') /\
    represents s' (bucket_key ip) (take (bucketSize c) (ttl_arg oob c) (redis_now s) b).2 /\
    only_key s s' (bucket_key ip).
Proof. intros [? ?] ?. by apply script_take. Qed.

(** The bucket after [n] more runs of the script at one instant. *)
Fixpoint take_n (c : Client) (now : Z) (n : nat) (b : bucket) : bucket :=
  match n with
  | O => b
  | S n => take_n c now n (take (bucketSize c) (ttl_arg oob c) now b).2
  end.

Lemma run_lost_take c ip n (s : St) b :
  client_ok c -> represents s (bucket_key ip) b ->
  represents (run_lost oob c ip n s) (bucket_key ip) (take_n c (redis_now s) n b) /\
  only_key s (run_lost oob c ip n s) (bucket_key ip).
Proof.
  intros Hc. revert s b. induction n as [|n IH]; intros s b Hrep; cbn [run_lost take_n];
    [by split; [|apply only_key_refl]|].
  destruct (run_once_take c ip s b Hc Hrep) as (s' & E & Hrep' & Hk). rewrite E. cbn [snd].
  destruct (IH _ _ Hrep') as [Hr Hk']. rewrite (proj1 Hk) in Hr.
  split; [done|]. by eapply only_key_trans.
Qed.

(** The reply of a call and the bucket it leaves. *)
Definition call_reply (c : Client) (now : Z) (d : delivery) (b : bucket) : Z * option error :=
  match d with
  | Reply lost =>
      ((take (bucketSize c) (ttl_arg oob c) now (take_n c now lost b)).1, None)
  | Failure _ e => (0, Some ("token bucket script: " +:+ e))
  end.

Lemma take_n_snoc c now n b :
  take_n c now (S n) b = (take (bucketSize c) (ttl_arg oob c) now (take_n c now n b)).2.
Proof.
  revert b. induction n as [|n IH]; intros b; [done|].
  change (take_n c now (S (S n)) b) with
    (take_n c now (S n) (take (bucketSize c) (ttl_arg oob c) now b).2).
  by rewrite IH.
Qed.

Lemma Decrement_take d c ip (s : St) b :
  client_ok c -> represents s (bucket_key ip) b ->
  exists s', Decrement oob d c ip s = (call_reply c (redis_now s) d b, s') /\
    represents s' (bucket_key ip) (take_n c (redis_now s) (executions d) b) /\
    only_key s s' (bucket_key ip).
Proof.
  intros Hc Hrep. unfold Decrement, script_run. destruct d as [lost|n e].
  - destruct (run_lost_take c ip lost s b Hc Hrep) as [Hr Hk].
    destruct (run_once_take c ip _ _ Hc Hr) as (s' & E & Hr' & Hk').
    rewrite E. rewrite (proj1 Hk) in *. exists s'.
    split; [done|]. cbn [executions]. rewrite take_n_snoc.
    split; [done|]. by eapply only_key_trans.
  - destruct (run_lost_take c ip n s b Hc Hrep) as [Hr Hk]. eauto.
Qed.

(** Every key represents some bucket or holds foreign data; the calls of one
    address leave the others alone whatever the configuration. *)
Lemma Decrement_other d c ip ip' (s : St) b b' :
  client_ok c -> ip' <> ip -> represents s (bucket_key ip) b ->
  represents s (bucket_key ip') b' ->
  represents (snd (Decrement oob d c ip s)) (bucket_key ip') b'.
Proof.
  intros Hc Hip Hrep Hrep'.
  destruct (Decrement_take d c ip s b Hc Hrep) as (s' & E & _ & Hk). rewrite E.
  eapply represents_other; [done| |done]. by intros ?%bucket_key_inj.
Qed.
End Calls.

(** ** Traces *)

(** Requests of any number of clients, the time between them, and the keys that the
    server evicts to make room. *)
Inductive event :=
| Request (ip : string) (d : delivery)
| Tick (ms : Z)
| Evict (key : string).

(** The reply a caller sees, for the address it asked about. *)
Definition reply : Type := string * (Z * option error).

Fixpoint run_trace {St} `{RedisCmds St} (oob : spec_float -> Z) (c : Client)
    (evs : list event) (s : St) : list reply * St :=
  match evs with
  | [] => ([], s)
  | Request ip d :: evs =>
      let (r, s) := Decrement oob d c ip s in
      let (rs, s) := run_trace oob c evs s in
      ((ip, r) :: rs, s)
  | Tick ms :: evs => run_trace oob c evs (redis_advance ms s)
  | Evict key :: evs => run_trace oob c evs (redis_evict key s)
  end.

Definition replies_of (ip : string) (rs : list reply) : list (Z * option error) :=
  snd <$> filter (fun r => r.1 = ip) rs.

(** No silence of [ip] longer than [limit] between two runs of the script for it that
    use the same bucket; [since] is the time since the last one, if the bucket has not
    been evicted after it. *)
Fixpoint no_silence (limit : Z) (ip : string) (since : option Z) (evs : list event) : bool :=
  match evs with
  | [] => true
  | Tick ms :: evs =>
      (0 <=? ms) && no_silence limit ip (Z.add ms <$> since) evs
  | Request ip' d :: evs =>
      if bool_decide (ip' = ip) && negb (executions d =? 0)%nat then
        match since with Some t => t <=? limit | None => true end
        && no_silence limit ip (Some 0) evs
      else no_silence limit ip since evs
  | Evict key :: evs =>
      no_silence limit ip (if bool_decide (key = bucket_key ip) then None else since) evs
  end.

(** How often the bucket of [ip] is evicted. *)
Definition is_eviction (ip : string) (e : event) : bool :=
  match e with Evict key => bool_decide (key = bucket_key ip) | _ => false end.

Definition evictions (ip : string) (evs : list event) : nat :=
  length (filter (fun e => is_eviction ip e = true) evs).

(** For every request of [ip], how many came before it since the bucket was evicted
    last; [k] came before the trace. *)
Fixpoint spent (ip : string) (k : Z) (evs : list event) : list Z :=
  match evs with
  | [] => []
  | Request ip' _ :: evs =>
      if bool_decide (ip' = ip) then k :: spent ip (k + 1) evs else spent ip k evs
  | Tick _ :: evs => spent ip k evs
  | Evict key :: evs => spent ip (if bool_decide (key = bucket_key ip) then 0 else k) evs
  end.

(** The caller was told that it got a token. *)
Definition granted (r : Z * option error) : bool :=
  match r with (n, None) => 0 <=? n | (_, Some _) => false end.

Definition count_granted (rs : list (Z * option error)) : Z :=
  Z.of_nat (length (filter (fun r => granted r = true) rs)).

Section Bounds.
Context {St : Type} `{RedisLaws St}.
Variable oob : spec_float -> Z.
Variable c : Client.
Hypothesis c_ok : client_ok oob c.

(** Every client's key holds a bucket or nothing. *)
Definition well_formed (s : St) : Prop := forall ip, exists b, represents s (bucket_key ip) b.

Lemma Decrement_well_formed d ip s :
  well_formed s -> well_formed (snd (Decrement oob d c ip s)).
Proof.
  intros Hwf ip'. destruct (Hwf ip) as [b Hb].
  destruct (Decrement_take oob d c ip s b c_ok Hb) as (s' & E & Hb' & Hk). rewrite E.
  destruct (decide (ip' = ip)) as [->|Hip]; [by eexists|].
  destruct (Hwf ip') as [b' Hrep]. exists b'.
  eapply represents_other; [done| |done]. by intros ?%bucket_key_inj.
Qed.

Lemma advance_well_formed ms s : 0 <= ms -> well_formed s -> well_formed (redis_advance ms s).
Proof.
  intros Hms Hwf ip. destruct (Hwf ip) as [b Hb]. eexists. by apply advance_expire.
Qed.

Local Abbreviation cap := (bucketSize c).
Local Abbreviation ttl := (ttl_arg oob c).
Local Abbreviation limit := (ttl * 1000).

(** [t] ms since the last run for [ip]: the bucket is still remembered, until
    [limit] has passed. *)
Definition tracked (s : St) (ip : string) (since : option Z) (holds : bucket -> Prop) : Prop :=
  match since with
  | None => represents s (bucket_key ip) None /\ holds None
  | Some t => 0 <= t /\ (limit < t \/
      exists v, represents s (bucket_key ip) (Some (v, redis_now s + limit - t)) /\
                holds (Some (v, redis_now s + limit - t)))
  end.

(** What only looks at the tokens. *)
Definition token_pred (holds : bucket -> Prop) : Prop :=
  forall v d d', holds (Some (v, d)) -> holds (Some (v, d')).

Lemma tracked_other s s' ip key since holds :
  only_key s s' key -> key <> bucket_key ip ->
  tracked s ip since holds -> tracked s' ip since holds.
Proof.
  intros Hk Hip. pose proof (represents_other s s' key (bucket_key ip)) as Ho.
  destruct since as [t|]; cbn [tracked].
  - intros (Ht & [?|(v & Hr & Hh)]); (split; [done|]); [by left|right].
    exists v. rewrite (proj1 Hk). split; [by apply Ho|done].
  - intros [Hr Hh]. split; [by apply Ho|done].
Qed.

Lemma tracked_tick s ip since holds ms :
  0 <= ms -> token_pred holds -> tracked s ip since holds ->
  tracked (redis_advance ms s) ip (Z.add ms <$> since) holds.
Proof.
  intros Hms Hp. destruct since as [t|]; cbn [tracked].
  - intros (Ht & Hb). split; [lia|].
    destruct (Z.lt_ge_cases limit (ms + t)) as [?|Hle]; [by left|right].
    destruct Hb as [?|(v & Hr & Hh)]; [lia|]. exists v.
    apply (advance_expire ms) in Hr; [|done]. cbn [expire] in Hr.
    destruct (Z.leb_spec (redis_now s + ms) (redis_now s + limit - t)); [|lia].
    rewrite advance_now by done.
    replace (redis_now s + ms + limit - (ms + t)) with (redis_now s + limit - t) by lia.
    eauto.
  - intros [Hr Hh]. split; [|done]. by apply (advance_expire ms) in Hr.
Qed.

Lemma evict_well_formed key s : well_formed s -> well_formed (redis_evict key s).
Proof.
  intros Hwf ip. destruct (Hwf ip) as [b Hb]. destruct (decide (key = bucket_key ip)) as [->|Hk].
  - exists None. by eapply evict_bucket.
  - exists b. eapply represents_other; [apply evict_only_key|congruence|done].
Qed.

(** Without its bucket, [ip] starts anew; other evictions do not matter. *)
Lemma tracked_evict_own s ip (holds : bucket -> Prop) :
  well_formed s -> holds None -> tracked (redis_evict (bucket_key ip) s) ip None holds.
Proof. intros Hwf Hnew. destruct (Hwf ip) as [b Hb]. split; [by eapply evict_bucket|done]. Qed.

Lemma tracked_evict_other s ip key since holds :
  key <> bucket_key ip -> tracked s ip since holds -> tracked (redis_evict key s) ip since holds.
Proof. apply tracked_other, evict_only_key. Qed.

(** A call that ran the script restarts the clock. *)
Lemma tracked_call s ip (holds : bucket -> Prop) d b :
  represents s (bucket_key ip) b -> executions d <> 0%nat ->
  holds (take_n oob c (redis_now s) (executions d) b) ->
  tracked (snd (Decrement oob d c ip s)) ip (Some 0) holds.
Proof.
  intros Hrep Hd Hh. destruct (Decrement_take oob d c ip s b c_ok Hrep) as (s' & E & Hr & Hk).
  rewrite E. cbn [snd tracked]. split; [lia|right].
  destruct (executions d) as [|n]; [done|]. rewrite take_n_snoc in Hr, Hh.
  set (b' := take_n oob c (redis_now s) n b) in *.
  assert (exists v, (take cap ttl (redis_now s) b').2 = Some (v, redis_now s + limit)) as [v Hv].
  { destruct b' as [[v dl]|]; cbn; [destruct (v <=? 0)|]; eauto. }
  rewrite Hv in *. exists v. rewrite (proj1 Hk), Z.sub_0_r. done.
Qed.

(** *** At most [cap] tokens are granted *)

Definition budget (B : Z) (b : bucket) : Prop :=
  match b with None => cap <= B | Some (v, _) => v <= B end.

Lemma budget_token_pred B : token_pred (budget B).
Proof. by intros v d d'. Qed.

Lemma take_budget now b B :
  0 <= B -> budget B b ->
  exists B', 0 <= B' /\ budget B' (take cap ttl now b).2 /\
    B' + (if 0 <=? (take cap ttl now b).1 then 1 else 0) = B.
Proof.
  intros HB Hb. destruct b as [[v dl]|]; cbn [take budget] in *.
  - destruct (Z.leb_spec v 0); cbn [fst snd].
    + change (0 <=? -1) with false. exists B. cbn [budget]. lia.
    + destruct (Z.leb_spec 0 (v - 1)); [|lia]. exists (B - 1). cbn [budget]. lia.
  - cbn [fst snd]. destruct (Z.leb_spec 0 (cap - 1)); [exists (B - 1)|exists B];
      cbn [budget]; lia.
Qed.

Lemma take_n_budget now n b B :
  0 <= B -> budget B b -> exists B', 0 <= B' <= B /\ budget B' (take_n oob c now n b).
Proof.
  revert b B. induction n as [|n IH]; intros b B HB Hb; cbn [take_n];
    [exists B; split; [lia|done]|].
  destruct (take_budget now b B HB Hb) as (B1 & H1 & Hb1 & Hsum).
  destruct (IH _ _ H1 Hb1) as (B2 & H2 & Hb2). exists B2. split; [|done].
  revert Hsum. case_match; lia.
Qed.

Lemma call_budget now d b B :
  0 <= B -> budget B b ->
  exists B', 0 <= B' /\ budget B' (take_n oob c now (executions d) b) /\
    B' + (if granted (call_reply oob c now d b) then 1 else 0) <= B.
Proof.
  intros HB Hb. destruct d as [lost|n e]; cbn [executions call_reply granted].
  - destruct (take_n_budget now lost b B HB Hb) as (B1 & H1 & Hb1).
    rewrite take_n_snoc.
    destruct (take_budget now (take_n oob c now lost b) B1) as (B2 & H2 & Hb2 & Hsum);
      [lia|done|].
    exists B2. split; [done|]. split; [done|]. lia.
  - destruct (take_n_budget now n b B HB Hb) as (B1 & H1 & Hb1).
    exists B1. split; [lia|]. split; [done|]. lia.
Qed.

Lemma count_granted_cons r rs :
  count_granted (r :: rs) = (if granted r then 1 else 0) + count_granted rs.
Proof.
  unfold count_granted. rewrite filter_cons.
  destruct (granted r); [rewrite decide_True by done|rewrite decide_False by done];
    cbn [length]; lia.
Qed.

Lemma replies_of_cons ip ip' r rs :
  replies_of ip ((ip', r) :: rs) =
    if decide (ip' = ip) then r :: replies_of ip rs else replies_of ip rs.
Proof. unfold replies_of. rewrite filter_cons. cbn. by case_decide. Qed.

(** The bucket when the script may run. *)
Lemma tracked_bucket s ip since holds :
  tracked s ip since holds ->
  match since with Some t => t <=? limit | None => true end = true ->
  exists b, represents s (bucket_key ip) b /\ holds b.
Proof.
  destruct since as [t|]; cbn [tracked].
  - intros (_ & [Ht|(v & ? & ?)]) Hle%Z.leb_le; [lia|eauto].
  - eauto.
Qed.

Lemma Decrement_not_run d ip s :
  executions d = 0%nat ->
  snd (Decrement oob d c ip s) = s /\ granted (fst (Decrement oob d c ip s)) = false.
Proof. destruct d as [|[|n] e]; done. Qed.

(** One step of a trace, as the proofs over traces need it: a request for
    another address or that never ran keeps what is tracked. *)
Lemma tracked_skip d ip ip' s since holds :
  well_formed s -> ip' <> ip \/ executions d = 0%nat ->
  tracked s ip since holds -> tracked (snd (Decrement oob d c ip' s)) ip since holds.
Proof.
  intros Hwf Hskip Htr. destruct (decide (executions d = 0%nat)) as [Hex|Hex].
  - by rewrite (proj1 (Decrement_not_run d ip' s Hex)).
  - destruct Hskip as [Hip|]; [|done]. destruct (Hwf ip') as [b' Hrep'].
    destruct (Decrement_take oob d c ip' s b' c_ok Hrep') as (s' & E & _ & Hk).
    rewrite E. cbn [snd]. eapply tracked_other; [done| |done]. by intros ?%bucket_key_inj.
Qed.

Lemma run_trace_request d ip evs s :
  run_trace oob c (Request ip d :: evs) s =
    let s' := snd (Decrement oob d c ip s) in
    ((ip, fst (Decrement oob d c ip s)) :: fst (run_trace oob c evs s'),
     snd (run_trace oob c evs s')).
Proof.
  cbn [run_trace]. destruct (Decrement oob d c ip s) as [r s']. cbn.
  by destruct (run_trace oob c evs s').
Qed.

(** Every eviction of the bucket gives the address another [cap]. *)
Lemma run_trace_budget ip evs since s B :
  0 <= cap -> 0 <= B -> well_formed s -> tracked s ip since (budget B) ->
  no_silence limit ip since evs = true ->
  count_granted (replies_of ip (fst (run_trace oob c evs s))) <=
    B + cap * Z.of_nat (evictions ip evs).
Proof.
  intros Hcap. revert since s B.
  induction evs as [|[ip' d|ms|key] evs IH]; intros since s B HB Hwf Htr Hns.
  - change (0 <= B + cap * 0). lia.
  - rewrite run_trace_request. cbn [fst no_silence] in *.
    pose proof (Decrement_well_formed d ip' s Hwf) as Hwf'.
    rewrite replies_of_cons. change (evictions ip (Request ip' d :: evs)) with (evictions ip evs).
    case_bool_decide as Hip; cbn [andb] in Hns.
    + subst ip'. rewrite decide_True by done. rewrite count_granted_cons.
      destruct (Nat.eqb_spec (executions d) 0) as [Hex|Hex]; cbn [negb] in Hns.
      * rewrite (proj2 (Decrement_not_run d ip s Hex)).
        eapply (IH since); eauto. apply tracked_skip; auto.
      * apply andb_true_iff in Hns as [Hle Hns].
        destruct (tracked_bucket _ _ _ _ Htr Hle) as (b & Hrep & Hb).
        destruct (call_budget (redis_now s) d b B HB Hb) as (B' & HB' & Hb' & Hsum).
        pose proof (tracked_call s ip (budget B') d b Hrep Hex Hb') as Htr'.
        destruct (Decrement_take oob d c ip s b c_ok Hrep) as (s' & E & _ & _).
        rewrite E in *. cbn [fst snd] in *.
        specialize (IH (Some 0) s' B' HB' Hwf' Htr' Hns). lia.
    + rewrite decide_False by done.
      eapply (IH since); eauto. apply tracked_skip; auto.
  - cbn [run_trace no_silence] in *. apply andb_true_iff in Hns as [Hms%Z.leb_le Hns].
    eapply IH; eauto using advance_well_formed, tracked_tick, budget_token_pred.
  - cbn [run_trace no_silence] in *. unfold evictions. rewrite filter_cons. cbn [is_eviction].
    pose proof (evict_well_formed key s Hwf) as Hwf'. case_bool_decide as Hk.
    + subst key. rewrite decide_True by done. cbn [length].
      assert (tracked (redis_evict (bucket_key ip) s) ip None (budget (B + cap))) as Htr'
        by (apply tracked_evict_own; [done|cbn; lia]).
      specialize (IH None _ (B + cap) ltac:(lia) Hwf' Htr' Hns). unfold evictions in IH. lia.
    + rewrite decide_False by done. eapply (IH since); eauto using tracked_evict_other.
Qed.

(** *** The exact replies *)

(** The reply to a request of a bucket that [k] others came to before. *)
Definition reply_after (k : Z) : Z := if k <? cap then cap - 1 - k else -1.

(** The bucket holds exactly [v] tokens, or none were taken yet. *)
Definition holds_exactly (v : Z) (b : bucket) : Prop :=
  match b with None => v = cap | Some (v', _) => v' = v end.

Lemma take_exactly now v b :
  0 < cap -> 0 <= v -> holds_exactly v b ->
  (take cap ttl now b).1 = (if v <=? 0 then -1 else v - 1) /\
  holds_exactly (if v <=? 0 then v else v - 1) (take cap ttl now b).2.
Proof.
  intros Hc Hv Hb. destruct b as [[v' dl]|]; cbn [holds_exactly take] in *; subst.
  - by destruct (v <=? 0).
  - by destruct (Z.leb_spec cap 0); [lia|].
Qed.

Definition is_request (ip : string) (e : event) : bool :=
  match e with Request ip' _ => bool_decide (ip' = ip) | _ => false end.

(** No request of [ip] was retried or failed. *)
Definition clean (ip : string) (e : event) : bool :=
  match e with
  | Request ip' d =>
      negb (bool_decide (ip' = ip)) || match d with Reply O => true | _ => false end
  | _ => true
  end.

Definition requests (ip : string) (evs : list event) : nat :=
  length (filter (fun e => is_request ip e = true) evs).

Lemma run_trace_countdown ip evs since s k :
  0 < cap -> 0 <= k -> well_formed s -> tracked s ip since (holds_exactly (Z.max 0 (cap - k))) ->
  no_silence limit ip since evs = true -> forallb (clean ip) evs = true ->
  replies_of ip (fst (run_trace oob c evs s)) =
    (fun k => (reply_after k, None)) <$> spent ip k evs.
Proof.
  intros Hcap. revert since s k.
  induction evs as [|[ip' d|ms|key] evs IH]; intros since s k Hk Hwf Htr Hns Hcl; [done|..].
  - rewrite run_trace_request. cbn [fst no_silence forallb clean spent] in *.
    apply andb_true_iff in Hcl as [Hd Hcl].
    pose proof (Decrement_well_formed d ip' s Hwf) as Hwf'.
    rewrite replies_of_cons. case_bool_decide as Hip; cbn [andb negb orb] in Hns, Hd.
    + subst ip'. rewrite decide_True by done. destruct d as [[|]|]; try discriminate.
      cbn [executions Nat.eqb negb] in Hns. apply andb_true_iff in Hns as [Hle Hns].
      destruct (tracked_bucket _ _ _ _ Htr Hle) as (b & Hrep & Hb).
      destruct (take_exactly (redis_now s) _ b Hcap (Z.le_max_l 0 _) Hb) as [Hr Hb'].
      pose proof (tracked_call s ip _ (Reply 0) b Hrep (Nat.neq_succ_0 0) Hb') as Htr'.
      destruct (Decrement_take oob (Reply 0) c ip s b c_ok Hrep) as (s' & E & _ & _).
      rewrite E in *. cbn [fst snd call_reply take_n fmap list_fmap] in *. rewrite Hr. f_equal.
      * unfold reply_after. destruct (Z.leb_spec (Z.max 0 (cap - k)) 0), (Z.ltb_spec k cap); f_equal; lia.
      * apply (IH (Some 0)); [lia|done| |done..].
        replace (Z.max 0 (cap - (k + 1))) with
          (if Z.max 0 (cap - k) <=? 0 then Z.max 0 (cap - k) else Z.max 0 (cap - k) - 1); [done|].
        destruct (Z.leb_spec (Z.max 0 (cap - k)) 0); lia.
    + rewrite decide_False by done. apply (IH since); auto. apply tracked_skip; auto.
  - cbn [run_trace no_silence forallb clean andb spent] in *.
    apply andb_true_iff in Hns as [Hms%Z.leb_le Hns].
    apply (IH (Z.add ms <$> since)); auto using advance_well_formed.
    apply tracked_tick; [done| |done]. by intros v0 d0 d1.
  - cbn [run_trace no_silence forallb clean andb spent] in *.
    pose proof (evict_well_formed key s Hwf) as Hwf'. case_bool_decide as Hkey.
    + subst key. apply (IH None); [done..| |done|done]. apply tracked_evict_own; [done|]. cbn. lia.
    + apply (IH since); [done..| |done|done]. by apply tracked_evict_other.
Qed.
End Bounds.

(** Without evictions every request of the trace counts. *)
Lemma spent_all ip k evs :
  evictions ip evs = 0%nat -> spent ip k evs = seqZ k (Z.of_nat (requests ip evs)).
Proof.
  unfold evictions, requests. revert k.
  induction evs as [|[ip' d|ms|key] evs IH]; intros k; [done|..];
    rewrite !filter_cons; cbn [spent is_eviction is_request]; try case_bool_decide;
    try discriminate; intros Hev.
  - rewrite decide_True by done. cbn [length]. rewrite seqZ_cons by lia. rewrite IH by done.
    f_equal. f_equal; lia.
  - rewrite decide_False by done. by apply IH.
  - by apply IH.
  - rewrite decide_False in Hev by done. by apply IH.
Qed.

Lemma length_spent ip k evs : length (spent ip k evs) = requests ip evs.
Proof.
  unfold requests. revert k. induction evs as [|[ip' d|ms|key] evs IH]; intros k; [done|..];
    rewrite !filter_cons; cbn [spent is_request]; try case_bool_decide.
  - rewrite decide_True by done. cbn [length]. by rewrite IH.
  - rewrite decide_False by done. apply IH.
  - apply IH.
  - apply IH.
  - apply IH.
Qed.

(** ** Properties *)

Section Properties.
Context {St : Type} `{RedisLaws St}.
Variable oob : spec_float -> Z.

(** C22: refinement of the abstract bucket.  Run on a key that holds a bucket
    (or nothing), the Lua script answers and updates the key exactly as [take]
    does, refreshes the expiry to [ttl] seconds from now on every branch, and
    changes no other key. *)
Theorem tokenBucketScript_refines_take key cap ttl (s : St) b :
  cap_ok cap -> 0 < ttl <= max_ttl -> represents s key b ->
  exists s', tokenBucketScript key cap ttl s = (Ok (take cap ttl (redis_now s) b).1, s') /\
    represents s' key (take cap ttl (redis_now s) b).2 /\ only_key s s' key.
Proof. apply script_take. Qed.

(** C6: the exact replies of a bucket.  Over any trace of requests of any clients, of
    pauses and of evictions, in which [ip] is never silent for longer than the TTL while
    its bucket exists and its calls reach the server once, the reply to a request of
    [ip] that [k] others of [ip] came before is [bucketSize - 1 - k] while tokens are
    left, and -1 from then on: [k] counts from the start, or from the last time that
    the server evicted the bucket.  So if the bucket is never evicted, the replies
    count down from [bucketSize - 1] to 0 and are -1 for ever, however long the trace
    lasts: each call refreshes the TTL, and a client that keeps sending is not let in
    again; an eviction lets it in for another [bucketSize] requests. *)
Theorem Decrement_countdown c ip evs (s : St) :
  client_ok oob c -> 0 < bucketSize c ->
  well_formed s -> represents s (bucket_key ip) None ->
  no_silence (ttl_arg oob c * 1000) ip None evs = true ->
  forallb (clean ip) evs = true ->
  let reply k := (if k <? bucketSize c then bucketSize c - 1 - k else -1, None) in
  replies_of ip (fst (run_trace oob c evs s)) = reply <$> spent ip 0 evs /\
  (evictions ip evs = 0%nat ->
   replies_of ip (fst (run_trace oob c evs s)) = reply <$> seqZ 0 (Z.of_nat (requests ip evs))).
Proof.
  intros Hc Hcap Hwf Hrep Hns Hcl reply.
  assert (replies_of ip (fst (run_trace oob c evs s)) = reply <$> spent ip 0 evs) as E.
  { apply (run_trace_countdown oob c Hc ip evs None s 0); [lia|lia|done| |done|done].
    split; [done|]. cbn. lia. }
  split; [done|]. intros Hev. by rewrite E, spent_all.
Qed.

(** C21: at most [bucketSize] requests of a client are granted a token between two
    silences longer than the TTL, and another [bucketSize] for every time that the
    server evicts the client's bucket to make room in between: whatever the other
    clients do, however the calls of the client are interleaved with theirs, and even
    when the network loses replies and the library runs the script again. *)
Theorem Decrement_bounded c ip evs (s : St) :
  client_ok oob c -> 0 <= bucketSize c ->
  well_formed s -> represents s (bucket_key ip) None ->
  no_silence (ttl_arg oob c * 1000) ip None evs = true ->
  count_granted (replies_of ip (fst (run_trace oob c evs s))) <=
    bucketSize c * (1 + Z.of_nat (evictions ip evs)).
Proof.
  intros Hc Hcap Hwf Hrep Hns.
  etrans; [apply (run_trace_budget oob c Hc ip evs None s (bucketSize c)); [done..| |done]|lia].
  split; [done|]. cbn. lia.
Qed.

(** C36: after a silence longer than the TTL the bucket is full again: the next
    call gets [bucketSize - 1], whatever the state of the bucket was. *)
Theorem Decrement_refills c ip d ms (s : St) :
  client_ok oob c -> well_formed s -> executions d <> 0%nat ->
  ttl_arg oob c * 1000 < ms ->
  fst (Decrement oob (Reply 0) c ip
         (redis_advance ms (snd (Decrement oob d c ip s)))) = (bucketSize c - 1, None).
Proof.
  intros Hc Hwf Hd Hms. destruct (Hwf ip) as [b Hb].
  assert (0 < ttl_arg oob c) by (destruct Hc as [_ ?]; lia).
  pose proof (tracked_call oob c Hc s ip (fun _ => True) d b Hb Hd I) as (_ & [|Hv]); [lia|].
  destruct Hv as (v & Hv & _). apply (advance_expire ms) in Hv; [|lia].
  cbn [expire] in Hv. case_match eqn:Hle; [apply Z.leb_le in Hle; lia|].
  destruct (Decrement_take oob (Reply 0) c ip _ _ Hc Hv) as (s' & E & _ & _).
  by rewrite E.
Qed.

(** Isolation of clients.  A call for one address, however it fares, does
    not change the reply another address gets. *)
Theorem Decrement_isolated c ip ip' d d' (s : St) :
  client_ok oob c -> well_formed s -> ip' <> ip ->
  fst (Decrement oob d' c ip' (snd (Decrement oob d c ip s))) =
  fst (Decrement oob d' c ip' s).
Proof.
  intros Hc Hwf Hip. destruct (Hwf ip) as [b Hb]. destruct (Hwf ip') as [b' Hb'].
  destruct (Decrement_take oob d c ip s b Hc Hb) as (s1 & E1 & _ & Hk). rewrite E1. cbn [snd].
  assert (represents s1 (bucket_key ip') b') as Hb1.
  { eapply represents_other; [done| |done]. by intros ?%bucket_key_inj. }
  destruct (Decrement_take oob d' c ip' s1 b' Hc Hb1) as (s2 & E2 & _ & _).
  destruct (Decrement_take oob d' c ip' s b' Hc Hb') as (s3 & E3 & _ & _).
  rewrite E2, E3, (proj1 Hk). done.
Qed.

(** A TTL that is not positive disables the limiter.  The server refuses
    to create the bucket, the call returns an error (which the engine treats
    as a full bucket) and the state stays as it was, so the next call fares the
    same. *)
Theorem Decrement_invalid_ttl c ip (s : St) :
  ttl_arg oob c <= 0 -> redis_live s !! bucket_key ip = None ->
  exists e, Decrement oob (Reply 0) c ip s = ((0, Some e), s).
Proof.
  intros Httl Hk. destruct (set_ex_invalid (bucket_key ip) (pretty (bucketSize c - 1))
    (ttl_arg oob c) s Httl) as [e He].
  eexists. unfold Decrement, script_run, run_once, tokenBucketScript. cbn [run_lost].
  rewrite exists_law, Hk. change (0 =? 0) with true. cbv iota.
  by rewrite (io_bind_err _ _ _ _ _ He).
Qed.

(** Every reachable server state is well formed: under each client's key
    there is a bucket with a bounded number of tokens and an expiry time, or
    nothing, whatever the calls and their failures were. *)
Theorem run_trace_well_formed c evs (s : St) :
  client_ok oob c -> well_formed s ->
  Forall (fun e => match e with Tick ms => 0 <= ms | _ => True end) evs ->
  well_formed (snd (run_trace oob c evs s)).
Proof.
  intros Hc. revert s. induction evs as [|[ip d|ms|key] evs IH]; intros s Hwf Hevs; [done|..];
    apply Forall_cons in Hevs as [Hms Hevs].
  - rewrite run_trace_request. cbn [snd]. apply IH; [|done].
    by apply Decrement_well_formed.
  - apply IH; [|done]. by apply advance_well_formed.
  - apply IH; [|done]. by apply evict_well_formed.
Qed.
End Properties.

(** ** Witnesses: a bucket of 2 tokens with a TTL of 60 seconds *)

Definition demo_client : Client := MkClient 2 (60 * Second).

Lemma demo_client_ok : client_ok amd64_oob demo_client.
Proof.
  assert (ttl_arg amd64_oob demo_client = 60) as E by (vm_compute; reflexivity).
  unfold client_ok, cap_ok, max_ttl. rewrite E. cbn. lia.
Qed.

Lemma mem_empty_fresh ip : represents MemRedis.empty (bucket_key ip) None.
Proof. apply lookup_empty. Qed.

Lemma mem_empty_well_formed : well_formed MemRedis.empty.
Proof. intros ip. exists None. apply mem_empty_fresh. Qed.

(** The bucket is evicted before the last request. *)
Definition demo_trace : list event :=
  [Request "10.0.0.1" (Reply 0); Tick 59000; Request "10.0.0.2" (Failure 1 "i/o timeout");
   Request "10.0.0.1" (Reply 0); Evict (bucket_key "10.0.0.2"); Tick 60000;
   Request "10.0.0.1" (Reply 0); Tick 60000; Request "10.0.0.1" (Reply 0);
   Evict (bucket_key "10.0.0.1"); Request "10.0.0.1" (Reply 0)].

Example demo_replies :
  replies_of "10.0.0.1" (fst (run_trace amd64_oob demo_client demo_trace MemRedis.empty)) =
    [(1, None); (0, None); (-1, None); (-1, None); (1, None)].
Proof. vm_compute. reflexivity. Qed.

Lemma tokenBucketScript_refines_take_witness :
  exists s', tokenBucketScript "k" 2 60 MemRedis.empty = (Ok 1, s') /\
    represents s' "k" (Some (1, 60000)) /\ only_key MemRedis.empty s' "k".
Proof.
  refine (tokenBucketScript_refines_take "k" 2 60 MemRedis.empty None _ _ _).
  - unfold cap_ok. lia.
  - unfold max_ttl. lia.
  - apply lookup_empty.
Defined.

Lemma Decrement_countdown_witness :
  replies_of "10.0.0.1" (fst (run_trace amd64_oob demo_client demo_trace MemRedis.empty)) =
    (fun i => (if i <? 2 then 2 - 1 - i else -1, None)) <$> [0; 1; 2; 3; 0].
Proof.
  apply (Decrement_countdown amd64_oob demo_client "10.0.0.1" demo_trace MemRedis.empty).
  - apply demo_client_ok.
  - cbn. lia.
  - apply mem_empty_well_formed.
  - apply mem_empty_fresh.
  - vm_compute. reflexivity.
  - vm_compute. reflexivity.
Defined.

Lemma Decrement_bounded_witness :
  count_granted
    (replies_of "10.0.0.1" (fst (run_trace amd64_oob demo_client demo_trace MemRedis.empty))) <= 2 * (1 + 1).
Proof.
  apply (Decrement_bounded amd64_oob demo_client "10.0.0.1" demo_trace MemRedis.empty).
  - apply demo_client_ok.
  - cbn. lia.
  - apply mem_empty_well_formed.
  - apply mem_empty_fresh.
  - vm_compute. reflexivity.
Defined.

Lemma Decrement_refills_witness :
  fst (Decrement amd64_oob (Reply 0) demo_client "10.0.0.1"
         (redis_advance 60001
            (snd (Decrement amd64_oob (Reply 5) demo_client "10.0.0.1" MemRedis.empty)))) =
    (1, None).
Proof.
  apply (Decrement_refills amd64_oob demo_client "10.0.0.1" (Reply 5) 60001 MemRedis.empty).
  - apply demo_client_ok.
  - apply mem_empty_well_formed.
  - discriminate.
  - vm_compute. reflexivity.
Defined.

Lemma Decrement_isolated_witness :
  fst (Decrement amd64_oob (Reply 0) demo_client "10.0.0.2"
         (snd (Decrement amd64_oob (Reply 7) demo_client "10.0.0.1" MemRedis.empty))) =
  fst (Decrement amd64_oob (Reply 0) demo_client "10.0.0.2" MemRedis.empty).
Proof.
  apply (Decrement_isolated amd64_oob demo_client "10.0.0.1" "10.0.0.2" (Reply 7) (Reply 0)
           MemRedis.empty).
  - apply demo_client_ok.
  - apply mem_empty_well_formed.
  - discriminate.
Defined.

Lemma Decrement_invalid_ttl_witness :
  exists e, Decrement amd64_oob (Reply 0) (MkClient 100 0) "10.0.0.1" MemRedis.empty =
    ((0, Some e), MemRedis.empty).
Proof.
  apply (Decrement_invalid_ttl amd64_oob (MkClient 100 0) "10.0.0.1" MemRedis.empty).
  - vm_compute. discriminate.
  - apply lookup_empty.
Defined.

Lemma run_trace_well_formed_witness :
  well_formed (snd (run_trace amd64_oob demo_client demo_trace MemRedis.empty)).
Proof.
  apply (run_trace_well_formed amd64_oob demo_client demo_trace MemRedis.empty).
  - apply demo_client_ok.
  - apply mem_empty_well_formed.
  - repeat constructor; lia.
Defined.
