(* ===== verification/Config.v ===== *)
(** * Configuration (internal/config/config.go)

    [Load] over the environment [env] ([os.Getenv]: empty when unset), with the
    helpers that read one variable.  The theorems follow the settings to where
    they are used: the arguments of the token-bucket script, the address lists. *)

From S2P Require Import Prelude GoFloat GoText Redis.

Record Config := MkConfig {
  UnixSocketPath : string;
  HTTPPort : string;
  RedisAddrs : list string;
  BucketSize : Z;
  BucketTTL : Z; (* a time.Duration, in nanoseconds *)
  KafkaBrokers : list string;
  MLSidecarAddr : string;
  ScoreBlockThreshold : float64;
  ScoreThrottleThreshold : float64
}.

(** ** Helpers *)

Section Helpers.
Variable env : string -> string.

Definition getEnv (key defaultVal : string) : string :=
  let v := env key in
  if negb (bool_decide (v = "")) then v else defaultVal.

Definition getEnvInt64 (key : string) (defaultVal : Z) : Z :=
  let v := env key in
  if negb (bool_decide (v = "")) then
    match ParseInt v with Some n => n | None => defaultVal end
  else defaultVal.

Definition getEnvFloat (key : string) (defaultVal : float64) : float64 :=
  let v := env key in
  if negb (bool_decide (v = "")) then
    match ParseFloat v with Some f => f | None => defaultVal end
  else defaultVal.
End Helpers.

Definition splitCSV (s : string) : list string :=
  let parts := Split s "," in
  foldl (fun out p =>
           let p := TrimSpace p in
           if negb (bool_decide (p = "")) then out ++ [p] else out) [] parts.

(** ** Load *)

(** The constants 0.85 and 0.60. *)
Definition defaultBlock : float64 := f64_of_dec false 85 (-2).
Definition defaultThrottle : float64 := f64_of_dec false 60 (-2).

Definition Load (env : string -> string) : Config := {|
  UnixSocketPath := getEnv env "UNIX_SOCKET_PATH" "/tmp/decision.sock";
  HTTPPort := getEnv env "HTTP_PORT" "8080";
  RedisAddrs := splitCSV (getEnv env "REDIS_ADDRS" "localhost:6379");
  BucketSize := getEnvInt64 env "BUCKET_SIZE" 100;
  BucketTTL := int64 (getEnvInt64 env "BUCKET_TTL_SECONDS" 60 * Second);
  KafkaBrokers := splitCSV (getEnv env "KAFKA_BROKERS" "localhost:9092");
  MLSidecarAddr := getEnv env "ML_SIDECAR_ADDR" "localhost:50051";
  ScoreBlockThreshold := getEnvFloat env "SCORE_BLOCK_THRESHOLD" defaultBlock;
  ScoreThrottleThreshold := getEnvFloat env "SCORE_THROTTLE_THRESHOLD" defaultThrottle
|}.

(** ** Lemmas *)

Lemma getEnvInt64_eq env key d : getEnvInt64 env key d = default d (ParseInt (env key)).
Proof.
  unfold getEnvInt64. case_bool_decide as H; [by rewrite H|]. cbn. by case_match.
Qed.

Lemma getEnvFloat_eq env key d : getEnvFloat env key d = default d (ParseFloat (env key)).
Proof.
  unfold getEnvFloat. case_bool_decide as H; [by rewrite H|]. cbn. by case_match.
Qed.

(** The loop of [splitCSV] keeps the non-empty trimmed parts in order. *)
Lemma splitCSV_filter s :
  splitCSV s = filter (fun p => p <> "") (TrimSpace <$> Split s ",").
Proof.
  unfold splitCSV. set (parts := Split s ",").
  assert (forall out, foldl (fun out p => let p := TrimSpace p in
            if negb (bool_decide (p = "")) then out ++ [p] else out) out parts =
          out ++ filter (fun p => p <> "") (TrimSpace <$> parts)) as H; [|apply H].
  induction parts as [|p ps IH]; intros out; [by rewrite app_nil_r|].
  cbn [foldl fmap list_fmap]. rewrite IH, filter_cons.
  case_bool_decide; case_decide; try done. cbn. by rewrite <- app_assoc.
Qed.

(** An entry of a list setting: not empty, no white space at its ends, no comma. *)
Definition csv_item (p : string) : Prop :=
  p <> "" /\ trimmed p = true /\ ~ has_byte "," p.

Definition padding (p : text) : Prop := Forall (fun c => space1 c = true) p.

Lemma padding_no_comma p : padding p -> ","%char ∉ p.
Proof. unfold padding. rewrite Forall_forall. intros H Hin. by specialize (H _ Hin). Qed.

(** One item with its padding. *)
Definition padded (x : text * string * text) : text :=
  let '(p, s, q) := x in p ++ to_text s ++ q.

Lemma splitCSV_padded xs :
  Forall (fun '(p, s, q) => padding p /\ csv_item s /\ padding q) xs ->
  splitCSV (of_text (join "," (padded <$> xs))) = (fun x => x.1.2) <$> xs.
Proof.
  intros Hxs. rewrite splitCSV_filter.
  destruct (decide (xs = [])) as [->|Hne]; [done|].
  rewrite Split_join.
  - rewrite <- list_fmap_compose. induction Hxs as [|[[p s] q] xs (Hp & Hs & Hq) Hxs IH]; [done|].
    cbn [fmap list_fmap compose]. change (padded (p, s, q)) with (p ++ to_text s ++ q).
    cbv beta. destruct Hs as (Hs0 & Hst & Hsc).
    rewrite filter_cons, TrimSpace_padding by done. rewrite decide_True by done.
    f_equal. destruct xs as [|x xs]; [done|]. by apply IH.
  - by destruct xs.
  - apply Forall_fmap. eapply Forall_impl; [exact Hxs|].
    intros [[p s] q] (Hp & (_ & _ & Hs) & Hq). cbn. unfold has_byte in Hs.
    rewrite !not_elem_of_app. auto using padding_no_comma.
Qed.

Lemma splitCSV_items s : Forall csv_item (splitCSV s).
Proof.
  rewrite splitCSV_filter, Forall_forall. intros x [Hne Hin]%list_elem_of_filter.
  apply list_elem_of_fmap in Hin as (p & -> & Hp).
  destruct (TrimSpace_part p) as (Ht & l & r & E). split_and!; [done..|].
  apply Split_parts in Hp. unfold has_byte in *. rewrite E, !elem_of_app in Hp. tauto.
Qed.

(** ** Properties *)

(** List settings.  The addresses [splitCSV] returns are not empty and have
    neither white space at their ends nor a comma; a list of such addresses,
    joined by commas with any ASCII white space around each one, is read back
    unchanged and in order; so reading the joined result again changes nothing. *)
Theorem splitCSV_roundtrip s xs :
  Forall csv_item (splitCSV s) /\
  (Forall (fun '(p, a, q) => padding p /\ csv_item a /\ padding q) xs ->
    splitCSV (of_text (join "," (padded <$> xs))) = (fun x => x.1.2) <$> xs) /\
  splitCSV (of_text (join "," (to_text <$> splitCSV s))) = splitCSV s.
Proof.
  split; [apply splitCSV_items|]. split; [apply splitCSV_padded|].
  pose proof (splitCSV_padded ((fun a => ([], a, [])) <$> splitCSV s)) as H.
  rewrite <- !list_fmap_compose in H.
  assert (forall l : list string, padded ∘ (fun a => ([], a, [])) <$> l = to_text <$> l) as E.
  { intros l. apply list_fmap_ext. intros _ a _. cbn. apply app_nil_r. }
  rewrite E in H. rewrite H; [|].
  - rewrite <- list_fmap_id. by apply list_fmap_ext.
  - apply Forall_fmap. eapply Forall_impl; [apply splitCSV_items|].
    intros a Ha. cbn. split_and!; [constructor|done..|constructor].
Qed.

(** Numbers from the environment to the script.  A decimal [BUCKET_SIZE] is
    taken as it is when it fits 64 bits and replaced by 100 otherwise; with a
    decimal [BUCKET_TTL_SECONDS] of at most 9223372036 in absolute value, the
    Redis client built from the configuration passes exactly that number of
    seconds to the script, although it goes through nanoseconds and a [float64].
    One second more and the duration wraps to a negative expiry. *)
Theorem Load_bucket_arguments oob env size ttl c :
  env "BUCKET_SIZE" = pretty size -> env "BUCKET_TTL_SECONDS" = pretty ttl ->
  Redis.New (RedisAddrs (Load env)) (BucketSize (Load env)) (BucketTTL (Load env)) None = Ok c ->
  bucketSize c = (if is_int64 size then size else 100) /\
  (Z.abs ttl <= max_ttl -> ttl_arg oob c = ttl) /\
  (ttl = max_ttl + 1 -> ttl_arg oob c = - max_ttl).
Proof.
  intros Hsize Httl [= <-]. unfold Load, ttl_arg. cbn [bucketSize bucketTTL BucketSize BucketTTL].
  rewrite !getEnvInt64_eq, Hsize, Httl, !ParseInt_pretty. split; [by case_match|].
  unfold max_ttl. split.
  - intros Hle. assert (is_int64 ttl = true) as ->.
    { apply is_int64_spec. unfold int64_min, int64_max. lia. }
    change (default 60 (Some ttl)) with ttl.
    rewrite int64_id by (unfold int64_min, int64_max, Second; lia).
    apply Duration_Seconds_whole. lia.
  - intros ->. vm_compute. reflexivity.
Qed.

(** Thresholds from the environment.  A text that [ParseFloat] refuses (or no
    text) gives the defaults 0.85 and 0.60, correctly rounded; a text it accepts
    is used whatever its value, [nan] and [inf] included, in any case of letters,
    and nothing relates the two thresholds. *)
Theorem Load_thresholds env :
  (ParseFloat (env "SCORE_BLOCK_THRESHOLD") = None ->
     ScoreBlockThreshold (Load env) = S754_finite false 7656119366529843 (-53)) /\
  (ParseFloat (env "SCORE_THROTTLE_THRESHOLD") = None ->
     ScoreThrottleThreshold (Load env) = S754_finite false 5404319552844595 (-53)) /\
  (forall t, t ∈ ["nan"; "NaN"; "NAN"] -> env "SCORE_BLOCK_THRESHOLD" = t ->
     ScoreBlockThreshold (Load env) = S754_nan) /\
  (forall t, t ∈ ["inf"; "+Inf"; "Infinity"] -> env "SCORE_BLOCK_THRESHOLD" = t ->
     ScoreBlockThreshold (Load env) = S754_infinity false) /\
  (forall x, ParseFloat (env "SCORE_BLOCK_THRESHOLD") = Some x ->
     ScoreBlockThreshold (Load env) = x).
Proof.
  unfold Load. cbn [ScoreBlockThreshold ScoreThrottleThreshold]. rewrite !getEnvFloat_eq.
  split_and!.
  - intros ->. reflexivity.
  - intros ->. reflexivity.
  - intros t Ht ->. repeat (apply elem_of_cons in Ht as [->|Ht]; [reflexivity|]).
    by apply not_elem_of_nil in Ht.
  - intros t Ht ->. repeat (apply elem_of_cons in Ht as [->|Ht]; [reflexivity|]).
    by apply not_elem_of_nil in Ht.
  - intros x ->. reflexivity.
Qed.

(** ** Witnesses *)

Lemma splitCSV_roundtrip_witness :
  splitCSV (of_text (join "," (padded <$> [([], "r1:6379", to_text " "); (to_text " ", "r2:6379", [])])))
    = ["r1:6379"; "r2:6379"].
Proof.
  apply (splitCSV_roundtrip "" [([], "r1:6379", to_text " "); (to_text " ", "r2:6379", [])]).
  assert (forall a, bool_decide (a <> "" /\ trimmed a = true /\ ","%char ∉ to_text a) = true ->
    csv_item a) as Hitem by (intros a Ha; exact (proj1 (bool_decide_eq_true _) Ha)).
  assert (padding [] /\ padding (to_text " ")) as [P0 P1] by (split; repeat constructor).
  constructor; [|constructor; [|constructor]];
    (split; [done|]; split; [apply Hitem; vm_compute; reflexivity|done]).
Defined.

Definition demo_env (key : string) : string :=
  if bool_decide (key = "BUCKET_SIZE") then "250"
  else if bool_decide (key = "BUCKET_TTL_SECONDS") then "30" else "".

Lemma Load_bucket_arguments_witness :
  ttl_arg amd64_oob (Redis.MkClient 250 (30 * Second)) = 30.
Proof.
  apply (Load_bucket_arguments amd64_oob demo_env 250 30 (Redis.MkClient 250 (30 * Second)));
    [vm_compute; reflexivity..|vm_compute; discriminate].
Defined.

Lemma Load_thresholds_witness :
  ScoreBlockThreshold (Load (fun _ => "NaN")) = S754_nan.
Proof.
  refine (proj1 (proj2 (proj2 (Load_thresholds (fun _ => "NaN")))) "NaN" _ _); [|reflexivity].
  right. left.
Defined.
