(* ===== verification/Ml.v ===== *)
(** * Anomaly scoring (proto/scorer.pb.go, proto/scorer_grpc.pb.go, internal/ml/client.go)

    The messages with their nil-safe getters, the generated stub, the client, and the
    generated service.
    The gRPC library is the interface [Grpc]: dialling, one unary call with a
    deadline, closing.  Pointers that may be nil are options. *)

From S2P Require Import Prelude GoFloat.

(** ** Messages *)

Record FeatureVector := MkFeatureVector {
  ClientIp : string;
  Ja3Hash : string;
  UserAgentHash : string;
  ReqRate_1S : float64;
  ReqRate_10S : float64;
  ReqRate_60S : float64;
  HttpMethod : string;
  UriHash : string;
  ContentLength : Z;
  HeaderCount : Z;
  IsHttp2 : Z;
  UnixTimestamp : Z
}.

Record ScoreResponse := MkScoreResponse { AnomalyScore : float32; ModelVersion : string }.

(** A getter returns the field, or the zero value on a nil message. *)
Definition getter {A B} (field : A -> B) (zero : B) (x : option A) : B :=
  match x with Some m => field m | None => zero end.

Definition f_zero : spec_float := S754_zero false.

Definition GetClientIp : option FeatureVector -> string := getter ClientIp "".
Definition GetJa3Hash : option FeatureVector -> string := getter Ja3Hash "".
Definition GetUserAgentHash : option FeatureVector -> string := getter UserAgentHash "".
Definition GetReqRate_1S : option FeatureVector -> float64 := getter ReqRate_1S f_zero.
Definition GetReqRate_10S : option FeatureVector -> float64 := getter ReqRate_10S f_zero.
Definition GetReqRate_60S : option FeatureVector -> float64 := getter ReqRate_60S f_zero.
Definition GetHttpMethod : option FeatureVector -> string := getter HttpMethod "".
Definition GetUriHash : option FeatureVector -> string := getter UriHash "".
Definition GetContentLength : option FeatureVector -> Z := getter ContentLength 0.
Definition GetHeaderCount : option FeatureVector -> Z := getter HeaderCount 0.
Definition GetIsHttp2 : option FeatureVector -> Z := getter IsHttp2 0.
Definition GetUnixTimestamp : option FeatureVector -> Z := getter UnixTimestamp 0.

Definition GetAnomalyScore : option ScoreResponse -> float32 := getter AnomalyScore f_zero.
Definition GetModelVersion : option ScoreResponse -> string := getter ModelVersion "".

(** ** The gRPC library *)

(** [Conn] is the type of connections, [G] the state behind them.  [grpc_invoke
    conn timeout method in] is [conn.Invoke] under a context that expires
    [timeout] nanoseconds from now; it fills the reply or fails. *)
Class Grpc (Conn G : Type) := {
  grpc_dial : string -> io G Conn;
  grpc_invoke : Conn -> Z -> string -> option FeatureVector -> io G ScoreResponse;
  grpc_close : Conn -> G -> option error * G
}.

(** ** The generated stub *)

Definition MLScorer_Score_FullMethodName : string := "/scorer.MLScorer/Score".

Record mLScorerClient (Conn : Type) := MkStub { cc : Conn }.
Arguments MkStub {Conn}.
Arguments cc {Conn}.

Definition NewMLScorerClient {Conn} (conn : Conn) : mLScorerClient Conn := MkStub conn.

Section Client.
Context {Conn G : Type} `{Grpc Conn G}.

(** [mLScorerClient.Score]: a nil message together with an error. *)
Definition stub_Score (c : mLScorerClient Conn) (timeout : Z) (fv : option FeatureVector) (g : G)
    : (option ScoreResponse * option error) * G :=
  match grpc_invoke (cc c) timeout MLScorer_Score_FullMethodName fv g with
  | (Err e, g') => ((None, Some e), g')
  | (Ok out, g') => ((Some out, None), g')
  end.

(** ** The client *)

(** 100 milliseconds. *)
Definition callDeadline : Z := 100 * 1000000.

Record Client := MkClient { conn : Conn; scorer : mLScorerClient Conn }.

(** [New]: a nil client together with an error. *)
Definition New (addr : string) (g : G) : (option Client * option error) * G :=
  match grpc_dial addr g with
  | (Err e, g') => ((None, Some ("grpc dial " +:+ addr +:+ ": " +:+ e)), g')
  | (Ok conn, g') => ((Some (MkClient conn (NewMLScorerClient conn)), None), g')
  end.

Definition nil_dereference : string :=
  "runtime error: invalid memory address or nil pointer dereference".

(** [Score]: (anomaly score, model version, error); [c.scorer] on a nil [c]
    panics. *)
Definition Score (c : option Client) (fv : option FeatureVector)
    : go G (float32 * string * option error) :=
  match c with
  | None => go_panic nil_dereference
  | Some c =>
      '(resp, err) ← go_lift (stub_Score (scorer c) callDeadline fv);
      match err with
      | Some e => mret (f_zero, "", Some e)
      | None => mret (GetAnomalyScore resp, GetModelVersion resp, None)
      end
  end.

Definition Close (c : option Client) : go G (option error) :=
  match c with
  | None => go_panic nil_dereference
  | Some c => go_lift (grpc_close (conn c))
  end.
End Client.
Arguments Client : clear implicits.

(** ** The generated service, for a server in Go (the repository's is in Python) *)

(** A server's method on its state; a message's bytes are decoded before. *)
Definition method (S : Type) : Type := FeatureVector -> io S ScoreResponse.

(** An interceptor gets the message, the method's full name and the method. *)
Definition interceptor (S : Type) : Type := FeatureVector -> string -> method S -> io S ScoreResponse.

Definition method_handler (S : Type) : Type := method S -> result FeatureVector -> option (interceptor S) -> io S ScoreResponse.

Record ServiceDesc (S : Type) := MkServiceDesc {
  ServiceName : string; Methods : list (string * method_handler S); Metadata : string
}.
Arguments MkServiceDesc {S}.
Arguments ServiceName {S}.
Arguments Methods {S}.
Arguments Metadata {S}.

(** [grpc.Server.RegisterService]. *)
Class ServiceRegistrar (S Reg : Type) := { RegisterService : ServiceDesc S -> method S -> Reg -> Reg }.

Section Service.
Context {S : Type}.

Definition UnimplementedMLScorerServer_Score : method S := fun _ =>
  io_err "rpc error: code = Unimplemented desc = method Score not implemented".

Definition MLScorer_Score_Handler : method_handler S := fun srv dec intercept s =>
  match dec with
  | Err e => (Err e, s)
  | Ok fv =>
      match intercept with
      | None => srv fv s
      | Some i => i fv MLScorer_Score_FullMethodName srv s
      end
  end.

Definition MLScorer_ServiceDesc : ServiceDesc S :=
  MkServiceDesc "scorer.MLScorer" [("Score", MLScorer_Score_Handler)] "proto/scorer.proto".

Definition RegisterMLScorerServer {Reg} `{ServiceRegistrar S Reg} (srv : method S) (reg : Reg) : Reg :=
  RegisterService MLScorer_ServiceDesc srv reg.

(** The handler of "/service/method". *)
Definition handler_for (full : string) (d : ServiceDesc S) : option (method_handler S) :=
  snd <$> find (fun m => bool_decide ("/" +:+ ServiceName d +:+ "/" +:+ m.1 = full)) (Methods d).

(** The name that the client's stub calls finds the handler, which runs the server's
    method on a message that decodes, under interceptors that pass it on. *)
Lemma stub_name_served (srv : method S) fv (intercept : option (interceptor S)) s :
  (forall i full m s, intercept = Some i -> i fv full m s = m fv s) ->
  exists h, handler_for MLScorer_Score_FullMethodName MLScorer_ServiceDesc = Some h /\
    h srv (Ok fv) intercept s = srv fv s /\ forall e, h srv (Err e) intercept s = (Err e, s).
Proof.
  intros Hi. exists MLScorer_Score_Handler. split; [done|]. split; [|done].
  cbn. destruct intercept as [i|]; [by apply Hi|done].
Qed.
End Service.

(** ** Properties *)

Section Properties.
Context {Conn G : Type} `{Grpc Conn G}.

(** Scoring is fail-safe, except before the client exists.  On a client
    made by [New], [Score] never panics: it makes one call of the scorer's method
    with the 100 ms deadline, hands on the reply's fields, and on any failure
    returns score 0.0 and no version with the error.  When dialling failed, the
    client is nil and [Score] panics without having called anything. *)
Theorem Score_fail_safe addr (g : G) fv :
  let '((c, err), g1) := New addr g in
  match err with
  | Some _ => c = None /\ Score c fv g1 = (Panics nil_dereference, g1)
  | None =>
      exists conn, grpc_dial addr g = (Ok conn, g1) /\
        Score c fv g1 =
          match grpc_invoke conn callDeadline MLScorer_Score_FullMethodName fv g1 with
          | (Ok r, g2) => (Returns (AnomalyScore r, ModelVersion r, None), g2)
          | (Err e, g2) => (Returns (S754_zero false, "", Some e), g2)
          end
  end.
Proof.
  unfold New, Score, stub_Score. destruct (grpc_dial addr g) as [[conn|e] g1]; [|done].
  exists conn. split; [done|]. go_unfold.
  by destruct (grpc_invoke conn _ _ fv g1) as [[r|e] g2].
Qed.
End Properties.

(** ** A sidecar for the examples: a fixed answer, and a list of the calls *)

Module MockGrpc.
Record t := Mock { dial_error : option error; answer : result ScoreResponse; calls : list string }.

#[global] Instance cmds : Grpc string t := {|
  grpc_dial addr g :=
    match dial_error g with Some e => (Err e, g) | None => (Ok addr, g) end;
  grpc_invoke conn timeout method fv g :=
    (answer g, Mock (dial_error g) (answer g) (calls g ++ [GetClientIp fv]));
  grpc_close conn g := (None, g)
|}.
End MockGrpc.
