(* ===== verification/Sidecar.v ===== *)
(** * The ML sidecar (ml-sidecar/)

    scorer.py, models/isolation_forest.py, models/lstm_model.py and the servicer of
    server.py.  Redis, scikit-learn, ONNX Runtime, NumPy and the byte formats (json,
    joblib) are classes.  A Python exception is an error of the [io] monad.  The
    dictionary of a request is the record of its twelve fields: [_fv_to_dict] sets
    every key, so that the defaults of [get] never apply ([Retrain.encode_fv_to_dict] is
    the encoding of that dictionary). *)

From S2P Require Import Prelude GoFloat FloatOrder GoText Ml.

(** ** The libraries *)

(** [V] is the type of byte strings, [Forest] that of fitted isolation forests. *)
Class Codecs (V Forest : Type) := {
  json_dumps : list (list float64) -> V;
  json_loads : V -> result (list (list float64));
  joblib_dump : Forest -> V;
  joblib_load : V -> result Forest;
  truthy : V -> bool
}.

(** json writes lists of floats so that they are read back, never as an empty text. *)
Class CodecLaws (V Forest : Type) `{Codecs V Forest} : Prop := {
  loads_dumps l : json_loads (json_dumps l) = Ok l;
  dumps_truthy l : truthy (json_dumps l) = true
}.

Class PyRedis (V St : Type) := {
  py_view : St -> gmap string V;
  py_get : string -> io St (option V);
  py_setex : string -> Z -> V -> io St unit
}.

(** These laws speak of the calls of one request (or job): a key that expires or is
    evicted between two requests is another state to begin with; one that is lost
    between two calls of the same request is not covered. *)
Class PyRedisLaws (V St : Type) `{PyRedis V St} : Prop := {
  get_law k st r st' : py_get k st = (r, st') ->
    py_view st' = py_view st /\ match r with Ok v => v = py_view st !! k | Err _ => True end;
  setex_law k ttl v st r st' : 0 < ttl -> py_setex k ttl v st = (r, st') ->
    match r with
    | Ok _ => py_view st' = <[k := v]> (py_view st)
    | Err _ => py_view st' = py_view st \/ py_view st' = <[k := v]> (py_view st)
    end
}.

(** [np.clip]: values outside the interval become its ends, NaN stays NaN; which zero
    a zero becomes is left open. *)
Class Numpy := { np_clip : float64 -> float64 -> float64 -> float64 }.

Class NumpyLaws `{Numpy} : Prop := {
  clip_below x lo hi : f_gt lo x = true -> np_clip x lo hi = lo;
  clip_above x lo hi : f_gt lo x = false -> f_gt x hi = true -> np_clip x lo hi = hi;
  clip_inside x lo hi : f_gt lo x = false -> f_gt x hi = false ->
    np_clip x lo hi = x \/ exists s s', x = S754_zero s /\ np_clip x lo hi = S754_zero s'
}.

Class Sklearn (Forest : Type) := {
  decision_function : Forest -> list float64 -> result float64;
  forest_fit : list (list float64) -> result Forest
}.

(** [session.run]: the first element of the output, or an exception. *)
Class Onnx (Session : Type) := { session_run : Session -> list (list float32) -> result float32 }.

(** Floats that come from outside are well formed. *)
Class ModelLaws (Forest Session : Type) `{Sklearn Forest, Onnx Session} : Prop := {
  decision_float f x raw : decision_function f x = Ok raw -> wf_float 53 1024 raw;
  session_float (s : Session) x raw : session_run s x = Ok raw -> wf_float 24 128 raw
}.

(** ** Features *)

Definition f64_half : float64 := f64_of_dec false 5 (-1).
Definition f64_one : float64 := f64_of_Z 1.

(** [float(x)] of a [numpy.float32]: exact. *)
Definition f32_to_f64 (x : float32) : float64 :=
  match x with S754_finite s m e => binary_round 53 1024 s m e | _ => x end.

(** [len] of a text: its bytes but for UTF-8 continuations. *)
Definition py_len (s : string) : Z :=
  Z.of_nat (length (filter (fun c => negb (Z.land (code c) 192 =? 128) = true) (to_text s))).

Definition FEATURE_DIM : nat := 9.
Definition MAX_SEQ_LEN : nat := 20.
Definition MIN_SAMPLES_FOR_FIT : nat := 20.

Definition encode_feature_vector (fv : FeatureVector) : list float64 :=
  [ReqRate_1S fv; ReqRate_10S fv; ReqRate_60S fv;
   f64_of_Z (ContentLength fv); f64_of_Z (HeaderCount fv); f64_of_Z (IsHttp2 fv);
   f64_of_Z (py_len (HttpMethod fv)); f64_of_Z (py_len (Ja3Hash fv));
   f64_of_Z (py_len (UserAgentHash fv))].

(** The copy of the same function in lstm_model.py. *)
Definition fv_to_array (fv : FeatureVector) : list float64 :=
  [ReqRate_1S fv; ReqRate_10S fv; ReqRate_60S fv;
   f64_of_Z (ContentLength fv); f64_of_Z (HeaderCount fv); f64_of_Z (IsHttp2 fv);
   f64_of_Z (py_len (HttpMethod fv)); f64_of_Z (py_len (Ja3Hash fv));
   f64_of_Z (py_len (UserAgentHash fv))].

Definition ip_to_subnet (ip : string) : string :=
  let parts := Split ip "." in
  if (length parts =? 4)%nat then of_text (join "." (to_text <$> take 3 parts))
  else
    let parts6 := Split ip ":" in
    if (3 <=? length parts6)%nat then of_text (join ":" (to_text <$> take 3 parts6)) else ip.

(** [seq[-n:]] *)
Definition last_n {A} (n : nat) (l : list A) : list A := drop (length l - n) l.

(** A row of the input: cut and padded with zeros. *)
Definition input_row (vec : list float64) : list float32 :=
  let row := take FEATURE_DIM (f64_to_f32 <$> vec) in
  row ++ replicate (FEATURE_DIM - length row) (S754_zero false).

Definition prepare_input (seq : list (list float64)) : list (list float32) :=
  let usable := input_row <$> last_n MAX_SEQ_LEN seq in
  usable ++ replicate (MAX_SEQ_LEN - length usable) (replicate FEATURE_DIM (S754_zero false)).

Definition lift {S A} (r : result A) : io S A := fun s => (r, s).

Section Models.
Context {St V Forest Session : Type}.
Context `{PyRedis V St, Codecs V Forest, Numpy, Sklearn Forest, Onnx Session}.

(** ** models/lstm_model.py *)

Record LSTMModel := MkLSTM { session : option Session }.

Definition seq_key (ip : string) : string := "seq:" +:+ ip_to_subnet ip.
Definition REDIS_SEQ_TTL : Z := 3600.

Definition push_feature_vector (ip : string) (fv : FeatureVector) : io St unit :=
  raw ← py_get (seq_key ip);
  seq ← lift (match raw with
              | Some b => if truthy b then json_loads b else Ok []
              | None => Ok []
              end);
  py_setex (seq_key ip) REDIS_SEQ_TTL (json_dumps (last_n MAX_SEQ_LEN (seq ++ [fv_to_array fv]))).

(** [clip(0, 1)] of what the session returns; an exception of the session is caught. *)
Definition infer (s : Session) (seq : list (list float64)) : float64 :=
  match session_run s (prepare_input seq) with
  | Ok raw_score => np_clip (f32_to_f64 raw_score) f_zero f64_one
  | Err _ => f64_half
  end.

Definition lstm_score (m : LSTMModel) (ip : string) : io St float64 :=
  match session m with
  | None => mret f64_half
  | Some s =>
      raw ← py_get (seq_key ip);
      match raw with
      | None => mret f64_half
      | Some b =>
          if negb (truthy b) then mret f64_half
          else
            seq ← lift (json_loads b);
            match seq with
            | [] => mret f64_half
            | _ => mret (infer s seq)
            end
      end
  end.

Definition score_sequence (m : LSTMModel) (fvs : list FeatureVector) : float64 :=
  match session m with None => f64_half | Some s => infer s (fv_to_array <$> fvs) end.

(** ** models/isolation_forest.py *)

Record IsolationForestModel := MkForest { baseline : option Forest }.

Definition REDIS_TTL_SECONDS : Z := 7 * 24 * 3600.
Definition iso_key (ip : string) : string := "model:iso:" +:+ ip.

(** An exception of joblib is caught. *)
Definition iso_load (ip : string) : io St (option Forest) :=
  data ← py_get (iso_key ip);
  mret (match data with
        | None => None
        | Some b => match joblib_load b with Ok f => Some f | Err _ => None end
        end).

Definition iso_store (ip : string) (f : Forest) : io St unit :=
  py_setex (iso_key ip) REDIS_TTL_SECONDS (joblib_dump f).

Definition fit (ip : string) (history : list FeatureVector) : io St unit :=
  if (length history <? MIN_SAMPLES_FOR_FIT)%nat then mret tt
  else
    f ← lift (forest_fit (encode_feature_vector <$> history));
    iso_store ip f.

(** [clip(0.5 - raw, 0, 1)] *)
Definition anomaly (raw : float64) : float64 := np_clip (SFsub 53 1024 f64_half raw) f_zero f64_one.

Definition iso_score (m : IsolationForestModel) (ip : string) (fv : FeatureVector) : io St float64 :=
  model ← iso_load ip;
  match (match model with None => baseline m | Some f => Some f end) with
  | None => mret f64_half
  | Some f =>
      raw ← lift (decision_function f (encode_feature_vector fv));
      mret (anomaly raw)
  end.

(** ** scorer.py *)

Record Scorer := MkScorer { iso : IsolationForestModel; lstm : LSTMModel; model_version : string }.

Definition ISO_WEIGHT : float64 := f64_of_dec false 6 (-1).
Definition LSTM_WEIGHT : float64 := f64_of_dec false 4 (-1).

Definition f64_mul (x y : float64) : float64 := SFmul 53 1024 x y.

Definition combine (iso_score lstm_score : float64) : float64 :=
  f64_add (f64_mul ISO_WEIGHT iso_score) (f64_mul LSTM_WEIGHT lstm_score).

Definition scorer_score (sc : Scorer) (fv : FeatureVector) : io St (float64 * string) :=
  let ip := ClientIp fv in
  _ ← push_feature_vector ip fv;
  i ← iso_score (iso sc) ip fv;
  l ← lstm_score (lstm sc) ip;
  mret (combine i l, model_version sc).

(** ** server.py *)

(** [MLScorerServicer.Score]: the message field is a [float]. *)
Definition servicer_Score (sc : Scorer) (request : FeatureVector) : io St ScoreResponse :=
  '(score, version) ← scorer_score sc request;
  mret (MkScoreResponse (f64_to_f32 score) version).
End Models.
Arguments LSTMModel : clear implicits.
Arguments IsolationForestModel : clear implicits.
Arguments Scorer : clear implicits.

(** ** Lemmas: floats *)

(** 1, 0.6 and 0.4, and the bounds of scores: 0.5 and 0.8. *)
Lemma constants :
  f64_one = S754_finite false 4503599627370496 (-52) /\
  f64_half = S754_finite false 4503599627370496 (-53) /\
  ISO_WEIGHT = S754_finite false 5404319552844595 (-53) /\
  LSTM_WEIGHT = S754_finite false 7205759403792794 (-54).
Proof. repeat split; reflexivity. Qed.

Abbreviation in_unit := (upto 53 1024 4503599627370496 (-52)).
Abbreviation in_half := (upto 53 1024 4503599627370496 (-53)).

(** A NaN, or a number between 0 and 1. *)
Definition unit_or_nan (x : float64) : Prop := is_nan x = true \/ in_unit x.

Lemma half_in_half : in_half f64_half.
Proof. split; [reflexivity|]. by vm_compute. Qed.

Lemma half_in_unit : in_unit f64_half.
Proof. eapply upto_trans; [apply half_in_half|by vm_compute]. Qed.

Section Clip.
Context `{NumpyLaws}.

Lemma clip_unit x : wf_float 53 1024 x -> unit_or_nan (np_clip x f_zero f64_one).
Proof.
  intros Hx. destruct (f_gt f_zero x) eqn:Hlo; [right; by rewrite clip_below|].
  destruct (f_gt x f64_one) eqn:Hhi.
  { right. rewrite clip_above by done. split; [reflexivity|]. by vm_compute. }
  destruct (clip_inside x f_zero f64_one Hlo Hhi) as [->|(s & s' & -> & ->)]; [|by right].
  destruct (is_nan x) eqn:Hnan; [by left|right].
  apply (upto_range 53 1024); [lia..|reflexivity|done|done|done|done].
Qed.
End Clip.

Lemma f32_to_f64_wf x : wf_float 53 1024 (f32_to_f64 x).
Proof. destruct x as [| | |s m e]; try done. apply binary_round_wf_float; lia. Qed.

(** The bounds of the weighted sum: what is at most 1 and at most 1 gives at most 1;
    what is at most 1 and at most 1/2 gives at most 0.8. *)
Lemma iso_part x : in_unit x -> upto 53 1024 5404319552844595 (-53) (f64_mul ISO_WEIGHT x).
Proof.
  intros Hx. apply (mul_upto 53 1024 ltac:(lia) ltac:(lia) 5404319552844595 (-53) 4503599627370496 (-52));
    [reflexivity|reflexivity|done|by vm_compute].
Qed.

Lemma lstm_part x : in_unit x -> upto 53 1024 7205759403792794 (-54) (f64_mul LSTM_WEIGHT x).
Proof.
  intros Hx. apply (mul_upto 53 1024 ltac:(lia) ltac:(lia) 7205759403792794 (-54) 4503599627370496 (-52));
    [reflexivity|reflexivity|done|by vm_compute].
Qed.

Lemma lstm_part_half x : in_half x -> upto 53 1024 7205759403792794 (-55) (f64_mul LSTM_WEIGHT x).
Proof.
  intros Hx. apply (mul_upto 53 1024 ltac:(lia) ltac:(lia) 7205759403792794 (-54) 4503599627370496 (-53));
    [reflexivity|reflexivity|done|by vm_compute].
Qed.

Lemma combine_unit x y : in_unit x -> in_unit y -> in_unit (combine x y).
Proof.
  intros Hx%iso_part Hy%lstm_part.
  apply (add_upto 53 1024 ltac:(lia) ltac:(lia) 10808639105689190 7205759403792794 (-54));
    [reflexivity| |exact Hy|lia|lia|by vm_compute].
  eapply upto_trans; [exact Hx|by vm_compute].
Qed.

(** 0.8 as [float64] and, rounded up, as [float32]. *)
Lemma combine_half x y :
  in_unit x -> in_half y -> upto 53 1024 7205759403792794 (-53) (combine x y).
Proof.
  intros Hx%iso_part Hy%lstm_part_half.
  apply (add_upto 53 1024 ltac:(lia) ltac:(lia) (4 * 5404319552844595) 7205759403792794 (-55));
    [reflexivity| |exact Hy|lia|lia|by vm_compute].
  eapply upto_trans; [exact Hx|by vm_compute].
Qed.

Lemma nan_mul x y : is_nan x = true \/ is_nan y = true -> is_nan (f64_mul x y) = true.
Proof. intros [H|H]; destruct x, y; done. Qed.

Lemma nan_add x y : is_nan x = true \/ is_nan y = true -> is_nan (f64_add x y) = true.
Proof. intros [H|H]; destruct x, y; done. Qed.

Lemma combine_nan x y : is_nan x = true \/ is_nan y = true -> is_nan (combine x y) = true.
Proof. intros [H|H]; apply nan_add; [left|right]; apply nan_mul; by right. Qed.

(** ** Lemmas: requests *)

Section Lemmas.
Context {St V Forest Session : Type}.
Context `{PyRedisLaws V St, CodecLaws V Forest, NumpyLaws, ModelLaws Forest Session}.

(** What a request that is answered has done. *)
Lemma servicer_inv (sc : Scorer Forest Session) req (st st' : St) resp :
  servicer_Score sc req st = (Ok resp, st') ->
  exists st1 st2 i l,
    push_feature_vector (ClientIp req) req st = (Ok tt, st1) /\
    iso_score (iso sc) (ClientIp req) req st1 = (Ok i, st2) /\
    lstm_score (lstm sc) (ClientIp req) st2 = (Ok l, st') /\
    resp = MkScoreResponse (f64_to_f32 (combine i l)) (model_version sc).
Proof.
  unfold servicer_Score, scorer_score, mbind, io_bind.
  destruct (push_feature_vector _ _ st) as [[[]|e] st1] eqn:E1; [|done].
  destruct (iso_score _ _ _ st1) as [[i|e] st2] eqn:E2; [|done].
  destruct (lstm_score _ _ st2) as [[l|e] st3] eqn:E3; [|done].
  intros [= <- <-]. by exists st1, st2, i, l.
Qed.

Lemma iso_score_unit (m : IsolationForestModel Forest) ip fv (st st' : St) i :
  iso_score m ip fv st = (Ok i, st') -> unit_or_nan i /\ py_view st' = py_view st.
Proof.
  unfold iso_score, iso_load, mbind, io_bind.
  destruct (py_get (iso_key ip) st) as [[data|e] st1] eqn:Eg; [|done]. cbn.
  pose proof (get_law _ _ _ _ Eg) as [Hv _].
  assert (in_unit f64_half) as Hhalf by apply half_in_unit.
  destruct (match match data with Some b => _ | None => None end with Some f => Some f | None => baseline m end)
    as [f|]; [|intros [= <- <-]; split; [by right|done]].
  unfold lift. destruct (decision_function f _) as [raw|e] eqn:Ed; [|done]. intros [= <- <-].
  split; [|done]. apply clip_unit, SFsub_wf_float; [lia..|reflexivity|].
  by eapply decision_float.
Qed.

Lemma infer_unit (s : Session) seq : unit_or_nan (infer s seq).
Proof.
  unfold infer. destruct (session_run s _) as [raw|e]; [apply clip_unit, f32_to_f64_wf|].
  right. apply half_in_unit.
Qed.

Lemma lstm_score_unit (m : LSTMModel Session) ip (st st' : St) l :
  lstm_score m ip st = (Ok l, st') -> unit_or_nan l /\ py_view st' = py_view st.
Proof.
  assert (unit_or_nan f64_half) as Hhalf by (right; apply half_in_unit).
  unfold lstm_score. destruct (session m) as [s|]; [|by intros [= <- <-]].
  unfold mbind, io_bind. destruct (py_get _ st) as [[raw|e] st1] eqn:Eg; [|done].
  pose proof (get_law _ _ _ _ Eg) as [Hv _]. destruct raw as [b|]; [|by intros [= <- <-]].
  destruct (negb (truthy b)); [by intros [= <- <-]|]. unfold lift.
  destruct (json_loads b) as [[|v seq]|e]; [by intros [= <- <-]| |done].
  intros [= <- <-]. split; [apply infer_unit|done].
Qed.
(** *** The store *)

Lemma keys_distinct ip ip' : iso_key ip <> seq_key ip'.
Proof. done. Qed.

(** A history that the store holds for a subnet. *)
Definition history (m : gmap string V) (ip : string) (l : list (list float64)) : Prop :=
  match m !! seq_key ip with Some b => b = json_dumps l | None => l = [] end.

Definition window (l : list (list float64)) (fv : FeatureVector) : list (list float64) :=
  last_n MAX_SEQ_LEN (l ++ [fv_to_array fv]).

(** Appending to a history: nothing else changes, and after an exception either the
    old or the new history is stored. *)
Lemma push_spec ip fv (st st' : St) r l :
  history (py_view st) ip l -> push_feature_vector ip fv st = (r, st') ->
  match r with
  | Ok _ => py_view st' = <[seq_key ip := json_dumps (window l fv)]> (py_view st)
  | Err _ => py_view st' = py_view st \/
             py_view st' = <[seq_key ip := json_dumps (window l fv)]> (py_view st)
  end.
Proof.
  unfold push_feature_vector, history, mbind, io_bind. intros Hl.
  destruct (py_get (seq_key ip) st) as [[raw|e] st1] eqn:Eg;
    apply get_law in Eg as [Hv Hraw]; [|intros [= <- <-]; by left].
  assert (lift (match raw with Some b => if truthy b then json_loads b else Ok [] | None => Ok [] end) st1
    = (Ok l, st1)) as ->.
  { unfold lift. rewrite Hraw. destruct (py_view st !! seq_key ip) as [b|]; subst; [|done].
    by rewrite dumps_truthy, loads_dumps. }
  intros Es. apply setex_law in Es; [|done]. rewrite Hv in Es. by destruct r.
Qed.

(** Whatever is stored, at most this key changes. *)
Lemma push_keeps ip fv (st st' : St) r :
  push_feature_vector ip fv st = (r, st') ->
  py_view st' = py_view st \/ exists w, py_view st' = <[seq_key ip := w]> (py_view st).
Proof.
  unfold push_feature_vector, mbind, io_bind.
  destruct (py_get (seq_key ip) st) as [[raw|e] st1] eqn:Eg; apply get_law in Eg as [<- _];
    [|intros [= <- <-]; by left].
  unfold lift. destruct (match raw with Some b => _ | None => _ end) as [l|e]; [|intros [= <- <-]; by left].
  intros Es. apply setex_law in Es; [|done].
  destruct r; [right; eauto|]. destruct Es as [->| ->]; [by left|right; eauto].
Qed.

Lemma length_last_n {A} n (l : list A) : length (last_n n l) = Nat.min n (length l).
Proof. unfold last_n. rewrite length_drop. lia. Qed.

Lemma Forall_last_n {A} (P : A -> Prop) n l : Forall P l -> Forall P (last_n n l).
Proof. apply Forall_drop. Qed.

Lemma last_n_snoc {A} n (l : list A) x : (0 < n)%nat -> last (last_n n (l ++ [x])) = Some x.
Proof.
  intros Hn. unfold last_n. rewrite length_app. cbn [length].
  rewrite drop_app_le by lia. apply last_snoc.
Qed.

Lemma input_row_length vec : length (input_row vec) = FEATURE_DIM.
Proof.
  unfold input_row. cbv zeta. rewrite length_app, length_replicate, !length_take. lia.
Qed.

Lemma prepare_input_shape seq :
  length (prepare_input seq) = MAX_SEQ_LEN /\ Forall (fun row => length row = FEATURE_DIM) (prepare_input seq).
Proof.
  unfold prepare_input. cbv zeta. split.
  - rewrite length_app, length_replicate, !length_fmap, length_last_n. lia.
  - apply Forall_app. split.
    + apply Forall_fmap, Forall_true. intros vec. apply input_row_length.
    + by apply Forall_replicate.
Qed.
End Lemmas.

(** ** Properties *)

(** The scores 0.8 and 0.5 of the messages. *)
Definition f32_08 : float32 := f64_to_f32 (f64_of_dec false 8 (-1)).
Definition f32_05 : float32 := f64_to_f32 f64_half.

Lemma f64_to_f32_nan x : is_nan x = true -> f64_to_f32 x = S754_nan.
Proof. by destruct x. Qed.

Lemma upto_float32 mb eb mb' eb' x :
  bounded 24 128 mb' eb' = true -> dle (Zpos mb) eb (Zpos mb') eb' ->
  upto 53 1024 (Zpos mb) eb x ->
  f_gt (f64_to_f32 x) (S754_finite false mb' eb') = false /\
  f_gt (S754_zero false) (f64_to_f32 x) = false.
Proof.
  intros Hb Hle Hx. pose proof (f64_to_f32_upto mb eb mb' eb' x Hb Hle Hx) as Hy.
  split; [by apply (upto_not_gt 24 128)|]. by destruct (f64_to_f32 x) as [| | |[] m e].
Qed.

Lemma combine_bounds i l : unit_or_nan i -> unit_or_nan l ->
  f_gt (f64_to_f32 (combine i l)) (f32_of_Z 1) = false /\
  f_gt (S754_zero false) (f64_to_f32 (combine i l)) = false.
Proof.
  assert (is_nan (combine i l) = true -> f_gt (f64_to_f32 (combine i l)) (f32_of_Z 1) = false /\
    f_gt (S754_zero false) (f64_to_f32 (combine i l)) = false) as Hnan.
  { intros Hy. rewrite f64_to_f32_nan by done. split; [apply f_gt_nan_l|apply f_gt_nan_r]. }
  intros [Hi|Hi]; [intros _; by apply Hnan, combine_nan; left|].
  intros [Hl|Hl]; [by apply Hnan, combine_nan; right|].
  apply (upto_float32 4503599627370496 (-52) 8388608 (-23)); [reflexivity|by vm_compute|by apply combine_unit].
Qed.

Section Properties.
Context {St V Forest Session : Type}.
Context `{PyRedisLaws V St, CodecLaws V Forest, NumpyLaws, ModelLaws Forest Session}.

(** C16: the range of the scores.  Whatever the models return and whatever is in
    Redis, an answer's score is never below 0 nor above 1 (comparisons with a NaN,
    which only a model's NaN can cause, are false); without the LSTM's file, which is
    not in the repository, it is never above 0.8; without any model it is 0.5. *)
Theorem score_bounds (sc : Scorer Forest Session) req (st st' : St) resp :
  servicer_Score sc req st = (Ok resp, st') ->
  f_gt (AnomalyScore resp) (f32_of_Z 1) = false /\
  f_gt (S754_zero false) (AnomalyScore resp) = false /\
  (session (lstm sc) = None -> f_gt (AnomalyScore resp) f32_08 = false) /\
  (session (lstm sc) = None -> baseline (iso sc) = None ->
   (forall b, py_view st !! iso_key (ClientIp req) = Some b -> is_ok (joblib_load b) = false) ->
   AnomalyScore resp = f32_05).
Proof.
  intros (st1 & st2 & i & l & Hpush & Hiso & Hlstm & ->)%servicer_inv. cbn [AnomalyScore].
  destruct (iso_score_unit _ _ _ _ _ _ Hiso) as [Hi _].
  destruct (lstm_score_unit _ _ _ _ _ Hlstm) as [Hl _].
  assert (forall y, is_nan (combine i l) = true ->
    f_gt (f64_to_f32 (combine i l)) y = false /\ f_gt y (f64_to_f32 (combine i l)) = false) as Hnan.
  { intros y Hy. rewrite f64_to_f32_nan by done. split; [apply f_gt_nan_l|apply f_gt_nan_r]. }
  assert (session (lstm sc) = None -> l = f64_half) as Hneutral.
  { intros Hs. unfold lstm_score in Hlstm. rewrite Hs in Hlstm. by injection Hlstm as <- _. }
  split_and!.
  - by apply combine_bounds.
  - by apply combine_bounds.
  - intros ->%Hneutral. destruct Hi as [Hi|Hi]; [by apply Hnan, combine_nan; left|].
    apply (upto_float32 7205759403792794 (-53) 13421773 (-24)); [reflexivity|by vm_compute|].
    apply combine_half; [done|apply half_in_half].
  - intros ->%Hneutral Hb Hno. enough (i = f64_half) as -> by reflexivity.
    unfold iso_score, iso_load, mbind, io_bind in Hiso.
    destruct (py_get (iso_key (ClientIp req)) st1) as [[data|e] st3] eqn:Eg; [|done].
    apply get_law in Eg as [_ ->]. cbn in Hiso. rewrite Hb in Hiso.
    destruct (py_view st1 !! iso_key (ClientIp req)) as [b|] eqn:Edata; [|by injection Hiso as <- _].
    assert (is_ok (joblib_load b) = false) as Hload.
    { apply Hno. rewrite <- Edata. destruct (push_keeps _ _ _ _ _ Hpush) as [->|[w ->]]; [done|].
      by rewrite lookup_insert_ne by (intros E; by apply (keys_distinct (ClientIp req) (ClientIp req))). }
    destruct (joblib_load b); [done|]. by injection Hiso as <- _.
Qed.
(** What the store holds for the subnets: histories of at most 20 rows of 9 numbers. *)
Definition sequences_ok (m : gmap string V) : Prop :=
  forall ip, exists l, history m ip l /\ (length l <= MAX_SEQ_LEN)%nat /\
    Forall (fun row => length row = FEATURE_DIM) l.

Lemma sequences_ok_insert m ip fv l :
  sequences_ok m -> history m ip l -> Forall (fun row => length row = FEATURE_DIM) l ->
  sequences_ok (<[seq_key ip := json_dumps (window l fv)]> m).
Proof.
  intros Hok Hl Hrows ip'. unfold history.
  destruct (decide (seq_key ip' = seq_key ip)) as [->|Hne].
  - rewrite lookup_insert_eq. exists (window l fv). split; [done|]. unfold window. split.
    + rewrite length_last_n. lia.
    + apply Forall_last_n, Forall_app. split; [done|]. by repeat constructor.
  - rewrite lookup_insert_ne by done. apply Hok.
Qed.

Lemma push_ok ip fv (st st' : St) r :
  sequences_ok (py_view st) -> push_feature_vector ip fv st = (r, st') -> sequences_ok (py_view st').
Proof.
  intros Hok Hp. destruct (Hok ip) as (l & Hl & _ & Hrows). apply (push_spec _ _ _ _ _ l Hl) in Hp.
  pose proof (sequences_ok_insert _ ip fv l Hok Hl Hrows) as Hnew.
  destruct r; [by rewrite Hp|]. by destruct Hp as [->| ->].
Qed.

Lemma iso_score_view (m : IsolationForestModel Forest) ip fv (st st' : St) r :
  iso_score m ip fv st = (r, st') -> py_view st' = py_view st.
Proof.
  unfold iso_score, iso_load, mbind, io_bind.
  destruct (py_get (iso_key ip) st) as [[data|e] st1] eqn:Eg; apply get_law in Eg as [<- _];
    [|by intros [= _ <-]]. cbn.
  destruct (match match data with Some b => _ | None => None end with Some f => Some f | None => baseline m end)
    as [f|]; [|by intros [= _ <-]]. unfold lift. by destruct (decision_function f _); intros [= _ <-].
Qed.

Lemma lstm_score_view (m : LSTMModel Session) ip (st st' : St) r :
  lstm_score m ip st = (r, st') -> py_view st' = py_view st.
Proof.
  unfold lstm_score. destruct (session m) as [s|]; [|by intros [= _ <-]]. unfold mbind, io_bind.
  destruct (py_get _ st) as [[raw|e] st1] eqn:Eg; apply get_law in Eg as [<- _]; [|by intros [= _ <-]].
  destruct raw as [b|]; [|by intros [= _ <-]]. destruct (negb (truthy b)); [by intros [= _ <-]|].
  unfold lift. by destruct (json_loads b) as [[|]|]; intros [= _ <-].
Qed.

(** The stored sequences stay bounded and well shaped.  If every subnet's
    sequence has at most 20 rows of 9 numbers, then so it is after a request, whether
    it is answered or ends with an exception at any point, and after fitting a forest
    (which writes other keys); and the model's input is always 20 by 9. *)
Theorem sequences_invariant (sc : Scorer Forest Session) (st : St) :
  sequences_ok (py_view st) ->
  (forall req r st', servicer_Score sc req st = (r, st') -> sequences_ok (py_view st')) /\
  (forall ip fvs r st', fit ip fvs st = (r, st') -> sequences_ok (py_view st')) /\
  forall seq, length (prepare_input seq) = MAX_SEQ_LEN /\
    Forall (fun row => length row = FEATURE_DIM) (prepare_input seq).
Proof.
  intros Hok. split_and!; [| |apply prepare_input_shape].
  - intros req r st'. unfold servicer_Score, scorer_score, mbind, io_bind.
    destruct (push_feature_vector _ _ st) as [[[]|e] st1] eqn:E1; apply push_ok in E1; try done;
      [|by intros [= _ <-]].
    destruct (iso_score _ _ _ st1) as [[i|e] st2] eqn:E2; apply iso_score_view in E2;
      [|intros [= _ <-]; by rewrite E2].
    destruct (lstm_score _ _ st2) as [[l|e] st3] eqn:E3; apply lstm_score_view in E3;
      intros [= _ <-]; by rewrite E3, E2.
  - intros ip fvs r st'. unfold fit. case_match; [by intros [= _ <-]|]. unfold mbind, io_bind, lift.
    destruct (forest_fit _) as [f|e]; [|by intros [= _ <-]]. unfold iso_store. intros Es%setex_law; [|done].
    assert (sequences_ok (<[iso_key ip := joblib_dump f]> (py_view st))) as Hnew.
    { intros ip'. unfold history. rewrite lookup_insert_ne by apply keys_distinct. apply Hok. }
    destruct r; [by rewrite Es|]. by destruct Es as [->| ->].
Qed.

(** C19: what the LSTM scores.  When a session is loaded, Redis holds a readable sequence
    (or none) for the subnet of the address, and no other request or loss of a key comes
    in between, an answered request has appended its own vector to the sequence of its
    subnet, dropped the oldest rows beyond 20, and scored exactly that sequence, its own
    vector last; it has changed no other key, and its score weighs the forest and the
    LSTM 0.6 to 0.4. *)
Theorem score_window (sc : Scorer Forest Session) s req l (st st' : St) resp :
  session (lstm sc) = Some s -> history (py_view st) (ClientIp req) l ->
  servicer_Score sc req st = (Ok resp, st') ->
  py_view st' = <[seq_key (ClientIp req) := json_dumps (window l req)]> (py_view st) /\
  last (window l req) = Some (fv_to_array req) /\
  exists i st1 st2, py_view st1 = py_view st' /\ iso_score (iso sc) (ClientIp req) req st1 = (Ok i, st2) /\
    AnomalyScore resp = f64_to_f32 (f64_add (f64_mul ISO_WEIGHT i)
                                            (f64_mul LSTM_WEIGHT (infer s (window l req)))).
Proof.
  intros Hs Hl (st1 & st2 & i & x & Hpush & Hiso & Hlstm & ->)%servicer_inv.
  pose proof (push_spec _ _ _ _ _ l Hl Hpush) as Hst1. cbn in Hst1.
  pose proof (iso_score_view _ _ _ _ _ _ Hiso) as Hst2.
  pose proof (lstm_score_view _ _ _ _ _ Hlstm) as Hst3.
  split; [by rewrite Hst3, Hst2|]. split; [by apply last_n_snoc; unfold MAX_SEQ_LEN; lia|].
  exists i, st1, st2. split; [by rewrite Hst3, Hst2|]. split; [done|].
  enough (x = infer s (window l req)) as -> by done.
  unfold lstm_score in Hlstm. rewrite Hs in Hlstm. unfold mbind, io_bind in Hlstm.
  destruct (py_get (seq_key (ClientIp req)) st2) as [[raw|e] st3] eqn:Eg; [|done].
  apply get_law in Eg as [_ ->]. rewrite Hst2, Hst1, lookup_insert_eq, dumps_truthy in Hlstm.
  unfold lift in Hlstm. cbn [negb] in Hlstm. rewrite loads_dumps in Hlstm.
  assert (window l req <> []) as Hne.
  { intros E. assert (last (window l req) = Some (fv_to_array req)) as E'
      by (by apply last_n_snoc; unfold MAX_SEQ_LEN; lia). by rewrite E in E'. }
  destruct (window l req) as [|row w]; [done|]. by injection Hlstm as <- _.
Qed.
End Properties.

(** ** Libraries for the examples *)

(** Byte strings are what they encode; a forest and a session always give the same
    number; [down] says that Redis does not answer. *)
Module MemPy.
Definition bytes : Type := list (list float64) + float64.
Record t := Mem { store : gmap string bytes; down : bool }.

#[global] Instance codecs : Codecs bytes float64 := {|
  json_dumps := inl;
  json_loads b := match b with inl l => Ok l | inr _ => Err "JSONDecodeError" end;
  joblib_dump := inr;
  joblib_load b := match b with inr f => Ok f | inl _ => Err "UnpicklingError" end;
  truthy _ := true
|}.

#[global] Instance codec_laws : CodecLaws bytes float64.
Proof. by split. Qed.

#[global] Instance redis : PyRedis bytes t := {|
  py_view := store;
  py_get k s := (if down s then Err "ConnectionError" else Ok (store s !! k), s);
  py_setex k ttl v s :=
    if down s then (Err "ConnectionError", s) else (Ok tt, Mem (<[k := v]> (store s)) (down s))
|}.

#[global] Instance redis_laws : PyRedisLaws bytes t.
Proof.
  split; cbn.
  - intros k st r st' [= <- <-]. by destruct (down st).
  - intros k ttl v st r st' _. destruct (down st); intros [= <- <-]; [by left|done].
Qed.

#[global] Instance numpy : Numpy := {|
  np_clip x lo hi := if f_gt lo x then lo else if f_gt x hi then hi else x
|}.

#[global] Instance numpy_laws : NumpyLaws.
Proof.
  split; cbn.
  - by intros x lo hi ->.
  - by intros x lo hi -> ->.
  - intros x lo hi -> ->. by left.
Qed.

#[global] Instance sklearn : Sklearn float64 := {|
  decision_function f _ := if valid64 f then Ok f else Err "ValueError";
  forest_fit _ := Ok f_zero
|}.

#[global] Instance onnx : Onnx float32 := {|
  session_run s _ := if valid32 s then Ok s else Err "InvalidArgument"
|}.

#[global] Instance model_laws : ModelLaws float64 float32.
Proof.
  split; cbn.
  - intros f x raw. destruct (valid64 f) eqn:E; [by intros [= <-]|done].
  - intros s x raw. destruct (valid32 s) eqn:E; [by intros [= <-]|done].
Qed.

Definition empty : t := Mem ∅ false.

(** The image as built: a forest (here one that finds everything anomalous), no LSTM. *)
Definition shipped : Scorer float64 float32 :=
  MkScorer (MkForest (Some (f64_of_Z (-1)))) (MkLSTM None) "1.0".
Definition untrained : Scorer float64 float32 := MkScorer (MkForest None) (MkLSTM None) "1.0".
Definition complete : Scorer float64 float32 :=
  MkScorer (MkForest (Some (f64_of_Z (-1)))) (MkLSTM (Some (f32_of_Z 2))) "1.0".

Definition request : FeatureVector :=
  MkFeatureVector "10.0.0.7" "none" "d41d8cd98f00b204e9800998ecf8427e" (f64_of_Z 3) (f64_of_Z 5)
    (f64_of_Z 8) "GET" "6666cd76f96956469e7be39d750cc7d9" 0 4 0 1700000000.

Definition answer (sc : Scorer float64 float32) (st : t) : float32 :=
  match servicer_Score sc request st with (Ok r, _) => AnomalyScore r | _ => S754_nan end.
End MemPy.

(** The shipped image reaches 0.8, the one without models says 0.5. *)
Lemma score_bounds_witness :
  (f_gt (MemPy.answer MemPy.shipped MemPy.empty) f32_08 = false /\
   MemPy.answer MemPy.shipped MemPy.empty = f32_08) /\
  MemPy.answer MemPy.untrained MemPy.empty = f32_05 /\
  f_gt (MemPy.answer MemPy.complete MemPy.empty) (f32_of_Z 1) = false.
Proof.
  split_and!.
  - apply (score_bounds MemPy.shipped MemPy.request MemPy.empty
      (snd (servicer_Score MemPy.shipped MemPy.request MemPy.empty))
      (MkScoreResponse (MemPy.answer MemPy.shipped MemPy.empty) "1.0")); [vm_compute; reflexivity|done].
  - vm_compute. reflexivity.
  - apply (score_bounds MemPy.untrained MemPy.request MemPy.empty
      (snd (servicer_Score MemPy.untrained MemPy.request MemPy.empty))
      (MkScoreResponse (MemPy.answer MemPy.untrained MemPy.empty) "1.0")); [vm_compute; reflexivity|done|done|].
    intros b Hb. vm_compute in Hb. discriminate.
  - apply (score_bounds MemPy.complete MemPy.request MemPy.empty
      (snd (servicer_Score MemPy.complete MemPy.request MemPy.empty))
      (MkScoreResponse (MemPy.answer MemPy.complete MemPy.empty) "1.0")). vm_compute; reflexivity.
Defined.

Lemma sequences_invariant_witness :
  sequences_ok (V := MemPy.bytes) (Forest := float64)
    (py_view (snd (servicer_Score MemPy.complete MemPy.request MemPy.empty))).
Proof.
  refine (proj1 (sequences_invariant MemPy.complete MemPy.empty _) MemPy.request
    (fst (servicer_Score MemPy.complete MemPy.request MemPy.empty)) _ _).
  - intros ip. exists []. split_and!; [done|cbn; lia|done].
  - by destruct (servicer_Score _ _ _).
Defined.

Lemma score_window_witness :
  exists i st1 st2, py_view st1 = py_view (snd (servicer_Score MemPy.complete MemPy.request MemPy.empty)) /\
    iso_score (iso MemPy.complete) "10.0.0.7" MemPy.request st1 = (Ok i, st2) /\
    MemPy.answer MemPy.complete MemPy.empty =
      f64_to_f32 (f64_add (f64_mul ISO_WEIGHT i)
        (f64_mul LSTM_WEIGHT (infer (f32_of_Z 2) (window [] MemPy.request)))).
Proof.
  apply (score_window MemPy.complete (f32_of_Z 2) MemPy.request [] MemPy.empty
    (snd (servicer_Score MemPy.complete MemPy.request MemPy.empty))
    (MkScoreResponse (MemPy.answer MemPy.complete MemPy.empty) "1.0")).
  - reflexivity.
  - vm_compute. reflexivity.
  - vm_compute. reflexivity.
Defined.
