(* ===== verification/Parallel.v ===== *)
(** * The sidecar's requests in parallel

    [run_in_executor] scores requests in a pool of threads that share one Redis.  Here
    each request is a thread that takes one command of Redis at a time, and the threads
    interleave in any way. *)

From S2P Require Import Prelude GoFloat FloatOrder GoText Ml Sidecar.

(** ** Threads *)

(** Before [push_feature_vector]; with the sequence read; pushed; with the score of the
    forest; answered, or ended by an exception. *)
Inductive phase :=
| Called
| HasSequence (seq : list (list float64))
| Pushed
| Judged (iso : float64)
| Answered (score : float64) (version : string)
| Failed (e : error).

Record thread := Thread { t_request : FeatureVector; t_phase : phase }.

Record pool (St : Type) := Pool { p_store : St; p_threads : list thread }.
Arguments Pool {St}.
Arguments p_store {St}.
Arguments p_threads {St}.

Definition finished (ph : phase) : bool := match ph with Answered _ _ | Failed _ => true | _ => false end.

Section Threads.
Context {St V Forest Session : Type}.
Context `{PyRedis V St, Codecs V Forest, Numpy, Sklearn Forest, Onnx Session}.
Variable sc : Scorer Forest Session.

(** [json.loads(raw) if raw else []] *)
Definition sequence_of (raw : option V) : result (list (list float64)) :=
  match raw with Some b => if truthy b then json_loads b else Ok [] | None => Ok [] end.

(** A thread up to its next command. *)
Definition advance (fv : FeatureVector) (ph : phase) : io St phase :=
  let ip := ClientIp fv in
  match ph with
  | Called => raw ← py_get (seq_key ip); seq ← lift (sequence_of raw); mret (HasSequence seq)
  | HasSequence seq =>
      _ ← py_setex (seq_key ip) REDIS_SEQ_TTL (json_dumps (last_n MAX_SEQ_LEN (seq ++ [fv_to_array fv])));
      mret Pushed
  | Pushed => i ← iso_score (iso sc) ip fv; mret (Judged i)
  | Judged i => l ← lstm_score (lstm sc) ip; mret (Answered (combine i l) (model_version sc))
  | Answered _ _ | Failed _ => mret ph
  end.

(** A turn of one thread. *)
Inductive turn : pool St -> pool St -> Prop :=
| turn_advance st ts i t r st' :
    ts !! i = Some t -> finished (t_phase t) = false -> advance (t_request t) (t_phase t) st = (r, st') ->
    turn (Pool st ts)
      (Pool st' (<[i := Thread (t_request t) match r with Ok ph => ph | Err e => Failed e end]> ts)).

Inductive step : pool St -> pool St -> Prop :=
| step_arrive st ts fv : step (Pool st ts) (Pool st (ts ++ [Thread fv Called]))
| step_turn p p' : turn p p' -> step p p'.

Definition steps : pool St -> pool St -> Prop := rtc step.

(** A request alone. *)
Definition alone (fv : FeatureVector) : io St (float64 * string) :=
  ph ← advance fv Called; ph ← advance fv ph; ph ← advance fv ph; ph ← advance fv ph;
  match ph with Answered score version => mret (score, version) | _ => io_err "unreachable" end.
End Threads.

(** ** Lemmas *)

Section Lemmas.
Context {St V Forest Session : Type}.
Context `{PyRedisLaws V St, CodecLaws V Forest, NumpyLaws, ModelLaws Forest Session}.
Variable sc : Scorer Forest Session.

Lemma history_sequence (m : gmap string V) ip l : history m ip l -> sequence_of (m !! seq_key ip) = Ok l.
Proof.
  unfold history, sequence_of. destruct (m !! seq_key ip) as [b|]; intros ->; [|done].
  by rewrite dumps_truthy, loads_dumps.
Qed.

(** Alone, the four turns of a thread are the scorer. *)
Lemma alone_scores fv (st : St) : alone sc fv st = scorer_score sc fv st.
Proof.
  unfold alone, scorer_score, push_feature_vector, mbind, io_bind. cbn [advance].
  unfold mbind, io_bind, sequence_of, lift.
  destruct (py_get _ st) as [[raw|e] st1]; [|done].
  destruct (match raw with Some b => _ | None => _ end) as [seq|e]; [|done].
  cbn [advance mret io_ret]. unfold mbind, io_bind. destruct (py_setex _ _ _ st1) as [[[]|e] st2]; [|done].
  cbn [advance mret io_ret]. unfold mbind, io_bind. destruct (iso_score _ _ _ st2) as [[i|e] st3]; [|done].
  cbn [advance mret io_ret]. unfold mbind, io_bind. by destruct (lstm_score _ _ st3) as [[l|e] st4].
Qed.

(** The rows that may be stored for a subnet: those of its requests so far. *)
Definition own_rows (ts : list thread) (key : string) (l : list (list float64)) : Prop :=
  Forall (fun row => exists t, t ∈ ts /\ seq_key (ClientIp (t_request t)) = key /\ row = fv_to_array (t_request t)) l.

Definition phase_ok (ts : list thread) (fv : FeatureVector) (ph : phase) : Prop :=
  match ph with
  | HasSequence seq => (length seq <= MAX_SEQ_LEN)%nat /\ own_rows ts (seq_key (ClientIp fv)) seq
  | Judged i => unit_or_nan i
  | Answered score _ => exists i l, unit_or_nan i /\ unit_or_nan l /\ score = combine i l
  | _ => True
  end.

Definition pool_ok (p : pool St) : Prop :=
  (forall ip, exists l, history (py_view (p_store p)) ip l /\ (length l <= MAX_SEQ_LEN)%nat /\
     own_rows (p_threads p) (seq_key ip) l) /\
  Forall (fun t => phase_ok (p_threads p) (t_request t) (t_phase t)) (p_threads p).

Lemma own_rows_mono ts ts' key l :
  (forall t, t ∈ ts -> exists t', t' ∈ ts' /\ t_request t' = t_request t) ->
  own_rows ts key l -> own_rows ts' key l.
Proof.
  intros Hsub Hl. eapply Forall_impl; [exact Hl|]. intros row (t & Hin & Hkey & ->).
  destruct (Hsub t Hin) as (t' & Hin' & Heq). exists t'. by rewrite Heq.
Qed.

Lemma phase_ok_mono ts ts' fv ph :
  (forall t, t ∈ ts -> exists t', t' ∈ ts' /\ t_request t' = t_request t) ->
  phase_ok ts fv ph -> phase_ok ts' fv ph.
Proof.
  intros Hsub. destruct ph; cbn [phase_ok]; try done. intros [Hl Hrows]. split; [done|]. by eapply own_rows_mono.
Qed.

(** A turn of a thread changes at most the sequence of its subnet. *)
Lemma advance_ok ts t (st st' : St) r :
  t ∈ ts -> phase_ok ts (t_request t) (t_phase t) ->
  (forall ip, exists l, history (py_view st) ip l /\ (length l <= MAX_SEQ_LEN)%nat /\ own_rows ts (seq_key ip) l) ->
  advance sc (t_request t) (t_phase t) st = (r, st') ->
  (match r with Ok ph => phase_ok ts (t_request t) ph | Err _ => True end) /\
  (forall ip, exists l, history (py_view st') ip l /\ (length l <= MAX_SEQ_LEN)%nat /\ own_rows ts (seq_key ip) l).
Proof.
  intros Hin Hph Hst. destruct t as [fv ph]. cbn [t_request t_phase] in *.
  destruct ph as [|seq| |i|score version|e]; cbn [advance]; unfold mbind, io_bind.
  - destruct (py_get (seq_key (ClientIp fv)) st) as [[raw|e] st1] eqn:Eg; apply get_law in Eg as [Hv Hraw];
      [|intros [= <- <-]; split; [done|]; by rewrite Hv].
    destruct (Hst (ClientIp fv)) as (l & Hl & Hlen & Hrows).
    rewrite Hraw, (history_sequence _ _ _ Hl). intros [= <- <-]. split; [done|]. by rewrite Hv.
  - destruct (py_setex _ _ _ st) as [r1 st1] eqn:Es. apply setex_law in Es; [|done].
    set (new := last_n MAX_SEQ_LEN (seq ++ [fv_to_array fv])) in Es.
    assert (forall ip, exists l, history (<[seq_key (ClientIp fv) := json_dumps new]> (py_view st)) ip l /\
      (length l <= MAX_SEQ_LEN)%nat /\ own_rows ts (seq_key ip) l) as Hnew.
    { intros ip. unfold history. destruct (decide (seq_key ip = seq_key (ClientIp fv))) as [->|Hne].
      - rewrite lookup_insert_eq. exists new. split; [done|]. unfold new. split; [rewrite length_last_n; lia|].
        apply Forall_last_n, Forall_app. destruct Hph as [_ Hrows]. split; [done|]. repeat constructor.
        by exists (Thread fv (HasSequence seq)).
      - rewrite lookup_insert_ne by done. apply Hst. }
    destruct r1 as [[]|e]; intros [= <- <-]; (split; [done|]); [by rewrite Es|].
    by destruct Es as [->| ->].
  - destruct (iso_score _ _ _ st) as [[i|e] st1] eqn:Ei; pose proof (iso_score_view _ _ _ _ _ _ Ei) as Hv;
      intros [= <- <-]; rewrite Hv; (split; [|done]); [|done].
    by apply iso_score_unit in Ei as [Hi _].
  - destruct (lstm_score _ _ st) as [[l|e] st1] eqn:El; pose proof (lstm_score_view _ _ _ _ _ El) as Hv;
      intros [= <- <-]; rewrite Hv; (split; [|done]); [|done].
    apply lstm_score_unit in El as [Hl _]. by exists i, l.
  - by intros [= <- <-].
  - by intros [= <- <-].
Qed.
End Lemmas.

(** ** Properties *)

Section Properties.
Context {St V Forest Session : Type}.
Context `{PyRedisLaws V St, CodecLaws V Forest, NumpyLaws, ModelLaws Forest Session}.
Variable sc : Scorer Forest Session.

Lemma step_ok (p p' : pool St) : step sc p p' -> pool_ok p -> pool_ok p'.
Proof.
  intros Hs. destruct Hs as [st ts fv|p p' [st ts i t r st' Hi Hnf Ha]]; intros [Hst Hts];
    cbn [p_store p_threads] in *.
  - assert (forall t, t ∈ ts -> exists t', t' ∈ ts ++ [Thread fv Called] /\ t_request t' = t_request t) as Hsub.
    { intros t Ht. exists t. split; [|done]. apply elem_of_app. by left. }
    split; cbn [p_store p_threads].
    + intros ip. destruct (Hst ip) as (l & ? & ? & ?). exists l. split; [done|]. split; [done|]. by eapply own_rows_mono.
    + apply Forall_app. split; [|by repeat constructor]. eapply Forall_impl; [exact Hts|].
      intros t. by apply phase_ok_mono.
  - assert (t ∈ ts) as Hin by (by eapply list_elem_of_lookup_2).
    pose proof (Forall_lookup_1 _ _ _ _ Hts Hi) as Hph.
    destruct (advance_ok sc ts t st st' r Hin Hph Hst Ha) as [Hr Hst'].
    set (t' := Thread (t_request t) match r with Ok ph => ph | Err e => Failed e end).
    assert (forall u, u ∈ ts -> exists u', u' ∈ <[i := t']> ts /\ t_request u' = t_request u) as Hsub.
    { intros u (j & Hj)%list_elem_of_lookup. destruct (decide (i = j)) as [->|Hne].
      - exists t'. rewrite Hi in Hj. injection Hj as <-. split; [|done].
        eapply list_elem_of_lookup_2. apply list_lookup_insert_eq. by eapply lookup_lt_Some.
      - exists u. split; [|done]. eapply list_elem_of_lookup_2. by rewrite list_lookup_insert_ne. }
    split; cbn [p_store p_threads].
    + intros ip. destruct (Hst' ip) as (l & ? & ? & ?). exists l. split; [done|]. split; [done|]. by eapply own_rows_mono.
    + apply Forall_insert.
      * eapply Forall_impl; [exact Hts|]. intros u. by apply phase_ok_mono.
      * destruct r; [by eapply phase_ok_mono|done].
Qed.

Lemma steps_ok (p p' : pool St) : steps sc p p' -> pool_ok p -> pool_ok p'.
Proof. induction 1 as [|p p1 p2 Hs _ IH]; [done|]. intros Hp. by eapply IH, step_ok. Qed.

(** C12: requests in parallel.  However many requests arrive and however the threads
    interleave, with exceptions anywhere, starting without sequences: every stored
    sequence has at most 20 rows, and each of them is the vector of a request of that
    subnet; every answer is a score between 0 and 1 (or a NaN of a model). *)
Theorem parallel_requests_safe (p0 p : pool St) :
  p_threads p0 = [] -> (forall ip, py_view (p_store p0) !! seq_key ip = None) -> steps sc p0 p ->
  (forall ip, exists l, history (py_view (p_store p)) ip l /\ (length l <= MAX_SEQ_LEN)%nat /\
     Forall (fun row => exists t, t ∈ p_threads p /\ seq_key (ClientIp (t_request t)) = seq_key ip /\
                                  row = fv_to_array (t_request t)) l) /\
  (forall fv score version, Thread fv (Answered score version) ∈ p_threads p ->
     f_gt (f64_to_f32 score) (f32_of_Z 1) = false /\ f_gt (S754_zero false) (f64_to_f32 score) = false).
Proof.
  intros Hts Hst Hsteps. destruct (steps_ok _ _ Hsteps) as [Hstore Hphases].
  { split; [|by rewrite Hts]. intros ip. exists []. unfold history. rewrite Hst.
    split; [done|]. split; [cbn; lia|constructor]. }
  split; [exact Hstore|]. intros fv score version Hin. rewrite Forall_forall in Hphases.
  destruct (Hphases _ Hin) as (i & l & Hi & Hl & ->). by apply combine_bounds.
Qed.

(** C39: what parallel requests lose.  Two requests of one subnet on a Redis that
    answers can interleave so that both have pushed and only the second one's vector is
    in the sequence; and what the LSTM then scores for the first request is that
    sequence, which ends with the other request's vector. *)
Theorem parallel_push_lost (up : St -> Prop) s fv1 fv2 l (st : St) :
  (forall k st, up st -> exists st', py_get k st = (Ok (py_view st !! k), st') /\ up st') ->
  (forall k v st, up st -> exists st', py_setex k REDIS_SEQ_TTL v st = (Ok tt, st') /\ up st') ->
  session (lstm sc) = Some s ->
  up st -> seq_key (ClientIp fv1) = seq_key (ClientIp fv2) -> history (py_view st) (ClientIp fv1) l ->
  exists st', steps sc (Pool st [Thread fv1 Called; Thread fv2 Called]) (Pool st' [Thread fv1 Pushed; Thread fv2 Pushed]) /\
    history (py_view st') (ClientIp fv1) (window l fv2) /\
    exists st2, lstm_score (lstm sc) (ClientIp fv1) st' = (Ok (infer s (window l fv2)), st2).
Proof.
  intros Hget Hset Hs Hup Hkey Hl.
  (* both read, then both write *)
  assert (forall fv st, up st -> history (py_view st) (ClientIp fv) l ->
    exists st', advance sc fv Called st = (Ok (HasSequence l), st') /\ up st' /\ py_view st' = py_view st) as Hread.
  { intros fv st1 Hup1 Hl1. destruct (Hget (seq_key (ClientIp fv)) st1 Hup1) as (st2 & Eg & Hup2).
    exists st2. pose proof (get_law _ _ _ _ Eg) as [Hv _]. split; [|done].
    cbn [advance]. unfold mbind, io_bind, lift. rewrite Eg. by rewrite (history_sequence _ _ _ Hl1). }
  assert (forall fv st, up st -> exists st', advance sc fv (HasSequence l) st = (Ok Pushed, st') /\ up st' /\
    py_view st' = <[seq_key (ClientIp fv) := json_dumps (window l fv)]> (py_view st)) as Hwrite.
  { intros fv st1 Hup1. destruct (Hset (seq_key (ClientIp fv)) (json_dumps (window l fv)) st1 Hup1) as (st2 & Es & Hup2).
    exists st2. split; [|split; [done|by apply setex_law in Es]].
    cbn [advance]. unfold mbind, io_bind. unfold window in Es. by rewrite Es. }
  assert (history (py_view st) (ClientIp fv2) l) as Hl2 by (unfold history in *; by rewrite <- Hkey).
  destruct (Hread fv1 st Hup Hl) as (st1 & E1 & Hup1 & Hv1). rewrite <- Hv1 in Hl2.
  destruct (Hread fv2 st1 Hup1 Hl2) as (st2 & E2 & Hup2 & Hv2).
  destruct (Hwrite fv1 st2 Hup2) as (st3 & E3 & Hup3 & Hv3).
  destruct (Hwrite fv2 st3 Hup3) as (st4 & E4 & Hup4 & Hv4).
  exists st4. split.
  { eapply rtc_l; [exact (step_turn sc _ _ (turn_advance sc _ [Thread fv1 Called; Thread fv2 Called] 0%nat (Thread fv1 Called) _ _ eq_refl eq_refl E1))|].
    eapply rtc_l; [exact (step_turn sc _ _ (turn_advance sc _ [Thread fv1 (HasSequence l); Thread fv2 Called] 1%nat (Thread fv2 Called) _ _ eq_refl eq_refl E2))|].
    eapply rtc_l; [exact (step_turn sc _ _ (turn_advance sc _ [Thread fv1 (HasSequence l); Thread fv2 (HasSequence l)] 0%nat (Thread fv1 (HasSequence l)) _ _ eq_refl eq_refl E3))|].
    eapply rtc_l; [exact (step_turn sc _ _ (turn_advance sc _ [Thread fv1 Pushed; Thread fv2 (HasSequence l)] 1%nat (Thread fv2 (HasSequence l)) _ _ eq_refl eq_refl E4))|].
    apply rtc_refl. }
  assert (py_view st4 !! seq_key (ClientIp fv1) = Some (json_dumps (window l fv2))) as Hlast
    by (by rewrite Hv4, Hkey, lookup_insert_eq).
  split; [unfold history; by rewrite Hlast|].
  destruct (Hget (seq_key (ClientIp fv1)) st4 Hup4) as (st5 & E5 & _). exists st5.
  unfold lstm_score. rewrite Hs. unfold mbind, io_bind, lift. rewrite E5, Hlast, dumps_truthy. cbn [negb].
  rewrite loads_dumps. destruct (window l fv2) as [|row rows] eqn:Ew; [|done]. exfalso.
  assert (last (window l fv2) = Some (fv_to_array fv2)) as E by (by apply last_n_snoc; unfold MAX_SEQ_LEN; lia).
  by rewrite Ew in E.
Qed.
End Properties.

(** ** Witnesses: two requests of one subnet *)

Module PoolDemo.
Definition first : FeatureVector := MemPy.request.
Definition second : FeatureVector :=
  MkFeatureVector "10.0.0.8" "none" "d41d8cd98f00b204e9800998ecf8427e" (f64_of_Z 9) (f64_of_Z 9)
    (f64_of_Z 9) "POST" "6666cd76f96956469e7be39d750cc7d9" 0 4 0 1700000000.
Definition start : pool MemPy.t := Pool MemPy.empty [].
End PoolDemo.

(** A run of one request to its answer. *)
Lemma demo_run : exists score version st,
  steps MemPy.complete PoolDemo.start (Pool st [Thread PoolDemo.first (Answered score version)]).
Proof.
  do 3 eexists. unfold PoolDemo.start. eapply rtc_l; [apply (step_arrive _ _ [] PoolDemo.first)|].
  do 4 (eapply rtc_l; [eapply step_turn, (turn_advance _ _ _ 0%nat); reflexivity|]; cbn [list_insert insert t_request]).
  apply rtc_refl.
Qed.

Lemma parallel_requests_safe_witness :
  exists score version st,
    steps MemPy.complete PoolDemo.start (Pool st [Thread PoolDemo.first (Answered score version)]) /\
    f_gt (f64_to_f32 score) (f32_of_Z 1) = false.
Proof.
  destruct demo_run as (score & version & st & Hrun). exists score, version, st. split; [exact Hrun|].
  refine (proj1 (proj2 (parallel_requests_safe MemPy.complete PoolDemo.start _ eq_refl (fun _ => eq_refl) Hrun)
    PoolDemo.first score version _)).
  apply list_elem_of_here.
Defined.

(** The first vector is gone: the sequence has one row, the second's. *)
Lemma parallel_push_lost_witness :
  exists st', steps MemPy.complete
      (Pool MemPy.empty [Thread PoolDemo.first Called; Thread PoolDemo.second Called])
      (Pool st' [Thread PoolDemo.first Pushed; Thread PoolDemo.second Pushed]) /\
    history (Forest := float64) (py_view st') "10.0.0.7" [fv_to_array PoolDemo.second].
Proof.
  destruct (parallel_push_lost MemPy.complete (fun st => MemPy.down st = false) (f32_of_Z 2)
    PoolDemo.first PoolDemo.second [] MemPy.empty) as (st' & Hrun & Hst' & _).
  - intros k st Hup. exists st. cbn. by rewrite Hup.
  - intros k v st Hup. eexists. cbn. by rewrite Hup.
  - reflexivity.
  - reflexivity.
  - vm_compute. reflexivity.
  - reflexivity.
  - exists st'. split; [exact Hrun|exact Hst'].
Defined.
