(* ===== verification/Wire.v ===== *)
(** * Feature vectors on the wire (proto/scorer.pb.go, cmd/server/main.go)

    The JSON names and types of the fields of [FeatureVector], what [json.Unmarshal]
    makes of a line of the socket, and the objects that are read back as a given
    vector. *)

From S2P Require Import Prelude GoFloat GoText Json GoJson GoPrint GoStruct Ml.

(** ** Reading *)

Definition set_ClientIp (x : string) (t : FeatureVector) : FeatureVector :=
  let '(MkFeatureVector _ b c d e f g h i j k l) := t in MkFeatureVector x b c d e f g h i j k l.
Definition set_Ja3Hash (x : string) (t : FeatureVector) : FeatureVector :=
  let '(MkFeatureVector a _ c d e f g h i j k l) := t in MkFeatureVector a x c d e f g h i j k l.
Definition set_UserAgentHash (x : string) (t : FeatureVector) : FeatureVector :=
  let '(MkFeatureVector a b _ d e f g h i j k l) := t in MkFeatureVector a b x d e f g h i j k l.
Definition set_ReqRate_1S (x : float64) (t : FeatureVector) : FeatureVector :=
  let '(MkFeatureVector a b c _ e f g h i j k l) := t in MkFeatureVector a b c x e f g h i j k l.
Definition set_ReqRate_10S (x : float64) (t : FeatureVector) : FeatureVector :=
  let '(MkFeatureVector a b c d _ f g h i j k l) := t in MkFeatureVector a b c d x f g h i j k l.
Definition set_ReqRate_60S (x : float64) (t : FeatureVector) : FeatureVector :=
  let '(MkFeatureVector a b c d e _ g h i j k l) := t in MkFeatureVector a b c d e x g h i j k l.
Definition set_HttpMethod (x : string) (t : FeatureVector) : FeatureVector :=
  let '(MkFeatureVector a b c d e f _ h i j k l) := t in MkFeatureVector a b c d e f x h i j k l.
Definition set_UriHash (x : string) (t : FeatureVector) : FeatureVector :=
  let '(MkFeatureVector a b c d e f g _ i j k l) := t in MkFeatureVector a b c d e f g x i j k l.
Definition set_ContentLength (x : Z) (t : FeatureVector) : FeatureVector :=
  let '(MkFeatureVector a b c d e f g h _ j k l) := t in MkFeatureVector a b c d e f g h x j k l.
Definition set_HeaderCount (x : Z) (t : FeatureVector) : FeatureVector :=
  let '(MkFeatureVector a b c d e f g h i _ k l) := t in MkFeatureVector a b c d e f g h i x k l.
Definition set_IsHttp2 (x : Z) (t : FeatureVector) : FeatureVector :=
  let '(MkFeatureVector a b c d e f g h i j _ l) := t in MkFeatureVector a b c d e f g h i j x l.
Definition set_UnixTimestamp (x : Z) (t : FeatureVector) : FeatureVector :=
  let '(MkFeatureVector a b c d e f g h i j k _) := t in MkFeatureVector a b c d e f g h i j k x.

(** The struct tags. *)
Definition FeatureVector_fields : list (field FeatureVector) :=
  [Field "client_ip" KString set_ClientIp;
   Field "ja3_hash" KString set_Ja3Hash;
   Field "user_agent_hash" KString set_UserAgentHash;
   Field "req_rate_1s" KFloat set_ReqRate_1S;
   Field "req_rate_10s" KFloat set_ReqRate_10S;
   Field "req_rate_60s" KFloat set_ReqRate_60S;
   Field "http_method" KString set_HttpMethod;
   Field "uri_hash" KString set_UriHash;
   Field "content_length" (KInt 64) set_ContentLength;
   Field "header_count" (KInt 32) set_HeaderCount;
   Field "is_http2" (KInt 32) set_IsHttp2;
   Field "unix_timestamp" (KInt 64) set_UnixTimestamp].

Definition zero_FeatureVector : FeatureVector :=
  MkFeatureVector "" "" "" f_zero f_zero f_zero "" "" 0 0 0 0.

(** [json.Unmarshal(line, &fv)]; the text of an error is only logged. *)
Definition Unmarshal (line : string) : option FeatureVector :=
  v ← parse (to_text line);
  decode_struct FeatureVector_fields zero_FeatureVector v.

(** ** Types *)

(** A vector that fits its Go types, with finite rates. *)
Definition typed (fv : FeatureVector) : Prop :=
  is_finite (ReqRate_1S fv) = true /\ is_finite (ReqRate_10S fv) = true /\
  is_finite (ReqRate_60S fv) = true /\
  fits 64 (ContentLength fv) = true /\ fits 32 (HeaderCount fv) = true /\
  fits 32 (IsHttp2 fv) = true /\ fits 64 (UnixTimestamp fv) = true.

(** What a client sends for [fv]; the texts of the rates are [l1], [l10] and [l60]. *)
Definition payload (l1 l10 l60 : text) (fv : FeatureVector) : list (text * jvalue) :=
  let string s := VString (to_text s) in
  let int z := VNumber (to_text (pretty z)) in
  (fun '(name, v) => (to_text name, v)) <$>
  [("client_ip", string (ClientIp fv));
   ("ja3_hash", string (Ja3Hash fv));
   ("user_agent_hash", string (UserAgentHash fv));
   ("req_rate_1s", VNumber l1);
   ("req_rate_10s", VNumber l10);
   ("req_rate_60s", VNumber l60);
   ("http_method", string (HttpMethod fv));
   ("uri_hash", string (UriHash fv));
   ("content_length", int (ContentLength fv));
   ("header_count", int (HeaderCount fv));
   ("is_http2", int (IsHttp2 fv));
   ("unix_timestamp", int (UnixTimestamp fv))].

(** ** Lemmas *)

Lemma FeatureVector_names : distinct_names FeatureVector_fields.
Proof. apply (bool_decide_unpack _). vm_compute. exact I. Qed.

Lemma parse_whole_sound l v : parse l = Some v -> sound v.
Proof.
  unfold parse. pose proof (proj1 (parse_sound (enough l)) 0 l) as H.
  destruct (parse_value _ _ _) as [w rest| |]; [|done..]. by destruct (skip_space rest); intros [= <-].
Qed.

Lemma FeatureVector_read kvs fv :
  store_members FeatureVector_fields zero_FeatureVector kvs = Some fv ->
  ClientIp fv = read (Field "client_ip" KString set_ClientIp) "" kvs /\
  Ja3Hash fv = read (Field "ja3_hash" KString set_Ja3Hash) "" kvs /\
  UserAgentHash fv = read (Field "user_agent_hash" KString set_UserAgentHash) "" kvs /\
  ReqRate_1S fv = read (Field "req_rate_1s" KFloat set_ReqRate_1S) f_zero kvs /\
  ReqRate_10S fv = read (Field "req_rate_10s" KFloat set_ReqRate_10S) f_zero kvs /\
  ReqRate_60S fv = read (Field "req_rate_60s" KFloat set_ReqRate_60S) f_zero kvs /\
  HttpMethod fv = read (Field "http_method" KString set_HttpMethod) "" kvs /\
  UriHash fv = read (Field "uri_hash" KString set_UriHash) "" kvs /\
  ContentLength fv = read (Field "content_length" (KInt 64) set_ContentLength) 0 kvs /\
  HeaderCount fv = read (Field "header_count" (KInt 32) set_HeaderCount) 0 kvs /\
  IsHttp2 fv = read (Field "is_http2" (KInt 32) set_IsHttp2) 0 kvs /\
  UnixTimestamp fv = read (Field "unix_timestamp" (KInt 64) set_UnixTimestamp) 0 kvs.
Proof. intros H. split_and!; stored FeatureVector_fields FeatureVector_names. Qed.

(** What a decoded vector holds.  A JSON object is accepted exactly when each
    member whose name is that of a field (in any case of letters) is null or of the
    field's type; the vector then holds, for each field, the last such member that
    is not null, or zero; members with other names change nothing. *)
Theorem Unmarshal_fields kvs :
  (is_Some (decode_struct FeatureVector_fields zero_FeatureVector (VObject kvs)) <->
     Forall (member_ok FeatureVector_fields) kvs) /\
  forall fv, decode_struct FeatureVector_fields zero_FeatureVector (VObject kvs) = Some fv ->
    ClientIp fv = read (Field "client_ip" KString set_ClientIp) "" kvs /\
    Ja3Hash fv = read (Field "ja3_hash" KString set_Ja3Hash) "" kvs /\
    UserAgentHash fv = read (Field "user_agent_hash" KString set_UserAgentHash) "" kvs /\
    ReqRate_1S fv = read (Field "req_rate_1s" KFloat set_ReqRate_1S) f_zero kvs /\
    ReqRate_10S fv = read (Field "req_rate_10s" KFloat set_ReqRate_10S) f_zero kvs /\
    ReqRate_60S fv = read (Field "req_rate_60s" KFloat set_ReqRate_60S) f_zero kvs /\
    HttpMethod fv = read (Field "http_method" KString set_HttpMethod) "" kvs /\
    UriHash fv = read (Field "uri_hash" KString set_UriHash) "" kvs /\
    ContentLength fv = read (Field "content_length" (KInt 64) set_ContentLength) 0 kvs /\
    HeaderCount fv = read (Field "header_count" (KInt 32) set_HeaderCount) 0 kvs /\
    IsHttp2 fv = read (Field "is_http2" (KInt 32) set_IsHttp2) 0 kvs /\
    UnixTimestamp fv = read (Field "unix_timestamp" (KInt 64) set_UnixTimestamp) 0 kvs.
Proof.
  split; [apply store_members_ok, FeatureVector_names|]. intros fv. apply FeatureVector_read.
Qed.

Lemma Unmarshal_fits line fv : Unmarshal line = Some fv -> typed fv.
Proof.
  unfold Unmarshal. destruct (parse (to_text line)) as [v|] eqn:Ev; [|done]. cbn.
  apply parse_whole_sound in Ev as [_ Ev].
  assert (typed zero_FeatureVector) as H0 by done.
  destruct v as [|b|lit|s|l|kvs]; try done; cbn [decode_struct]; [by intros [= <-]|].
  apply store_members_preserves with (Q := member_number); [apply FeatureVector_names| |done..].
  intros f w x t Hf Hw Hx Ht. destruct t. unfold typed in *. cbn in Ht.
  unfold FeatureVector_fields in Hf. rewrite !elem_of_cons, elem_of_nil in Hf.
  destruct_or! Hf; subst f; cbn [f_set f_kind] in *;
    first [apply convert_int_fits in Hx | apply convert_float_finite in Hx; [|done] | clear Hx];
    cbn; tauto.
Qed.

(** The numeric fields: names, bits, and what a vector holds. *)
Definition integer_fields : list (string * Z * (FeatureVector -> Z)) :=
  [("content_length", 64, ContentLength); ("header_count", 32, HeaderCount);
   ("is_http2", 32, IsHttp2); ("unix_timestamp", 64, UnixTimestamp)].

Definition rate_fields : list (string * (FeatureVector -> float64)) :=
  [("req_rate_1s", ReqRate_1S); ("req_rate_10s", ReqRate_10S); ("req_rate_60s", ReqRate_60S)].

Definition is_named (name : string) (kv : text * jvalue) : bool :=
  bool_decide (fold_name (to_text name) = fold_name kv.1).

Lemma integer_member name bits set kvs pre key z post fv :
  Field name (KInt bits) set ∈ FeatureVector_fields ->
  store_members FeatureVector_fields zero_FeatureVector kvs = Some fv ->
  kvs = pre ++ (key, VNumber (to_text (pretty z))) :: post -> fold_name (to_text name) = fold_name key ->
  - 2 ^ (bits - 1) <= z < 2 ^ (bits - 1) /\
  (Forall (fun kv => is_named name kv = false) post -> read (Field name (KInt bits) set) 0 kvs = z).
Proof.
  intros Hf E -> Hkey.
  destruct (member_converted _ FeatureVector_names (Field name (KInt bits) set) _ pre
    (key, VNumber (to_text (pretty z))) post _ 0 Hf (bool_decide_eq_true_2 _ Hkey) eq_refl E) as (x & Hx & Hread).
  cbn [f_kind convert snd] in Hx. rewrite of_to_text, ParseInt_pretty in Hx.
  destruct (is_int64 z); [|done]. cbn in Hx. destruct (fits bits z) eqn:Hfit; [|done].
  injection Hx as <-. split; [unfold fits in Hfit; lia|exact Hread].
Qed.

Lemma rate_member name set kvs pre key lit post fv :
  Field name KFloat set ∈ FeatureVector_fields ->
  store_members FeatureVector_fields zero_FeatureVector kvs = Some fv ->
  kvs = pre ++ (key, VNumber lit) :: post -> fold_name (to_text name) = fold_name key ->
  exists x, ParseFloat (of_text lit) = Some x /\
  (Forall (fun kv => is_named name kv = false) post -> read (Field name KFloat set) f_zero kvs = x).
Proof.
  intros Hf E -> Hkey.
  exact (member_converted _ FeatureVector_names (Field name KFloat set) _ pre (key, VNumber lit) post _
    f_zero Hf (bool_decide_eq_true_2 _ Hkey) eq_refl E).
Qed.

(** C25: numbers are decoded exactly or refused.  Whatever bytes a line holds, if it is
    accepted then the integers of the vector fit their Go types (32 or 64 bits) and its
    rates are finite.  And wherever such a line writes an integer, however long, for an
    integer field, in any case of letters, the integer is within the type's range, so
    that a line with one that overflows is refused, and not wrapped around or cut off;
    and the field holds this very integer, unless a later member has its name.  A number
    for a rate is one that [ParseFloat] accepts, and the rate is its value. *)
Theorem Unmarshal_typed line fv :
  Unmarshal line = Some fv ->
  typed fv /\
  (forall name bits get pre key z post, (name, bits, get) ∈ integer_fields ->
     parse (to_text line) = Some (VObject (pre ++ (key, VNumber (to_text (pretty z))) :: post)) ->
     fold_name (to_text name) = fold_name key ->
     - 2 ^ (bits - 1) <= z < 2 ^ (bits - 1) /\
     (Forall (fun kv => is_named name kv = false) post -> get fv = z)) /\
  (forall name get pre key lit post, (name, get) ∈ rate_fields ->
     parse (to_text line) = Some (VObject (pre ++ (key, VNumber lit) :: post)) ->
     fold_name (to_text name) = fold_name key ->
     exists x, ParseFloat (of_text lit) = Some x /\
       (Forall (fun kv => is_named name kv = false) post -> get fv = x)).
Proof.
  intros Hu. split; [by eapply Unmarshal_fits|]. unfold Unmarshal in Hu.
  assert (forall kvs, parse (to_text line) = Some (VObject kvs) ->
    store_members FeatureVector_fields zero_FeatureVector kvs = Some fv) as Hs
    by (intros kvs Hp; by rewrite Hp in Hu).
  split.
  - intros name bits get pre key z post Hin Hp Hkey. apply Hs in Hp.
    pose proof (FeatureVector_read _ _ Hp) as Hr. destruct_and! Hr.
    unfold integer_fields in Hin. rewrite !elem_of_cons, elem_of_nil in Hin.
    destruct_or! Hin; injection Hin as -> -> ->;
      match goal with H : ?get fv = _ |- context [?get fv] => rewrite H end;
      eapply integer_member; try done; unfold FeatureVector_fields; in_list.
  - intros name get pre key lit post Hin Hp Hkey. apply Hs in Hp.
    pose proof (FeatureVector_read _ _ Hp) as Hr. destruct_and! Hr.
    unfold rate_fields in Hin. rewrite !elem_of_cons, elem_of_nil in Hin.
    destruct_or! Hin; injection Hin as -> ->;
      match goal with H : ?get fv = _ |- context [?get fv] => rewrite H end;
      eapply rate_member; try done; unfold FeatureVector_fields; in_list.
Qed.

(** ** Payloads *)

Definition ascii_vector (fv : FeatureVector) : Prop :=
  ascii_text (to_text (ClientIp fv)) /\ ascii_text (to_text (Ja3Hash fv)) /\
  ascii_text (to_text (UserAgentHash fv)) /\ ascii_text (to_text (HttpMethod fv)) /\
  ascii_text (to_text (UriHash fv)).

(** An object that holds [fv]: the members of its payload and others, in any order. *)
Record holds (kvs : list (text * jvalue)) (fv : FeatureVector) : Prop := {
  holds_typed : typed fv;
  holds_members : exists l1 l10 l60 extra,
    denotes l1 (ReqRate_1S fv) /\ denotes l10 (ReqRate_10S fv) /\ denotes l60 (ReqRate_60S fv) /\
    Forall (unknown FeatureVector_fields) extra /\ kvs ≡ₚ payload l1 l10 l60 fv ++ extra
}.

(** A line whose JSON text is such an object, however it is written: spaces, escapes,
    any UTF-8. *)
Definition carries (line : string) (fv : FeatureVector) : Prop :=
  exists kvs, parse (to_text line) = Some (VObject kvs) /\ holds kvs fv.

(** One that [GoPrint.print] writes: with texts in ASCII. *)
Record encodes (kvs : list (text * jvalue)) (fv : FeatureVector) : Prop := {
  enc_holds : holds kvs fv;
  enc_printable : Forall printable_pair kvs;
  enc_nesting : nesting (VObject kvs) <= maxNestingDepth
}.

Lemma payload_names l1 l10 l60 fv :
  NoDup ((fun kv => fold_name kv.1) <$> payload l1 l10 l60 fv).
Proof.
  unfold payload. cbn [fmap list_fmap fst]. apply (bool_decide_unpack _). vm_compute. exact I.
Qed.

Lemma payload_slots l1 l10 l60 fv :
  typed fv -> denotes l1 (ReqRate_1S fv) -> denotes l10 (ReqRate_10S fv) ->
  denotes l60 (ReqRate_60S fv) ->
  Forall2 slot FeatureVector_fields (payload l1 l10 l60 fv).
Proof.
  intros (_ & _ & _ & Hcl & Hhc & Hh2 & Hts) H1 H10 H60.
  unfold payload, FeatureVector_fields. cbn [fmap list_fmap].
  repeat first [apply Forall2_nil; exact I | apply Forall2_cons; split];
    (split_and!; [vm_compute; reflexivity|reflexivity|]); cbn [f_kind snd];
    first [rewrite convert_text | rewrite convert_pretty by done | erewrite convert_denoted by done];
    by eexists.
Qed.

Lemma FeatureVector_ext (a b : FeatureVector) :
  ClientIp a = ClientIp b -> Ja3Hash a = Ja3Hash b -> UserAgentHash a = UserAgentHash b ->
  ReqRate_1S a = ReqRate_1S b -> ReqRate_10S a = ReqRate_10S b -> ReqRate_60S a = ReqRate_60S b ->
  HttpMethod a = HttpMethod b -> UriHash a = UriHash b -> ContentLength a = ContentLength b ->
  HeaderCount a = HeaderCount b -> IsHttp2 a = IsHttp2 b -> UnixTimestamp a = UnixTimestamp b ->
  a = b.
Proof. destruct a, b. cbn. intros. by subst. Qed.

(** The members of a payload are stored as its vector: whatever the order of its twelve
    members, whatever literals denote the rates, and whatever other members there are. *)
Lemma decode_members kvs fv :
  holds kvs fv -> decode_struct FeatureVector_fields zero_FeatureVector (VObject kvs) = Some fv.
Proof.
  intros [Ht (l1 & l10 & l60 & extra & H1 & H10 & H60 & Hextra & Hperm)].
  pose proof (payload_slots l1 l10 l60 fv Ht H1 H10 H60) as Hslots.
  pose proof (payload_names l1 l10 l60 fv) as Hnames. cbn [decode_struct].
  destruct (store_payload _ FeatureVector_names _ _ _ Hperm Hextra Hslots zero_FeatureVector)
    as [fv' E].
  rewrite E. f_equal. apply FeatureVector_read in E.
  destruct Ht as (_ & _ & _ & Hcl & Hhc & Hh2 & Hts). destruct_and! E.
  apply FeatureVector_ext; (etrans; [eassumption|]);
    (lazymatch goal with |- read ?f ?z _ = ?x =>
       refine (slot_read _ _ _ _ f _ z x Hnames Hperm Hextra Hslots _ _) end;
     [unfold payload, FeatureVector_fields; cbn [fmap list_fmap zip zip_with]; in_list|];
     cbn [f_kind snd];
     first [apply convert_text | by apply convert_pretty | by apply convert_denoted]).
Qed.

Lemma Unmarshal_carries line fv : carries line fv -> Unmarshal line = Some fv.
Proof. intros (kvs & Hp & Hkvs). unfold Unmarshal. rewrite Hp. exact (decode_members kvs fv Hkvs). Qed.

(** A printed payload carries its vector. *)
Lemma print_carries kvs fv : encodes kvs fv -> carries (of_text (print (VObject kvs))) fv.
Proof.
  intros [Hkvs Hp Hn]. exists kvs. split; [|done].
  rewrite to_of_text, parse_whole; [done|by apply printable_object|done].
Qed.

(** ** Witnesses *)

(** A name in capitals, a repeated name, null, an unknown name. *)
Definition demo_members : list (text * jvalue) :=
  [(to_text "CLIENT_IP", VString (to_text "1.2.3.4")); (to_text "client_ip", VNull);
   (to_text "is_http2", VNumber (to_text "0")); (to_text "is_http2", VNumber (to_text "1"));
   (to_text "trace", VArray [VBool true])].

Lemma Unmarshal_fields_witness :
  ClientIp (set_ClientIp "1.2.3.4" (set_IsHttp2 1 zero_FeatureVector)) =
    read (Field "client_ip" KString set_ClientIp) "" demo_members /\
  read (Field "client_ip" KString set_ClientIp) "" demo_members = "1.2.3.4" /\
  Forall (member_ok FeatureVector_fields) demo_members.
Proof.
  assert (decode_struct FeatureVector_fields zero_FeatureVector (VObject demo_members) =
    Some (set_ClientIp "1.2.3.4" (set_IsHttp2 1 zero_FeatureVector))) as E by (vm_compute; reflexivity).
  split; [|split].
  - exact (proj1 (proj2 (Unmarshal_fields demo_members) _ E)).
  - vm_compute. reflexivity.
  - apply (Unmarshal_fields demo_members). eexists. exact E.
Defined.

(** A vector is typed, and reads back the integer in it; a line with an integer out of range
    is refused; so are a rate out of range and an integer written as a fraction. *)
Lemma Unmarshal_typed_witness :
  exists fv, Unmarshal (quotes "{'client_ip':'10.0.0.7','req_rate_1s':12.5,'Header_Count':9}") = Some fv /\
    typed fv /\ HeaderCount fv = 9 /\
    Unmarshal (quotes "{'header_count':2147483648}") = None /\
    Unmarshal (quotes "{'req_rate_1s':1e999}") = None /\
    Unmarshal (quotes "{'header_count':1.0}") = None.
Proof.
  assert (exists fv, Unmarshal
    (quotes "{'client_ip':'10.0.0.7','req_rate_1s':12.5,'Header_Count':9}") = Some fv) as [fv E].
  { eexists. vm_compute. reflexivity. }
  exists fv. split; [exact E|]. destruct (Unmarshal_typed _ _ E) as (Ht & Hint & _).
  split; [exact Ht|]. split.
  { eapply (Hint "header_count" 32 HeaderCount [_; _] _ 9 []);
      [unfold integer_fields; in_list|vm_compute; reflexivity|vm_compute; reflexivity|constructor]. }
  split; [|split; vm_compute; reflexivity].
  destruct (Unmarshal (quotes "{'header_count':2147483648}")) as [fv'|] eqn:E'; [|reflexivity].
  destruct (Unmarshal_typed _ _ E') as (_ & Hint' & _).
  destruct (Hint' "header_count" 32 HeaderCount [] (to_text "header_count") 2147483648 []) as [Hr _];
    [unfold integer_fields; in_list|vm_compute; reflexivity|vm_compute; reflexivity|].
  exfalso. vm_compute in Hr. by destruct Hr as [_ Hr].
Defined.

Definition demo_vector : FeatureVector :=
  MkFeatureVector "10.0.0.7" "none" "ua" (f64_of_Z 12) f_zero f_zero "GET" "uri" 1024 9 1 1700000000.

Lemma demo_encodes :
  encodes ((to_text "trace", VNull) :: payload (to_text "12") (to_text "0") (to_text "0.0") demo_vector)
    demo_vector.
Proof.
  split; [split; [repeat split|]| |].
  - exists (to_text "12"), (to_text "0"), (to_text "0.0"), [(to_text "trace", VNull)].
    split_and!; try (split; vm_compute; reflexivity).
    + repeat constructor.
    + apply (Permutation_app_comm [_]).
  - unfold payload. cbn [fmap list_fmap].
    repeat first [apply Forall_nil; exact I | apply Forall_cons; split];
      (split; [by repeat constructor|]); cbn [snd printable];
      first [done | by repeat constructor | vm_compute; reflexivity].
  - vm_compute. discriminate.
Defined.

Example decode_payload_demo :
  Unmarshal (of_text (print (VObject ((to_text "trace", VNull) ::
    payload (to_text "12") (to_text "0") (to_text "0.0") demo_vector)))) = Some demo_vector.
Proof. exact (Unmarshal_carries _ _ (print_carries _ _ demo_encodes)). Qed.
