(* ===== verification/Kafka.v ===== *)
(** * Publishing decisions (internal/kafka/producer.go)

    The kafka-go library is the interface [KafkaCluster]: one batch write through
    a writer, and closing a writer.  The payload of a message is the JSON value
    its bytes encode. *)

From S2P Require Import Prelude GoFloat Json.

Definition topicDecisions : string := "rate-limit-decisions".
Definition topicBlocked : string := "blocked-ips".

(** ** The library's writer *)

Inductive RequiredAcks := RequireNone | RequireOne | RequireAll.
Inductive Balancer := LeastBytes.

Record Writer := MkWriter {
  w_Addr : list string;
  w_Topic : string;
  w_Balancer : Balancer;
  w_BatchSize : Z;
  w_BatchTimeout : Z;
  w_WriteTimeout : Z;
  w_RequiredAcks : RequiredAcks;
  w_AllowAutoTopicCreation : bool
}.

Record Message := MkMessage { m_Key : string; m_Value : json }.

Class KafkaCluster (K : Type) := {
  kafka_write : Writer -> Message -> K -> option error * K;
  kafka_close : Writer -> K -> option error * K
}.

(** What a reader of the topics sees, and whether the cluster accepts writes: then
    a write appends its message (to the log of its partition, so the order among
    messages is left open). *)
Class KafkaLaws (K : Type) `{KafkaCluster K} := {
  kafka_log : K -> list (string * Message);
  kafka_up : K -> Prop;
  write_law w m k : kafka_up k ->
    exists k', kafka_write w m k = (None, k') /\ kafka_up k' /\
      kafka_log k' ≡ₚ (w_Topic w, m) :: kafka_log k
}.

(** ** The producer *)

(** [FeatureVector] holds a value that was built for encoding. *)
Record DecisionEvent := MkDecisionEvent {
  ev_IP : string;
  ev_Score : float32;
  ev_Action : string;
  ev_Timestamp : Z;
  ev_FeatureVector : json
}.

Definition event_json (evt : DecisionEvent) : json :=
  JObject [("ip", JString (ev_IP evt)); ("score", JFloat32 (ev_Score evt));
           ("action", JString (ev_Action evt)); ("timestamp", JTime (ev_Timestamp evt));
           ("feature_vector", ev_FeatureVector evt)].

Record Producer := MkProducer { decisions : Writer; blocked : Writer }.

Definition New (brokers : list string) : Producer :=
  let newWriter (topic : string) :=
    MkWriter brokers topic LeastBytes 100 (10 * 1000000) (5 * Second) RequireOne false in
  MkProducer (newWriter topicDecisions) (newWriter topicBlocked).

Section Publish.
Context {K : Type} `{KafkaCluster K}.

(** Errors of marshalling and of the write are logged. *)
Definition PublishDecision (p : Producer) (evt : DecisionEvent) (k : K) : K :=
  match Marshal (event_json evt) with
  | Err _ => k
  | Ok b =>
      match kafka_write (decisions p) (MkMessage (ev_IP evt) b) k with
      | (Some _, k') => k'
      | (None, k') => k'
      end
  end.

(** [now] is [time.Now().UTC()], read when the goroutine runs. *)
Definition PublishBlocked (p : Producer) (now : Z) (ip : string) (k : K) : K :=
  let msg := JObject [("ip", JString ip); ("timestamp", JTime now)] in
  match Marshal msg with
  | Err _ => k
  | Ok b =>
      match kafka_write (blocked p) (MkMessage ip b) k with
      | (Some _, k') => k'
      | (None, k') => k'
      end
  end.

Definition Close (p : Producer) (k : K) : option error * K :=
  let errs : list error := [] in
  let (err, k) := kafka_close (decisions p) k in
  let errs := match err with Some e => errs ++ [e] | None => errs end in
  let (err, k) := kafka_close (blocked p) k in
  let errs := match err with Some e => errs ++ [e] | None => errs end in
  (head errs, k).
End Publish.

(** What closing a producer does: nothing is lost of what was written, and a closed
    writer refuses writes. *)
Class KafkaCloseLaws (K : Type) `{KafkaLaws K} := {
  kafka_shut : K -> Prop;
  close_law p k : kafka_up k ->
    kafka_shut (snd (Close p k)) /\ kafka_log (snd (Close p k)) = kafka_log k;
  shut_law w m k : kafka_shut k -> exists err, kafka_write w m k = (Some err, k)
}.

(** ** A cluster in memory: the messages written and the topics closed *)

Module MemKafka.
Record t := Mem { written : list (string * Message); closed : list string; fail_writes : bool }.

#[global] Instance cmds : KafkaCluster t := {|
  kafka_write w m k :=
    if fail_writes k then (Some "write timeout", k)
    else if negb (bool_decide (closed k = [])) then (Some "io: read/write on closed pipe", k)
    else (None, Mem (written k ++ [(w_Topic w, m)]) (closed k) (fail_writes k));
  kafka_close w k :=
    (if fail_writes k then Some ("close " +:+ w_Topic w) else None,
     Mem (written k) (closed k ++ [w_Topic w]) (fail_writes k))
|}.

#[global] Program Instance laws : KafkaLaws t := {|
  kafka_log := written;
  kafka_up k := fail_writes k = false /\ closed k = []
|}.
Next Obligation.
  intros w m k [Hup Hcl]. cbn in *. rewrite Hup, Hcl, bool_decide_eq_true_2 by done. cbn.
  eexists. split; [reflexivity|]. split; [done|]. symmetry. apply Permutation_cons_append.
Qed.

#[global] Program Instance close_laws : KafkaCloseLaws t := {|
  kafka_shut k := closed k <> []
|}.
Next Obligation.
  intros p k [Hup Hcl]. cbn. split; [|done]. by rewrite Hcl.
Qed.
Next Obligation.
  intros w m k Hcl. cbn in *. destruct (fail_writes k); [by eexists|].
  rewrite bool_decide_eq_false_2 by done. by eexists.
Qed.

Definition empty : t := Mem [] [] false.
End MemKafka.

(** ** Properties *)

Section Properties.
Context {K : Type} `{KafkaCluster K}.

(** What is published.  For a producer made by [New], an event of this
    engine (scores aside, its values always encode) is written once, to
    rate-limit-decisions under the client's address, with the event's fields as
    payload, exactly when its score is a finite number; an event with a NaN or
    infinite score is dropped and the cluster is not called.  A blocked address
    is written once, to blocked-ips.  A failing write is not reported. *)
Theorem Publish_messages brokers evt ip now (k : K) :
  year_ok (ev_Timestamp evt) = true -> encodable (ev_FeatureVector evt) = true ->
  year_ok now = true ->
  let p := New brokers in
  w_Topic (decisions p) = "rate-limit-decisions" /\ w_Topic (blocked p) = "blocked-ips" /\
  PublishDecision p evt k =
    (if is_finite (ev_Score evt)
     then snd (kafka_write (decisions p) (MkMessage (ev_IP evt) (event_json evt)) k) else k) /\
  PublishBlocked p now ip k =
    snd (kafka_write (blocked p)
      (MkMessage ip (JObject [("ip", JString ip); ("timestamp", JTime now)])) k).
Proof.
  intros Ht Hf Hn. cbn zeta. split_and!; [done|done|..].
  - unfold PublishDecision, Marshal, event_json. cbn [encodable forallb snd].
    rewrite Ht, Hf, !andb_true_r. destruct (is_finite (ev_Score evt)); [|done].
    cbn. by destruct (kafka_write _ _ k) as [[] ?].
  - unfold PublishBlocked, Marshal. cbn [encodable forallb snd]. rewrite Hn.
    cbn. by destruct (kafka_write _ _ k) as [[] ?].
Qed.

(** [Close] closes both writers, the second one also when closing the first fails,
    and returns the first of the errors. *)
Lemma Close_both p (k : K) :
  let '(e1, k1) := kafka_close (decisions p) k in
  let '(e2, k2) := kafka_close (blocked p) k1 in
  Close p k = (match e1 with Some e => Some e | None => e2 end, k2).
Proof.
  unfold Close. destruct (kafka_close (decisions p) k) as [e1 k1].
  destruct (kafka_close (blocked p) k1) as [e2 k2]. by destruct e1, e2.
Qed.
End Properties.

Lemma Publish_messages_witness :
  MemKafka.written (PublishDecision (New ["b:9092"])
    (MkDecisionEvent "10.0.0.1" (S754_zero false) "allow" 0 (JObject [])) MemKafka.empty) =
  [("rate-limit-decisions", MkMessage "10.0.0.1" (event_json
     (MkDecisionEvent "10.0.0.1" (S754_zero false) "allow" 0 (JObject []))))].
Proof.
  rewrite (proj1 (proj2 (proj2 (Publish_messages ["b:9092"]
    (MkDecisionEvent "10.0.0.1" (S754_zero false) "allow" 0 (JObject [])) "" 0 MemKafka.empty
    eq_refl eq_refl eq_refl)))). reflexivity.
Defined.
