(* ===== verification/Engine.v ===== *)
(** * The decision (internal/engine/engine.go, engine_testing.go)

    [Evaluate] is written against the interfaces of its collaborators: one class
    per interface of the Go code, over the state [S] of the outside world.  Two
    things are added to [S]: the goroutines spawned and not yet run, as tasks, and
    what a panic leaves behind (the [go] monad keeps the state). *)

From S2P Require Import Prelude GoFloat GoText Json Config Ml Kafka.

(** ** Decisions *)

Inductive Action := ActionAllow | ActionThrottle | ActionBlock.

Definition action_text (a : Action) : string :=
  match a with
  | ActionAllow => "allow"
  | ActionThrottle => "throttle"
  | ActionBlock => "block"
  end.

#[export] Instance action_eq_dec : EqDecision Action.
Proof. solve_decision. Defined.

Record Decision := MkDecision { d_Action : Action; d_RetryAfter : Z }.

(** ** The collaborators *)

Class RedisDecrementor (R S : Type) := {
  Decrement : R -> string -> S -> (Z * option error) * S
}.

Class MLScorer (X S : Type) := {
  Score : X -> option FeatureVector -> go S (float32 * string * option error)
}.

Class Blocklist (B S : Type) := {
  Add : B -> string -> S -> option error * S;
  Remove : B -> string -> S -> option error * S
}.

(** [time.Now()], in nanoseconds of Unix time. *)
Class Clock (S : Type) := { time_now : S -> Z }.

(** A [go] statement of [Evaluate]: the call, with its evaluated arguments. *)
Inductive task :=
| PublishBlockedTask (ip : string)
| PublishDecisionTask (evt : DecisionEvent).

Record World (S : Type) := MkWorld { ext : S; spawned : list task }.
Arguments MkWorld {S}.
Arguments ext {S}.
Arguments spawned {S}.

(** Run a call that only concerns the outside world. *)
Definition on_ext {S A} (m : go S A) : go (World S) A := fun w =>
  let (o, s) := m (ext w) in (o, MkWorld s (spawned w)).

Definition spawn {S} (t : task) : go (World S) unit :=
  go_modify (fun w => MkWorld (ext w) (spawned w ++ [t])).

Definition is_some {A} (o : option A) : bool := match o with Some _ => true | None => false end.

(** ** The engine *)

Record Engine (R X B : Type) := MkEngine {
  cfg : Config; redis : R; ml : X; kafka : Producer; blocklist : B
}.
Arguments MkEngine {R X B}.
Arguments cfg {R X B}.
Arguments redis {R X B}.
Arguments ml {R X B}.
Arguments kafka {R X B}.
Arguments blocklist {R X B}.

Definition New {R X B} (cfg : Config) (redis : R) (ml : X) (kp : Producer) (bl : B) : Engine R X B :=
  MkEngine cfg redis ml kp bl.

(** [int(score * 2 * 60)], in [float32]. *)
Definition retry_seconds (oob : spec_float -> Z) (score : float32) : Z :=
  f_to_int64 oob (f32_mul (f32_mul score (f32_of_Z 2)) (f32_of_Z 60)).

Definition retry_after (oob : spec_float -> Z) (score : float32) : Z :=
  let retryAfter := retry_seconds oob score in
  if retryAfter <? 1 then 1 else retryAfter.

(** The map the event carries. *)
Definition event_features (fv : option FeatureVector) : json :=
  JObject [("ja3_hash", JString (GetJa3Hash fv));
           ("user_agent_hash", JString (GetUserAgentHash fv));
           ("req_rate_1s", JFloat64 (GetReqRate_1S fv));
           ("req_rate_10s", JFloat64 (GetReqRate_10S fv));
           ("req_rate_60s", JFloat64 (GetReqRate_60S fv));
           ("http_method", JString (GetHttpMethod fv));
           ("is_http2", JInt (GetIsHttp2 fv))].

Section Evaluate.
Context {R X B S : Type}.
Context `{RedisDecrementor R S, MLScorer X S, Blocklist B S, Clock S}.
Variable oob : spec_float -> Z.

Definition Evaluate (e : Engine R X B) (fv : option FeatureVector) : go (World S) Decision :=
  let ip := GetClientIp fv in
  (* 1. the token bucket *)
  '(remaining, redisErr) ← on_ext (go_lift (Decrement (redis e) ip));
  let bucketExhausted := is_some (redisErr : option error) || (remaining <? 0) in
  let bucketExhausted := if is_some (redisErr : option error) then false else bucketExhausted in
  (* 2. the anomaly score *)
  '(score, modelVer, _) ← on_ext (Score (ml e) fv);
  (* 3. the decision *)
  decision ←
    (if f_gt score (f64_to_f32 (ScoreBlockThreshold (cfg e))) || bucketExhausted then
       _ ← on_ext (go_lift (Add (blocklist e) ip));
       _ ← spawn (PublishBlockedTask ip);
       mret (MkDecision ActionBlock 0)
     else if f_gt score (f64_to_f32 (ScoreThrottleThreshold (cfg e))) then
       let retryAfter := retry_seconds oob score in
       let retryAfter := if retryAfter <? 1 then 1 else retryAfter in
       mret (MkDecision ActionThrottle retryAfter)
     else mret (MkDecision ActionAllow 0));
  (* 4. the event *)
  now ← go_gets (fun w => time_now (ext w));
  _ ← spawn (PublishDecisionTask
        (MkDecisionEvent ip score (action_text (d_Action decision)) now (event_features fv)));
  mret decision.

(** A spawned goroutine gets to run, at time [now]. *)
Definition run_task {K} `{KafkaCluster K} (p : Producer) (now : Z) (t : task) (k : K) : K :=
  match t with
  | PublishBlockedTask ip => PublishBlocked p now ip k
  | PublishDecisionTask evt => PublishDecision p evt k
  end.
End Evaluate.

(** ** The engine for tests *)

Record testEngine := MkTestEngine { t_cfg : Config; t_remaining : Z; t_score : float32 }.

Definition NewForTesting (cfg : Config) (remaining : Z) (score : float32) : testEngine :=
  MkTestEngine cfg remaining score.

Definition test_Evaluate (oob : spec_float -> Z) (e : testEngine) (fv : option FeatureVector)
    : Decision :=
  let bucketExhausted := t_remaining e <? 0 in
  let score := t_score e in
  if f_gt score (f64_to_f32 (ScoreBlockThreshold (t_cfg e))) || bucketExhausted
  then MkDecision ActionBlock 0
  else if f_gt score (f64_to_f32 (ScoreThrottleThreshold (t_cfg e))) then
    let retryAfter := retry_seconds oob score in
    let retryAfter := if retryAfter <? 1 then 1 else retryAfter in
    MkDecision ActionThrottle retryAfter
  else MkDecision ActionAllow 0.

(** ** The policy *)

(** What the engine promises, as a function of the settings, the token count
    ([None] if Redis failed) and the score. *)
Definition policy (oob : spec_float -> Z) (c : Config) (tokens : option Z) (score : float32)
    : Decision :=
  let exhausted := match tokens with Some n => n <? 0 | None => false end in
  if f_gt score (f64_to_f32 (ScoreBlockThreshold c)) || exhausted then MkDecision ActionBlock 0
  else if f_gt score (f64_to_f32 (ScoreThrottleThreshold c))
  then MkDecision ActionThrottle (retry_after oob score)
  else MkDecision ActionAllow 0.

Definition tokens_of (r : Z * option error) : option Z :=
  match r with (n, None) => Some n | (_, Some _) => None end.

Section Run.
Context {R X B S : Type}.
Context `{RedisDecrementor R S, MLScorer X S, Blocklist B S, Clock S}.
Variable oob : spec_float -> Z.

(** The outside world after the decision [d] for [ip]. *)
Definition apply_decision (e : Engine R X B) (ip : string) (d : Decision) (s : S) : S :=
  match d_Action d with ActionBlock => snd (Add (blocklist e) ip s) | _ => s end.

(** The goroutines a decision spawns. *)
Definition decision_tasks (fv : option FeatureVector) (score : float32) (d : Decision) (now : Z)
    : list task :=
  match d_Action d with ActionBlock => [PublishBlockedTask (GetClientIp fv)] | _ => [] end
  ++ [PublishDecisionTask (MkDecisionEvent (GetClientIp fv) score (action_text (d_Action d)) now
                             (event_features fv))].

Lemma Evaluate_eq (e : Engine R X B) fv (w : World S) :
  let '(r, s1) := Decrement (redis e) (GetClientIp fv) (ext w) in
  Evaluate oob e fv w =
    match Score (ml e) fv s1 with
    | (Panics msg, s2) => (Panics msg, MkWorld s2 (spawned w))
    | (Returns (score, _, _), s2) =>
        let d := policy oob (cfg e) (tokens_of r) score in
        let s3 := apply_decision e (GetClientIp fv) d s2 in
        (Returns d, MkWorld s3 (spawned w ++ decision_tasks fv score d (time_now s3)))
    end.
Proof.
  destruct (Decrement _ _ (ext w)) as [[n err] s1] eqn:Er.
  unfold Evaluate, policy, apply_decision, decision_tasks, on_ext, spawn. go_unfold.
  rewrite Er. cbn.
  destruct (Score (ml e) fv s1) as [[[[score ver] merr]|msg] s2]; [|done].
  cbn [tokens_of is_some]. set (blk := f_gt score _). set (thr := f_gt score _).
  assert ((if is_some err then false else is_some err || (n <? 0)) =
          match tokens_of (n, err) with Some m => m <? 0 | None => false end) as ->
    by (by destruct err).
  cbn [tokens_of]. destruct (blk || _).
  - cbn. destruct (Add _ _ s2) as [ae s3]. cbn. by rewrite <- app_assoc.
  - by destruct thr.
Qed.
End Run.

(** ** Back-off under the default thresholds *)

(** The defaults as [float32]: 0.6 rounds up to 10066330 / 2^24 and 0.85 to
    14260634 / 2^24. *)
Definition throttle_m : positive := 10066330.
Definition block_m : positive := 14260634.

Lemma default_thresholds :
  f64_to_f32 defaultThrottle = S754_finite false throttle_m (-24) /\
  f64_to_f32 defaultBlock = S754_finite false block_m (-24).
Proof. split; reflexivity. Qed.

(** Doubling is exact. *)
Lemma f32_double m :
  2 ^ 23 <= Zpos m < 2 ^ 24 ->
  f32_mul (S754_finite false m (-24)) (f32_of_Z 2) = S754_finite false m (-23).
Proof.
  intros Hm. change (f32_of_Z 2) with (S754_finite false 8388608 (-22)).
  unfold f32_mul, SFmul. cbn [xorb].
  destruct (round_aux_nearest 24 128 false (m * 8388608) (-24 + -22) 23) as (q & Hq & Hlo & Hres);
    [lia|lia|apply digits2_unique; lia|unfold emin; lia|lia|].
  unfold nearest in Hq. assert (q = Zpos m) as -> by lia.
  destruct Hres as (q' & [= <-] & ->); [lia|]. done.
Qed.

(** Multiplying by 60 rounds to a multiple of 2^-17. *)
Lemma retry_seconds_band oob m :
  Zpos throttle_m < Zpos m <= Zpos block_m ->
  exists q, nearest (Zpos m * 15728640) 24 q /\
    retry_seconds oob (S754_finite false m (-24)) = q / 2 ^ 17 /\ 72 <= q / 2 ^ 17 <= 102.
Proof.
  unfold throttle_m, block_m. intros Hm. unfold retry_seconds. rewrite f32_double by lia.
  change (f32_of_Z 60) with (S754_finite false 15728640 (-18)).
  unfold f32_mul, SFmul. cbn [xorb].
  destruct (round_aux_nearest 24 128 false (m * 15728640) (-23 + -18) 24) as (q & Hq & Hlo & Hres);
    [lia|lia|apply digits2_unique; lia|unfold emin; lia|lia|].
  assert (72 * 2 ^ 17 <= q < 103 * 2 ^ 17) as Hrange by (unfold nearest in Hq; lia).
  exists q. split; [done|]. assert (72 <= q / 2 ^ 17 <= 102) as Hdiv by divlia.
  split; [|done]. destruct Hres as (q' & -> & ->); [lia|]. unfold f_to_int64, f_trunc.
  change (0 <=? -23 + -18 + 24) with false. cbv iota. change (- (-23 + -18 + 24)) with 17.
  rewrite (proj2 (is_int64_spec _)); [done|]. unfold int64_min, int64_max. lia.
Qed.

(** The scores that are throttled by default. *)
Lemma default_throttled x :
  f_gt x (f64_to_f32 defaultThrottle) = true -> f_gt x (f64_to_f32 defaultBlock) = false ->
  exists m, x = S754_finite false m (-24) /\ Zpos throttle_m < Zpos m <= Zpos block_m.
Proof. destruct default_thresholds as [-> ->]. apply f_gt_between. Qed.

(** ** Severity *)

Definition severity (a : Action) : Z :=
  match a with ActionAllow => 0 | ActionThrottle => 1 | ActionBlock => 2 end.

Lemma policy_block oob c tokens score :
  d_Action (policy oob c tokens score) = ActionBlock <->
  f_gt score (f64_to_f32 (ScoreBlockThreshold c)) = true \/ exists n, tokens = Some n /\ n < 0.
Proof.
  unfold policy. destruct (f_gt score _); cbn [orb]; [split; [by left|done]|].
  destruct tokens as [n|].
  - destruct (Z.ltb_spec n 0); [split; [eauto|done]|].
    split; [by destruct (f_gt score _)|]. intros [?|(? & [= <-] & ?)]; [done|lia].
  - split; [by destruct (f_gt score _)|]. intros [?|(? & ? & ?)]; done.
Qed.

Lemma policy_throttle oob c tokens score :
  d_Action (policy oob c tokens score) = ActionThrottle ->
  f_gt score (f64_to_f32 (ScoreThrottleThreshold c)) = true /\
  f_gt score (f64_to_f32 (ScoreBlockThreshold c)) = false.
Proof.
  unfold policy. destruct (f_gt score (f64_to_f32 (ScoreBlockThreshold c))); [done|].
  destruct (match tokens with Some n => n <? 0 | None => false end); [done|].
  by destruct (f_gt score (f64_to_f32 (ScoreThrottleThreshold c))).
Qed.

Lemma policy_retry oob c tokens score :
  d_RetryAfter (policy oob c tokens score) =
    match d_Action (policy oob c tokens score) with
    | ActionThrottle => retry_after oob score
    | _ => 0
    end.
Proof. unfold policy. destruct (_ || _); [done|]. by destruct (f_gt score _). Qed.

Lemma retry_after_pos oob score : 1 <= retry_after oob score.
Proof. unfold retry_after. destruct (Z.ltb_spec (retry_seconds oob score) 1); lia. Qed.
#[export] Hint Resolve retry_after_pos : rl.

(** ** Properties *)

Section Properties.
Context {R X B S : Type}.
Context `{RedisDecrementor R S, MLScorer X S, Blocklist B S, Clock S}.
Variable oob : spec_float -> Z.

(** C2: [Evaluate] implements the policy, with exactly the promised effects.
    Whatever Redis answers and whatever score comes back, it returns the policy's
    decision; it asks Redis once and the scorer once, in this order; it adds the
    address to the blocklist if and only if the decision is to block, and ignores
    whether that succeeded; it spawns one decision event with the returned action,
    the score and the address, after a blocked-ip event if and only if it blocked. *)
Theorem Evaluate_implements_policy (e : Engine R X B) fv (w : World S) r s1 score ver merr s2 :
  Decrement (redis e) (GetClientIp fv) (ext w) = (r, s1) ->
  Score (ml e) fv s1 = (Returns (score, ver, merr), s2) ->
  let d := policy oob (cfg e) (tokens_of r) score in
  let s3 := match d_Action d with
            | ActionBlock => snd (Add (blocklist e) (GetClientIp fv) s2)
            | _ => s2
            end in
  Evaluate oob e fv w =
    (Returns d,
     MkWorld s3 (spawned w
       ++ match d_Action d with ActionBlock => [PublishBlockedTask (GetClientIp fv)] | _ => [] end
       ++ [PublishDecisionTask (MkDecisionEvent (GetClientIp fv) score (action_text (d_Action d))
             (time_now s3) (event_features fv))])).
Proof.
  intros Hr Hs. pose proof (Evaluate_eq oob e fv w) as E. rewrite Hr, Hs in E. exact E.
Qed.

(** C8: the engine fails open.  When Redis fails, no token count blocks: the
    decision only depends on the score.  When the scorer fails too (its client
    then reports 0.0) and the thresholds are numbers of at least zero, the request
    is allowed, the blocklist is not touched, and one event is spawned. *)
Theorem Evaluate_fails_open (e : Engine R X B) fv (w : World S) n err s1 score ver merr s2 :
  Decrement (redis e) (GetClientIp fv) (ext w) = ((n, Some err), s1) ->
  Score (ml e) fv s1 = (Returns (score, ver, merr), s2) ->
  (exists d w', Evaluate oob e fv w = (Returns d, w') /\
     (d_Action d = ActionBlock <-> f_gt score (f64_to_f32 (ScoreBlockThreshold (cfg e))) = true)) /\
  (score = S754_zero false ->
   f_gt (S754_zero false) (f64_to_f32 (ScoreBlockThreshold (cfg e))) = false ->
   f_gt (S754_zero false) (f64_to_f32 (ScoreThrottleThreshold (cfg e))) = false ->
   Evaluate oob e fv w =
     (Returns (MkDecision ActionAllow 0),
      MkWorld s2 (spawned w ++ [PublishDecisionTask
        (MkDecisionEvent (GetClientIp fv) (S754_zero false) "allow" (time_now s2)
           (event_features fv))]))).
Proof.
  intros Hr Hs. pose proof (Evaluate_eq oob e fv w) as E. rewrite Hr, Hs in E. split.
  - do 2 eexists. split; [exact E|]. cbn [tokens_of]. rewrite policy_block.
    split; [by intros [?|(? & ? & ?)]|by left].
  - intros -> Hb Ht. rewrite E. unfold policy. cbn [tokens_of]. by rewrite Hb, Ht.
Qed.

(** The test engine decides as the real one.  [testEngine.Evaluate] on a
    token count and a score returns what [Engine.Evaluate] returns when Redis
    reports this count and the scorer this score. *)
Theorem testEngine_equivalent (e : Engine R X B) fv (w : World S) n s1 score ver merr s2 :
  Decrement (redis e) (GetClientIp fv) (ext w) = ((n, None), s1) ->
  Score (ml e) fv s1 = (Returns (score, ver, merr), s2) ->
  fst (Evaluate oob e fv w) = Returns (test_Evaluate oob (NewForTesting (cfg e) n score) fv).
Proof.
  intros Hr Hs. pose proof (Evaluate_eq oob e fv w) as E. rewrite Hr, Hs in E. by rewrite E.
Qed.
End Properties.

(** C26: the back-off under the default thresholds.  With the configuration loaded
    from an environment that does not set the thresholds, a throttled client is
    told to wait between 72 and 102 seconds, and of two throttled clients the one
    with the higher score never waits less, the roundings of [float32] included. *)
Theorem default_back_off oob env tokens1 tokens2 x1 x2 :
  ParseFloat (env "SCORE_BLOCK_THRESHOLD") = None ->
  ParseFloat (env "SCORE_THROTTLE_THRESHOLD") = None ->
  let d1 := policy oob (Load env) tokens1 x1 in
  let d2 := policy oob (Load env) tokens2 x2 in
  d_Action d1 = ActionThrottle -> d_Action d2 = ActionThrottle ->
  72 <= d_RetryAfter d1 <= 102 /\
  (f_gt x2 x1 = true -> d_RetryAfter d1 <= d_RetryAfter d2).
Proof.
  intros Hb Ht d1 d2 H1 H2. subst d1 d2. rewrite !policy_retry, H1, H2.
  apply policy_throttle in H1 as [H1 H1'], H2 as [H2 H2'].
  unfold Load in *. cbn [ScoreBlockThreshold ScoreThrottleThreshold] in *.
  rewrite !getEnvFloat_eq, Hb in H1', H2'. rewrite !getEnvFloat_eq, Ht in H1, H2.
  destruct (default_throttled x1 H1 H1') as (m1 & -> & Hm1).
  destruct (default_throttled x2 H2 H2') as (m2 & -> & Hm2).
  destruct (retry_seconds_band oob m1 Hm1) as (q1 & Hq1 & Er1 & Hr1).
  destruct (retry_seconds_band oob m2 Hm2) as (q2 & Hq2 & Er2 & Hr2).
  unfold retry_after. rewrite Er1, Er2.
  destruct (Z.ltb_spec (q1 / 2 ^ 17) 1); [lia|]. destruct (Z.ltb_spec (q2 / 2 ^ 17) 1); [lia|].
  split; [done|]. intros Hgt%(f_gt_finite false). apply Z.div_le_mono; [lia|].
  apply (nearest_mono (Zpos m1 * 15728640) (Zpos m2 * 15728640) 24); [lia|done|done|lia].
Qed.

(** Decisions are well formed and monotone, for any thresholds.  A wait is
    given exactly when throttling, and is then at least one second; a higher score
    never gets a milder action, and neither does having lost the token; a NaN
    score, or NaN thresholds, make the score count for nothing. *)
Theorem policy_monotone oob c tokens x y :
  let d := policy oob c tokens x in
  (d_Action d = ActionThrottle -> 1 <= d_RetryAfter d) /\
  (d_Action d <> ActionThrottle -> d_RetryAfter d = 0) /\
  (f_gt y x = true ->
     severity (d_Action d) <= severity (d_Action (policy oob c tokens y))) /\
  (forall n n', n' <= n -> severity (d_Action (policy oob c (Some n) x))
                        <= severity (d_Action (policy oob c (Some n') x))) /\
  (x = S754_nan -> d_Action d =
     match tokens with Some n => if n <? 0 then ActionBlock else ActionAllow | None => ActionAllow end) /\
  (ScoreBlockThreshold c = S754_nan ->
     d_Action d = ActionBlock <-> exists n, tokens = Some n /\ n < 0).
Proof.
  cbn zeta. rewrite policy_retry. split_and!.
  - intros ->. apply retry_after_pos.
  - by destruct (d_Action _).
  - intros Hgt. unfold policy. set (exh := match tokens with Some _ => _ | None => _ end).
    pose proof (fun t => f_gt_trans y x t Hgt) as Hmono.
    destruct (f_gt x (f64_to_f32 (ScoreBlockThreshold c))) eqn:E1; [by rewrite (Hmono _ E1)|].
    destruct exh; [by rewrite !orb_true_r|]. rewrite !orb_false_r.
    destruct (f_gt x (f64_to_f32 (ScoreThrottleThreshold c))) eqn:E2;
      [rewrite (Hmono _ E2)|]; by repeat case_match.
  - intros n n' Hle. unfold policy. destruct (f_gt x _); cbn [orb]; [done|].
    destruct (Z.ltb_spec n 0); destruct (Z.ltb_spec n' 0); try lia; by repeat case_match.
  - intros ->. unfold policy. rewrite !f_gt_nan_l. cbn [orb]. by repeat case_match.
  - intros Hnan. rewrite policy_block, Hnan. change (f64_to_f32 S754_nan) with S754_nan.
    rewrite f_gt_nan_r. split; [by intros [?|?]|by right].
Qed.

(** ** Fixed collaborators for the examples *)

Module Mock.
Record t := MkMock {
  answer : Z * option error;
  score : float32 * string * option error;
  added : list string
}.

#[global] Instance redis : RedisDecrementor unit t := {| Decrement _ _ s := (answer s, s) |}.
#[global] Instance scorer : MLScorer unit t := {| Score _ _ s := (Returns (score s), s) |}.
#[global] Instance blocklist : Blocklist unit t := {|
  Add _ ip s := (None, MkMock (answer s) (score s) (added s ++ [ip]));
  Remove _ ip s := (None, s)
|}.
#[global] Instance clock : Clock t := {| time_now _ := 0 |}.

Definition engine : Engine unit unit unit :=
  New (Load (fun _ => "")) tt tt (Kafka.New ["localhost:9092"]) tt.

Definition vector : option FeatureVector :=
  Some (MkFeatureVector "1.2.3.4" "none" "ua" f_zero f_zero f_zero "GET" "u" 0 5 0 0).

(** Redis answers [n], the sidecar [x]. *)
Definition world (n : Z) (err : option error) (x : float32) : World t :=
  MkWorld (MkMock (n, err) (x, "v1", None) []) [].
End Mock.

(** 0.9 is above the block threshold, 0.7 above the throttle threshold only. *)
Definition f09 : float32 := f64_to_f32 (f64_of_dec false 9 (-1)).
Definition f07 : float32 := f64_to_f32 (f64_of_dec false 7 (-1)).

Lemma Evaluate_implements_policy_witness :
  Evaluate amd64_oob Mock.engine Mock.vector (Mock.world 5 None f09)
    = (Returns (MkDecision ActionBlock 0),
       MkWorld (Mock.MkMock (5, None) (f09, "v1", None) ["1.2.3.4"])
         [PublishBlockedTask "1.2.3.4"; PublishDecisionTask
            (MkDecisionEvent "1.2.3.4" f09 "block" 0 (event_features Mock.vector))]) /\
  fst (Evaluate amd64_oob Mock.engine Mock.vector (Mock.world 5 None f07))
    = Returns (MkDecision ActionThrottle 84).
Proof.
  split.
  - refine (Evaluate_implements_policy amd64_oob Mock.engine Mock.vector (Mock.world 5 None f09)
      (5, None) (ext (Mock.world 5 None f09)) f09 "v1" None (ext (Mock.world 5 None f09)) _ _);
      reflexivity.
  - refine (f_equal fst (Evaluate_implements_policy amd64_oob Mock.engine Mock.vector
      (Mock.world 5 None f07) (5, None) (ext (Mock.world 5 None f07)) f07 "v1" None
      (ext (Mock.world 5 None f07)) _ _)); reflexivity.
Defined.

Lemma Evaluate_fails_open_witness :
  exists w', Evaluate amd64_oob Mock.engine Mock.vector (Mock.world 0 (Some "timeout") f_zero)
    = (Returns (MkDecision ActionAllow 0), w').
Proof.
  eexists.
  refine (proj2 (Evaluate_fails_open amd64_oob Mock.engine Mock.vector
    (Mock.world 0 (Some "timeout") f_zero) 0 "timeout" (ext (Mock.world 0 (Some "timeout") f_zero))
    f_zero "v1" None (ext (Mock.world 0 (Some "timeout") f_zero)) _ _) _ _ _); reflexivity.
Defined.

Lemma testEngine_equivalent_witness :
  fst (Evaluate amd64_oob Mock.engine Mock.vector (Mock.world (-1) None f_zero))
    = Returns (test_Evaluate amd64_oob (NewForTesting (Load (fun _ => "")) (-1) f_zero) Mock.vector).
Proof.
  refine (testEngine_equivalent amd64_oob Mock.engine Mock.vector (Mock.world (-1) None f_zero) (-1)
    (ext (Mock.world (-1) None f_zero)) f_zero "v1" None (ext (Mock.world (-1) None f_zero))
    _ _); reflexivity.
Defined.

Lemma default_back_off_witness :
  72 <= d_RetryAfter (policy amd64_oob (Load (fun _ => "")) (Some 3) f07) <= 102.
Proof.
  apply (default_back_off amd64_oob (fun _ => "") (Some 3) None f07 f07);
    vm_compute; reflexivity.
Defined.
