(* ===== verification/Http.v ===== *)
(** * HTTP replies

    What a handler writes: a status and a body.  Bodies are kept as values
    (plain text, or the JSON value before encoding), since the handlers build
    them from literals and strings. *)

From S2P Require Import Prelude Json.

Inductive body : Type :=
| PlainText (s : string)
| JsonBody (j : json).

Record response := Response { status : Z; content : body }.

Definition StatusOK : Z := 200.
Definition StatusCreated : Z := 201.
Definition StatusMovedPermanently : Z := 301.
Definition StatusBadRequest : Z := 400.
Definition StatusNotFound : Z := 404.
Definition StatusMethodNotAllowed : Z := 405.
Definition StatusInternalServerError : Z := 500.

(** [http.Error] writes the message and a newline. *)
Definition http_Error (msg : string) (code : Z) : response :=
  Response code (PlainText (msg +:+ String "010" "")).

(** [c.JSON(code, gin.H{k: v})] and [json.NewEncoder(w).Encode] of string maps. *)
Definition json_reply (code : Z) (fields : list (string * string)) : response :=
  Response code (JsonBody (JObject ((fun kv => (kv.1, JString kv.2)) <$> fields))).
