(* ===== verification/BpfMap.v ===== *)
(** * The kernel's blocked-IPs map

    The map is an LRU hash map of the kernel, reached through a third-party
    library: it is the interface [BpfMap], with the documented behaviour of
    [Put], [Delete], [Iterate] and of the kernel's lookup as [BpfMapLaws].  Keys
    and values are the bytes the library marshals them to.  [LruMap] is an
    instance with a bounded number of entries. *)

From S2P Require Import Prelude GoNet.

Class BpfMap (M : Type) := {
  map_key_size : M -> nat;
  map_value_size : M -> nat;
  map_view : M -> gmap (list Z) (list Z);
  map_put : list Z -> list Z -> io M unit;
  map_delete : list Z -> io M unit;
  map_iterate : M -> list (list Z * list Z) * option error
}.

Class BpfMapLaws (M : Type) `{BpfMap M} : Prop := {
  (** marshalling refuses keys and values of the wrong size *)
  put_size k v m :
    length k <> map_key_size m \/ length v <> map_value_size m ->
    exists e, map_put k v m = (Err e, m);
  (** a successful update is seen by lookups; the LRU policy may have evicted
      other entries to make room *)
  put_ok k v m m' :
    map_put k v m = (Ok tt, m') ->
    map_key_size m' = map_key_size m /\ map_value_size m' = map_value_size m /\
    map_view m' !! k = Some v /\
    forall k', k' <> k -> map_view m' !! k' = map_view m !! k' \/ map_view m' !! k' = None;
  put_err k v m m' e : map_put k v m = (Err e, m') -> m' = m;
  delete_present k m v :
    map_view m !! k = Some v ->
    exists m', map_delete k m = (Ok tt, m') /\
      map_key_size m' = map_key_size m /\ map_value_size m' = map_value_size m /\
      map_view m' = delete k (map_view m);
  delete_absent k m :
    map_view m !! k = None -> exists e, map_delete k m = (Err e, m);
  (** an iteration that reports no error has met every entry once *)
  iterate_all m es :
    map_iterate m = (es, None) -> es ≡ₚ map_to_list (map_view m)
}.

(** The shape [tc_blocker.c] gives the map: [__u32] keys, [__u64] values. *)
Definition tc_map_shape {M} `{BpfMap M} (m : M) : Prop :=
  map_key_size m = 4%nat /\ map_value_size m = 8%nat.

Module LruMap.
Record t := Lru {
  key_size : nat; value_size : nat; max_entries : Z; entries : gmap (list Z) (list Z)
}.

Definition with_entries (m : t) (es : gmap (list Z) (list Z)) : t :=
  Lru (key_size m) (value_size m) (max_entries m) es.

(** Make room for [k] when the map is full. *)
Definition evict (k : list Z) (m : t) : gmap (list Z) (list Z) :=
  match entries m !! k with
  | Some _ => entries m
  | None =>
      if Z.of_nat (size (entries m)) <? max_entries m then entries m
      else match map_to_list (entries m) with
           | [] => entries m
           | (k', _) :: _ => delete k' (entries m)
           end
  end.

#[global] Instance cmds : BpfMap t := {|
  map_key_size := key_size;
  map_value_size := value_size;
  map_view := entries;
  map_put k v m :=
    if (length k =? key_size m)%nat && (length v =? value_size m)%nat
    then (Ok tt, with_entries m (<[k := v]> (evict k m)))
    else (Err "marshal: wrong size", m);
  map_delete k m :=
    match entries m !! k with
    | Some _ => (Ok tt, with_entries m (delete k (entries m)))
    | None => (Err "key does not exist", m)
    end;
  map_iterate m := (map_to_list (entries m), None)
|}.

Lemma evict_lookup k m k' : evict k m !! k' = entries m !! k' \/ evict k m !! k' = None.
Proof.
  unfold evict. case_match; [by left|]. case_match; [by left|].
  destruct (map_to_list (entries m)) as [|[k0 v0] l]; [by left|].
  destruct (decide (k' = k0)) as [->|Hne].
  - right. apply lookup_delete_eq.
  - left. by apply lookup_delete_ne.
Qed.

#[global] Instance laws : BpfMapLaws t.
Proof.
  split; cbn.
  - intros k v m Hsz. destruct (Nat.eqb_spec (length k) (key_size m));
      destruct (Nat.eqb_spec (length v) (value_size m)); cbn; [by destruct Hsz|by eexists..].
  - intros k v m m'. case_match; intros ?; simplify_eq. cbn.
    split_and!; [done|done|apply lookup_insert_eq|].
    intros k' Hk. rewrite lookup_insert_ne by done. apply evict_lookup.
  - intros k v m m' e. case_match; intros ?; simplify_eq; done.
  - intros k m v Hk. rewrite Hk. by eexists.
  - intros k m Hk. rewrite Hk. by eexists.
  - intros m es ?. by simplify_eq.
Qed.

(** The map of [tc_blocker.c]. *)
Definition blocked_ips : t := Lru 4 8 100000 ∅.
End LruMap.
