(* ===== verification/Blocklist.v ===== *)
(** * The decision engine's blocklist (cmd/ebpf/blocklist.go)

    [Blocklist] is a handle on the pinned map, or none (the no-op mode); the
    map's content is the state the operations take. *)

From S2P Require Import Prelude GoNet Json Http BpfMap.

(** [Blocklist]: is [b.m] non-nil? *)
Record Blocklist := MkBlocklist { b_open : bool }.

Definition pinnedMapPath : string := "/sys/fs/bpf/ratelimiter/blocked_ips".

(** [New]: [load] is the outcome of [ebpf.LoadPinnedMap(pinnedMapPath, nil)]. *)
Definition New (load : string -> result unit) : Blocklist :=
  match load pinnedMapPath with
  | Err _ => MkBlocklist false
  | Ok _ => MkBlocklist true
  end.

(** [ipToKey]: the four bytes of the address, in network order. *)
Definition ipToKey (s : string) : result (list Z) :=
  match ParseIP s with
  | None => Err ("invalid IP: " +:+ s)
  | Some ip =>
      match To4 ip with
      | None => Err ("only IPv4 supported, got: " +:+ s)
      | Some ip4 => Ok (BigEndian_PutUint32 (BigEndian_Uint32 ip4))
      end
  end.

Section Operations.
Context {M : Type} `{BpfMap M}.
Variable host : endianness.

(** [Add]: the value is a [uint32] 1, marshalled in the host's byte order. *)
Definition Add (b : Blocklist) (ip : string) : io M unit := fun m =>
  if negb (b_open b) then (Ok tt, m)
  else
    match ipToKey ip with
    | Err e => (Err ("ebpf add: " +:+ e), m)
    | Ok key =>
        let val := 1 in
        match map_put key (native_bytes host 4 val) m with
        | (Err e, m') => (Err ("ebpf map put " +:+ ip +:+ ": " +:+ e), m')
        | (Ok _, m') => (Ok tt, m')
        end
    end.

Definition Remove (b : Blocklist) (ip : string) : io M unit := fun m =>
  if negb (b_open b) then (Ok tt, m)
  else
    match ipToKey ip with
    | Err e => (Err ("ebpf remove: " +:+ e), m)
    | Ok key =>
        match map_delete key m with
        | (Err e, m') => (Err ("ebpf map delete " +:+ ip +:+ ": " +:+ e), m')
        | (Ok _, m') => (Ok tt, m')
        end
    end.

(** [Close]: [close] is the outcome of closing the descriptor. *)
Definition Close (b : Blocklist) (close : option error) : option error :=
  if b_open b then close else None.

(** [handleBlock]: [bound] is what [ShouldBindJSON] makes of the request body
    (the required field [ip], or an error). *)
Definition handleBlock (b : Blocklist) (bound : result string) (m : M) : response * M :=
  match bound with
  | Err e => (json_reply StatusBadRequest [("error", e)], m)
  | Ok ip =>
      match Add b ip m with
      | (Err e, m') => (json_reply StatusInternalServerError [("error", e)], m')
      | (Ok _, m') => (json_reply StatusOK [("blocked", ip)], m')
      end
  end.

(** [handleUnblock]: [ip] is the path parameter. *)
Definition handleUnblock (b : Blocklist) (ip : string) (m : M) : response * M :=
  match Remove b ip m with
  | (Err e, m') => (json_reply StatusInternalServerError [("error", e)], m')
  | (Ok _, m') => (json_reply StatusOK [("unblocked", ip)], m')
  end.
End Operations.

(** [RegisterRoutes]: the routes and the handlers they dispatch to. *)
Inductive handler := HandleBlock | HandleUnblock.
Definition RegisterRoutes : list (string * string * handler) :=
  [("POST", "/block", HandleBlock); ("DELETE", "/block/:ip", HandleUnblock)].

(** ** Lemmas *)

Lemma ipToKey_text s :
  ipToKey s = match text_to_ip4 s with
              | Some ip4 => Ok (BigEndian_PutUint32 (BigEndian_Uint32 ip4))
              | None => match ParseIP s with
                        | None => Err ("invalid IP: " +:+ s)
                        | Some _ => Err ("only IPv4 supported, got: " +:+ s)
                        end
              end.
Proof. unfold ipToKey, text_to_ip4. destruct (ParseIP s) as [ip|]; cbn; [|done].
  by destruct (To4 ip). Qed.

(** Re-encoding the bytes changes nothing. *)
Lemma ipToKey_Ok s k : ipToKey s = Ok k <-> text_to_ip4 s = Some k.
Proof.
  rewrite ipToKey_text. split.
  - destruct (text_to_ip4 s) as [ip4|] eqn:E; [|by case_match].
    destruct (text_to_ip4_bytes _ _ E) as (a & b & c & d & -> & Hb).
    rewrite BigEndian_put_get by done. by intros [= <-].
  - intros E. rewrite E.
    destruct (text_to_ip4_bytes _ _ E) as (a & b & c & d & -> & Hb).
    by rewrite BigEndian_put_get.
Qed.

Lemma ipToKey_length s k : ipToKey s = Ok k -> length k = 4%nat.
Proof.
  intros H%ipToKey_Ok. by destruct (text_to_ip4_bytes _ _ H) as (a & b & c & d & -> & _).
Qed.

Lemma ipToKey_Err s : (exists e, ipToKey s = Err e) <-> text_to_ip4 s = None.
Proof.
  rewrite ipToKey_text. destruct (text_to_ip4 s).
  - split; [intros [e ?]|]; discriminate.
  - split; [done|]. intros _. case_match; by eexists.
Qed.

(** ** Properties *)

(** Map keys are network-order bytes, one spelling per address.  [ipToKey]
    turns the canonical dotted-decimal text of any four bytes into exactly these
    bytes; whatever text without a colon it accepts is that canonical text (so no
    leading zeros, missing or extra octets, values over 255); and it returns
    nothing but four bytes. *)
Theorem ipToKey_canonical s k :
  (ipToKey s = Ok k -> bytes k /\ length k = 4%nat) /\
  (has_char colon s = false ->
    ipToKey s = Ok k <->
    exists a b c d, k = [a; b; c; d] /\ bytes [a; b; c; d] /\ s = dotted a b c d).
Proof.
  split.
  - intros H%ipToKey_Ok. destruct (text_to_ip4_bytes _ _ H) as (a & b & c & d & -> & Hb). done.
  - intros Hs. rewrite ipToKey_Ok. split.
    + intros H. destruct (text_to_ip4_bytes _ _ H) as (a & b & c & d & -> & Hb).
      exists a, b, c, d. split_and!; [done|done|]. by apply text_to_ip4_canonical.
    + intros (a & b & c & d & -> & Hb & ->). by apply text_to_ip4_dotted.
Qed.

Lemma ipToKey_canonical_witness :
  (bytes [192; 168; 1; 7] /\ length [192; 168; 1; 7] = 4%nat) /\
  (ipToKey "192.168.1.7" = Ok [192; 168; 1; 7] <->
    exists a b c d, [192; 168; 1; 7] = [a; b; c; d] /\ bytes [a; b; c; d] /\
      "192.168.1.7" = dotted a b c d).
Proof.
  split.
  - apply (ipToKey_canonical "192.168.1.7" [192; 168; 1; 7]). vm_compute. reflexivity.
  - apply (ipToKey_canonical "192.168.1.7" [192; 168; 1; 7]). vm_compute. reflexivity.
Defined.

Section Properties.
Context {M : Type} `{BpfMapLaws M}.
Variable host : endianness.

(** The engine cannot write the map of [tc_blocker.c].  That map has 8-byte
    values and [Add] offers a 4-byte one, so on an open map of that shape [Add]
    fails for every address and leaves the map as it was; with no map it does
    nothing.  Either way no address is ever blocked through [Add]. *)
Theorem Add_never_blocks b ip (m : M) :
  tc_map_shape m ->
  snd (Add host b ip m) = m /\ (b_open b = true -> is_ok (fst (Add host b ip m)) = false).
Proof.
  intros [Hk Hv]. unfold Add. destruct (b_open b); cbn [negb]; [|done].
  destruct (ipToKey ip) as [key|e]; [|done].
  destruct (put_size key (native_bytes host 4 1) m) as [e ->]; [|done].
  right. rewrite length_native_bytes, Hv. done.
Qed.

(** What [Add] and [Remove] do on a map whose values they fit.  A successful
    [Add] makes the address's bytes a key with the host's 32-bit 1 as value; the
    [Remove] after it succeeds and leaves the key absent; a second [Remove] then
    fails and changes nothing. *)
Theorem Add_Remove_roundtrip b ip (m m1 : M) :
  b_open b = true -> Add host b ip m = (Ok tt, m1) ->
  exists key m2 e, ipToKey ip = Ok key /\
    map_view m1 !! key = Some (native_bytes host 4 1) /\
    Remove b ip m1 = (Ok tt, m2) /\ map_view m2 = delete key (map_view m1) /\
    Remove b ip m2 = (Err e, m2).
Proof.
  unfold Add, Remove. intros -> Hadd. cbn [negb] in *.
  destruct (ipToKey ip) as [key|]; [|discriminate].
  destruct (map_put key _ m) as [[[]|] m'] eqn:Ep; [|discriminate].
  injection Hadd as ->. destruct (put_ok _ _ _ _ Ep) as (_ & _ & Hin & _).
  destruct (delete_present _ _ _ Hin) as (m2 & Ed & _ & _ & Hv).
  destruct (delete_absent key m2) as [e He]; [by rewrite Hv, lookup_delete_eq|].
  exists key, m2. eexists. rewrite Ed. cbn. by rewrite He.
Qed.

(** Replies of the management routes.  [POST /block] answers 400 exactly when
    the body does not bind, 200 when [Add] succeeds and 500 when it fails;
    [DELETE /block/:ip] answers 200 or 500; an address that is not IPv4 text is
    refused with 500 on an open map; and unless the reply is 200 the map is as it
    was. *)
Theorem handlers_reply b bound ip (m : M) :
  let add := handleBlock host b bound m in
  let del := handleUnblock b ip m in
  (status add.1 = StatusBadRequest <-> is_ok bound = false) /\
  (forall ip', bound = Ok ip' ->
     status add.1 = if is_ok (fst (Add host b ip' m)) then StatusOK else StatusInternalServerError) /\
  (status add.1 <> StatusOK -> add.2 = m) /\
  status del.1 = (if is_ok (fst (Remove b ip m)) then StatusOK else StatusInternalServerError) /\
  (b_open b = true -> text_to_ip4 ip = None -> status del.1 = StatusInternalServerError) /\
  (status del.1 <> StatusOK -> del.2 = m).
Proof.
  cbn zeta. unfold handleBlock, handleUnblock, Add, Remove.
  assert (forall ip, text_to_ip4 ip = None -> exists e, ipToKey ip = Err e) as Hbad
    by (intros ? ?; by apply ipToKey_Err).
  assert (forall k, map_view m !! k = None \/ exists v, map_view m !! k = Some v) as Hdec
    by (intros k; destruct (map_view m !! k); eauto).
  split_and!.
  - destruct bound as [ip'|e]; [|done]. destruct (b_open b); cbn [negb]; [|done].
    destruct (ipToKey ip') as [key|]; [|done].
    by destruct (map_put _ _ m) as [[[]|] m'].
  - intros ip' ->. destruct (b_open b); cbn [negb]; [|done].
    destruct (ipToKey ip') as [key|]; [|done].
    by destruct (map_put _ _ m) as [[[]|] m'].
  - destruct bound as [ip'|e]; [|done]. destruct (b_open b); cbn [negb]; [|done].
    destruct (ipToKey ip') as [key|]; [|done].
    destruct (map_put key _ m) as [[[]|] m'] eqn:Ep; [done|].
    intros _. by apply put_err in Ep.
  - destruct (b_open b); cbn [negb]; [|done].
    destruct (ipToKey ip) as [key|]; [|done].
    by destruct (map_delete _ m) as [[[]|] m'].
  - intros -> Hip. cbn [negb]. by destruct (Hbad ip Hip) as [e ->].
  - destruct (b_open b); cbn [negb]; [|done].
    destruct (ipToKey ip) as [key|]; [|done].
    destruct (Hdec key) as [Hno|[v Hyes]].
    + by destruct (delete_absent _ _ Hno) as [e ->].
    + destruct (delete_present _ _ _ Hyes) as (m2 & -> & _). done.
Qed.
End Properties.

(** ** Witnesses *)

Lemma Add_never_blocks_witness :
  snd (Add LittleEndian (MkBlocklist true) "10.0.0.1" LruMap.blocked_ips) = LruMap.blocked_ips /\
  (b_open (MkBlocklist true) = true ->
   is_ok (fst (Add LittleEndian (MkBlocklist true) "10.0.0.1" LruMap.blocked_ips)) = false).
Proof.
  apply (Add_never_blocks LittleEndian (MkBlocklist true) "10.0.0.1" LruMap.blocked_ips).
  split; reflexivity.
Defined.

Lemma Add_Remove_roundtrip_witness :
  exists m1 key m2 e, ipToKey "10.0.0.1" = Ok key /\
    map_view m1 !! key = Some (native_bytes LittleEndian 4 1) /\
    Remove (MkBlocklist true) "10.0.0.1" m1 = (Ok tt, m2) /\
    map_view m2 = delete key (map_view m1) /\
    Remove (MkBlocklist true) "10.0.0.1" m2 = (Err e, m2).
Proof.
  eexists.
  apply (Add_Remove_roundtrip LittleEndian (MkBlocklist true) "10.0.0.1" (LruMap.Lru 4 4 10 ∅)).
  - reflexivity.
  - vm_compute. reflexivity.
Defined.

Lemma handlers_reply_witness :
  status (fst (handleBlock LittleEndian (MkBlocklist true) (Ok "10.0.0.1")
                 LruMap.blocked_ips)) = StatusInternalServerError /\
  snd (handleBlock LittleEndian (MkBlocklist true) (Ok "10.0.0.1") LruMap.blocked_ips)
    = LruMap.blocked_ips.
Proof.
  destruct (handlers_reply LittleEndian (MkBlocklist true) (Ok "10.0.0.1") "1.2.3" LruMap.blocked_ips)
    as (_ & Hst & Hsame & _).
  split.
  - rewrite (Hst "10.0.0.1" eq_refl). vm_compute. reflexivity.
  - apply Hsame. vm_compute. discriminate.
Defined.
