(* ===== verification/Kernel.v ===== *)
(** * The packet filter (ebpf/tc_blocker.c)

    [tc_ingress_blocker] over the bytes of a packet, the content of the map and
    the boot clock.  Reading packet memory is an operation that can fault, so
    that the bounds checks can be shown to be enough. *)

From S2P Require Import Prelude GoNet BpfMap.

Definition TC_ACT_OK : Z := 0.
Definition TC_ACT_SHOT : Z := 2.
Definition ETH_P_IP : Z := 2048. (* 0x0800 *)

(** [sizeof(struct ethhdr)], [sizeof(struct iphdr)], and the offsets of
    [h_proto] and [saddr] in them. *)
Definition sizeof_ethhdr : nat := 14.
Definition sizeof_iphdr : nat := 20.
Definition off_h_proto : nat := 12.
Definition off_saddr : nat := 12.

(** The [n] bytes at offset [off] of the packet; [None] is an access past
    [data_end]. *)
Definition load (pkt : list Z) (off n : nat) : option (list Z) :=
  if (off + n <=? length pkt)%nat then Some (take n (drop off pkt)) else None.

(** [bpf_ntohs]: a byte swap on little-endian hosts. *)
Definition bpf_ntohs (host : endianness) (v : Z) : Z :=
  match host with
  | LittleEndian => Z.lor (Z.shiftl (Z.land v 255) 8) (Z.shiftr v 8)
  | BigEndian => v
  end.

(** [tc_ingress_blocker]: the verdict, or [None] for a memory fault.
    [boot_ns] is [bpf_ktime_get_coarse_ns()]. *)
Definition tc_ingress_blocker (host : endianness) (blocked_ips : gmap (list Z) (list Z))
    (boot_ns : Z) (pkt : list Z) : option Z :=
  let data_end := length pkt in
  (* Step 1: the Ethernet header *)
  if (data_end <? sizeof_ethhdr)%nat then Some TC_ACT_OK else
  h_proto ← load pkt off_h_proto 2;
  if negb (bpf_ntohs host (native_value host h_proto) =? ETH_P_IP) then Some TC_ACT_OK else
  (* Step 2: the IPv4 header *)
  if (data_end <? sizeof_ethhdr + sizeof_iphdr)%nat then Some TC_ACT_OK else
  saddr ← load pkt (sizeof_ethhdr + off_saddr) 4;
  (* Step 3: look up the source address *)
  let src_ip := native_value host saddr in
  match blocked_ips !! native_bytes host 4 src_ip with
  | None => Some TC_ACT_OK
  | Some v =>
      (* Step 4: the expiry *)
      let expiry := native_value host v in
      if negb (expiry =? 0) then
        let now_sec := boot_ns / 1000000000 in
        if now_sec >=? expiry then Some TC_ACT_OK else Some TC_ACT_SHOT
      else Some TC_ACT_SHOT
  end.

(** src/rate_limiter.bpf.c, on the XDP hook: a placeholder that passes every packet. *)
Definition XDP_PASS : Z := 2.
Definition xdp_rate_limiter (pkt : list Z) : Z := XDP_PASS.

(** ** Lemmas *)

Lemma bpf_ntohs_value host x y :
  0 <= x < 256 -> 0 <= y < 256 -> bpf_ntohs host (native_value host [x; y]) = x * 256 + y.
Proof.
  intros Hx Hy. destruct host; cbn; [|lia].
  replace (x + 256 * (y + 256 * 0)) with (x + y * 2 ^ 8) by lia.
  rewrite (Z.land_ones _ 8) by lia. rewrite Z.shiftr_div_pow2 by lia.
  replace ((x + y * 2 ^ 8) mod 2 ^ 8) with x by divlia.
  replace ((x + y * 2 ^ 8) / 2 ^ 8) with y by divlia.
  rewrite Z.lor_comm, lor_shiftl_add by lia. lia.
Qed.

(** Loading an address and laying it out again gives its bytes. *)
Lemma native_bytes_value host b :
  bytes b -> native_bytes host (length b) (native_value host b) = b.
Proof.
  intros Hb. unfold native_bytes, native_value. destruct host.
  - by apply le_bytes_value.
  - rewrite <- length_reverse, le_bytes_value, reverse_involutive; [done|].
    by apply Forall_reverse.
Qed.

Lemma load_ok pkt off n :
  (off + n <= length pkt)%nat -> load pkt off n = Some (take n (drop off pkt)).
Proof. intros H. unfold load. by rewrite (proj2 (Nat.leb_le _ _) H). Qed.

Lemma load_bytes pkt off n b : bytes pkt -> load pkt off n = Some b -> bytes b /\ length b = n.
Proof.
  intros Hp. unfold load. case_match eqn:E; [|discriminate]. intros [= <-].
  apply Nat.leb_le in E. split; [by apply Forall_take, Forall_drop|].
  rewrite length_take, length_drop. lia.
Qed.

(** The four address bytes of a packet. *)
Definition packet_saddr (pkt : list Z) : list Z := take 4 (drop 26 pkt).

(** An Ethernet frame with an untagged IPv4 header. *)
Definition is_ipv4_frame (pkt : list Z) : bool :=
  (34 <=? length pkt)%nat && bool_decide (take 2 (drop 12 pkt) = [8; 0]).

(** The block of an address is in force at boot time [boot_ns]. *)
Definition in_force (host : endianness) (boot_ns : Z) (v : list Z) : bool :=
  (native_value host v =? 0) || (boot_ns / 1000000000 <? native_value host v).

(** The verdict, stated on the packet's fields. *)
Definition verdict (host : endianness) (m : gmap (list Z) (list Z)) (boot_ns : Z)
    (pkt : list Z) : Z :=
  if is_ipv4_frame pkt then
    match m !! packet_saddr pkt with
    | Some v => if in_force host boot_ns v then TC_ACT_SHOT else TC_ACT_OK
    | None => TC_ACT_OK
    end
  else TC_ACT_OK.

Lemma ethertype_spec host pkt h :
  bytes pkt -> load pkt off_h_proto 2 = Some h ->
  (bpf_ntohs host (native_value host h) =? ETH_P_IP) =
    bool_decide (take 2 (drop 12 pkt) = [8; 0]).
Proof.
  intros Hp Hl. destruct (load_bytes _ _ _ _ Hp Hl) as [Hb Hlen].
  assert (h = take 2 (drop 12 pkt)) as <-.
  { unfold load in Hl. case_match; [by simplify_eq|discriminate]. }
  destruct h as [|x [|y [|]]]; try discriminate.
  apply Forall_cons in Hb as [Hx Hb]. apply Forall_cons in Hb as [Hy _].
  rewrite bpf_ntohs_value by done. unfold ETH_P_IP. case_bool_decide as Heq.
  - simplify_eq. done.
  - apply Z.eqb_neq. intros E. apply Heq. f_equal; [lia|]. f_equal. lia.
Qed.

Lemma tc_ingress_blocker_verdict host m boot_ns pkt :
  bytes pkt -> tc_ingress_blocker host m boot_ns pkt = Some (verdict host m boot_ns pkt).
Proof.
  intros Hp. unfold tc_ingress_blocker, verdict, is_ipv4_frame, sizeof_ethhdr, sizeof_iphdr.
  destruct (Nat.ltb_spec (length pkt) 14) as [Hshort|Heth].
  { destruct (Nat.leb_spec 34 (length pkt)); [lia|done]. }
  destruct (load pkt off_h_proto 2) as [h|] eqn:Eh.
  2:{ rewrite load_ok in Eh by (unfold off_h_proto; lia). discriminate. }
  cbn [mbind option_bind]. rewrite (ethertype_spec host pkt h Hp Eh).
  destruct (bool_decide (take 2 (drop 12 pkt) = [8; 0])); cbn [negb].
  2:{ by rewrite andb_false_r. }
  rewrite andb_true_r. change (14 + 20)%nat with 34%nat.
  destruct (Nat.ltb_spec (length pkt) 34) as [Htrunc|Hip];
    destruct (Nat.leb_spec 34 (length pkt)); try lia; [done|].
  change (14 + off_saddr)%nat with 26%nat.
  pose proof (load_ok pkt 26 4 ltac:(lia)) as El.
  destruct (load_bytes _ _ _ _ Hp El) as [Hb Hlen]. rewrite El.
  cbn [mbind option_bind]. fold (packet_saddr pkt) in *.
  rewrite <- Hlen at 1. rewrite native_bytes_value by done.
  destruct (m !! packet_saddr pkt) as [v|]; [|done]. unfold in_force.
  destruct (Z.eqb_spec (native_value host v) 0); cbn [negb orb]; [done|].
  rewrite Z.geb_leb, Z.ltb_antisym.
  by destruct (native_value host v <=? boot_ns / 1000000000).
Qed.

(** ** Properties *)

(** C9: the filter never reads past the packet, and drops exactly what it should.
    On any packet of bytes, however short, it returns a verdict without a memory
    fault; it drops the packet exactly when the frame is long enough, its
    EtherType is IPv4, its source address is a key of the map, and the stored
    expiry is 0 or later than the boot clock in whole seconds.  Everything else
    passes, on hosts of either byte order. *)
Theorem tc_ingress_blocker_correct host m boot_ns pkt :
  bytes pkt ->
  (exists v, tc_ingress_blocker host m boot_ns pkt = Some v /\ (v = TC_ACT_OK \/ v = TC_ACT_SHOT)) /\
  (tc_ingress_blocker host m boot_ns pkt = Some TC_ACT_SHOT <->
   (34 <= length pkt)%nat /\ take 2 (drop 12 pkt) = [8; 0] /\
   exists v, m !! take 4 (drop 26 pkt) = Some v /\
     (native_value host v = 0 \/ boot_ns / 1000000000 < native_value host v)).
Proof.
  intros Hp. rewrite tc_ingress_blocker_verdict by done.
  unfold verdict, is_ipv4_frame, packet_saddr, in_force. split.
  - eexists. split; [done|]. repeat case_match; auto.
  - destruct (Nat.leb_spec 34 (length pkt)); cbn [andb].
    2:{ split; [discriminate|intros [? _]; lia]. }
    case_bool_decide as Hty.
    2:{ split; [discriminate|intros (_ & ? & _); done]. }
    destruct (m !! take 4 (drop 26 pkt)) as [v|].
    2:{ split; [discriminate|intros (_ & _ & v & ? & _); discriminate]. }
    destruct (Z.eqb_spec (native_value host v) 0); cbn [orb].
    { split; [|done]. intros _. eauto 6. }
    destruct (Z.ltb_spec (boot_ns / 1000000000) (native_value host v)).
    + split; [|done]. intros _. eauto 6.
    + split; [discriminate|]. intros (_ & _ & v' & ? & Hor). simplify_eq. lia.
Qed.

(** A frame from the address [a.b.c.d]. *)
Definition demo_frame (saddr : list Z) : list Z :=
  replicate 12 1 ++ [8; 0] ++ replicate 12 2 ++ saddr ++ replicate 4 3.

Lemma tc_ingress_blocker_correct_witness :
  tc_ingress_blocker LittleEndian {[ [10; 0; 0; 1] := native_bytes LittleEndian 8 100 ]}
    99000000000 (demo_frame [10; 0; 0; 1]) = Some TC_ACT_SHOT /\
  tc_ingress_blocker LittleEndian {[ [10; 0; 0; 1] := native_bytes LittleEndian 8 100 ]}
    99000000000 (take 33 (demo_frame [10; 0; 0; 1])) <> Some TC_ACT_SHOT.
Proof.
  split.
  - apply (tc_ingress_blocker_correct LittleEndian _ 99000000000 (demo_frame [10; 0; 0; 1])).
    + cbv [demo_frame replicate app]. bytes_literal.
    + split; [vm_compute; lia|]. split; [reflexivity|].
      exists (native_bytes LittleEndian 8 100). split; [reflexivity|]. right. reflexivity.
  - intros H.
    apply (tc_ingress_blocker_correct LittleEndian _ 99000000000
             (take 33 (demo_frame [10; 0; 0; 1]))) in H as [H _].
    + vm_compute in H. lia.
    + apply Forall_take. cbv [demo_frame replicate app]. bytes_literal.
Defined.
