(* ===== verification/Loader.v ===== *)
(** * The loader's management API (ebpf/loader/main.go)

    The HTTP handlers over the shared map [blockedIPs].  What is not the
    repository's code is a parameter: [host] (the machine's byte order, in which
    the map library marshals integers), [json_error] (the text of the error that
    [encoding/json] reports for a body) and [rfc3339] (the printed form of a Unix
    time). *)

From S2P Require Import Prelude GoNet GoFloat GoText Json GoJson GoPrint GoStruct Http BpfMap.

Definition bpfPinPath : string := "/sys/fs/bpf/blocked_ips".
Definition defaultInterface : string := "eth0".

(** [getEnv]: [env] is [os.Getenv], empty for an unset variable. *)
Definition getEnv (env : string -> string) (key def : string) : string :=
  let v := env key in if bool_decide (v = "") then def else v.

(** ** Helpers *)

Definition ipToUint32 (s : string) : result Z :=
  match ParseIP s with
  | None => Err ("cannot parse " +:+ go_quote s +:+ " as IPv4")
  | Some ip =>
      match To4 ip with
      | None => Err (go_quote s +:+ " is not an IPv4 address")
      | Some ip4 => Ok (BigEndian_Uint32 ip4)
      end
  end.

Definition uint32ToIP (n : Z) : string :=
  match BigEndian_PutUint32 n with
  | [a; b; c; d] => dotted a b c d
  | _ => ""
  end.

(** ** Requests and replies *)

Record blockRequest := BlockRequest { req_IP : string; req_TTLSeconds : Z }.

Definition set_IP (x : string) (r : blockRequest) : blockRequest :=
  BlockRequest x (req_TTLSeconds r).
Definition set_TTLSeconds (x : Z) (r : blockRequest) : blockRequest := BlockRequest (req_IP r) x.

(** The struct tags. *)
Definition blockRequest_fields : list (field blockRequest) :=
  [Field "ip" KString set_IP; Field "ttl_seconds" (KInt 64) set_TTLSeconds].

(** [json.NewDecoder(r.Body).Decode(&req)]: one value; what follows it is not read. *)
Definition DecodeRequest (body : string) : option blockRequest :=
  v ← parse_first (to_text body);
  decode_struct blockRequest_fields (BlockRequest "" 0) v.

Record blockEntry := BlockEntry {
  ent_IP : string; ent_ExpiresAt : string; ent_TTLRemaining : Z
}.

Definition entry_json (e : blockEntry) : json :=
  JObject ([("ip", JString (ent_IP e))]
           ++ (if bool_decide (ent_ExpiresAt e = "") then []
               else [("expires_at", JString (ent_ExpiresAt e))])
           ++ [("ttl_remaining_seconds", JInt (ent_TTLRemaining e))]).

(** [s[n:]]: a slice expression, which panics past the end. *)
Definition slice_from (s : string) (n : nat) : outcome string :=
  if (n <=? String.length s)%nat
  then Returns (String.substring n (String.length s - n) s)
  else Panics "slice bounds out of range".

(** Paths that [cleanPath] of net/http leaves alone: they start with a slash, and no
    segment is empty (but for the last), a dot or two dots. *)
Definition is_clean (path : string) : bool :=
  match Split path "/" with
  | first :: segs =>
      bool_decide (first = "") && negb (bool_decide (segs = []))
      && forallb (fun s => negb (bool_decide (s = "" \/ s = "." \/ s = ".."))) (removelast segs)
      && negb (bool_decide (List.last segs "" = "." \/ List.last segs "" = ".."))
  | [] => false
  end.

Section Handlers.
Context {M : Type} `{BpfMap M}.
Variable host : endianness.
Variable json_error : string -> string.
Variable rfc3339 : Z -> string.

(** The expiry [handleAddBlock] stores: 64-bit arithmetic on Unix seconds. *)
Definition expiry_of (now ttl : Z) : Z :=
  if ttl >? 0 then uint64 (int64 (now + ttl)) else 0.

(** [handleAddBlock]: [now] is [time.Now().Unix()]. *)
Definition handleAddBlock (now : Z) (body : string) (m : M) : response * M :=
  match DecodeRequest body with
  | None => (http_Error ("invalid JSON: " +:+ json_error body) StatusBadRequest, m)
  | Some req =>
      if bool_decide (req_IP req = "") then
        (http_Error "ip field is required" StatusBadRequest, m)
      else
        match ipToUint32 (req_IP req) with
        | Err e => (http_Error ("invalid ip: " +:+ e) StatusBadRequest, m)
        | Ok ipKey =>
            let expiry := expiry_of now (req_TTLSeconds req) in
            match map_put (native_bytes host 4 ipKey) (native_bytes host 8 expiry) m with
            | (Err e, m') => (http_Error ("map put error: " +:+ e) StatusInternalServerError, m')
            | (Ok _, m') =>
                (json_reply StatusCreated [("status", "blocked"); ("ip", req_IP req)], m')
            end
        end
  end.

Definition handleRemoveBlock (ipStr : string) (m : M) : response * M :=
  match ipToUint32 ipStr with
  | Err e => (http_Error ("invalid ip: " +:+ e) StatusBadRequest, m)
  | Ok ipKey =>
      match map_delete (native_bytes host 4 ipKey) m with
      | (Err e, m') =>
          (http_Error ("ip not found or map error: " +:+ e) StatusNotFound, m')
      | (Ok _, m') => (json_reply StatusOK [("status", "unblocked"); ("ip", ipStr)], m')
      end
  end.

(** The body of the loop of [handleListBlocks]. *)
Definition list_entry (now : Z) (kv : list Z * list Z) : blockEntry :=
  let key := native_value host kv.1 in
  let expiry := native_value host kv.2 in
  let ip := uint32ToIP key in
  if expiry =? 0 then BlockEntry ip "never" (-1)
  else
    let exp := int64 expiry in
    let remaining := int64 (exp - now) in
    let remaining := if remaining <? 0 then 0 else remaining in
    BlockEntry ip (rfc3339 exp) remaining.

Definition handleListBlocks (now : Z) (m : M) : response :=
  let (es, err) := map_iterate m in
  let results := list_entry now <$> es in
  match err with
  | Some e => http_Error ("map iterate error: " +:+ e) StatusInternalServerError
  | None => Response StatusOK (JsonBody (JArray (entry_json <$> results)))
  end.

(** ** Routing *)

Record request := Request { r_Method : string; r_Path : string; r_Body : string }.

Definition method_not_allowed : response :=
  http_Error "method not allowed" StatusMethodNotAllowed.

Definition routeBlock (now : Z) (r : request) (m : M) : response * M :=
  if bool_decide (r_Method r = "POST") then handleAddBlock now (r_Body r) m
  else if bool_decide (r_Method r = "GET") then (handleListBlocks now m, m)
  else (method_not_allowed, m).

Definition routeBlockIP (r : request) : go M response := fun m =>
  if negb (bool_decide (r_Method r = "DELETE")) then (Returns method_not_allowed, m)
  else
    match slice_from (r_Path r) (String.length "/block/") with
    | Panics e => (Panics e, m)
    | Returns ipStr => let (resp, m') := handleRemoveBlock ipStr m in (Returns resp, m')
    end.

(** The two patterns [main] registers on the mux: [/block] and the subtree
    [/block/]; anything else is not found.  [http.ServeMux] answers a path that is
    not clean by a redirect (its body, a link, is left out). *)
Definition serve (now : Z) (r : request) : go M response := fun m =>
  if negb (bool_decide (r_Method r = "CONNECT")) && negb (is_clean (r_Path r)) then
    (Returns (Response StatusMovedPermanently (PlainText "")), m)
  else if bool_decide (r_Path r = "/block") then
    let (resp, m') := routeBlock now r m in (Returns resp, m')
  else if String.prefix "/block/" (r_Path r) then routeBlockIP r m
  else (Returns (http_Error "404 page not found" StatusNotFound), m).
End Handlers.

(** ** Lemmas *)

Lemma ipToUint32_Ok s n :
  ipToUint32 s = Ok n <->
  exists a b c d, text_to_ip4 s = Some [a; b; c; d] /\ bytes [a; b; c; d] /\
    n = BigEndian_Uint32 [a; b; c; d].
Proof.
  assert (ipToUint32 s = match text_to_ip4 s with
    | Some ip4 => Ok (BigEndian_Uint32 ip4)
    | None => match ParseIP s with
              | None => Err ("cannot parse " +:+ go_quote s +:+ " as IPv4")
              | Some _ => Err (go_quote s +:+ " is not an IPv4 address")
              end end) as ->.
  { unfold ipToUint32, text_to_ip4. destruct (ParseIP s) as [ip|]; [|done]. cbn.
    by destruct (To4 ip). }
  split.
  - destruct (text_to_ip4 s) as [ip4|] eqn:E; [|by case_match]. intros [= <-].
    destruct (text_to_ip4_bytes _ _ E) as (a & b & c & d & -> & Hb). eauto 8.
  - intros (a & b & c & d & E & Hb & ->). by rewrite E.
Qed.

Lemma uint32ToIP_bytes a b c d :
  bytes [a; b; c; d] -> uint32ToIP (BigEndian_Uint32 [a; b; c; d]) = dotted a b c d.
Proof. intros Hb. unfold uint32ToIP. by rewrite BigEndian_put_get. Qed.

Lemma ipToUint32_range s n : ipToUint32 s = Ok n -> 0 <= n < 2 ^ 32.
Proof.
  intros (a & b & c & d & _ & Hb & ->)%ipToUint32_Ok. by apply BigEndian_Uint32_range.
Qed.

Lemma expiry_range now ttl : 0 <= expiry_of now ttl < 2 ^ 64.
Proof. unfold expiry_of. case_match; [apply uint64_range|lia]. Qed.

Lemma slice_from_app p s : slice_from (p +:+ s) (String.length p) = Returns s.
Proof.
  unfold slice_from. rewrite append_length.
  rewrite (proj2 (Nat.leb_le _ _)) by lia. f_equal.
  replace (String.length p + String.length s - String.length p)%nat
    with (String.length s) by lia.
  induction p as [|c p IH]; [|exact IH].
  change ("" +:+ s) with s. induction s as [|c s IH]; [done|]. cbn. f_equal. exact IH.
Qed.

Section AddLemmas.
Context {M : Type} `{BpfMapLaws M}.
Variable host : endianness.
Variable json_error : string -> string.

(** What a 201 reply means for the map. *)
Lemma handleAddBlock_created now body (m m' : M) resp :
  handleAddBlock host json_error now body m = (resp, m') -> status resp = StatusCreated ->
  exists req n, DecodeRequest body = Some req /\ req_IP req <> "" /\ ipToUint32 (req_IP req) = Ok n /\
    map_put (native_bytes host 4 n) (native_bytes host 8 (expiry_of now (req_TTLSeconds req))) m
      = (Ok tt, m').
Proof.
  unfold handleAddBlock. destruct (DecodeRequest body) as [req|]; [|by intros [= <- <-]].
  case_bool_decide as Hne; [by intros [= <- <-]|].
  destruct (ipToUint32 (req_IP req)) as [n|e] eqn:En; [|by intros [= <- <-]].
  destruct (map_put _ _ m) as [[[]|e] m1] eqn:Ep; intros [= <- <-]; [|done].
  intros _. eauto 8.
Qed.

(** Any other reply leaves the map alone. *)
Lemma handleAddBlock_refused now body (m : M) :
  status (fst (handleAddBlock host json_error now body m)) <> StatusCreated ->
  snd (handleAddBlock host json_error now body m) = m.
Proof.
  unfold handleAddBlock. destruct (DecodeRequest body) as [req|]; [|done].
  case_bool_decide as Hne; [done|].
  destruct (ipToUint32 (req_IP req)) as [n|e] eqn:En; [|done].
  destruct (map_put _ _ m) as [[[]|e] m1] eqn:Ep; [done|].
  intros _. by apply put_err in Ep.
Qed.
End AddLemmas.

(** ** Lemmas: request bodies *)

Lemma blockRequest_names : distinct_names blockRequest_fields.
Proof. apply (bool_decide_unpack _). vm_compute. exact I. Qed.

(** What a client sends to block [ip]. *)
Definition body_members (ip : string) (ttl : Z) : list (text * jvalue) :=
  [(to_text "ip", VString (to_text ip)); (to_text "ttl_seconds", VNumber (to_text (pretty ttl)))].

Lemma body_slots ip ttl :
  is_int64 ttl = true -> Forall2 slot blockRequest_fields (body_members ip ttl).
Proof.
  intros Ht. rewrite <- fits_64 in Ht. unfold body_members, blockRequest_fields.
  repeat first [apply Forall2_nil; exact I | apply Forall2_cons; split];
    (split_and!; [vm_compute; reflexivity|reflexivity|]); cbn [f_kind snd].
  - rewrite convert_text. by eexists.
  - rewrite convert_pretty by done. by eexists.
Qed.

Lemma body_printable ip ttl extra kvs :
  ascii_text (to_text ip) -> Forall printable_pair extra -> kvs ≡ₚ body_members ip ttl ++ extra ->
  printable (VObject kvs).
Proof.
  intros Hip He Hperm. apply printable_object. rewrite Hperm. apply Forall_app. split; [|done].
  apply Forall_cons; split; [|apply Forall_cons; split; [|done]]; (split; [by repeat constructor|]).
  - exact Hip.
  - apply number_literal_pretty.
Qed.

(** ** Properties *)

(** The two address conversions are inverse.  Every 32-bit number is printed
    as a dotted-decimal text that [ipToUint32] reads back to the same number, and
    every text without a colon that [ipToUint32] accepts is printed back as it
    was; what it returns is a 32-bit number. *)
Theorem ipToUint32_roundtrip n s :
  (0 <= n < 2 ^ 32 -> ipToUint32 (uint32ToIP n) = Ok n) /\
  (has_char colon s = false -> ipToUint32 s = Ok n -> uint32ToIP n = s) /\
  (ipToUint32 s = Ok n -> 0 <= n < 2 ^ 32).
Proof.
  split; [|split].
  - intros Hn. apply ipToUint32_Ok. unfold uint32ToIP, BigEndian_PutUint32 at 1.
    pose proof (BigEndian_bytes n) as Hb. unfold BigEndian_PutUint32 in Hb.
    do 4 eexists. split; [by apply text_to_ip4_dotted|]. split; [done|].
    symmetry. by apply BigEndian_get_put.
  - intros Hc (a & b & c & d & Ht & Hb & ->)%ipToUint32_Ok.
    rewrite uint32ToIP_bytes by done. symmetry. by apply text_to_ip4_canonical.
  - apply ipToUint32_range.
Qed.

Lemma ipToUint32_roundtrip_witness :
  ipToUint32 (uint32ToIP 3232235783) = Ok 3232235783 /\ uint32ToIP 3232235783 = "192.168.1.7".
Proof.
  split.
  - apply (ipToUint32_roundtrip 3232235783 ""). lia.
  - apply (ipToUint32_roundtrip 3232235783 "192.168.1.7"); vm_compute; reflexivity.
Defined.

(** A body whose first value has these members. *)
Lemma DecodeRequest_members ip ttl extra kvs body :
  is_int64 ttl = true -> Forall (unknown blockRequest_fields) extra ->
  kvs ≡ₚ body_members ip ttl ++ extra -> parse_first (to_text body) = Some (VObject kvs) ->
  DecodeRequest body = Some (BlockRequest ip ttl).
Proof.
  intros Ht Hu Hperm Hparse. pose proof (body_slots ip ttl Ht) as Hslots.
  unfold DecodeRequest. rewrite Hparse. cbn [mbind option_bind decode_struct].
  destruct (store_payload _ blockRequest_names _ _ _ Hperm Hu Hslots (BlockRequest "" 0)) as [req E].
  rewrite E. f_equal.
  assert (NoDup ((fun kv => fold_name kv.1) <$> body_members ip ttl)) as Hnames.
  { apply (bool_decide_unpack _). vm_compute. exact I. }
  assert (req_IP req = read (Field "ip" KString set_IP) "" kvs /\
    req_TTLSeconds req = read (Field "ttl_seconds" (KInt 64) set_TTLSeconds) 0 kvs) as [E1 E2].
  { split; stored blockRequest_fields blockRequest_names. }
  destruct req as [ip' ttl']. cbn [req_IP req_TTLSeconds] in E1, E2. rewrite E1, E2. f_equal.
  - refine (slot_read _ _ _ _ (Field "ip" KString set_IP) _ _ _ Hnames Hperm Hu Hslots _
      (convert_text ip : convert _ (snd (to_text "ip", _)) = _)). in_list.
  - refine (slot_read _ _ _ _ (Field "ttl_seconds" (KInt 64) set_TTLSeconds) _ _ _ Hnames Hperm Hu
      Hslots _ (convert_pretty 64 ttl _ _ : convert _ (snd (to_text "ttl_seconds", _)) = _));
      [in_list|by rewrite fits_64|done].
Qed.

(** A printed object, whatever follows it. *)
Lemma parse_first_object kvs rest :
  Forall printable_pair kvs -> nesting (VObject kvs) <= maxNestingDepth ->
  parse_first (print (VObject kvs) ++ rest) = Some (VObject kvs).
Proof.
  intros Hp Hn. unfold parse_first. rewrite parse_print; [done|by apply printable_object| |done|done].
  unfold enough. lia.
Qed.

Lemma parse_first_blank body :
  Forall (fun c => is_space c = true) (to_text body) -> parse_first (to_text body) = None.
Proof.
  intros Hb. assert (skip_space (to_text body) = []) as Hs.
  { induction Hb as [|c l Hc _ IH]; [done|]. cbn [skip_space]. by rewrite Hc. }
  unfold parse_first, enough. cbn [parse_value]. by rewrite Hs.
Qed.

Section Properties.
Context {M : Type} `{BpfMapLaws M}.
Variable host : endianness.
Variable json_error : string -> string.
Variable rfc3339 : Z -> string.

(** C33: the body of [POST /block].  If the first value in it is a JSON object with an
    address and a 64-bit TTL, in any order and among members of other names, they are
    read back exactly, whatever follows: in particular from the object written in ASCII
    without spaces, with any bytes behind its closing brace.  A body that holds no
    value, because it is empty or white space, is answered 400; null or an object that
    has neither member is accepted as an empty request, which the handler answers 400
    for its missing address.  Neither changes the map. *)
Theorem DecodeRequest_body now ip ttl extra kvs (m : M) :
  is_int64 ttl = true -> Forall (unknown blockRequest_fields) extra ->
  kvs ≡ₚ body_members ip ttl ++ extra ->
  (forall body, parse_first (to_text body) = Some (VObject kvs) ->
     DecodeRequest body = Some (BlockRequest ip ttl)) /\
  (Forall printable_pair kvs -> nesting (VObject kvs) <= maxNestingDepth ->
     forall rest, DecodeRequest (of_text (print (VObject kvs) ++ rest)) = Some (BlockRequest ip ttl)) /\
  (forall body, Forall (fun c => is_space c = true) (to_text body) ->
     handleAddBlock host json_error now body m =
       (http_Error ("invalid JSON: " +:+ json_error body) StatusBadRequest, m)) /\
  (forall body, parse_first (to_text body) = Some VNull \/ parse_first (to_text body) = Some (VObject extra) ->
     DecodeRequest body = Some (BlockRequest "" 0) /\
     handleAddBlock host json_error now body m = (http_Error "ip field is required" StatusBadRequest, m)).
Proof.
  intros Ht Hu Hperm. split; [|split; [|split]].
  - intros body. by apply (DecodeRequest_members ip ttl extra).
  - intros Hp Hn rest. apply (DecodeRequest_members ip ttl extra kvs); [done..|].
    rewrite to_of_text. by apply parse_first_object.
  - intros body Hb. unfold handleAddBlock, DecodeRequest. by rewrite parse_first_blank.
  - intros body Hb. assert (DecodeRequest body = Some (BlockRequest "" 0)) as E.
    { unfold DecodeRequest. destruct Hb as [-> | ->]; [done|]. cbn [mbind option_bind decode_struct].
      by apply store_unknown; [apply blockRequest_names|]. }
    split; [done|]. unfold handleAddBlock. by rewrite E.
Qed.

(** The entry of a call that was answered 201. *)
Lemma created_listed now now' body req n (m m' : M) resp :
  handleAddBlock host json_error now body m = (resp, m') -> status resp = StatusCreated ->
  DecodeRequest body = Some req -> ipToUint32 (req_IP req) = Ok n ->
  0 <= now -> 0 <= now' -> is_int64 now' = true -> now + req_TTLSeconds req <= int64_max ->
  snd (map_iterate m') = None ->
  exists l, handleListBlocks host rfc3339 now' m' = Response StatusOK (JsonBody (JArray l)) /\
    entry_json (if req_TTLSeconds req <=? 0 then BlockEntry (uint32ToIP n) "never" (-1)
                else BlockEntry (uint32ToIP n) (rfc3339 (now + req_TTLSeconds req))
                       (Z.max 0 (now + req_TTLSeconds req - now'))) ∈ l.
Proof.
  intros Hadd Hst Hdec Hn Hnow Hnow' Hn64 Hmax Hit.
  destruct (handleAddBlock_created _ _ _ _ _ _ _ Hadd Hst) as (req' & n' & Hdec' & _ & Hip & Hput).
  rewrite Hdec in Hdec'. injection Hdec' as <-. rewrite Hn in Hip. injection Hip as <-.
  destruct (put_ok _ _ _ _ Hput) as (_ & _ & Hin & _).
  unfold handleListBlocks. destruct (map_iterate m') as [es err] eqn:Eit. cbn in Hit. subst err.
  eexists. split; [done|]. apply list_elem_of_fmap. eexists. split; [reflexivity|].
  apply list_elem_of_fmap. eexists (_, _). split.
  2:{ rewrite (iterate_all _ _ Eit). apply elem_of_map_to_list. exact Hin. }
  unfold list_entry. cbn [fst snd].
  rewrite !native_value_bytes; [|exact (ipToUint32_range _ _ Hn)|apply expiry_range].
  unfold expiry_of. set (ttl := req_TTLSeconds req) in *.
  apply is_int64_spec in Hn64. unfold int64_min, int64_max in *.
  destruct (Z.leb_spec ttl 0) as [Hneg|Hpos]; destruct (Z.gtb_spec ttl 0); try lia; [done|].
  rewrite (int64_id (now + ttl)), uint64_id by (unfold int64_min, int64_max; lia).
  destruct (Z.eqb_spec (now + ttl) 0); [lia|].
  rewrite (int64_id (now + ttl)) by (unfold int64_min, int64_max; lia).
  rewrite (int64_id (now + ttl - now')) by (unfold int64_min, int64_max; lia).
  f_equal. destruct (Z.ltb_spec (now + ttl - now') 0); lia.
Qed.

(** What was blocked is listed.  After [POST /block] answered 201 for an IPv4
    text, [GET /block] lists this very text, on hosts of either byte order: as
    never expiring when the TTL was not positive (so a negative TTL blocks
    forever), else with the seconds left until [now + ttl], down to 0. *)
Theorem handleAddBlock_listed now now' body req (m m' : M) resp :
  handleAddBlock host json_error now body m = (resp, m') -> status resp = StatusCreated ->
  DecodeRequest body = Some req -> has_char colon (req_IP req) = false ->
  0 <= now -> 0 <= now' -> is_int64 now' = true -> now + req_TTLSeconds req <= int64_max ->
  snd (map_iterate m') = None ->
  exists l, handleListBlocks host rfc3339 now' m' = Response StatusOK (JsonBody (JArray l)) /\
    entry_json (if req_TTLSeconds req <=? 0 then BlockEntry (req_IP req) "never" (-1)
                else BlockEntry (req_IP req) (rfc3339 (now + req_TTLSeconds req))
                       (Z.max 0 (now + req_TTLSeconds req - now'))) ∈ l.
Proof.
  intros Hadd Hst Hdec Hcol Hnow Hnow' Hn64 Hmax Hit.
  destruct (handleAddBlock_created _ _ _ _ _ _ _ Hadd Hst) as (req' & n & Hdec' & _ & Hip & _).
  rewrite Hdec in Hdec'. injection Hdec' as <-.
  assert (uint32ToIP n = req_IP req) as Hn.
  { apply ipToUint32_Ok in Hip as (a & b & c & d & Ht & Hb & ->).
    rewrite uint32ToIP_bytes by done. symmetry. by apply text_to_ip4_canonical. }
  rewrite <- Hn. by eapply created_listed.
Qed.

(** C38: what was blocked can be removed, once.  After a 201, [DELETE] of the same
    text answers 200 and takes exactly its key out of the map; a second [DELETE]
    answers 404 and changes nothing; a text that is not an IPv4 address is
    answered 400. *)
Theorem handleAddBlock_removable now body req (m m' : M) resp bad :
  handleAddBlock host json_error now body m = (resp, m') -> status resp = StatusCreated ->
  DecodeRequest body = Some req -> text_to_ip4 bad = None ->
  exists key m2,
    handleRemoveBlock host (req_IP req) m' =
      (json_reply StatusOK [("status", "unblocked"); ("ip", req_IP req)], m2) /\
    is_Some (map_view m' !! key) /\ map_view m2 = delete key (map_view m') /\
    status (fst (handleRemoveBlock host (req_IP req) m2)) = StatusNotFound /\
    snd (handleRemoveBlock host (req_IP req) m2) = m2 /\
    status (fst (handleRemoveBlock host bad m')) = StatusBadRequest.
Proof.
  intros Hadd Hst Hdec Hbad.
  destruct (handleAddBlock_created _ _ _ _ _ _ _ Hadd Hst) as (req' & n & Hdec' & _ & Hip & Hput).
  rewrite Hdec in Hdec'. injection Hdec' as <-.
  destruct (put_ok _ _ _ _ Hput) as (_ & _ & Hin & _).
  destruct (delete_present _ _ _ Hin) as (m2 & Ed & _ & _ & Hv).
  destruct (delete_absent (native_bytes host 4 n) m2) as [e He];
    [by rewrite Hv, lookup_delete_eq|].
  exists (native_bytes host 4 n), m2. unfold handleRemoveBlock. rewrite Hip, Ed, He.
  split_and!; [done|by eexists|done..|].
  destruct (ipToUint32 bad) as [n'|] eqn:Eb; [|done].
  apply ipToUint32_Ok in Eb as (a & b & c & d & Ht & _). congruence.
Qed.

(** The API on every request.  The dispatcher never panics (the slice of the
    path is always in range); it answers 405 to other methods on [/block], and on
    paths that are not its own 404, or 301 if they are not clean; and only a [POST]
    answered 201 or a [DELETE] answered 200 can change the map. *)
Theorem serve_total now r (m : M) :
  exists resp m', serve host json_error rfc3339 now r m = (Returns resp, m') /\
    (r_Path r = "/block" -> r_Method r <> "POST" -> r_Method r <> "GET" ->
       status resp = StatusMethodNotAllowed) /\
    (r_Path r <> "/block" -> String.prefix "/block/" (r_Path r) = false ->
       status resp = if is_clean (r_Path r) || bool_decide (r_Method r = "CONNECT")
                     then StatusNotFound else StatusMovedPermanently) /\
    (m' <> m -> (r_Method r = "POST" /\ r_Path r = "/block" /\ status resp = StatusCreated) \/
                (r_Method r = "DELETE" /\ String.prefix "/block/" (r_Path r) = true /\
                 status resp = StatusOK)).
Proof.
  unfold serve.
  destruct (negb (bool_decide (r_Method r = "CONNECT")) && negb (is_clean (r_Path r))) eqn:Hredir.
  { apply andb_true_iff in Hredir as [Hc Hcl]. apply negb_true_iff in Hc, Hcl.
    do 2 eexists. split; [reflexivity|]. split; [intros Heq; rewrite Heq in Hcl; vm_compute in Hcl; discriminate|].
    split; [intros _ _; by rewrite Hcl, Hc|done]. }
  set (own := is_clean (r_Path r) || bool_decide (r_Method r = "CONNECT")).
  assert (own = true) as Hor.
  { subst own. destruct (is_clean (r_Path r)), (bool_decide (r_Method r = "CONNECT")); done. }
  clearbody own. clear Hredir.
  case_bool_decide as Hp; [|destruct (String.prefix _ _) eqn:Hpre].
  - unfold routeBlock. case_bool_decide as Hpost; [|case_bool_decide as Hget].
    + destruct (handleAddBlock host json_error now (r_Body r) m) as [resp m'] eqn:Ea.
      exists resp, m'. split_and!; [done|done|done|]. intros Hne. left.
      split_and!; [done|done|]. destruct (decide (status resp = StatusCreated)) as [|Hst]; [done|].
      pose proof (handleAddBlock_refused host json_error now (r_Body r) m) as Hr.
      rewrite Ea in Hr. by destruct (Hne (Hr Hst)).
    + do 2 eexists. split_and!; [reflexivity|done..].
    + do 2 eexists. split_and!; [reflexivity|done..].
  - unfold routeBlockIP. case_bool_decide as Hdel; cbn [negb].
    2:{ do 2 eexists. split_and!; [reflexivity|done..]. }
    destruct (prefix_app _ _ Hpre) as [t Ht]. rewrite Ht, slice_from_app.
    destruct (handleRemoveBlock host t m) as [resp m'] eqn:Er.
    exists resp, m'. split_and!; [done|intros Heq; by rewrite <- Ht in Heq| |].
    + done.
    + intros Hne. right. split_and!; [done|done|].
      unfold handleRemoveBlock in Er. destruct (ipToUint32 t) as [n|]; [|by simplify_eq].
      destruct (map_view m !! native_bytes host 4 n) as [v|] eqn:Ev.
      * destruct (delete_present _ _ _ Ev) as (m2 & Ed & _). rewrite Ed in Er. by simplify_eq.
      * destruct (delete_absent _ _ Ev) as [e Ed]. rewrite Ed in Er. by simplify_eq.
  - do 2 eexists. split_and!; [reflexivity|done| |done]. intros _ _. by rewrite Hor.
Qed.
End Properties.

(** ** Witnesses *)

Definition demo_body : string := quotes "{'ip':'10.0.0.1','ttl_seconds':3600}".
Definition demo_error (_ : string) : string := "unexpected EOF".

Definition demo_add : response * LruMap.t :=
  handleAddBlock LittleEndian demo_error 1700000000 demo_body LruMap.blocked_ips.

(** Members in the other order, one more, and garbage behind; an object of no use. *)
Lemma DecodeRequest_body_witness :
  DecodeRequest (of_text (print (VObject ((to_text "why", VNull) ::
      rev (body_members "10.0.0.1" (-5)))) ++ to_text "1e")) = Some (BlockRequest "10.0.0.1" (-5)) /\
  handleAddBlock LittleEndian demo_error 1700000000 (quotes " {'why' : null}!") LruMap.blocked_ips =
    (http_Error "ip field is required" StatusBadRequest, LruMap.blocked_ips).
Proof.
  destruct (DecodeRequest_body LittleEndian demo_error 1700000000 "10.0.0.1" (-5) [(to_text "why", VNull)]
    ((to_text "why", VNull) :: rev (body_members "10.0.0.1" (-5))) LruMap.blocked_ips) as (_ & Hprint & _ & Hempty).
  - reflexivity.
  - repeat constructor.
  - cbn [rev body_members app]. etrans; [apply Permutation_cons_append|]. apply Permutation_swap.
  - split.
    + apply Hprint; [repeat constructor|apply Z.leb_le; vm_compute; reflexivity].
    + apply Hempty. right. vm_compute. reflexivity.
Defined.

Lemma handleAddBlock_listed_witness :
  exists l, handleListBlocks LittleEndian (fun _ => "t") 1700000600 (snd demo_add) =
      Response StatusOK (JsonBody (JArray l)) /\
    entry_json (BlockEntry "10.0.0.1" "t" 3000) ∈ l.
Proof.
  apply (handleAddBlock_listed LittleEndian demo_error (fun _ => "t") 1700000000 1700000600
           demo_body (BlockRequest "10.0.0.1" 3600) LruMap.blocked_ips (snd demo_add) (fst demo_add));
    try (vm_compute; reflexivity); vm_compute; discriminate.
Defined.

Lemma handleAddBlock_removable_witness :
  exists key m2,
    handleRemoveBlock LittleEndian "10.0.0.1" (snd demo_add) =
      (json_reply StatusOK [("status", "unblocked"); ("ip", "10.0.0.1")], m2) /\
    is_Some (map_view (snd demo_add) !! key) /\
    map_view m2 = delete key (map_view (snd demo_add)) /\
    status (fst (handleRemoveBlock LittleEndian "10.0.0.1" m2)) = StatusNotFound /\
    snd (handleRemoveBlock LittleEndian "10.0.0.1" m2) = m2 /\
    status (fst (handleRemoveBlock LittleEndian "::1" (snd demo_add))) = StatusBadRequest.
Proof.
  apply (handleAddBlock_removable LittleEndian demo_error 1700000000 demo_body
           (BlockRequest "10.0.0.1" 3600) LruMap.blocked_ips (snd demo_add) (fst demo_add) "::1");
    vm_compute; reflexivity.
Defined.

Lemma serve_total_witness :
  exists resp m', serve LittleEndian demo_error (fun _ => "t") 1700000000
      (Request "PUT" "/block" "") LruMap.blocked_ips = (Returns resp, m') /\
    status resp = StatusMethodNotAllowed.
Proof.
  destruct (serve_total LittleEndian demo_error (fun _ => "t") 1700000000
              (Request "PUT" "/block" "") LruMap.blocked_ips) as (resp & m' & E & H405 & _).
  exists resp, m'. split; [exact E|]. apply H405; [reflexivity|discriminate..].
Defined.
