(* ===== verification/Filter.v ===== *)
(** * From an API call to a dropped packet

    The layers around the kernel map put together: what the loader's
    [handleAddBlock] and the engine's [Blocklist.Add] write, and what
    [tc_ingress_blocker] makes of it on the packets that arrive. *)

From S2P Require Import Prelude GoNet Json GoPrint Http BpfMap Kernel Blocklist Loader.

Section Loader_to_kernel.
Context {M : Type} `{BpfMapLaws M}.
Variable host : endianness.
Variable json_error : string -> string.

(** The bytes under which the loader stores an address. *)
Definition stored_key (a b c d : Z) : list Z :=
  match host with LittleEndian => [d; c; b; a] | BigEndian => [a; b; c; d] end.

(** The call answered 201 for the address [a.b.c.d]. *)
Definition blocked (now : Z) (body : string) (a b c d ttl : Z) (m m' : M) : Prop :=
  bytes [a; b; c; d] /\ DecodeRequest body = Some (BlockRequest (dotted a b c d) ttl) /\
  exists resp, handleAddBlock host json_error now body m = (resp, m') /\
    status resp = StatusCreated.

Lemma blocked_stored now body a b c d ttl m m' :
  blocked now body a b c d ttl m m' ->
  map_view m' !! stored_key a b c d = Some (native_bytes host 8 (expiry_of now ttl)) /\
  forall k, k <> stored_key a b c d ->
    map_view m' !! k = map_view m !! k \/ map_view m' !! k = None.
Proof.
  intros (Hb & Hdec & resp & Hadd & Hst).
  destruct (handleAddBlock_created _ _ _ _ _ _ _ Hadd Hst) as (req & n & Hdec' & _ & Hip & Hput).
  rewrite Hdec in Hdec'. injection Hdec' as <-. cbn [req_IP req_TTLSeconds] in *.
  assert (native_bytes host 4 n = stored_key a b c d) as Hkey.
  { apply ipToUint32_Ok in Hip as (a' & b' & c' & d' & Ht & _ & ->).
    rewrite text_to_ip4_dotted in Ht by done. injection Ht as <- <- <- <-.
    by apply native_bytes_Uint32. }
  rewrite Hkey in Hput. destruct (put_ok _ _ _ _ Hput) as (_ & _ & Hin & Hoth). done.
Qed.

(** The expiry read back by the kernel. *)
Lemma stored_in_force now ttl boot_ns :
  0 <= now -> now + ttl <= int64_max ->
  in_force host boot_ns (native_bytes host 8 (expiry_of now ttl)) =
    (ttl <=? 0) || (boot_ns / 1000000000 <? now + ttl).
Proof.
  intros Hnow Hmax. unfold in_force.
  rewrite native_value_bytes by apply expiry_range. unfold expiry_of.
  destruct (Z.leb_spec ttl 0); destruct (Z.gtb_spec ttl 0); [lia|done| |lia].
  unfold int64_max in Hmax.
  rewrite (int64_id (now + ttl)), uint64_id by (unfold int64_min, int64_max; lia).
  destruct (Z.eqb_spec (now + ttl) 0); [lia|done].
Qed.

Lemma verdict_from now body a b c d ttl m m' boot_ns pkt :
  blocked now body a b c d ttl m m' -> 0 <= now -> now + ttl <= int64_max ->
  bytes pkt -> is_ipv4_frame pkt = true -> packet_saddr pkt = stored_key a b c d ->
  tc_ingress_blocker host (map_view m') boot_ns pkt =
    Some (if (ttl <=? 0) || (boot_ns / 1000000000 <? now + ttl) then TC_ACT_SHOT else TC_ACT_OK).
Proof.
  intros Hbl Hnow Hmax Hp Hf Hs. rewrite tc_ingress_blocker_verdict by done.
  unfold verdict. rewrite Hf, Hs, (proj1 (blocked_stored _ _ _ _ _ _ _ _ _ Hbl)).
  by rewrite stored_in_force.
Qed.
End Loader_to_kernel.

(** ** Properties *)

Section Properties.
Context {M : Type} `{BpfMapLaws M}.
Variable json_error : string -> string.

(** Blocking works on big-endian hosts.  After [POST /block] answered 201
    for [a.b.c.d], every IPv4 frame from this address is dropped when the TTL was
    not positive, and otherwise exactly while the boot clock (seconds since boot)
    is below the stored expiry [now + ttl]. *)
Theorem block_drops_big_endian now body a b c d ttl (m m' : M) boot_ns pkt :
  blocked BigEndian json_error now body a b c d ttl m m' ->
  0 <= now -> now + ttl <= int64_max ->
  bytes pkt -> is_ipv4_frame pkt = true -> packet_saddr pkt = [a; b; c; d] ->
  tc_ingress_blocker BigEndian (map_view m') boot_ns pkt = Some TC_ACT_SHOT <->
    ttl <= 0 \/ boot_ns / 1000000000 < now + ttl.
Proof.
  intros Hbl Hnow Hmax Hp Hf Hs. rewrite (verdict_from BigEndian json_error now body a b c d ttl m m') by done.
  rewrite <- Z.leb_le, <- Z.ltb_lt, <- orb_true_iff.
  by destruct ((ttl <=? 0) || _).
Qed.

(** C20: blocking hits the wrong address on little-endian hosts (x86, arm64).
    [ipToUint32] returns the big-endian number and the map library lays it out in
    the host's order, so the key is the reversed address.  After a 201 for
    [a.b.c.d], a frame from [a.b.c.d] passes (unless the text reads the same
    reversed, or the map held that key before) and a frame from [d.c.b.a], which
    nobody blocked, is dropped for as long as the block is in force. *)
Theorem block_reversed_little_endian now body a b c d ttl (m m' : M) boot_ns pkt :
  blocked LittleEndian json_error now body a b c d ttl m m' ->
  0 <= now -> now + ttl <= int64_max -> bytes pkt -> is_ipv4_frame pkt = true ->
  (packet_saddr pkt = [a; b; c; d] -> a <> d \/ b <> c -> map_view m !! [a; b; c; d] = None ->
     tc_ingress_blocker LittleEndian (map_view m') boot_ns pkt = Some TC_ACT_OK) /\
  (packet_saddr pkt = [d; c; b; a] -> ttl <= 0 \/ boot_ns / 1000000000 < now + ttl ->
     tc_ingress_blocker LittleEndian (map_view m') boot_ns pkt = Some TC_ACT_SHOT).
Proof.
  intros Hbl Hnow Hmax Hp Hf. split.
  - intros Hs Hne Hm. rewrite tc_ingress_blocker_verdict by done. unfold verdict. rewrite Hf, Hs.
    destruct (blocked_stored LittleEndian json_error _ _ _ _ _ _ _ _ _ Hbl) as [_ Hoth].
    assert ([a; b; c; d] <> stored_key LittleEndian a b c d) as Hk 
      by (cbn; intros [=]; destruct Hne; congruence).
    destruct (Hoth _ Hk) as [-> | ->]; [by rewrite Hm|done].
  - intros Hs Hforce. rewrite (verdict_from LittleEndian json_error now body a b c d ttl m m') by done.
    rewrite <- Z.leb_le, <- Z.ltb_lt, <- orb_true_iff in Hforce. by rewrite Hforce.
Qed.

(** C32: a block outlives its TTL by the time of boot.  The loader stores Unix
    time and the filter compares it with the seconds since boot.  With the machine
    booted at Unix second [booted] (whole nanoseconds of uptime), a frame matching
    the key of a block with a positive TTL is still dropped at Unix time [t]
    exactly when [t < now + ttl + booted], although [GET /block], if its iteration of
    the map succeeds, lists the address with 0 seconds left from [now + ttl] on. *)
Theorem block_outlives_ttl host rfc3339 now body a b c d ttl (m m' : M) booted t pkt :
  blocked host json_error now body a b c d ttl m m' ->
  0 < ttl -> 0 <= now -> now + ttl <= int64_max ->
  bytes pkt -> is_ipv4_frame pkt = true -> packet_saddr pkt = stored_key host a b c d ->
  (tc_ingress_blocker host (map_view m') ((t - booted) * 1000000000) pkt = Some TC_ACT_SHOT <->
    t < now + ttl + booted) /\
  (now + ttl <= t <= int64_max -> snd (map_iterate m') = None ->
   exists l, handleListBlocks host rfc3339 t m' = Response StatusOK (JsonBody (JArray l)) /\
     entry_json (BlockEntry (dotted a b c d) (rfc3339 (now + ttl)) 0) ∈ l).
Proof.
  intros Hbl Hpos Hnow Hmax Hp Hf Hs. split.
  - rewrite (verdict_from host json_error now body a b c d ttl m m') by done.
    rewrite Z.div_mul by done.
    destruct (Z.leb_spec ttl 0); [lia|]. cbn [orb].
    destruct (Z.ltb_spec (t - booted) (now + ttl)).
    + split; [intros _; lia|done].
    + split; [discriminate|lia].
  - intros Ht Hit. destruct Hbl as (Hb & Hdec & resp & Hadd & Hst).
    assert (ipToUint32 (dotted a b c d) = Ok (BigEndian_Uint32 [a; b; c; d])) as Hip.
    { apply ipToUint32_Ok. exists a, b, c, d. by rewrite text_to_ip4_dotted. }
    destruct (created_listed host json_error rfc3339 now t body _ _ m m' resp Hadd Hst Hdec Hip)
      as (l & El & Hin); [lia|lia|apply is_int64_spec; unfold int64_min; lia|cbn; lia|done|].
    exists l. split; [done|]. cbn [req_TTLSeconds] in Hin. rewrite uint32ToIP_bytes in Hin by done.
    destruct (Z.leb_spec ttl 0); [lia|]. by rewrite Z.max_l in Hin by lia.
Qed.

(** C34: the engine and the loader do not share a map.  When the only pinned map
    is the one the loader pins, [Blocklist.New] finds nothing at its own path and
    runs in no-op mode; and even handed the loader's map, [Add] leaves every
    packet's verdict as it was.  So no decision of the engine reaches the
    filter. *)
Theorem engine_block_without_effect host load ip (m : M) boot_ns pkt :
  (forall p, p <> bpfPinPath -> exists e, load p = Err e) ->
  tc_map_shape m ->
  Add host (New load) ip m = (Ok tt, m) /\
  forall bl, tc_ingress_blocker host (map_view (snd (Add host bl ip m))) boot_ns pkt =
             tc_ingress_blocker host (map_view m) boot_ns pkt.
Proof.
  intros Hload [_ Hv]. split.
  - unfold New. destruct (Hload pinnedMapPath) as [e ->]; [discriminate|]. done.
  - intros bl. unfold Add. destruct (b_open bl); [|done]. cbn [negb].
    destruct (ipToKey ip) as [key|]; [|done].
    destruct (put_size key (native_bytes host 4 1) m) as [e ->]; [|done].
    right. rewrite length_native_bytes, Hv. done.
Qed.
End Properties.

(** ** Witnesses *)

Definition demo_body60 : string := quotes "{'ip':'10.0.0.1','ttl_seconds':60}".

Definition demo_blocked_map (host : endianness) : LruMap.t :=
  snd (handleAddBlock host demo_error 1000 demo_body60 LruMap.blocked_ips).

Lemma demo_blocked host :
  blocked host demo_error 1000 demo_body60 10 0 0 1 60 LruMap.blocked_ips (demo_blocked_map host).
Proof.
  split; [bytes_literal|]. split; [reflexivity|].
  exists (json_reply StatusCreated [("status", "blocked"); ("ip", "10.0.0.1")]).
  split; [|reflexivity]. destruct host; vm_compute; reflexivity.
Qed.

Lemma demo_frame_bytes saddr : bytes saddr -> bytes (demo_frame saddr).
Proof.
  intros H. unfold demo_frame, bytes. rewrite !Forall_app. repeat split; [..|done|];
    cbn; bytes_literal.
Qed.

Lemma block_drops_big_endian_witness :
  tc_ingress_blocker BigEndian (map_view (demo_blocked_map BigEndian)) 1059999999999
    (demo_frame [10; 0; 0; 1]) = Some TC_ACT_SHOT.
Proof.
  apply (block_drops_big_endian demo_error 1000 demo_body60 10 0 0 1 60 LruMap.blocked_ips
           (demo_blocked_map BigEndian) 1059999999999 (demo_frame [10; 0; 0; 1]));
    [apply demo_blocked|lia|vm_compute; discriminate|apply demo_frame_bytes; bytes_literal|
     reflexivity|reflexivity|].
  right. vm_compute. reflexivity.
Defined.

Lemma block_reversed_little_endian_witness :
  tc_ingress_blocker LittleEndian (map_view (demo_blocked_map LittleEndian)) 5
    (demo_frame [10; 0; 0; 1]) = Some TC_ACT_OK /\
  tc_ingress_blocker LittleEndian (map_view (demo_blocked_map LittleEndian)) 5
    (demo_frame [1; 0; 0; 10]) = Some TC_ACT_SHOT.
Proof.
  split.
  - apply (block_reversed_little_endian demo_error 1000 demo_body60 10 0 0 1 60 LruMap.blocked_ips
             (demo_blocked_map LittleEndian) 5 (demo_frame [10; 0; 0; 1]));
      [apply demo_blocked|lia|vm_compute; discriminate|apply demo_frame_bytes; bytes_literal|
       reflexivity|reflexivity|left; discriminate|reflexivity].
  - apply (block_reversed_little_endian demo_error 1000 demo_body60 10 0 0 1 60 LruMap.blocked_ips
             (demo_blocked_map LittleEndian) 5 (demo_frame [1; 0; 0; 10]));
      [apply demo_blocked|lia|vm_compute; discriminate|apply demo_frame_bytes; bytes_literal|
       reflexivity|reflexivity|right; vm_compute; reflexivity].
Defined.

(** Booted at Unix second 900, blocked at 1000 for 60 s, still dropped at 1900, when it is
    listed as over. *)
Lemma block_outlives_ttl_witness :
  tc_ingress_blocker BigEndian (map_view (demo_blocked_map BigEndian)) ((1900 - 900) * 1000000000)
    (demo_frame [10; 0; 0; 1]) = Some TC_ACT_SHOT /\
  exists l, handleListBlocks BigEndian (fun _ => "t") 1900 (demo_blocked_map BigEndian) =
      Response StatusOK (JsonBody (JArray l)) /\ entry_json (BlockEntry "10.0.0.1" "t" 0) ∈ l.
Proof.
  destruct (block_outlives_ttl demo_error BigEndian (fun _ => "t") 1000 demo_body60 10 0 0 1 60 LruMap.blocked_ips
           (demo_blocked_map BigEndian) 900 1900 (demo_frame [10; 0; 0; 1])) as [Hdrop Hlist];
    [apply demo_blocked|lia|lia|vm_compute; discriminate|apply demo_frame_bytes; bytes_literal|
     reflexivity|reflexivity|].
  split; [apply Hdrop; lia|]. apply Hlist; [vm_compute; split; discriminate|vm_compute; reflexivity].
Defined.

Lemma engine_block_without_effect_witness :
  Add LittleEndian (New (fun p => if bool_decide (p = bpfPinPath) then Ok tt else Err "no such file"))
    "10.0.0.1" LruMap.blocked_ips = (Ok tt, LruMap.blocked_ips).
Proof.
  apply (engine_block_without_effect LittleEndian
           (fun p => if bool_decide (p = bpfPinPath) then Ok tt else Err "no such file")
           "10.0.0.1" LruMap.blocked_ips 0 []).
  - intros p Hp. rewrite bool_decide_eq_false_2 by done. by eexists.
  - split; reflexivity.
Defined.
