(* ===== verification/Attach.v ===== *)
(** * Loading and attaching the filter (ebpf/loader/main.go)

    [loadAndAttach] and [ensureClsactQdisc] over an interface [BpfOs] to the BPF
    library, the traffic-control netlink library and the file system, with what
    those document as [BpfLaws].  Kernel maps are known by an identity, so that
    "which map does the running filter read" can be asked. *)

From S2P Require Import Prelude GoFloat GoText Json Http GoNet BpfMap Loader.

(** ** The libraries *)

Inductive pin_type := PinNone | PinByName.

Record MapSpec := MkMapSpec {
  ms_Name : string; ms_Type : string; ms_KeySize : Z; ms_ValueSize : Z; ms_MaxEntries : Z;
  ms_Pinning : pin_type
}.

Record CollectionSpec := MkCollectionSpec {
  spec_Maps : gmap string MapSpec; spec_Programs : list string
}.

(** Maps by identity, programs by file descriptor. *)
Record Collection := MkCollection { col_Maps : gmap string nat; col_Programs : gmap string Z }.

(** A traffic-control object: [bpf] is (FD, Name, Flags). *)
Record tc_Object := MkObject {
  tc_Ifindex : Z; tc_Handle : Z; tc_Parent : Z; tc_Info : Z; tc_Kind : string;
  tc_BPF : option (Z * string * Z)
}.

Class BpfOs (O : Type) := {
  tc_BuildHandle : Z -> Z -> Z;
  tc_Ingress : Z;
  tc_HandleRoot : Z;
  os_stat : string -> O -> bool;
  LoadCollectionSpec : string -> O -> result CollectionSpec;
  LoadPinnedMap : string -> O -> result nat;
  NewCollectionWithOptions : CollectionSpec -> string -> io O Collection;
  InterfaceByName : string -> O -> result Z;
  tc_Open : O -> option error;
  Qdisc_Add : tc_Object -> O -> option error * O;
  Filter_Replace : tc_Object -> O -> option error * O;
  (** observations: what is pinned where, the maps behind a program's descriptor,
      and the maps of the program attached to an interface *)
  pinned : O -> string -> option nat;
  fd_maps : O -> Z -> option (gmap string nat);
  attached : O -> Z -> option (gmap string nat)
}.

Definition pin_path (dir name : string) : string := dir +:+ "/" +:+ name.

(** [id] is a map that no path of [o] names. *)
Definition unpinned {O} `{BpfOs O} (o : O) (id : nat) : Prop := forall p, pinned o p <> Some id.

Class BpfLaws (O : Type) `{BpfOs O} : Prop := {
  stat_law p o id : pinned o p = Some id -> os_stat p o = true;
  load_pinned_law p o id : LoadPinnedMap p o = Ok id -> pinned o p = Some id;
  (** creating a collection: a map pinned by name is reused or created and pinned;
      any other map is new and not pinned *)
  collection_law spec dir o c o' name ms :
    NewCollectionWithOptions spec dir o = (Ok c, o') -> spec_Maps spec !! name = Some ms ->
    exists id, col_Maps c !! name = Some id /\
      match ms_Pinning ms with
      | PinByName =>
          match pinned o (pin_path dir (ms_Name ms)) with
          | Some id' => id = id'
          | None => True
          end /\ pinned o' (pin_path dir (ms_Name ms)) = Some id
      | PinNone => unpinned o id /\ unpinned o' id
      end;
  collection_frame spec dir o r o' :
    NewCollectionWithOptions spec dir o = (r, o') ->
    attached o' = attached o /\ (forall iface, InterfaceByName iface o' = InterfaceByName iface o) /\
    forall p id, pinned o p = Some id -> pinned o' p = Some id;
  program_law spec dir o c o' name fd :
    NewCollectionWithOptions spec dir o = (Ok c, o') -> col_Programs c !! name = Some fd ->
    0 <= fd < 2 ^ 32 /\ fd_maps o' fd = Some (col_Maps c);
  qdisc_frame q o r o' : Qdisc_Add q o = (r, o') ->
    attached o' = attached o /\ fd_maps o' = fd_maps o /\ pinned o' = pinned o;
  filter_ok f o o' fd name flags :
    Filter_Replace f o = (None, o') -> tc_BPF f = Some (fd, name, flags) ->
    pinned o' = pinned o /\ attached o' (tc_Ifindex f) = fd_maps o fd /\
    (forall i, i <> tc_Ifindex f -> attached o' i = attached o i);
  filter_err f o e o' : Filter_Replace f o = (Some e, o') -> attached o' = attached o
}.

(** ** The code *)

Definition bpfObjPath : string := "tc_blocker.o".

(** [filepath.Dir] of a clean path: up to the last slash. *)
Definition Dir (path : string) : string :=
  let l := reverse (to_text path) in
  of_text (reverse (tail ((fix skip l := match l with
    | [] => []
    | c :: l' => if Ascii.eqb c "/" then l else skip l'
    end) l))).

(** [fmt.Sscanf(s, "errno %d", p)] gets as far as storing an integer. *)
Definition scans_errno (s : string) : bool :=
  if String.prefix "errno " s then
    let fix blanks l := match l with
      | c :: l' => if Ascii.eqb c " " then blanks l' else l
      | [] => []
      end in
    let '(_, l) := read_sign (blanks (drop 6 (to_text s))) in
    match l with c :: _ => is_digit c | [] => false end
  else false.

(** [isEexist] on the text of a non-nil error: storing through the nil pointer
    panics. *)
Definition isEexist (err : error) : outcome bool :=
  if scans_errno err then Panics "runtime error: invalid memory address or nil pointer dereference"
  else Returns (bool_decide (err = "file exists") || bool_decide (err = "errno 17")).

Section Attach.
Context {O : Type} `{BpfOs O}.

(** [x, err := m; if err != nil { return nil, wrapped }; k x] *)
Definition try {A B} (prefix : string) (r : result A) (k : A -> go O (result B)) : go O (result B) :=
  match r with Err e => mret (Err (prefix +:+ ": " +:+ e)) | Ok a => k a end.

(** The same for a call that changes the state. *)
Definition try_io {A B} (prefix : string) (m : io O A) (k : A -> go O (result B))
    : go O (result B) :=
  r ← go_lift m; try prefix r k.

(** A call that only returns an error. *)
Definition err_result (e : option error) : result unit :=
  match e with Some e => Err e | None => Ok tt end.

Definition ensureClsactQdisc (ifindex : Z) : go O (option error) := fun o =>
  match tc_Open o with
  | Some err => (Returns (Some err), o)
  | None =>
      let qdisc := MkObject (uint32 ifindex) (tc_BuildHandle 65535 0) tc_HandleRoot 0 "clsact" None in
      match Qdisc_Add qdisc o with
      | (None, o') => (Returns None, o')
      | (Some err, o') =>
          match isEexist err with
          | Panics msg => (Panics msg, o')
          | Returns true => (Returns None, o')
          | Returns false => (Returns (Some ("Qdisc.Add clsact: " +:+ err)), o')
          end
      end
  end.

(** Step 2: the map specification to load with, and whether a pinned map was
    opened.  The replacement leaves [Pinning] at its zero value. *)
Definition reuse_pin (spec : CollectionSpec) (mapSpec : MapSpec) (o : O)
    : result (CollectionSpec * bool) :=
  if os_stat bpfPinPath o then
    match LoadPinnedMap bpfPinPath o with
    | Err e => Err ("LoadPinnedMap(" +:+ bpfPinPath +:+ "): " +:+ e)
    | Ok _ =>
        Ok (MkCollectionSpec
              (<["blocked_ips" := MkMapSpec (ms_Name mapSpec) (ms_Type mapSpec) (ms_KeySize mapSpec)
                                    (ms_ValueSize mapSpec) (ms_MaxEntries mapSpec) PinNone]>
                 (spec_Maps spec))
              (spec_Programs spec), true)
    end
  else Ok (spec, false).

Definition filter_object (ifindex fd : Z) : tc_Object :=
  MkObject (uint32 ifindex) (tc_BuildHandle 65535 0) tc_Ingress 768 "bpf"
    (Some (uint32 fd, "tc_ingress_blocker", 1)).

(** Steps 4 to 6. *)
Definition attach (iface : string) (coll : Collection) : go O (result nat) :=
  match col_Programs coll !! "tc_ingress_blocker" with
  | None => mret (Err "program 'tc_ingress_blocker' not found in collection")
  | Some fd =>
      netIface ← go_gets (InterfaceByName iface);
      try ("InterfaceByName(" +:+ iface +:+ ")") netIface (fun index =>
      e ← ensureClsactQdisc index;
      try "ensureClsactQdisc" (err_result e) (fun _ =>
      e ← go_gets tc_Open;
      try "tc.Open" (err_result e) (fun _ =>
      e ← go_lift (Filter_Replace (filter_object index fd));
      try "tc Filter.Replace" (err_result e) (fun _ =>
      openedMap ← go_gets (LoadPinnedMap bpfPinPath);
      try "LoadPinnedMap (post-load)" openedMap (fun m => mret (Ok m))))))
  end.

Definition loadAndAttach (iface : string) : go O (result nat) :=
  spec ← go_gets (LoadCollectionSpec bpfObjPath);
  try ("LoadCollectionSpec(" +:+ bpfObjPath +:+ ")") spec (fun spec =>
  match spec_Maps spec !! "blocked_ips" with
  | None => mret (Err ("map 'blocked_ips' not found in " +:+ bpfObjPath))
  | Some mapSpec =>
      reused ← go_gets (reuse_pin spec mapSpec);
      match reused with
      | Err e => mret (Err e)
      | Ok (spec, pinnedMap) =>
          (* both branches build the same options *)
          let opts := if pinnedMap : bool then Dir bpfPinPath else Dir bpfPinPath in
          try_io "NewCollection" (NewCollectionWithOptions spec opts) (attach iface)
      end
  end).

(** [main] up to the servers: the map handle the API handlers share. *)
Definition main (env : string -> string) (RemoveMemlock : option error) : go O (result nat) :=
  let iface := getEnv env "IFACE" defaultInterface in
  match RemoveMemlock with
  | Some e => mret (Err ("[ebpf-loader] RemoveMemlock: " +:+ e))
  | None =>
      r ← loadAndAttach iface;
      match r with
      | Err e => mret (Err ("[ebpf-loader] loadAndAttach: " +:+ e))
      | Ok m => mret (Ok m)
      end
  end.
End Attach.

(** ** Lemmas *)

Section Lemmas.
Context {O : Type} `{BpfLaws O}.

Lemma go_bind_lift {S A B} (f : S -> A * S) (k : A -> go S B) s a s' :
  f s = (a, s') -> (go_lift f ≫= k) s = k a s'.
Proof. intros E. unfold mbind, go_bind, go_lift. by rewrite E. Qed.

Lemma go_bind_gets {S A B} (f : S -> A) (k : A -> go S B) s :
  (go_gets f ≫= k) s = k (f s) s.
Proof. done. Qed.

(** The qdisc step leaves filters, programs and pins alone. *)
Lemma ensureClsactQdisc_frame index (o : O) r o' :
  ensureClsactQdisc index o = (r, o') ->
  attached o' = attached o /\ fd_maps o' = fd_maps o /\ pinned o' = pinned o.
Proof.
  unfold ensureClsactQdisc. destruct (tc_Open o); [by intros [= <- <-]|].
  destruct (Qdisc_Add _ o) as [[err|] o1] eqn:Eq; apply qdisc_frame in Eq.
  - destruct (isEexist err) as [[]|]; by intros [= <- <-].
  - by intros [= <- <-].
Qed.

(** What a run of the last steps amounts to. *)
Definition attach_outcome (iface : string) (coll : Collection) (o : O) (r : outcome (result nat)) (o' : O) : Prop :=
  match r with
  | Returns (Ok m) =>
      exists fd index, col_Programs coll !! "tc_ingress_blocker" = Some fd /\
        InterfaceByName iface o = Ok index /\
        pinned o' = pinned o /\ pinned o' bpfPinPath = Some m /\
        attached o' (uint32 index) = fd_maps o (uint32 fd)
  | Returns (Err e) =>
      attached o' = attached o \/ (exists msg, e = "LoadPinnedMap (post-load): " +:+ msg) /\
      exists fd index, col_Programs coll !! "tc_ingress_blocker" = Some fd /\
        InterfaceByName iface o = Ok index /\ attached o' (uint32 index) = fd_maps o (uint32 fd) /\
        (forall i, i <> uint32 index -> attached o' i = attached o i)
  | Panics _ => attached o' = attached o
  end.

Lemma attach_spec iface coll (o : O) r o' :
  attach iface coll o = (r, o') -> attach_outcome iface coll o r o'.
Proof.
  unfold attach. destruct (col_Programs coll !! _) as [fd|] eqn:Efd.
  2:{ intros [= <- <-]. by left. }
  rewrite go_bind_gets. destruct (InterfaceByName iface o) as [index|] eqn:Ei; cbn [try].
  2:{ intros [= <- <-]. by left. }
  unfold mbind at 1, go_bind at 1.
  destruct (ensureClsactQdisc index o) as [[qe|msg] o1] eqn:Eq;
    apply ensureClsactQdisc_frame in Eq as (Ha & Hf & Hp).
  2:{ by intros [= <- <-]. }
  destruct qe as [qe|]; cbn [err_result try].
  { intros [= <- <-]. left. done. }
  rewrite go_bind_gets. destruct (tc_Open o1); cbn [err_result try].
  { intros [= <- <-]. left. done. }
  destruct (Filter_Replace (filter_object index fd) o1) as [fe o2] eqn:Er.
  rewrite (go_bind_lift _ _ _ _ _ Er). destruct fe as [fe|]; cbn [err_result try].
  { intros [= <- <-]. left. apply filter_err in Er. congruence. }
  eapply filter_ok in Er as (Hp2 & Ha2 & Hother); [|reflexivity].
  cbn [tc_Ifindex filter_object] in Ha2, Hother.
  rewrite go_bind_gets. destruct (LoadPinnedMap bpfPinPath o2) as [m|e] eqn:El; cbn [try];
    intros [= <- <-].
  - exists fd, index. apply load_pinned_law in El.
    split_and!; [done|done|congruence|done|congruence].
  - right. split; [by exists e|]. exists fd, index. split_and!; [done|done|congruence|].
    intros i Hne. rewrite (Hother i Hne). by rewrite Ha.
Qed.

(** What a run of [loadAndAttach] amounts to. *)
Lemma loadAndAttach_spec iface (o : O) r o' :
  loadAndAttach iface o = (r, o') ->
  (exists spec mapSpec spec' reused coll o1,
     LoadCollectionSpec bpfObjPath o = Ok spec /\ spec_Maps spec !! "blocked_ips" = Some mapSpec /\
     reuse_pin spec mapSpec o = Ok (spec', reused) /\
     NewCollectionWithOptions spec' "/sys/fs/bpf" o = (Ok coll, o1) /\
     attach_outcome iface coll o1 r o') \/
  (exists e, r = Returns (Err e) /\ attached o' = attached o).
Proof.
  unfold loadAndAttach. rewrite go_bind_gets.
  destruct (LoadCollectionSpec bpfObjPath o) as [spec|e] eqn:Es; cbn [try].
  2:{ intros [= <- <-]. right. by eexists. }
  destruct (spec_Maps spec !! "blocked_ips") as [mapSpec|] eqn:Em.
  2:{ intros [= <- <-]. right. by eexists. }
  rewrite go_bind_gets. destruct (reuse_pin spec mapSpec o) as [[spec' reused]|e] eqn:Eu.
  2:{ intros [= <- <-]. right. by eexists. }
  assert ((if reused then Dir bpfPinPath else Dir bpfPinPath) = "/sys/fs/bpf") as ->
    by (by destruct reused).
  unfold try_io. destruct (NewCollectionWithOptions spec' "/sys/fs/bpf" o) as [rc o1] eqn:Ec.
  rewrite (go_bind_lift _ _ _ _ _ Ec). destruct rc as [coll|e]; cbn [try].
  - intros Ha%attach_spec. left. by exists spec, mapSpec, spec', reused, coll, o1.
  - intros [= <- <-]. right. eexists. split; [done|]. by apply collection_frame in Ec as [? _].
Qed.
End Lemmas.

(** ** Properties *)

Section Properties.
Context {O : Type} `{BpfLaws O}.

(** The object file declares the map as tc_blocker.c does. *)
Definition object_file_ok (o : O) : Prop :=
  exists spec ms, LoadCollectionSpec bpfObjPath o = Ok spec /\
    spec_Maps spec !! "blocked_ips" = Some ms /\ ms_Name ms = "blocked_ips" /\
    ms_Pinning ms = PinByName.

(** The map that the filter reads after a success, and where it comes from. *)
Lemma loadAndAttach_used iface (o o' : O) m :
  object_file_ok o -> loadAndAttach iface o = (Returns (Ok m), o') ->
  exists index maps used, InterfaceByName iface o = Ok index /\
    attached o' (uint32 index) = Some maps /\ maps !! "blocked_ips" = Some used /\
    (os_stat bpfPinPath o = false -> used = m) /\
    (forall old, pinned o bpfPinPath = Some old -> m = old /\ unpinned o used /\ unpinned o' used /\
       exists spec dir coll o1 ms, NewCollectionWithOptions spec dir o = (Ok coll, o1) /\
         spec_Maps spec !! "blocked_ips" = Some ms /\ ms_Pinning ms = PinNone /\
         col_Maps coll !! "blocked_ips" = Some used).
Proof.
  intros (spec0 & ms0 & Es0 & Em0 & Hname & Hpin) Hrun.
  apply loadAndAttach_spec in Hrun as
    [(spec & ms & spec' & reused & coll & o1 & Es & Em & Eu & Ec & Hout)|(e & ? & _)]; [|done].
  rewrite Es in Es0. injection Es0 as <-. rewrite Em in Em0. injection Em0 as <-.
  destruct Hout as (fd & index & Hfd & Hi & Hp & Hm & Ha).
  destruct (program_law _ _ _ _ _ _ _ Ec Hfd) as [Hrange Hmaps].
  rewrite Hp in Hm. unfold uint32 at 2 in Ha. rewrite (Z.mod_small fd) in Ha by done.
  destruct (collection_frame _ _ _ _ _ Ec) as (_ & Hiface & Hkeep). rewrite Hiface in Hi.
  unfold reuse_pin in Eu. exists index, (col_Maps coll).
  destruct (os_stat bpfPinPath o) eqn:Est.
  - destruct (LoadPinnedMap bpfPinPath o) as [m0|]; [|done]. injection Eu as <- <-.
    destruct (collection_law _ _ _ _ _ _ _ Ec (lookup_insert_eq _ _ _)) as (id & Hid & Hun & Hun').
    exists id. split_and!; [done|by rewrite Ha, Hmaps|done|done|]. intros old Hold. split_and!.
    + apply Hkeep in Hold. congruence.
    + done.
    + unfold unpinned in *. by rewrite Hp.
    + do 5 eexists. split_and!; [exact Ec|apply lookup_insert_eq|done|done].
  - injection Eu as <- <-.
    destruct (collection_law _ _ _ _ _ _ _ Ec Em) as (id & Hid & Hun).
    rewrite Hpin, Hname in Hun. destruct Hun as [_ Hun].
    exists id. split_and!; [done|by rewrite Ha, Hmaps|done| |].
    + intros _. change (pin_path "/sys/fs/bpf" "blocked_ips") with bpfPinPath in Hun. congruence.
    + intros old Hold. by rewrite (stat_law _ _ _ Hold) in Est.
Qed.

(** C30: a first start works, a restart does not.  When nothing is pinned yet
    and [loadAndAttach] succeeds, the handle given to the API is the map that the filter
    attached to the interface of that name reads.  When a previous run left its map
    pinned, the success of [loadAndAttach] is hollow: the API gets the old map, but the
    filter now attached to the interface reads a map that no path named before and that
    no path names now, because the replaced map specification lost its pinning.  So the
    "zero-downtime reload" disconnects the API from the filter. *)
Theorem loadAndAttach_handle iface (o o' : O) m :
  object_file_ok o -> loadAndAttach iface o = (Returns (Ok m), o') ->
  exists index maps used, InterfaceByName iface o = Ok index /\
    attached o' (uint32 index) = Some maps /\ maps !! "blocked_ips" = Some used /\
    (os_stat bpfPinPath o = false -> used = m) /\
    (forall old, pinned o bpfPinPath = Some old ->
       m = old /\ used <> old /\ unpinned o used /\ unpinned o' used).
Proof.
  intros Hobj Hrun.
  destruct (loadAndAttach_used _ _ _ _ Hobj Hrun) as (index & maps & used & Hi & Ha & Hu & Hfirst & Hold).
  exists index, maps, used. split_and!; [done..|]. intros old Ho.
  destruct (Hold old Ho) as (? & Hun & ? & _). split_and!; [done| |done|done].
  intros ->. by apply (Hun bpfPinPath).
Qed.

(** C35: failures keep the running filters.  If [loadAndAttach] returns an error (or
    panics on the text of a qdisc error), every interface still has the program it had.
    The exception is its last step: if the attached filter stays but the pin cannot be
    opened again, the error returned is that of this step; the interface of the given
    name then has the program just loaded, which reads the maps just loaded, and the
    other interfaces have the programs they had. *)
Theorem loadAndAttach_error iface (o o' : O) r :
  loadAndAttach iface o = (r, o') ->
  match r with
  | Returns (Ok _) => True
  | Returns (Err e) =>
      attached o' = attached o \/
      (exists msg, e = "LoadPinnedMap (post-load): " +:+ msg) /\
      exists spec coll o1 index, NewCollectionWithOptions spec "/sys/fs/bpf" o = (Ok coll, o1) /\
        InterfaceByName iface o = Ok index /\ attached o' (uint32 index) = Some (col_Maps coll) /\
        (forall i, i <> uint32 index -> attached o' i = attached o i)
  | Panics _ => attached o' = attached o
  end.
Proof.
  intros [(spec & ms & spec' & reused & coll & o1 & _ & _ & _ & Ec & Hout)|(e & -> & Ha)]%loadAndAttach_spec;
    [|by left].
  destruct (collection_frame _ _ _ _ _ Ec) as (Ha & Hiface & _).
  destruct r as [[m|e]|msg]; [done|..]; cbn in Hout; [|congruence].
  rewrite Ha in Hout. destruct Hout as [|(Hmsg & fd & index & Hfd & Hi & Hnew & Hother)]; [by left|].
  right. split; [done|]. exists spec', coll, o1, index. rewrite Hiface in Hi.
  destruct (program_law _ _ _ _ _ _ _ Ec Hfd) as [Hrange Hmaps].
  unfold uint32 at 2 in Hnew. rewrite (Z.mod_small fd), Hmaps in Hnew by done. done.
Qed.
End Properties.

(** ** A machine in memory *)

Module MemOs.
Record t := Mem {
  pins : gmap string nat; next : nat; fds : gmap Z (gmap string nat);
  filters : gmap Z (gmap string nat); object_file : result CollectionSpec
}.

Definition with_filters (o : t) (fs : gmap Z (gmap string nat)) : t :=
  Mem (pins o) (next o) (fds o) fs (object_file o).

(** [next] is above every identity in use: identities are never used twice. *)
Definition create (dir : string) (ms : MapSpec) (o : t) : nat * t :=
  let fresh := S (foldr Nat.max (next o) (snd <$> map_to_list (pins o))) in
  match ms_Pinning ms with
  | PinNone => (fresh, Mem (pins o) fresh (fds o) (filters o) (object_file o))
  | PinByName =>
      match pins o !! pin_path dir (ms_Name ms) with
      | Some id => (id, o)
      | None => (fresh, Mem (<[pin_path dir (ms_Name ms) := fresh]> (pins o)) fresh (fds o)
                          (filters o) (object_file o))
      end
  end.

(** Collections of one map; every program has descriptor 3. *)
Definition new_collection (spec : CollectionSpec) (dir : string) : io t Collection := fun o =>
  match map_to_list (spec_Maps spec) with
  | [(name, ms)] =>
      let (id, o') := create dir ms o in
      let maps := {[name := id]} in
      (Ok (MkCollection maps (list_to_map ((fun p => (p, 3)) <$> spec_Programs spec))),
       Mem (pins o') (next o') (<[3 := maps]> (fds o')) (filters o') (object_file o'))
  | _ => (Err "unsupported collection", o)
  end.

#[global] Instance cmds : BpfOs t := {|
  tc_BuildHandle maj min := maj * 65536 + min;
  tc_Ingress := 4294967282;
  tc_HandleRoot := 4294967295;
  os_stat p o := match pins o !! p with Some _ => true | None => false end;
  LoadCollectionSpec _ o := object_file o;
  LoadPinnedMap p o := match pins o !! p with Some id => Ok id | None => Err "no such file" end;
  NewCollectionWithOptions := new_collection;
  InterfaceByName name _ :=
    if bool_decide (name = "eth0") then Ok 2 else Err "route ip+net: no such network interface";
  tc_Open _ := None;
  Qdisc_Add _ o := (Some "file exists", o);
  Filter_Replace f o :=
    match tc_BPF f with
    | Some (fd, _, _) => (None, with_filters o (partial_alter (fun _ => fds o !! fd) (tc_Ifindex f) (filters o)))
    | None => (Some "invalid argument", o)
    end;
  pinned o p := pins o !! p;
  fd_maps o fd := fds o !! fd;
  attached o i := filters o !! i
|}.

Lemma max_above (l : list nat) n x : In x l -> (x <= foldr Nat.max n l)%nat.
Proof. induction l as [|y l IH]; cbn; [done|]. intros [->|Hx%IH]; lia. Qed.

Lemma fresh_unpinned (o : t) p :
  pins o !! p <> Some (S (foldr Nat.max (next o) (snd <$> map_to_list (pins o)))).
Proof.
  intros Hp. set (l := snd <$> map_to_list (pins o)).
  assert (In (S (foldr Nat.max (next o) l)) l) as Hin.
  { apply list_elem_of_In, list_elem_of_fmap. eexists (p, _). split; [reflexivity|].
    by apply elem_of_map_to_list. }
  apply (max_above _ (next o)) in Hin. lia.
Qed.

Lemma create_frame dir ms (o o' : t) id :
  create dir ms o = (id, o') ->
  filters o' = filters o /\ forall p i, pins o !! p = Some i -> pins o' !! p = Some i.
Proof.
  unfold create. destruct (ms_Pinning ms); [by intros [= <- <-]|].
  destruct (pins o !! pin_path dir (ms_Name ms)) eqn:E; intros [= <- <-]; [done|].
  split; [done|]. intros p i Hi. cbn. rewrite lookup_insert_ne; congruence.
Qed.

#[global] Instance laws : BpfLaws t.
Proof.
  split; cbn.
  - by intros p o id ->.
  - intros p o id. destruct (pins o !! p); [by intros [= ->]|done].
  - intros spec dir o c o' name ms. unfold new_collection.
    destruct (map_to_list (spec_Maps spec)) as [|[n m] [|]] eqn:El; [done| |done].
    destruct (create dir m o) as [id o1] eqn:Ec. intros [= <- <-] Hms.
    apply elem_of_map_to_list in Hms. rewrite El in Hms.
    apply list_elem_of_singleton in Hms as [= -> ->].
    exists id. cbn. split; [apply lookup_singleton_eq|].
    unfold create in Ec. destruct (ms_Pinning m).
    + injection Ec as <- <-. split; intros p; apply (fresh_unpinned o).
    + destruct (pins o !! pin_path dir (ms_Name m)) eqn:E; injection Ec as <- <-; [done|].
      split; [done|]. apply lookup_insert_eq.
  - intros spec dir o r o'. unfold new_collection.
    destruct (map_to_list (spec_Maps spec)) as [|[n m] [|]]; [by intros [= <- <-]| |by intros [= <- <-]].
    destruct (create dir m o) as [id o1] eqn:Ec. intros [= <- <-]. cbn.
    destruct (create_frame _ _ _ _ _ Ec) as [-> Hp]. done.
  - intros spec dir o c o' name fd. unfold new_collection.
    destruct (map_to_list (spec_Maps spec)) as [|[n m] [|]]; [done| |done].
    destruct (create dir m o) as [id o1]. intros [= <- <-]. cbn. intros Hfd.
    apply elem_of_list_to_map_2, list_elem_of_fmap in Hfd as (p & [= _ ->] & _).
    split; [lia|]. apply lookup_insert_eq.
  - intros q o r o' [= <- <-]. done.
  - intros f o o' fd name flags E Hf. rewrite Hf in E. injection E as <-. cbn.
    split; [done|]. split; [apply lookup_partial_alter_eq|].
    intros i Hne. by apply lookup_partial_alter_ne.
  - intros f o e o'. destruct (tc_BPF f) as [[[? ?] ?]|]; [done|]. by intros [= <- <-].
Qed.

(** The object file of tc_blocker.c, on a fresh machine and after a first run. *)
Definition blocker : CollectionSpec :=
  MkCollectionSpec
    {["blocked_ips" := MkMapSpec "blocked_ips" "LRUHash" 4 8 100000 PinByName]}
    ["tc_ingress_blocker"].

Definition fresh : t := Mem ∅ 0 ∅ ∅ (Ok blocker).
Definition restarted : t := snd (loadAndAttach "eth0" fresh).
End MemOs.

Lemma loadAndAttach_handle_witness :
  (exists maps, attached MemOs.restarted 2 = Some maps /\ maps !! "blocked_ips" = Some 1%nat) /\
  (exists maps used, attached (snd (loadAndAttach "eth0" MemOs.restarted)) 2 = Some maps /\
     maps !! "blocked_ips" = Some used /\ used <> 1%nat).
Proof.
  assert (object_file_ok MemOs.fresh) as Hfresh.
  { do 2 eexists. repeat split; vm_compute; reflexivity. }
  assert (object_file_ok MemOs.restarted) as Hre.
  { do 2 eexists. repeat split; vm_compute; reflexivity. }
  split.
  - destruct (loadAndAttach_handle "eth0" MemOs.fresh MemOs.restarted 1%nat Hfresh)
      as (index & maps & used & Hi & Ha & Hu & Hfirst & _); [vm_compute; reflexivity|].
    injection Hi as <-. exists maps. split; [exact Ha|]. rewrite Hu. f_equal. apply Hfirst. reflexivity.
  - destruct (loadAndAttach_handle "eth0" MemOs.restarted
      (snd (loadAndAttach "eth0" MemOs.restarted)) 1%nat Hre)
      as (index & maps & used & Hi & Ha & Hu & _ & Hold); [vm_compute; reflexivity|].
    injection Hi as <-. exists maps, used. split; [exact Ha|]. split; [exact Hu|].
    apply (Hold 1%nat). vm_compute. reflexivity.
Defined.

Lemma loadAndAttach_error_witness :
  attached (snd (loadAndAttach "wlan0" MemOs.restarted)) = attached MemOs.restarted.
Proof.
  destruct (loadAndAttach_error "wlan0" MemOs.restarted
    (snd (loadAndAttach "wlan0" MemOs.restarted))
    (Returns (Err "InterfaceByName(wlan0): route ip+net: no such network interface"))) as [E|[[msg E] _]].
  - vm_compute. reflexivity.
  - exact E.
  - exfalso. vm_compute in E. discriminate.
Defined.
