(* ===== verification/Restart.v ===== *)
(** * Runs of the loader (ebpf/loader/main.go)

    [main] of the loader from its start to the signal that ends it: load and attach,
    then serve the management API on the map it was handed.  The machine keeps the
    content of every kernel map, so that a packet can be asked after any number of
    runs. *)

From stdpp Require Import functions.
From S2P Require Import Prelude GoNet GoFloat GoText Json GoPrint Http BpfMap Kernel Loader Attach.

(** The libraries' maps that some program, path or handle refers to. *)
Class BpfIdentities (O : Type) := { in_use : O -> nat -> Prop }.

(** A map that is created is a new one. *)
Class IdentityLaws (O : Type) `{BpfOs O, BpfIdentities O} := {
  new_map spec dir o c o' name ms id :
    NewCollectionWithOptions spec dir o = (Ok c, o') -> spec_Maps spec !! name = Some ms ->
    ms_Pinning ms = PinNone -> col_Maps c !! name = Some id -> ~ in_use o id
}.

Section Runs.
Context {O M : Type} `{BpfOs O, BpfMap M}.
Variable host : endianness.
Variable json_error : string -> string.
Variable rfc3339 : Z -> string.

Record machine := Machine { m_os : O; m_maps : nat -> M }.

(** The API: requests with their times; net/http drops the connection of a handler
    that panics. *)
Fixpoint serve_all (reqs : list (Z * request)) (m : M) : list (option response) * M :=
  match reqs with
  | [] => ([], m)
  | (now, r) :: reqs =>
      let (o, m1) := serve host json_error rfc3339 now r m in
      let (resps, m2) := serve_all reqs m1 in
      ((match o with Returns resp => Some resp | Panics _ => None end) :: resps, m2)
  end.

(** [main]: an error of the start is a fatal exit; otherwise the API is served until
    the signal, and the handle is closed. *)
Definition run (env : string -> string) (RemoveMemlock : option error) (reqs : list (Z * request))
    : go machine (result (list (option response))) := fun k =>
  match Attach.main env RemoveMemlock (m_os k) with
  | (Panics msg, o) => (Panics msg, Machine o (m_maps k))
  | (Returns (Err e), o) => (Returns (Err e), Machine o (m_maps k))
  | (Returns (Ok id), o) =>
      let (resps, m) := serve_all reqs (m_maps k id) in
      (Returns (Ok resps), Machine o (<[id := m]> (m_maps k)))
  end.

(** What the filter attached to interface [index] makes of a packet. *)
Definition packet_verdict (k : machine) (index boot_ns : Z) (pkt : list Z) : option Z :=
  maps ← attached (m_os k) index;
  id ← (maps : gmap string nat) !! "blocked_ips";
  tc_ingress_blocker host (map_view (m_maps k id)) boot_ns pkt.
End Runs.
Arguments machine : clear implicits.

(** ** Properties *)

Section Properties.
Context {O M : Type} `{BpfLaws O, !BpfIdentities O, !IdentityLaws O, BpfMap M}.
Variable host : endianness.
Variable json_error : string -> string.
Variable rfc3339 : Z -> string.

(** Maps that nothing refers to yet are empty. *)
Definition machine_ok (k : machine O M) : Prop :=
  forall id, ~ in_use (m_os k) id -> map_view (m_maps k id) = ∅.

Lemma run_attach env rl reqs (k k' : machine O M) resps :
  run host json_error rfc3339 env rl reqs k = (Returns (Ok resps), k') ->
  exists id, Attach.main env rl (m_os k) = (Returns (Ok id), m_os k') /\
    m_maps k' = <[id := snd (serve_all host json_error rfc3339 reqs (m_maps k id))]> (m_maps k).
Proof.
  unfold run. destruct (Attach.main env rl (m_os k)) as [[[id|e]|msg] o']; [|done..].
  destruct (serve_all _ _ _ reqs (m_maps k id)) as [rs m] eqn:Es. intros [= _ <-].
  exists id. by rewrite Es.
Qed.

Lemma main_attach env rl (o o' : O) id :
  Attach.main env rl o = (Returns (Ok id), o') ->
  loadAndAttach (getEnv env "IFACE" defaultInterface) o = (Returns (Ok id), o').
Proof.
  unfold Attach.main. destruct rl; [discriminate|]. unfold mbind, go_bind.
  by destruct (loadAndAttach _ o) as [[[id'|e]|msg] o1].
Qed.

Lemma verdict_empty boot_ns pkt :
  bytes pkt -> tc_ingress_blocker host ∅ boot_ns pkt = Some TC_ACT_OK.
Proof.
  intros Hp. rewrite tc_ingress_blocker_verdict by done. unfold verdict.
  destruct (is_ipv4_frame pkt); [|done]. by rewrite lookup_empty.
Qed.

(** C31: after a restart nothing is blocked any more.  On a machine on which an
    earlier run left its map pinned, a run of the loader that starts without an
    error attaches, to the interface that it was told, a filter that lets every packet
    pass, at any time, whatever blocks were in force before and whatever requests the API
    is sent and answers; whereas a first run attaches a filter that decides by the very
    map the API works on, as the requests left it. *)
Theorem restart_unblocks env rl reqs (k k' : machine O M) resps :
  object_file_ok (m_os k) -> machine_ok k ->
  run host json_error rfc3339 env rl reqs k = (Returns (Ok resps), k') ->
  exists index, InterfaceByName (getEnv env "IFACE" defaultInterface) (m_os k) = Ok index /\
    (forall old boot_ns pkt, pinned (m_os k) bpfPinPath = Some old -> bytes pkt ->
       packet_verdict host k' (uint32 index) boot_ns pkt = Some TC_ACT_OK) /\
    (os_stat bpfPinPath (m_os k) = false -> exists id,
       Attach.main env rl (m_os k) = (Returns (Ok id), m_os k') /\
       forall boot_ns pkt, packet_verdict host k' (uint32 index) boot_ns pkt =
         tc_ingress_blocker host
           (map_view (snd (serve_all host json_error rfc3339 reqs (m_maps k id)))) boot_ns pkt).
Proof.
  intros Hobj Hok (id & Hmain & Hmaps)%run_attach. pose proof (main_attach _ _ _ _ _ Hmain) as Hload.
  destruct (loadAndAttach_used _ _ _ _ Hobj Hload) as (index & maps & used & Hi & Ha & Hu & Hfirst & Hold).
  exists index. split; [done|]. unfold packet_verdict. rewrite Ha. cbn [mbind option_bind]. rewrite Hu, Hmaps.
  cbn [mbind option_bind]. split.
  - intros old boot_ns pkt Hp Hb. destruct (Hold old Hp)
      as (-> & Hun & _ & spec & dir & coll & o1 & ms & Hc & Hms & Hpin & Hcol).
    rewrite fn_lookup_insert_ne by (intros <-; by apply (Hun bpfPinPath)). rewrite Hok; [by apply verdict_empty|].
    by eapply new_map.
  - intros Hs. specialize (Hfirst Hs) as ->. exists id. split; [done|].
    intros boot_ns pkt. by rewrite fn_lookup_insert.
Qed.
End Properties.

(** ** The machine in memory *)

Module Demo.
#[global] Instance identities : BpfIdentities MemOs.t := {|
  in_use o id := (id <= foldr Nat.max (MemOs.next o) (snd <$> map_to_list (MemOs.pins o)))%nat
|}.

#[global] Instance identity_laws : IdentityLaws MemOs.t.
Proof.
  split. intros spec dir o c o' name ms id. cbn. unfold MemOs.new_collection.
  destruct (map_to_list (spec_Maps spec)) as [|[n m] [|]] eqn:El; [done| |done].
  unfold MemOs.create. intros Hc Hms Hpin Hid.
  apply elem_of_map_to_list in Hms. rewrite El in Hms.
  apply list_elem_of_singleton in Hms as [= -> ->]. rewrite Hpin in Hc. injection Hc as <- _.
  cbn in Hid. rewrite lookup_singleton_eq in Hid. injection Hid as <-. lia.
Qed.

(** A first run in which 10.0.0.1 is blocked for good, and the machine after it. *)
Definition env (name : string) : string := if bool_decide (name = "IFACE") then "eth0" else "".
Definition block : request :=
  Request "POST" "/block" (quotes "{'ip':'10.0.0.1','ttl_seconds':0}").
Definition fresh : machine MemOs.t LruMap.t := Machine MemOs.fresh (fun _ => LruMap.blocked_ips).
Definition run_once (reqs : list (Z * request)) (k : machine MemOs.t LruMap.t) :=
  run BigEndian demo_error (fun _ => "t") env None reqs k.
Definition after : machine MemOs.t LruMap.t := snd (run_once [(1700000000, block)] fresh).
Definition restarted : machine MemOs.t LruMap.t := snd (run_once [(1700000060, block)] after).
Definition frame : list Z := demo_frame [10; 0; 0; 1].

Lemma frame_bytes : bytes frame.
Proof. cbv [frame demo_frame replicate app]. bytes_literal. Qed.

(** Only the map of the first run has entries. *)
Lemma machines_ok : machine_ok fresh /\ machine_ok after.
Proof.
  split; intros id Hid; [done|].
  change (m_os after) with MemOs.restarted in Hid.
  change (m_maps after) with (<[1%nat := m_maps after 1%nat]> (m_maps fresh)).
  destruct (decide (1%nat = id)) as [<-|Hne].
  - destruct Hid. vm_compute. lia.
  - by rewrite fn_lookup_insert_ne.
Qed.
End Demo.

(** The block works until the restart, and no longer, although it is asked for
    again. *)
Lemma restart_unblocks_witness :
  packet_verdict BigEndian Demo.after 2 60000000000 Demo.frame = Some TC_ACT_SHOT /\
  packet_verdict BigEndian Demo.restarted 2 60000000000 Demo.frame = Some TC_ACT_OK.
Proof.
  assert (object_file_ok MemOs.fresh) as Hfresh.
  { do 2 eexists. repeat split; vm_compute; reflexivity. }
  assert (object_file_ok MemOs.restarted) as Hre.
  { do 2 eexists. repeat split; vm_compute; reflexivity. }
  split.
  - edestruct (restart_unblocks BigEndian demo_error (fun _ => "t") Demo.env None
      [(1700000000, Demo.block)] Demo.fresh Demo.after) as (index & Hi & _ & Hfirst);
      [exact Hfresh|apply Demo.machines_ok|vm_compute; reflexivity|].
    destruct (Hfirst ltac:(vm_compute; reflexivity)) as (id & Hmain & Hv).
    injection Hi as <-. etrans; [apply Hv|]. vm_compute in Hmain. injection Hmain as <-. vm_compute. reflexivity.
  - edestruct (restart_unblocks BigEndian demo_error (fun _ => "t") Demo.env None
      [(1700000060, Demo.block)] Demo.after Demo.restarted) as (index & Hi & Hold & _);
      [exact Hre|apply Demo.machines_ok|vm_compute; reflexivity|].
    injection Hi as <-. apply (Hold 1%nat); [vm_compute; reflexivity|apply Demo.frame_bytes].
Defined.
