(* ===== verification/Server.v ===== *)
(** * The front doors (cmd/server/main.go)

    The Unix-socket side: what a connection's bytes become ([bufio.Scanner]), one
    turn of the loop of [handleConn] and the text of an answer, the accept loop; and
    the table of HTTP routes.  The loop itself, with the 200 ms deadline that
    [handleConn] sets on the connection, is in [Deadline]. *)

From S2P Require Import Prelude GoNet GoFloat GoText Json GoJson GoPrint Http Config Ml Wire Kafka Engine Blocklist.

(** ** Lines *)

Definition newline : ascii := "010".
Definition carriage_return : ascii := "013".

(** [bufio.MaxScanTokenSize] *)
Definition MaxScanTokenSize : nat := Z.to_nat 65536.

(** Drop a final carriage return. *)
Fixpoint dropCR (s : string) : string :=
  match s with
  | EmptyString => EmptyString
  | String c EmptyString => if Ascii.eqb c carriage_return then EmptyString else s
  | String c s => String c (dropCR s)
  end.

(** The first line of [s] and what follows its newline, if it has one. *)
Fixpoint cut_line (s : string) : string * option string :=
  match s with
  | EmptyString => (EmptyString, None)
  | String c s =>
      if Ascii.eqb c newline then (EmptyString, Some s)
      else let (l, rest) := cut_line s in (String c l, rest)
  end.

(** The tokens of a scanner that reads lines of [s] until its end: a line that
    fills the buffer stops it, and so does the end of the input, after a last
    line without newline. *)
Fixpoint scan_lines (fuel : nat) (s : string) : list string :=
  match fuel with
  | O => []
  | S fuel =>
      let (l, rest) := cut_line s in
      if (MaxScanTokenSize <=? String.length l)%nat then []
      else match rest with
           | Some s' => dropCR l :: scan_lines fuel s'
           | None => if bool_decide (l = "") then [] else [dropCR l]
           end
  end.

(** Every token takes a byte of the input or ends it. *)
Definition tokens (s : string) : list string := scan_lines (S (String.length s)) s.

(** ** Answers *)

(** [json.Marshal] of a [Decision]. *)
Definition marshal_Decision (d : Decision) : string :=
  "{" +:+ json_string "action" +:+ ":" +:+ json_string (action_text (d_Action d)) +:+ ","
      +:+ json_string "retry_after" +:+ ":" +:+ pretty (d_RetryAfter d) +:+ "}".

(** The bytes [writeResponse] writes. *)
Definition response_text (d : Decision) : string :=
  marshal_Decision d +:+ String newline "".

(** ** A connection *)

Section Connection.
Context {R X B S : Type}.
Context `{RedisDecrementor R S, MLScorer X S, Engine.Blocklist B S, Clock S}.
Variable oob : spec_float -> Z.

(** The world, and the texts handed to [conn.Write] so far; [writeResponse] does not
    look at whether a write succeeds.  [Deadline.timed_line] drops those of a write that
    fails. *)
Record ConnState := MkConn { world : World S; sent : list string }.

Definition writeResponse (d : Decision) : go ConnState unit :=
  go_modify (fun c => MkConn (world c) (sent c ++ [response_text d])).

Definition call_engine {A} (m : go (World S) A) : go ConnState A := fun c =>
  let (o, w) := m (world c) in (o, MkConn w (sent c)).

(** One turn of the loop. *)
Definition handle_line (e : Engine R X B) (line : string) : go ConnState unit :=
  match Unmarshal line with
  | None => writeResponse (MkDecision ActionAllow 0)
  | Some fv => decision ← call_engine (Evaluate oob e (Some fv)); writeResponse decision
  end.

(** ** The accept loop *)

Inductive accepted (C : Type) :=
| Conn (c : C)
| AcceptError (closed : bool).
Arguments Conn {C}.
Arguments AcceptError {C}.

(** [runUnixSocket]: given what [Accept] returns, call by call, the connections
    handed to [handleConn] goroutines, and whether the loop has returned. *)
Fixpoint accept_loop {C} (results : list (accepted C)) : list C * bool :=
  match results with
  | [] => ([], false)
  | AcceptError true :: _ => ([], true)
  | AcceptError false :: results => accept_loop results
  | Conn c :: results => let (cs, done) := accept_loop results in (c :: cs, done)
  end.

(** [listen] is the outcome of [net.Listen]; a failure is fatal. *)
Definition runUnixSocket {C} (listen : option error) (results : list (accepted C))
    : outcome (list C * bool) :=
  match listen with
  | Some e => Panics ("unix socket: listen failed: " +:+ e)
  | None => Returns (accept_loop results)
  end.
End Connection.
Arguments ConnState : clear implicits.
Arguments MkConn {S}.
Arguments world {S}.
Arguments sent {S}.
Arguments Conn {C}.
Arguments AcceptError {C}.

(** ** The HTTP routes *)

Inductive route := Health | Metrics | Management (h : Blocklist.handler).

Definition runHTTP_routes : list (string * string * route) :=
  [("GET", "/health", Health); ("GET", "/metrics", Metrics)]
  ++ ((fun '(m, p, h) => (m, p, Management h)) <$> Blocklist.RegisterRoutes).

Definition health_reply : response := json_reply StatusOK [("status", "ok")].

(** ** Lemmas: lines *)

Lemma has_char_app c s t : has_char c (s +:+ t) = has_char c s || has_char c t.
Proof.
  induction s as [|d s IH]; [done|]. rewrite append_cons. cbn [has_char].
  by rewrite IH, orb_assoc.
Qed.

Lemma cut_line_app l s :
  has_char newline l = false -> cut_line (l +:+ String newline s) = (l, Some s).
Proof.
  induction l as [|c l IH]; [done|]. rewrite append_cons. cbn [has_char cut_line].
  intros [-> H]%orb_false_iff. by rewrite IH.
Qed.

Lemma cut_line_last l : has_char newline l = false -> cut_line l = (l, None).
Proof.
  induction l as [|c l IH]; [done|]. cbn [has_char cut_line].
  intros [-> H]%orb_false_iff. by rewrite IH.
Qed.

Lemma cut_line_Some s l r : cut_line s = (l, Some r) -> s = l +:+ String newline r.
Proof.
  revert l. induction s as [|c s IH]; intros l; [done|]. cbn [cut_line].
  destruct (Ascii.eqb_spec c newline) as [->|]; [by intros [= <- <-]|].
  destruct (cut_line s) as [l' r']. intros [= <- ->]. rewrite append_cons. by f_equal; apply IH.
Qed.

(** More fuel than the input is long changes nothing. *)
Lemma scan_lines_fuel n1 n2 s :
  (String.length s < n1)%nat -> (String.length s < n2)%nat -> scan_lines n1 s = scan_lines n2 s.
Proof.
  revert n2 s. induction n1 as [|n1 IH]; intros n2 s H1 H2; [lia|].
  destruct n2 as [|n2]; [lia|]. cbn [scan_lines].
  destruct (cut_line s) as [l [r|]] eqn:Hs; [|done].
  apply cut_line_Some, (f_equal String.length) in Hs. rewrite append_length in Hs. cbn in Hs.
  rewrite (IH n2 r) by lia. done.
Qed.

Lemma tokens_cons l s :
  has_char newline l = false -> (String.length l < MaxScanTokenSize)%nat ->
  tokens (l +:+ String newline s) = dropCR l :: tokens s.
Proof.
  intros Hl Hlen. unfold tokens at 1. cbn [scan_lines]. rewrite cut_line_app by done.
  destruct (Nat.leb_spec MaxScanTokenSize (String.length l)); [lia|]. f_equal.
  apply scan_lines_fuel; [|lia]. rewrite append_length. cbn. lia.
Qed.

(** Texts sent by a well-behaved client: lines, each ended by a newline. *)
Fixpoint unlines (ls : list string) : string :=
  match ls with [] => EmptyString | l :: ls => l +:+ String newline (unlines ls) end.

Definition plain_line (l : string) : Prop :=
  has_char newline l = false /\ dropCR l = l /\ (String.length l < MaxScanTokenSize)%nat.

Lemma tokens_unlines ls rest :
  Forall plain_line ls -> tokens (unlines ls +:+ rest) = ls ++ tokens rest.
Proof.
  induction 1 as [|l ls (Hn & Hcr & Hlen) _ IH]; [done|]. cbn [unlines].
  rewrite append_assoc, append_cons, tokens_cons by done. rewrite Hcr, IH. done.
Qed.

Lemma length_scan_lines n s : (length (scan_lines n s) <= String.length s)%nat.
Proof.
  revert s. induction n as [|n IH]; intros s; cbn [scan_lines]; [cbn; lia|].
  destruct (cut_line s) as [l [r|]] eqn:Hs; case_match; cbn [length]; try lia.
  - apply cut_line_Some, (f_equal String.length) in Hs. rewrite append_length in Hs. cbn in Hs.
    specialize (IH r). lia.
  - case_bool_decide as Hl; cbn [length]; [lia|]. destruct s; [|cbn; lia].
    by injection Hs as <-.
Qed.

(** There are no more lines than bytes. *)
Lemma length_tokens s : (length (tokens s) <= String.length s)%nat.
Proof. apply length_scan_lines. Qed.

Lemma tokens_long s : (MaxScanTokenSize <= String.length (fst (cut_line s)))%nat -> tokens s = [].
Proof.
  intros Hlen. unfold tokens. cbn [scan_lines]. destruct (cut_line s) as [l r].
  by destruct (Nat.leb_spec MaxScanTokenSize (String.length l)); [|cbn in Hlen; lia].
Qed.

(** The line of a printed value. *)
Lemma graphic_plain l :
  Forall graphic l -> (length l < MaxScanTokenSize)%nat -> plain_line (of_text l).
Proof.
  intros Hl Hlen. split; [|split].
  - induction Hl as [|c l Hc _ IH]; [done|]. cbn. cbn [length] in Hlen.
    rewrite orb_false_iff. split; [|apply IH; lia].
    apply Ascii.eqb_neq. intros ->. by vm_compute in Hc.
  - clear Hlen. induction Hl as [|c l Hc Hl IH]; [done|]. cbn. destruct Hl as [|d l Hd Hl].
    + assert (Ascii.eqb c carriage_return = false) as Hcr; [|cbn; by rewrite Hcr].
      apply Ascii.eqb_neq. intros ->. by vm_compute in Hc.
    + cbn in *. by rewrite IH.
  - clear Hl. assert (String.length (of_text l) = length l) as ->; [|done].
    clear Hlen. induction l; cbn; [done|by f_equal].
Qed.

(** ** Lemmas: the text of an answer *)

Lemma pretty_N_go_char c x s :
  (forall n, Ascii.eqb (pretty_N_char n) c = false) ->
  has_char c (pretty_N_go x s) = has_char c s.
Proof.
  intros Hc. revert s. induction (N.lt_wf_0 x) as [x _ IH]; intros s.
  destruct (decide (0 < x)%N) as [Hx|Hx].
  - rewrite pretty_N_go_step by done. rewrite IH by (apply N.div_lt; lia).
    cbn [has_char]. by rewrite Hc.
  - assert (x = 0%N) as -> by lia. by rewrite pretty_N_go_0.
Qed.

Lemma pretty_Z_char c (z : Z) :
  (forall n, Ascii.eqb (pretty_N_char n) c = false) -> Ascii.eqb "-" c = false ->
  has_char c (pretty z) = false.
Proof.
  intros Hc Hm.
  assert (forall n : N, has_char c (pretty n) = false) as Hn.
  { intros n. unfold pretty, pretty_N. case_decide; [|by rewrite pretty_N_go_char].
    cbn [has_char]. by rewrite (Hc 0%N : Ascii.eqb "0" c = false). }
  destruct z as [|p|p].
  - exact (Hn 0%N).
  - exact (Hn (Npos p)).
  - change (pretty (Zneg p)) with (String "-" (pretty (Npos p))). cbn [has_char].
    by rewrite Hm, Hn.
Qed.

Lemma pretty_no_newline (z : Z) : has_char newline (pretty z) = false.
Proof.
  apply pretty_Z_char; [|done]. intros n.
  destruct n as [|[[[[]|[]|]|[[]|[]|]|]|[[[]|[]|]|[[]|[]|]|]|]]; done.
Qed.

(** The prefix of an answer with action [a]. *)
Definition answer_prefix (a : Action) : string :=
  "{" +:+ json_string "action" +:+ ":" +:+ json_string (action_text a) +:+ ","
      +:+ json_string "retry_after" +:+ ":".

Lemma response_text_eq d :
  response_text d =
    answer_prefix (d_Action d) +:+ (pretty (d_RetryAfter d) +:+ ("}" +:+ String newline "")).
Proof.
  unfold response_text, marshal_Decision, answer_prefix. by rewrite !append_assoc.
Qed.

Lemma answer_prefix_inj a b s t : answer_prefix a +:+ s = answer_prefix b +:+ t -> a = b /\ s = t.
Proof.
  destruct a, b; intros E; try (split; [done|]; by apply append_inj_l in E);
    vm_compute in E; discriminate.
Qed.

(** ** Properties *)

Section Properties.
Context {R X B S : Type}.
Context `{RedisDecrementor R S, MLScorer X S, Engine.Blocklist B S, Clock S}.
Variable oob : spec_float -> Z.

(** One engine, asked about one vector after the other. *)
Fixpoint evaluate_all (e : Engine R X B) (fvs : list FeatureVector)
    : go (World S) (list Decision) :=
  match fvs with
  | [] => mret []
  | fv :: fvs =>
      d ← Evaluate oob e (Some fv);
      ds ← evaluate_all e fvs;
      mret (d :: ds)
  end.

Definition never_panics (e : Engine R X B) : Prop :=
  forall fv s, exists r s', Score (ml e) fv s = (Returns r, s').

Lemma Evaluate_returns (e : Engine R X B) fv w :
  never_panics e -> exists d w', Evaluate oob e fv w = (Returns d, w').
Proof.
  intros He. pose proof (Evaluate_eq oob e fv w) as E.
  destruct (Decrement _ _ _) as [r s1]. destruct (He fv s1) as ([[sc v] me] & s2 & Hs).
  rewrite Hs in E. eauto.
Qed.

(** The decision that a line is answered with. *)
Definition decide_line (e : Engine R X B) (line : string) : go (World S) Decision :=
  match Unmarshal line with
  | None => mret (MkDecision ActionAllow 0)
  | Some fv => Evaluate oob e (Some fv)
  end.

(** A line is answered, after its decision, and only once. *)
Lemma handle_line_decides (e : Engine R X B) line w out :
  never_panics e ->
  exists d w', decide_line e line w = (Returns d, w') /\
    handle_line oob e line (MkConn w out) = (Returns tt, MkConn w' (out ++ [response_text d])).
Proof.
  intros He. unfold decide_line, handle_line, call_engine, writeResponse. go_unfold.
  destruct (Unmarshal line) as [fv|]; [|by exists (MkDecision ActionAllow 0), w].
  destruct (Evaluate_returns e (Some fv) w He) as (d & w1 & Hd). cbn [world]. rewrite Hd. by exists d, w1.
Qed.
End Properties.

(** Answers on the wire.  An answer is one line: its only newline is its last
    byte; and distinct decisions have distinct texts, so the reader can tell the
    action and the number of seconds apart. *)
Theorem response_text_line d1 d2 :
  (exists l, response_text d1 = l +:+ String newline "" /\ has_char newline l = false) /\
  (response_text d1 = response_text d2 -> d1 = d2).
Proof.
  split.
  - exists (marshal_Decision d1). split; [done|]. unfold marshal_Decision.
    rewrite !has_char_app, pretty_no_newline. by destruct (d_Action d1).
  - rewrite !response_text_eq. intros E. apply answer_prefix_inj in E as [Ea E].
    apply append_inj_r, (inj pretty) in E. destruct d1, d2. cbn in *. congruence.
Qed.

#[export] Instance response_text_inj : Inj (=) (=) response_text.
Proof. intros d1 d2. apply response_text_line. Qed.

(** The accept loop outlives its errors.  Every connection accepted before
    the listener is closed is handled, in order, however many other errors
    [Accept] returns in between; nothing is handled afterwards; and the loop
    returns only when the listener is closed. *)
Theorem runUnixSocket_accepts {C} (before after : list (accepted C)) :
  Forall (fun r => r <> AcceptError true) before ->
  let conns := omap (fun r => match r with Conn c => Some c | AcceptError _ => None end) before in
  runUnixSocket None (before ++ AcceptError true :: after) = Returns (conns, true) /\
  runUnixSocket None before = Returns (conns, false).
Proof.
  cbn zeta. intros Hb. cbn [runUnixSocket].
  assert (forall tail, accept_loop (before ++ tail) =
    let (cs, done) := accept_loop tail in
    (omap (fun r => match r with Conn c => Some c | AcceptError _ => None end) before ++ cs, done)) as Happ.
  { intros tail. induction Hb as [|[c|[]] before Hr Hb IH]; [|..|done|exact IH].
    - cbn [app omap list_omap]. by destruct (accept_loop tail).
    - cbn [app accept_loop omap list_omap]. rewrite IH. by destruct (accept_loop tail). }
  split.
  - rewrite Happ. cbn. by rewrite app_nil_r.
  - specialize (Happ []). rewrite app_nil_r in Happ. rewrite Happ. cbn. by rewrite app_nil_r.
Qed.

(** ** Witnesses *)

Lemma mock_never_panics : never_panics Mock.engine.
Proof. intros fv s. by do 2 eexists. Defined.

(** A client's payload on its line. *)
Definition request_line (kvs : list (text * jvalue)) : string := of_text (print (VObject kvs)).

Definition demo_object : list (text * jvalue) :=
  (to_text "trace", VNull) :: payload (to_text "12") (to_text "0") (to_text "0.0") demo_vector.

Lemma runUnixSocket_accepts_witness :
  runUnixSocket None [Conn 1; AcceptError false; Conn 2; AcceptError true; Conn 3]
    = Returns ([1; 2], true).
Proof.
  refine (proj1 (runUnixSocket_accepts [Conn 1; AcceptError false; Conn 2] [Conn 3] _)).
  repeat constructor; discriminate.
Defined.
