(* ===== verification/Deadline.v ===== *)
(** * The deadline of a connection (cmd/server/main.go)

    [handleConn] with its clock: the bytes of the peer arrive in segments, the
    scanner reads them as it needs them, and [conn.SetDeadline] makes reads and
    writes fail from 200 ms after the connection was accepted on. *)

From Stdlib Require Import Sorting.Sorted.
From S2P Require Import Prelude GoNet GoFloat GoText Json GoJson GoPrint Config Ml Wire Kafka Engine Server.

(** ** Time *)

(** Waiting, for a goroutine that blocks in a read. *)
Class Timer (S : Type) := { sleep_until : Z -> S -> S }.

(** The clock never runs backwards. *)
Class TimerLaws (R X B S : Type)
    `{RedisDecrementor R S, MLScorer X S, Engine.Blocklist B S, Clock S, Timer S} := {
  time_sleep : forall t s, time_now (sleep_until t s) = Z.max t (time_now s);
  time_Decrement : forall (r : R) ip s, time_now s <= time_now (snd (Decrement r ip s));
  time_Score : forall (x : X) fv s, time_now s <= time_now (snd (Score x fv s));
  time_Add : forall (b : B) ip s, time_now s <= time_now (snd (Add b ip s))
}.

(** 200 milliseconds. *)
Definition connDeadline : Z := 200 * 1000000.

(** What a read finds: bytes from some time on, or the end of the stream. *)
Inductive segment := Bytes (at_time : Z) (chunk : string) | Eof (at_time : Z).

Definition arrival (g : segment) : Z := match g with Bytes t _ => t | Eof t => t end.

Section Connection.
Context {R X B W : Type}.
Context `{RedisDecrementor R W, MLScorer X W, Engine.Blocklist B W, Clock W, Timer W}.
Variable oob : spec_float -> Z.

(** The deadline set on the connection. *)
Variable deadline : Z.

Definition now (c : ConnState W) : Z := time_now (ext (world c)).

Definition conn_sleep (t : Z) (c : ConnState W) : ConnState W :=
  MkConn (MkWorld (sleep_until t (ext (world c))) (spawned (world c))) (sent c).

(** [conn.Read]: it fails once the deadline has passed, even if there are bytes;
    [None] is an error. *)
Definition conn_Read (segs : list segment) : go (ConnState W) (option string * list segment) := fun c =>
  if deadline <=? now c then (Returns (None, segs), c)
  else
    match segs with
    | g :: segs' =>
        if arrival g <? deadline then
          (Returns (match g with Bytes _ chunk => (Some chunk, segs') | Eof _ => (None, segs) end),
           conn_sleep (arrival g) c)
        else (Returns (None, segs), conn_sleep deadline c)
    | [] => (Returns (None, []), conn_sleep deadline c)
    end.

(** One turn of the loop of [handleConn].  The text handed to [conn.Write], the last
    thing the turn does, reaches the peer if the deadline has not passed by then. *)
Definition timed_line (e : Engine R X B) (line : string) : go (ConnState W) unit := fun c =>
  let (o, c') := handle_line oob e line (MkConn (world c) []) in
  (o, MkConn (world c') (sent c ++ if now c' <? deadline then sent c' else [])).

(** The loop of [handleConn] over [scanner.Scan]: [buf] is what the scanner holds.  It
    reads when it holds no complete line; after a failed read, what it holds is the
    last line.  The result: the lines handled, and the bytes read. *)
Fixpoint serve (fuel : nat) (e : Engine R X B) (buf : string) (segs : list segment)
    : go (ConnState W) (list string * string) :=
  match fuel with
  | O => mret ([], "")
  | S fuel =>
      let (l, rest) := cut_line buf in
      if (MaxScanTokenSize <=? String.length l)%nat then mret ([], "")
      else
        match rest with
        | Some buf =>
            _ ← timed_line e (dropCR l);
            '(ls, input) ← serve fuel e buf segs;
            mret (dropCR l :: ls, input)
        | None =>
            '(r, segs) ← conn_Read segs;
            match r : option string with
            | Some chunk =>
                '(ls, input) ← serve fuel e (buf +:+ chunk) segs;
                mret (ls, chunk +:+ input)
            | None =>
                if bool_decide (l = "") then mret ([], "")
                else _ ← timed_line e (dropCR l); mret ([dropCR l], "")
            end
        end
  end.

(** Every turn takes a segment, or a line from the buffer. *)
Fixpoint bytes_of (segs : list segment) : string :=
  match segs with
  | [] => EmptyString
  | Bytes _ chunk :: segs => chunk +:+ bytes_of segs
  | Eof _ :: segs => bytes_of segs
  end.

Definition serve_fuel (buf : string) (segs : list segment) : nat :=
  (String.length buf + String.length (bytes_of segs) + length segs + 1)%nat.
End Connection.

Section Properties.
Context {R X B W : Type}.
Context `{RedisDecrementor R W, MLScorer X W, Engine.Blocklist B W, Clock W, Timer W}.
Variable oob : spec_float -> Z.

(** [handleConn] on a connection just accepted. *)
Definition timed_handleConn (e : Engine R X B) (segs : list segment)
    : go (ConnState W) (list string * string) := fun c =>
  serve oob (now c + connDeadline) (serve_fuel "" segs) e "" segs c.

(** ** Lemmas *)

Lemma cut_line_None s l : cut_line s = (l, None) -> l = s /\ has_char newline s = false.
Proof.
  revert l. induction s as [|c s IH]; intros l; cbn [cut_line has_char]; [by intros [= <-]|].
  destruct (Ascii.eqb c newline) eqn:Hc; [done|].
  destruct (cut_line s) as [l' r']. intros [= <- ->]. destruct (IH l' eq_refl) as [-> ->]. done.
Qed.

Lemma cut_line_no_newline s l r : cut_line s = (l, Some r) -> has_char newline l = false.
Proof.
  revert l. induction s as [|c s IH]; intros l; cbn [cut_line]; [done|].
  destruct (Ascii.eqb c newline) eqn:Hc; [by intros [= <- <-]|].
  destruct (cut_line s) as [l' r']. intros [= <- ->]. cbn [has_char]. by rewrite Hc, IH.
Qed.


Lemma tokens_last l :
  has_char newline l = false -> (String.length l < MaxScanTokenSize)%nat ->
  tokens l = if bool_decide (l = "") then [] else [dropCR l].
Proof.
  intros Hl Hlen. unfold tokens. cbn [scan_lines]. rewrite cut_line_last by done.
  by destruct (Nat.leb_spec MaxScanTokenSize (String.length l)); [lia|].
Qed.

Lemma bytes_of_app segs1 segs2 : bytes_of (segs1 ++ segs2) = bytes_of segs1 +:+ bytes_of segs2.
Proof.
  induction segs1 as [|[t chunk|t] segs1 IH]; [done| |exact IH].
  cbn [app bytes_of]. by rewrite IH, append_assoc.
Qed.

(** The outcomes of a read. *)
Lemma conn_Read_cases deadline segs (c : ConnState W) r segs' c' :
  conn_Read deadline segs c = (Returns (r, segs'), c') ->
  (exists t chunk, r = Some chunk /\ segs = Bytes t chunk :: segs' /\ t < deadline) \/
  (r = None /\ segs' = segs).
Proof.
  unfold conn_Read. destruct (deadline <=? now c); [intros [= <- <- <-]; by right|].
  destruct segs as [|g segs]; [intros [= <- <- <-]; by right|].
  destruct (Z.ltb_spec (arrival g) deadline); [|intros [= <- <- <-]; by right].
  destruct g as [t chunk|t]; intros [= <- <- <-]; [left; by exists t, chunk|by right].
Qed.

Lemma conn_Read_returns deadline segs (c : ConnState W) :
  exists r segs' c', conn_Read deadline segs c = (Returns (r, segs'), c').
Proof.
  unfold conn_Read. destruct (deadline <=? now c); [by do 3 eexists|].
  destruct segs as [|g segs]; [by do 3 eexists|].
  destruct (arrival g <? deadline); [|by do 3 eexists]. destruct g; by do 3 eexists.
Qed.

(** A line, its decision, and its answer if it is in time. *)
Lemma timed_line_spec (e : Engine R X B) deadline line (c : ConnState W) :
  never_panics e ->
  exists d w', decide_line oob e line (world c) = (Returns d, w') /\
    timed_line oob deadline e line c = (Returns tt, MkConn w'
      (sent c ++ if time_now (ext w') <? deadline then [response_text d] else [])).
Proof.
  intros He. unfold timed_line.
  destruct (handle_line_decides oob e line (world c) [] He) as (d & w' & Hd & E).
  exists d, w'. rewrite E. done.
Qed.

Lemma timed_line_returns (e : Engine R X B) deadline line (c : ConnState W) :
  never_panics e -> exists c', timed_line oob deadline e line c = (Returns tt, c').
Proof. intros He. destruct (timed_line_spec e deadline line c He) as (d & w' & _ & E). by eexists. Qed.

(** With an empty buffer, the loop reads. *)
Lemma serve_read (e : Engine R X B) deadline fuel segs (c : ConnState W) :
  serve oob deadline (Datatypes.S fuel) e "" segs c =
    (r ← conn_Read deadline segs;
     match r.1 with
     | Some chunk =>
         res ← serve oob deadline fuel e ("" +:+ chunk) r.2;
         mret (res.1, chunk +:+ res.2)
     | None => mret ([], "")
     end) c.
Proof.
  cbn [serve cut_line]. destruct (Nat.leb_spec MaxScanTokenSize (String.length "")) as [Hlong|_].
  { exfalso. by apply Nat.le_0_r in Hlong. }
  unfold mbind, go_bind. destruct (conn_Read deadline segs c) as [[[[chunk|] segs']|msg] c1]; [|done..].
  cbn [fst snd]. by destruct (serve _ _ _ _ _ _ _) as [[[ls input]|msg] c2].
Qed.

(** What a run of the loop has read and handled. *)
Lemma serve_reads (e : Engine R X B) deadline fuel buf segs (c : ConnState W) :
  never_panics e -> (serve_fuel buf segs <= fuel)%nat ->
  exists read unread c', segs = read ++ unread /\
    Forall (fun g => arrival g < deadline) read /\
    serve oob deadline fuel e buf segs c =
      (Returns (tokens (buf +:+ bytes_of read), bytes_of read), c').
Proof.
  intros He. revert buf segs c. induction fuel as [|fuel IH]; intros buf segs c Hf;
    unfold serve_fuel in *; [lia|].
  cbn [serve]. destruct (cut_line buf) as [l rest] eqn:Hcut.
  destruct (Nat.leb_spec MaxScanTokenSize (String.length l)) as [Hlong|Hshort].
  { exists [], segs, c. split_and!; [done|done|]. rewrite append_empty_r, tokens_long; [done|].
    by rewrite Hcut. }
  destruct rest as [buf'|].
  - pose proof (cut_line_Some _ _ _ Hcut) as ->. pose proof (cut_line_no_newline _ _ _ Hcut) as Hl.
    destruct (timed_line_returns e deadline (dropCR l) c He) as [c1 E1].
    unfold mbind, go_bind. rewrite E1.
    destruct (IH buf' segs c1) as (read & unread & c' & Hsegs & Hread & E).
    { rewrite append_length in Hf. cbn [String.length] in Hf. lia. }
    exists read, unread, c'. split_and!; [done|done|]. rewrite E.
    rewrite append_assoc, append_cons, tokens_cons by done. done.
  - apply cut_line_None in Hcut as [-> Hl].
    destruct (conn_Read_returns deadline segs c) as (r & segs' & c1 & Er).
    unfold mbind at 1, go_bind at 1. rewrite Er.
    destruct (conn_Read_cases _ _ _ _ _ _ Er) as [(t & chunk & -> & -> & Ht)|[-> ->]].
    + unfold mbind, go_bind. destruct (IH (buf +:+ chunk) segs' c1) as (read & unread & c' & -> & Hread & E).
      { rewrite append_length. cbn [bytes_of length] in Hf. rewrite append_length in Hf. lia. }
      exists (Bytes t chunk :: read), unread, c'. split_and!; [done|by constructor|].
      rewrite E. cbn [bytes_of]. by rewrite append_assoc.
    + exists [], segs. cbn [bytes_of]. rewrite append_empty_r, tokens_last by done.
      case_bool_decide as Hempty; [by exists c1|].
      destruct (timed_line_returns e deadline (dropCR buf) c1 He) as [c2 E2].
      exists c2. split_and!; [done|done|]. unfold mbind, go_bind. by rewrite E2.
Qed.

(** More fuel changes nothing. *)
Lemma serve_more (e : Engine R X B) deadline n m buf segs (c : ConnState W) :
  (serve_fuel buf segs <= n)%nat -> (serve_fuel buf segs <= m)%nat ->
  serve oob deadline n e buf segs c = serve oob deadline m e buf segs c.
Proof.
  revert m buf segs c. induction n as [|n IH]; intros m buf segs c Hn Hm;
    [unfold serve_fuel in *; lia|]. destruct m as [|m]; [unfold serve_fuel in *; lia|].
  cbn [serve]. destruct (cut_line buf) as [l rest] eqn:Hcut. case_match; [done|].
  destruct rest as [buf'|].
  - unfold mbind, go_bind. destruct (timed_line oob deadline e (dropCR l) c) as [[[]|msg] c1]; [|done].
    apply cut_line_Some, (f_equal String.length) in Hcut. rewrite append_length in Hcut.
    cbn [String.length] in Hcut. unfold serve_fuel in *. rewrite (IH m) by lia. done.
  - unfold mbind, go_bind. destruct (conn_Read_returns deadline segs c) as (r & segs' & c1 & Er).
    rewrite Er. destruct (conn_Read_cases _ _ _ _ _ _ Er) as [(t & chunk & -> & -> & _)|[-> ->]]; [|done].
    unfold serve_fuel in *. cbn [bytes_of length] in *. rewrite append_length in *.
    rewrite (IH m) by (rewrite append_length; lia). done.
Qed.

(** The loop does not see what arrives too late. *)
Lemma conn_Read_late deadline segs late (c : ConnState W) :
  Forall (fun g => deadline <= arrival g) late ->
  conn_Read deadline (segs ++ late) c =
    match conn_Read deadline segs c with
    | (Returns (Some chunk, segs'), c') => (Returns (Some chunk, segs' ++ late), c')
    | (Returns (None, _), c') => (Returns (None, segs ++ late), c')
    | (Panics msg, c') => (Panics msg, c')
    end.
Proof.
  intros Hlate. unfold conn_Read. destruct (deadline <=? now c); [done|].
  destruct segs as [|g segs].
  - destruct Hlate as [|g late Hg _]; [done|]. cbn [app].
    destruct (Z.ltb_spec (arrival g) deadline); [lia|done].
  - cbn [app]. destruct (arrival g <? deadline); [|done]. by destruct g.
Qed.

Lemma serve_late (e : Engine R X B) deadline fuel buf segs late (c : ConnState W) :
  Forall (fun g => deadline <= arrival g) late ->
  serve oob deadline fuel e buf (segs ++ late) c = serve oob deadline fuel e buf segs c.
Proof.
  intros Hlate. revert buf segs c. induction fuel as [|fuel IH]; intros buf segs c; [done|].
  cbn [serve]. destruct (cut_line buf) as [l [buf'|]]; case_match; try done.
  - unfold mbind, go_bind. destruct (timed_line oob deadline e (dropCR l) c) as [[[]|msg] c1]; [|done].
    by rewrite IH.
  - unfold mbind, go_bind. rewrite conn_Read_late by done.
    destruct (conn_Read deadline segs c) as [[[[chunk|] segs']|msg] c1]; [|done..]. by rewrite IH.
Qed.

(** *** A burst *)

Fixpoint timed_lines (e : Engine R X B) (deadline : Z) (ls : list string) : go (ConnState W) unit :=
  match ls with
  | [] => mret tt
  | l :: ls => _ ← timed_line oob deadline e l; timed_lines e deadline ls
  end.

(** Complete lines in the buffer are handled before the next read. *)
Lemma serve_unlines (e : Engine R X B) deadline fuel ls segs (c : ConnState W) :
  Forall plain_line ls ->
  serve oob deadline (length ls + fuel) e (unlines ls) segs c =
    match timed_lines e deadline ls c with
    | (Returns _, c1) =>
        match serve oob deadline fuel e "" segs c1 with
        | (Returns (ls', input), c2) => (Returns (ls ++ ls', input), c2)
        | (Panics msg, c2) => (Panics msg, c2)
        end
    | (Panics msg, c1) => (Panics msg, c1)
    end.
Proof.
  intros Hls. revert c. induction Hls as [|l ls (Hn & Hcr & Hlen) _ IH]; intros c.
  { cbn [length Nat.add unlines timed_lines]. go_unfold.
    by destruct (serve _ _ _ _ _ _ _) as [[[ls' input]|msg] c2]. }
  cbn [length Nat.add serve unlines timed_lines]. rewrite cut_line_app, Hcr by done.
  destruct (Nat.leb_spec MaxScanTokenSize (String.length l)); [lia|].
  unfold mbind, go_bind. destruct (timed_line oob deadline e l c) as [[[]|msg] c1]; [|done].
  rewrite IH. destruct (timed_lines e deadline ls c1) as [[[]|msg] c2]; [|done].
  by destruct (serve _ _ _ _ _ _ _) as [[[ls' input]|msg] c3].
Qed.

(** The decisions on lines that are there, one after the other, with the clock after
    each of them. *)
Fixpoint decide_lines (e : Engine R X B) (ls : list string) : go (World W) (list (Decision * Z)) :=
  match ls with
  | [] => mret []
  | l :: ls =>
      d ← decide_line oob e l;
      t ← (fun w => (Returns (time_now (ext w)), w));
      ds ← decide_lines e ls;
      mret ((d, t) :: ds)
  end.

(** The answers that are written in time. *)
Definition in_time_answers (deadline : Z) (ds : list (Decision * Z)) : list string :=
  (fun dt => response_text dt.1) <$> filter (fun dt => dt.2 < deadline) ds.

Lemma timed_lines_answers (e : Engine R X B) deadline ls w out :
  never_panics e ->
  exists ds w', decide_lines e ls w = (Returns ds, w') /\ length ds = length ls /\
    timed_lines e deadline ls (MkConn w out) =
      (Returns tt, MkConn w' (out ++ in_time_answers deadline ds)).
Proof.
  intros He. revert w out. induction ls as [|l ls IH]; intros w out.
  { exists [], w. by rewrite app_nil_r. }
  destruct (timed_line_spec e deadline l (MkConn w out) He) as (d & w1 & Hd & Hline).
  cbn [timed_lines decide_lines]. go_unfold. rewrite Hline, Hd. cbn [world sent].
  destruct (IH w1 (out ++ if time_now (ext w1) <? deadline then [response_text d] else []))
    as (ds & w' & Hds & Hlen & Hrun).
  exists ((d, time_now (ext w1)) :: ds), w'. rewrite Hds, Hrun, <- app_assoc. cbn [length].
  split; [done|]. split; [by rewrite Hlen|]. do 3 f_equal.
  unfold in_time_answers. rewrite filter_cons. cbn [snd].
  destruct (Z.ltb_spec (time_now (ext w1)) deadline); [by rewrite decide_True|rewrite decide_False by lia; done].
Qed.

(** The engine's decisions on vectors. *)
Fixpoint evaluate_timed (e : Engine R X B) (fvs : list FeatureVector) : go (World W) (list (Decision * Z)) :=
  match fvs with
  | [] => mret []
  | fv :: fvs =>
      d ← Evaluate oob e (Some fv);
      t ← (fun w => (Returns (time_now (ext w)), w));
      ds ← evaluate_timed e fvs;
      mret ((d, t) :: ds)
  end.

Lemma decide_carried (e : Engine R X B) ls fvs w :
  Forall2 carries ls fvs -> decide_lines e ls w = evaluate_timed e fvs w.
Proof.
  intros Hc. revert w. induction Hc as [|l fv ls fvs Hl _ IH]; intros w; [done|].
  cbn [decide_lines evaluate_timed]. unfold decide_line. rewrite (Unmarshal_carries l fv Hl).
  unfold mbind, go_bind. destruct (Evaluate oob e (Some fv) w) as [[d|msg] w1]; [|done]. by rewrite IH.
Qed.

(** The world when nothing more comes: the loop has waited for the deadline. *)
Definition waited (deadline : Z) (w : World W) : World W :=
  if time_now (ext w) <? deadline then MkWorld (sleep_until deadline (ext w)) (spawned w) else w.

(** A burst of lines that is there at [a]. *)
Lemma burst_run (e : Engine R X B) ls a (w : World W) :
  never_panics e -> Forall plain_line ls -> a < time_now (ext w) + connDeadline ->
  let deadline := time_now (ext w) + connDeadline in
  exists ds w', decide_lines e ls (MkWorld (sleep_until a (ext w)) (spawned w)) = (Returns ds, w') /\
    length ds = length ls /\
    timed_handleConn e [Bytes a (unlines ls)] (MkConn w []) =
      (Returns (ls, unlines ls), MkConn (waited deadline w') (in_time_answers deadline ds)).
Proof.
  intros He Hls Ha deadline.
  assert (conn_Read deadline [Bytes a (unlines ls)] (MkConn w []) =
    (Returns (Some (unlines ls), []), conn_sleep a (MkConn w []))) as Hread.
  { unfold conn_Read, now. cbn [world arrival]. subst deadline.
    destruct (Z.leb_spec (time_now (ext w) + connDeadline) (time_now (ext w)));
      [unfold connDeadline in *; lia|].
    destruct (Z.ltb_spec a (time_now (ext w) + connDeadline)); [done|lia]. }
  destruct (timed_lines_answers e deadline ls (MkWorld (sleep_until a (ext w)) (spawned w)) [] He)
    as (ds & w' & Hds & Hlen & Hrun).
  exists ds, w'. split; [done|]. split; [done|].
  unfold timed_handleConn, now. cbn [world]. fold deadline.
  rewrite (serve_more e deadline _ (Datatypes.S (length ls + (String.length (unlines ls) + 2))));
    [|done|unfold serve_fuel; cbn [bytes_of length String.length];
       rewrite append_empty_r; lia].
  rewrite serve_read by done. unfold mbind at 1, go_bind at 1. rewrite Hread.
  cbn [fst snd]. unfold mbind, go_bind. change ("" +:+ unlines ls) with (unlines ls).
  rewrite serve_unlines by done. unfold conn_sleep. cbn [world sent]. rewrite Hrun. cbn [app].
  rewrite Nat.add_succ_r, serve_read by done. unfold mbind, go_bind, conn_Read, waited, now. cbn [world].
  destruct (Z.leb_spec deadline (time_now (ext w'))), (Z.ltb_spec (time_now (ext w')) deadline); try lia;
    cbn; by rewrite app_nil_r, append_empty_r.
Qed.

Section Laws.
Context `{!TimerLaws R X B W}.

Lemma Evaluate_time (e : Engine R X B) fv (w w' : World W) d :
  Evaluate oob e fv w = (Returns d, w') -> time_now (ext w) <= time_now (ext w').
Proof.
  intros Hev. pose proof (Evaluate_eq oob e fv w) as E. rewrite Hev in E.
  pose proof (time_Decrement (redis e) (GetClientIp fv) (ext w)) as T1.
  destruct (Decrement _ _ _) as [r s1]. cbn [snd] in T1.
  pose proof (time_Score (ml e) fv s1) as T2.
  destruct (Score (ml e) fv s1) as [[[[x v] err]|msg] s2]; [|done]. cbn [snd] in T2.
  injection E as -> ->. cbn [ext]. unfold apply_decision.
  destruct (d_Action _); [lia|lia|].
  pose proof (time_Add (blocklist e) (GetClientIp fv) s2). lia.
Qed.

(** The clocks of the decisions are in order. *)
Lemma decide_lines_sorted (e : Engine R X B) ls w ds w' :
  decide_lines e ls w = (Returns ds, w') ->
  Forall (fun t => time_now (ext w) <= t) (snd <$> ds) /\ StronglySorted Z.le (snd <$> ds).
Proof.
  revert w ds. induction ls as [|l ls IH]; intros w ds; cbn [decide_lines].
  { intros [= <- <-]. by repeat constructor. }
  go_unfold. destruct (decide_line oob e l w) as [[d|msg] w1] eqn:Hd; [|done].
  destruct (decide_lines e ls w1) as [[ds1|msg] w2] eqn:Hds; [|done]. intros [= <- <-].
  destruct (IH w1 ds1 Hds) as [Hle Hs].
  assert (time_now (ext w) <= time_now (ext w1)) as Ht.
  { unfold decide_line in Hd. destruct (Unmarshal l); [by eapply Evaluate_time|].
    injection Hd as _ <-. lia. }
  cbn [fmap list_fmap snd]. split; [|by constructor].
  constructor; [done|]. eapply Forall_impl; [exact Hle|]. cbn. intros t. lia.
Qed.

(** *** How long a connection lasts *)

Section Length.
Variable e : Engine R X B.
Variables deadline D : Z.
Hypothesis He : never_panics e.
Hypothesis HD : 0 <= D.
Hypothesis Hev : forall fv (w w' : World W) d,
  Evaluate oob e fv w = (Returns d, w') -> time_now (ext w') <= time_now (ext w) + D.

Lemma conn_Read_time segs (c c' : ConnState W) r :
  conn_Read deadline segs c = (Returns r, c') -> now c' <= Z.max (now c) deadline.
Proof.
  unfold conn_Read. destruct (deadline <=? now c); [intros [= <- <-]; lia|].
  assert (forall t, now (conn_sleep t c) = Z.max t (now c)) as Hs by (intros t; apply time_sleep).
  destruct segs as [|g segs]; [intros [= <- <-]; rewrite Hs; lia|].
  destruct (Z.ltb_spec (arrival g) deadline); intros [= <- <-]; rewrite Hs; lia.
Qed.

Lemma timed_line_time line (c c' : ConnState W) u :
  timed_line oob deadline e line c = (Returns u, c') -> now c' <= now c + D.
Proof.
  destruct (timed_line_spec e deadline line c He) as (d & w' & Hd & ->). intros [= _ <-].
  unfold now. cbn [world]. unfold decide_line in Hd. destruct (Unmarshal line) as [fv|].
  - by eapply Hev.
  - injection Hd as _ <-. lia.
Qed.

Lemma serve_time fuel buf segs (c c' : ConnState W) ls input :
  serve oob deadline fuel e buf segs c = (Returns (ls, input), c') ->
  now c' <= Z.max (now c) deadline + D * Z.of_nat (length ls).
Proof.
  revert buf segs c ls input. induction fuel as [|fuel IH]; intros buf segs c ls input; cbn [serve];
    [intros [= <- _ <-]; cbn; lia|].
  destruct (cut_line buf) as [l rest].
  destruct (MaxScanTokenSize <=? String.length l)%nat; [intros [= <- _ <-]; cbn; lia|].
  destruct rest as [buf'|].
  - unfold mbind, go_bind. destruct (timed_line oob deadline e (dropCR l) c) as [[[]|msg] c1] eqn:E1; [|done].
    destruct (serve oob deadline fuel e buf' segs c1) as [[[ls1 in1]|msg] c2] eqn:E2; [|done].
    intros [= <- _ <-]. apply timed_line_time in E1. apply IH in E2. cbn [length]. lia.
  - unfold mbind, go_bind. destruct (conn_Read deadline segs c) as [[[[chunk|] segs']|msg] c1] eqn:E1; [..|done];
      apply conn_Read_time in E1.
    + destruct (serve oob deadline fuel e (buf +:+ chunk) segs' c1) as [[[ls1 in1]|msg] c2] eqn:E2; [|done].
      intros [= <- _ <-]. apply IH in E2. lia.
    + case_bool_decide; [intros [= <- _ <-]; cbn; lia|].
      destruct (timed_line oob deadline e (dropCR l) c1) as [[[]|msg] c2] eqn:E2; [|done].
      intros [= <- _ <-]. apply timed_line_time in E2. cbn [length]. lia.
Qed.
End Length.
End Laws.

(** ** Properties *)


Context `{!TimerLaws R X B W}.



End Properties.

(** ** Witnesses: a Redis that takes 90 ms *)

Module SlowMock.
Record t := MkSlow { clock : Z; asked : Z }.

#[global] Instance slow_redis : RedisDecrementor unit t := {|
  Decrement _ _ s := ((2 - asked s, None), MkSlow (clock s + 90 * 1000000) (asked s + 1))
|}.
#[global] Instance slow_scorer : MLScorer unit t := {|
  Score _ _ s := (Returns (f_zero, "v1", None), s)
|}.
#[global] Instance slow_blocklist : Engine.Blocklist unit t := {|
  Add _ _ s := (None, s); Remove _ _ s := (None, s)
|}.
#[global] Instance slow_clock : Clock t := {| time_now := clock |}.
#[global] Instance slow_timer : Timer t := {|
  sleep_until u s := MkSlow (Z.max u (clock s)) (asked s)
|}.

#[global] Instance slow_laws : TimerLaws unit unit unit t.
Proof. split; intros; cbn; lia. Qed.

Definition w0 : World t := MkWorld (MkSlow 0 0) [].
Definition lines : list string := replicate 3 (quotes "{'client_ip':'1.2.3.4'}").
End SlowMock.

Lemma slow_never_panics : never_panics (S := SlowMock.t) Mock.engine.
Proof. intros fv s. by do 2 eexists. Defined.

Lemma slow_lines_plain : Forall plain_line SlowMock.lines.
Proof.
  repeat first [apply Forall_nil; exact I | apply Forall_cons; split];
    (split; [reflexivity|split; [reflexivity|apply Nat.ltb_lt; vm_compute; reflexivity]]).
Defined.



(** Two vectors, the first written with spaces, an escape and a member that is not the
    vector's. *)
Definition sent_line : string :=
  quotes "{ 'is_http2':1, 'header_count':9,'trace':[1,{}], 'client_ip':'10.0.0.7', 'ja3_hash':'n\u006fne','user_agent_hash':'ua','req_rate_1s':1.2e1,'req_rate_10s':0,'req_rate_60s':0,'http_method':'GET','uri_hash':'uri','content_length':1024,'unix_timestamp':1700000000}".

Lemma sent_line_carries : carries sent_line demo_vector.
Proof.
  eexists. split; [vm_compute; reflexivity|]. split; [repeat split|].
  exists (to_text "1.2e1"), (to_text "0"), (to_text "0"),
    [(to_text "trace", VArray [VNumber (to_text "1"); VObject []])].
  split_and!; try (split; vm_compute; reflexivity).
  - repeat constructor.
  - vm_compute. solve_Permutation.
Defined.


