(* ===== verification/Counter.v ===== *)
(** * Rate counters of nginx (nginx/lua/counter.lua)

    The shared dictionary of OpenResty is the class [SharedDict]; times are in
    milliseconds.  [increment] and [get_rates] are the module's functions; the
    theorems compare the rates with the requests that really arrived. *)

From S2P Require Import Prelude.

(** ** The dictionary *)

(** A number and its expiry time. *)
Abbreviation dict_entry := (Z * Z)%type.

Class SharedDict (D : Type) := {
  dict_now : D -> Z;
  dict_live : D -> gmap string dict_entry;
  dict_incr : string -> Z -> Z -> Z -> io D Z;
  dict_get : string -> D -> option Z;
  dict_advance : Z -> D -> D
}.

(** [ngx.shared.DICT.incr] with a value, an initial value and its time to live in
    seconds.  A new key may push others out of the memory zone.  Whether an entry is
    still alive at the very millisecond of its expiry is left open. *)
Class SharedDictLaws (D : Type) `{SharedDict D} : Prop := {
  live_law k v x d : dict_live d !! k = Some (v, x) -> dict_now d <= x;
  get_value k d : dict_get k d = fst <$> dict_live d !! k;
  incr_live k n init ttl v x d : dict_live d !! k = Some (v, x) ->
    exists d', dict_incr k n init ttl d = (Ok (v + n), d') /\ dict_now d' = dict_now d /\
      dict_live d' = <[k := (v + n, x)]> (dict_live d);
  incr_absent k n init ttl d r d' : dict_live d !! k = None -> 0 < ttl ->
    dict_incr k n init ttl d = (r, d') ->
    dict_now d' = dict_now d /\
    (forall k', k' <> k -> dict_live d' !! k' = dict_live d !! k' \/ dict_live d' !! k' = None) /\
    match r with
    | Ok m => m = init + n /\ dict_live d' !! k = Some (init + n, dict_now d + ttl * 1000)
    | Err _ => dict_live d' !! k = None
    end;
  advance_now ms d : 0 <= ms -> dict_now (dict_advance ms d) = dict_now d + ms;
  advance_old ms k e d : 0 <= ms ->
    dict_live (dict_advance ms d) !! k = Some e -> dict_live d !! k = Some e;
  advance_keep ms k v x d : 0 <= ms -> dict_live d !! k = Some (v, x) -> dict_now d + ms < x ->
    dict_live (dict_advance ms d) !! k = Some (v, x)
}.

(** ** counter.lua *)

(** The windows: suffix and seconds. *)
Definition WINDOWS : list (string * Z) := [("1s", 1); ("10s", 10); ("60s", 60)].

Definition counter_key (ip suffix : string) : string := "ip:" +:+ ip +:+ ":" +:+ suffix.

(** The table of rates: 1 s, 10 s, 60 s. *)
Record rates := Rates { req_rate_1s : Z; req_rate_10s : Z; req_rate_60s : Z }.

Definition table (l : list Z) : rates := Rates (nth 0 l 0) (nth 1 l 0) (nth 2 l 0).

Section Counter.
Context {D : Type} `{SharedDict D}.

(** The loop over the windows: a failed increment counts as rate 0. *)
Fixpoint increment_loop (ip : string) (ws : list (string * Z)) (d : D) : list Z * D :=
  match ws with
  | [] => ([], d)
  | (suffix, ttl) :: ws =>
      let (r, d1) := dict_incr (counter_key ip suffix) 1 0 ttl d in
      let (l, d2) := increment_loop ip ws d1 in
      (match r with Ok new_val => new_val | Err _ => 0 end :: l, d2)
  end.

Definition increment (ip : string) (d : D) : rates * D :=
  let (l, d') := increment_loop ip WINDOWS d in (table l, d').

Definition get_rates (ip : string) (d : D) : rates :=
  table ((fun w => default 0 (dict_get (counter_key ip w.1) d)) <$> WINDOWS).

(** ** What happens: requests and the passing of time *)

Inductive occurrence := Arrival (ip : string) | Pause (ms : Z).

Fixpoint happen (l : list occurrence) (d : D) : D :=
  match l with
  | [] => d
  | Arrival ip :: l => happen l (snd (increment ip d))
  | Pause ms :: l => happen l (dict_advance ms d)
  end.

(** The times of the requests of [ip], from [now] on, and the time at the end. *)
Fixpoint arrivals (ip : string) (now : Z) (l : list occurrence) : list Z :=
  match l with
  | [] => []
  | Arrival ip' :: l => (if bool_decide (ip' = ip) then [now] else []) ++ arrivals ip now l
  | Pause ms :: l => arrivals ip (now + ms) l
  end.

Fixpoint duration (l : list occurrence) : Z :=
  match l with
  | [] => 0
  | Arrival _ :: l => duration l
  | Pause ms :: l => ms + duration l
  end.

Definition forward (l : list occurrence) : Prop :=
  Forall (fun o => match o with Arrival _ => True | Pause ms => 0 <= ms end) l.

(** The requests of the last [w] seconds: what a sliding window would count. *)
Definition since (t : Z) (times : list Z) : Z := Z.of_nat (length (filter (fun x => t <= x) times)).

Definition sliding (ip : string) (now0 w : Z) (l : list occurrence) : Z :=
  since (now0 + duration l - w * 1000) (arrivals ip now0 l).
End Counter.

(** ** Lemmas *)

Lemma append_end (s s' t t' : string) :
  String.length t = String.length t' -> s +:+ t = s' +:+ t' -> s = s' /\ t = t'.
Proof.
  intros Hlen E. assert (String.length s = String.length s') as Hs.
  { apply (f_equal String.length) in E. rewrite !append_length in E. lia. }
  clear Hlen. revert s' Hs E. induction s as [|c s IH]; intros [|c' s'] Hs E; try done.
  rewrite !append_cons in E. injection E as -> E. injection Hs as Hs.
  destruct (IH s' Hs E) as [-> ->]. done.
Qed.

(** Every address has its own counters. *)
Lemma counter_key_inj ip ip' w w' :
  w ∈ WINDOWS -> w' ∈ WINDOWS -> counter_key ip w.1 = counter_key ip' w'.1 -> ip = ip' /\ w = w'.
Proof.
  unfold WINDOWS. rewrite !elem_of_cons, !elem_of_nil. intros Hw Hw' E. unfold counter_key in E.
  apply append_inj_l in E. destruct_or! Hw; destruct_or! Hw'; subst w w'; cbn [fst] in E;
    try (apply append_end in E as [-> _]; done); exfalso.
  (* the last two characters of the keys *)
  all: change (":" +:+ "1s") with ((":" : string) +:+ "1s") in E;
    change (":" +:+ "10s") with (":1" +:+ "0s") in E; change (":" +:+ "60s") with (":6" +:+ "0s") in E;
    rewrite <- !append_assoc in E; apply append_end in E as [E ?]; [|done];
    try discriminate.
  all: change ":1" with ((":" : string) +:+ "1") in E; change ":6" with ((":" : string) +:+ "6") in E;
    rewrite <- !append_assoc in E; apply append_end in E as [_ E]; done.
Qed.

Lemma since_mono t t' l : t <= t' -> since t' l <= since t l.
Proof.
  intros Ht. unfold since. induction l as [|x l IH]; [done|]. rewrite !filter_cons.
  repeat case_decide; cbn [length]; lia.
Qed.

Lemma since_snoc t l x : t <= x -> since t (l ++ [x]) = since t l + 1.
Proof.
  intros Hx. unfold since. rewrite filter_app, length_app, filter_cons, decide_True by done. cbn. lia.
Qed.

Lemma since_app t l k : since t l <= since t (l ++ k).
Proof. unfold since. rewrite filter_app, length_app. lia. Qed.

Lemma since_elem t l x : x ∈ l -> t <= x -> 1 <= since t l.
Proof.
  intros Hin Hx. unfold since.
  assert (x ∈ filter (fun y => t <= y) l) as Hf by by apply list_elem_of_filter.
  destruct (filter _ l); [by apply elem_of_nil in Hf|cbn; lia].
Qed.

Section Lemmas.
Context {D : Type} `{SharedDictLaws D}.

(** What a counter says: no more than the requests since its window opened. *)
Definition sound (log : string -> list Z) (d : D) : Prop :=
  forall ip w v x, w ∈ WINDOWS -> dict_live d !! counter_key ip w.1 = Some (v, x) ->
    v <= since (x - w.2 * 1000) (log ip) /\ x <= dict_now d + w.2 * 1000.

(** The counters of [ip] in [rest] are still to be incremented. *)
Definition sound_but (log : string -> list Z) (ip0 : string) (rest : list (string * Z)) (d : D) : Prop :=
  forall ip w v x, w ∈ WINDOWS -> dict_live d !! counter_key ip w.1 = Some (v, x) ->
    (v + (if decide (ip = ip0 /\ w ∈ rest) then 1 else 0) <= since (x - w.2 * 1000) (log ip)) /\
    x <= dict_now d + w.2 * 1000.

Lemma increment_loop_sound log ip rest d l d' :
  (forall w, w ∈ rest -> w ∈ WINDOWS) -> NoDup rest -> dict_now d ∈ log ip ->
  sound_but log ip rest d -> increment_loop ip rest d = (l, d') ->
  sound log d' /\ dict_now d' = dict_now d.
Proof.
  intros Hsub Hnd Hnow. revert d l d' Hnow. induction rest as [|[sfx ttl] rest IH]; intros d l d' Hnow Hs.
  { intros [= _ <-]. split; [|done]. intros ip' w v x Hw Hl. destruct (Hs ip' w v x Hw Hl) as [Hv Hx].
    split; [|done]. destruct (decide _) as [[_ Hin]|_] in Hv; [by apply elem_of_nil in Hin|lia]. }
  cbn [increment_loop]. destruct (dict_incr _ 1 0 ttl d) as [r d1] eqn:Ei.
  destruct (increment_loop ip rest d1) as [l2 d2] eqn:El. intros [= _ <-].
  apply NoDup_cons in Hnd as [Hnew Hnd].
  assert ((sfx, ttl) ∈ WINDOWS) as Hw0 by (apply Hsub, list_elem_of_here).
  assert (0 < ttl) as Httl.
  { unfold WINDOWS in Hw0. rewrite !elem_of_cons, elem_of_nil in Hw0. destruct_or! Hw0; injection Hw0; lia. }
  assert (dict_now d1 = dict_now d /\ sound_but log ip rest d1) as [Hnow1 Hs1].
  2:{ rewrite <- Hnow1. apply (IH ltac:(intros w Hw; apply Hsub; by apply list_elem_of_further) Hnd d1 l2 d2);
        [by rewrite Hnow1|done|done]. }
  set (k := counter_key ip sfx) in *.
  (* the other counters have kept their values or are gone *)
  assert (dict_now d1 = dict_now d -> forall ip' w v x, w ∈ WINDOWS ->
    dict_live d !! counter_key ip' w.1 = Some (v, x) ->
    (v + (if decide (ip' = ip /\ w ∈ rest) then 1 else 0) <= since (x - w.2 * 1000) (log ip')) /\
    x <= dict_now d1 + w.2 * 1000) as Hother.
  { intros -> ip' w v x Hw Hl. destruct (Hs ip' w v x Hw Hl) as [Hv Hx]. split; [|done].
    destruct (decide (ip' = ip /\ w ∈ rest)) as [[-> Hin]|]; [|case_decide; lia].
    rewrite decide_True in Hv by (split; [done|by apply list_elem_of_further]). done. }
  destruct (dict_live d !! k) as [[v0 x0]|] eqn:Ek.
  - destruct (incr_live k 1 0 ttl v0 x0 d Ek) as (d1' & Ei' & Hnow1 & Hlive1).
    rewrite Ei in Ei'. injection Ei' as -> <-. split; [done|]. intros ip' w v x Hw Hl. rewrite Hlive1 in Hl.
    destruct (decide (counter_key ip' w.1 = k)) as [Heq|Hne].
    + destruct (counter_key_inj ip' ip w (sfx, ttl) Hw Hw0 Heq) as [-> ->].
      rewrite Heq, lookup_insert_eq in Hl. injection Hl as <- <-.
      destruct (Hs ip (sfx, ttl) v0 x0 Hw0 Ek) as [Hv Hx].
      rewrite decide_True in Hv by (split; [done|apply list_elem_of_here]).
      rewrite decide_False by (by intros [_ ?]). rewrite Hnow1. split; [cbn in *; lia|done].
    + rewrite lookup_insert_ne in Hl by done. by apply Hother.
  - destruct (incr_absent k 1 0 ttl d r d1 Ek Httl Ei) as (Hnow1 & Hrest & Hr). split; [done|].
    intros ip' w v x Hw Hl. destruct (decide (counter_key ip' w.1 = k)) as [Heq|Hne].
    + destruct (counter_key_inj ip' ip w (sfx, ttl) Hw Hw0 Heq) as [-> ->].
      rewrite decide_False by (by intros [_ ?]). rewrite Heq in Hl. cbn [snd].
      destruct r as [m|e]; [|congruence]. destruct Hr as [_ Hr]. rewrite Hr in Hl. injection Hl as <- <-.
      rewrite Hnow1. split; [|lia].
      pose proof (since_elem (dict_now d + ttl * 1000 - ttl * 1000) (log ip) _ Hnow). lia.
    + destruct (Hrest _ Hne) as [E|E]; rewrite E in Hl; [by apply Hother|done].
Qed.

Lemma increment_sound log ip d :
  sound log d -> sound (fun ip' => log ip' ++ (if bool_decide (ip' = ip) then [dict_now d] else []))
                   (snd (increment ip d)) /\
  dict_now (snd (increment ip d)) = dict_now d.
Proof.
  intros Hs. unfold increment. destruct (increment_loop ip WINDOWS d) as [l d'] eqn:El. cbn [snd].
  eapply increment_loop_sound; [| | | |exact El].
  - done.
  - by apply (bool_decide_unpack _).
  - cbv beta. rewrite bool_decide_eq_true_2 by done. apply elem_of_app. right. apply list_elem_of_here.
  - intros ip' w v x Hw Hl. destruct (Hs ip' w v x Hw Hl) as [Hv Hx]. split; [|done].
    case_bool_decide as Hip.
    + rewrite since_snoc by lia. case_decide; lia.
    + rewrite app_nil_r. rewrite decide_False by (by intros [? _]). lia.
Qed.

Lemma advance_sound log ms d : 0 <= ms -> sound log d -> sound log (dict_advance ms d).
Proof.
  intros Hms Hs ip w v x Hw Hl. apply advance_old in Hl; [|done].
  destruct (Hs ip w v x Hw Hl) as [Hv Hx]. split; [done|]. rewrite advance_now by done. lia.
Qed.

Lemma happen_sound log l d :
  forward l -> sound log d ->
  sound (fun ip => log ip ++ arrivals ip (dict_now d) l) (happen l d) /\
  dict_now (happen l d) = dict_now d + duration l.
Proof.
  intros Hl. revert log d. induction Hl as [|[ip|ms] l Ho _ IH]; intros log d Hs; cbn [happen duration arrivals].
  - split; [|lia]. intros ip w v x Hw Hlv. rewrite app_nil_r. by apply Hs.
  - destruct (increment_sound log ip d Hs) as [Hs1 Hn1]. destruct (IH _ _ Hs1) as [Hs2 Hn2].
    rewrite Hn1 in Hs2, Hn2. split; [|done]. intros ip' w v x Hw Hlv.
    destruct (Hs2 ip' w v x Hw Hlv) as [Hv Hx]. split; [|done]. rewrite <- app_assoc in Hv.
    by rewrite (bool_decide_ext (ip = ip') (ip' = ip)).
  - destruct (IH log _ (advance_sound log ms d Ho Hs)) as [Hs2 Hn2].
    rewrite advance_now in Hs2, Hn2 by done. split; [done|lia].
Qed.

(** No request has been counted yet. *)
Definition no_counters (d : D) : Prop :=
  forall ip w, w ∈ WINDOWS -> dict_live d !! counter_key ip w.1 = None.

Lemma rate_bound l d ip w :
  forward l -> no_counters d -> w ∈ WINDOWS ->
  default 0 (dict_get (counter_key ip w.1) (happen l d)) <= sliding ip (dict_now d) w.2 l.
Proof.
  intros Hl Hd Hw. destruct (happen_sound (fun _ => []) l d Hl) as [Hs Hn].
  { intros ip' w' v x Hw' Hlv. by rewrite Hd in Hlv. }
  rewrite get_value. destruct (dict_live (happen l d) !! counter_key ip w.1) as [[v x]|] eqn:Hv; cbn.
  - destruct (Hs ip w v x Hw Hv) as [Hle _]. pose proof (live_law _ _ _ _ Hv) as Hx. rewrite Hn in Hx.
    unfold sliding. cbn in Hle. etrans; [exact Hle|]. apply since_mono. lia.
  - unfold sliding, since. lia.
Qed.

(** *** The size of the counters *)

Definition counts_within (n : Z) (d : D) : Prop :=
  forall ip w v x, w ∈ WINDOWS -> dict_live d !! counter_key ip w.1 = Some (v, x) -> 0 <= v <= n.

Lemma incr_within n k ttl d : 0 <= n -> 0 < ttl ->
  counts_within n d -> counts_within (n + 1) (snd (dict_incr k 1 0 ttl d)).
Proof.
  intros Hn Httl Hd ip w v x Hw. destruct (dict_incr k 1 0 ttl d) as [r d1] eqn:Ei. cbn [snd].
  destruct (dict_live d !! k) as [[v0 x0]|] eqn:Ek.
  - destruct (incr_live k 1 0 ttl v0 x0 d Ek) as (d1' & Ei' & _ & Hlive).
    rewrite Ei in Ei'. injection Ei' as _ <-. rewrite Hlive.
    destruct (decide (counter_key ip w.1 = k)) as [Heq|Hne].
    + rewrite <- Heq in Ek. pose proof (Hd ip w v0 x0 Hw Ek). rewrite Heq, lookup_insert_eq.
      intros [= <- _]. lia.
    + rewrite lookup_insert_ne by done. intros Hl. pose proof (Hd ip w v x Hw Hl). lia.
  - destruct (incr_absent k 1 0 ttl d r d1 Ek Httl Ei) as (_ & Hrest & Hr).
    destruct (decide (counter_key ip w.1 = k)) as [->|Hne].
    + destruct r; [|by rewrite Hr]. destruct Hr as [_ ->]. intros [= <- _]. lia.
    + destruct (Hrest _ Hne) as [->|E]; [|by rewrite E]. intros Hl. pose proof (Hd ip w v x Hw Hl). lia.
Qed.

Lemma increment_within n ip d :
  0 <= n -> counts_within n d -> counts_within (n + 3) (snd (increment ip d)).
Proof.
  intros Hn Hd. unfold increment, WINDOWS. cbn [increment_loop].
  pose proof (incr_within n (counter_key ip "1s") 1 d Hn ltac:(lia) Hd) as H1.
  destruct (dict_incr (counter_key ip "1s") 1 0 1 d) as [r1 d1]. cbn [snd] in H1.
  pose proof (incr_within (n + 1) (counter_key ip "10s") 10 d1 ltac:(lia) ltac:(lia) H1) as H10.
  destruct (dict_incr (counter_key ip "10s") 1 0 10 d1) as [r2 d2]. cbn [snd] in H10.
  pose proof (incr_within (n + 1 + 1) (counter_key ip "60s") 60 d2 ltac:(lia) ltac:(lia) H10) as H60.
  destruct (dict_incr (counter_key ip "60s") 1 0 60 d2) as [r3 d3]. cbn [snd] in *.
  by replace (n + 3) with (n + 1 + 1 + 1) by lia.
Qed.

Definition rates_within (n : Z) (rt : rates) : Prop :=
  0 <= req_rate_1s rt <= n /\ 0 <= req_rate_10s rt <= n /\ 0 <= req_rate_60s rt <= n.

Lemma get_rates_within n ip d : 0 <= n -> counts_within n d -> rates_within n (get_rates ip d).
Proof.
  intros Hn Hd. assert (forall w, w ∈ WINDOWS -> 0 <= default 0 (dict_get (counter_key ip w.1) d) <= n) as H1.
  { intros w Hw. rewrite get_value. destruct (dict_live d !! counter_key ip w.1) as [[v x]|] eqn:E; cbn; [|lia].
    by apply (Hd ip w v x). }
  unfold WINDOWS in H1. split_and!; first [apply (H1 ("1s", 1)) | apply (H1 ("10s", 10)) | apply (H1 ("60s", 60))];
    repeat first [apply list_elem_of_here | apply list_elem_of_further].
Qed.

(** ** Properties *)

(** C15: the rates never say too much.  After any requests and pauses, and whatever
    the dictionary has dropped for lack of memory or failed to count, the three
    rates of an address are at most the numbers of its requests in the last 1, 10 and
    60 seconds. *)
Theorem rates_never_overcount l d ip :
  forward l -> no_counters d ->
  req_rate_1s (get_rates ip (happen l d)) <= sliding ip (dict_now d) 1 l /\
  req_rate_10s (get_rates ip (happen l d)) <= sliding ip (dict_now d) 10 l /\
  req_rate_60s (get_rates ip (happen l d)) <= sliding ip (dict_now d) 60 l.
Proof.
  intros Hl Hd. split_and!; eapply (rate_bound l d ip); try done; unfold WINDOWS;
    repeat first [apply list_elem_of_here | apply list_elem_of_further].
Qed.
End Lemmas.

(** ** A dictionary in memory *)

Module MemDict.
(** An optional bound on the number of keys: beyond it new keys are refused. *)
Record t := Mem { clock : Z; store : gmap string (Z * Z); capacity : option nat }.

Definition alive (now : Z) (e : Z * Z) : Prop := now <= e.2.

#[global] Instance alive_dec now e : Decision (alive now e).
Proof. unfold alive. apply _. Defined.

#[global] Instance cmds : SharedDict t := {|
  dict_now := clock;
  dict_live d := filter (fun ke => alive (clock d) ke.2) (store d);
  dict_incr k n init ttl d :=
    match filter (fun ke => alive (clock d) ke.2) (store d) !! k with
    | Some (v, x) => (Ok (v + n), Mem (clock d) (<[k := (v + n, x)]> (store d)) (capacity d))
    | None =>
        if match capacity d with Some c => (c <=? size (store d))%nat | None => false end
        then (Err "no memory", d)
        else (Ok (init + n),
              Mem (clock d) (<[k := (init + n, clock d + ttl * 1000)]> (store d)) (capacity d))
    end;
  dict_get k d := fst <$> filter (fun ke => alive (clock d) ke.2) (store d) !! k;
  dict_advance ms d := Mem (clock d + ms) (store d) (capacity d)
|}.

Lemma live_insert (m : gmap string (Z * Z)) now k v x :
  now <= x -> filter (fun ke => alive now ke.2) (<[k := (v, x)]> m) =
    <[k := (v, x)]> (filter (fun ke => alive now ke.2) m).
Proof. intros Hx. by apply map_filter_insert_True. Qed.

#[global] Instance laws : SharedDictLaws t.
Proof.
  split; cbn.
  - intros k v x d (_ & Hx)%map_lookup_filter_Some. exact Hx.
  - done.
  - intros k n init ttl v x d Hk. rewrite Hk. eexists. split; [reflexivity|]. split; [done|]. cbn.
    apply live_insert. by apply map_lookup_filter_Some in Hk as [_ Hx].
  - intros k n init ttl d r d' Hk Httl. rewrite Hk. case_match; intros [= <- <-].
    + split; [done|]. split; [by left|done].
    + cbn. split; [done|]. rewrite live_insert by lia. split; [|by rewrite lookup_insert_eq].
      intros k' Hne. left. by rewrite lookup_insert_ne.
  - done.
  - intros ms k e d Hms (Hk & Hx)%map_lookup_filter_Some. apply map_lookup_filter_Some.
    split; [done|]. unfold alive in *. cbn in *. lia.
  - intros ms k v x d Hms (Hk & Hx)%map_lookup_filter_Some Hlt. apply map_lookup_filter_Some.
    split; [done|]. unfold alive in *. cbn in *. lia.
Qed.

Definition empty : t := Mem 0 ∅ None.

Lemma empty_no_counters : no_counters empty.
Proof. intros ip w _. apply map_lookup_filter_None. left. apply lookup_empty. Qed.
End MemDict.

(** A burst around the end of a window: one request, [n] at the end of its second, one
    two milliseconds later. *)
Definition burst (ip : string) (n : nat) : list occurrence :=
  [Arrival ip; Pause 999] ++ replicate n (Arrival ip) ++ [Pause 2; Arrival ip].

Lemma happen_app {D} `{SharedDict D} l1 l2 (d : D) : happen (l1 ++ l2) d = happen l2 (happen l1 d).
Proof. revert d. induction l1 as [|[ip|ms] l1 IH]; intros d; [done|apply IH..]. Qed.

Lemma arrivals_app ip now l1 l2 :
  arrivals ip now (l1 ++ l2) = arrivals ip now l1 ++ arrivals ip (now + duration l1) l2.
Proof.
  revert now. induction l1 as [|[ip'|ms] l1 IH]; intros now; cbn [app arrivals duration].
  - by rewrite Z.add_0_r.
  - by rewrite IH, app_assoc.
  - rewrite IH. f_equal. f_equal. lia.
Qed.

Lemma duration_app l1 l2 : duration (l1 ++ l2) = duration l1 + duration l2.
Proof. induction l1 as [|[ip|ms] l1 IH]; cbn [app duration]; [done|done|lia]. Qed.

Lemma duration_arrivals ip n : duration (replicate n (Arrival ip)) = 0.
Proof. by induction n. Qed.

Lemma arrivals_replicate ip now n : arrivals ip now (replicate n (Arrival ip)) = replicate n now.
Proof.
  induction n as [|n IH]; [done|]. cbn [replicate arrivals].
  rewrite bool_decide_eq_true_2 by done. cbn [app]. by rewrite IH.
Qed.

(** Without a bound on the keys, an increment adds one to each live counter of the
    address and opens a window for the others. *)
Definition bump (now ttl : Z) (o : option (Z * Z)) : Z * Z :=
  match o with Some (v, x) => (v + 1, x) | None => (1, now + ttl * 1000) end.

Lemma mem_incr k ttl (d : MemDict.t) :
  MemDict.capacity d = None -> 0 < ttl ->
  exists d', dict_incr k 1 0 ttl d = (Ok (fst (bump (dict_now d) ttl (dict_live d !! k))), d') /\
    dict_now d' = dict_now d /\ MemDict.capacity d' = None /\
    dict_live d' = <[k := bump (dict_now d) ttl (dict_live d !! k)]> (dict_live d).
Proof.
  intros Hc Httl. cbn. destruct (filter _ _ !! k) as [[v x]|] eqn:Ek.
  - eexists. split; [reflexivity|]. cbn. split_and!; [done|done|]. apply MemDict.live_insert.
    by apply map_lookup_filter_Some in Ek as [_ Hx].
  - rewrite Hc. eexists. split; [reflexivity|]. cbn. split_and!; [done|done|].
    apply MemDict.live_insert. lia.
Qed.

Lemma mem_increment ip (d : MemDict.t) :
  MemDict.capacity d = None ->
  let d' := snd (increment ip d) in
  dict_now d' = dict_now d /\ MemDict.capacity d' = None /\
  dict_live d' !! counter_key ip "1s" = Some (bump (dict_now d) 1 (dict_live d !! counter_key ip "1s")).
Proof.
  intros Hc. unfold increment, WINDOWS. cbn [increment_loop].
  destruct (mem_incr (counter_key ip "1s") 1 d Hc) as (d1 & -> & Hn1 & Hc1 & Hl1); [lia|].
  destruct (mem_incr (counter_key ip "10s") 10 d1 Hc1) as (d2 & -> & Hn2 & Hc2 & Hl2); [lia|].
  destruct (mem_incr (counter_key ip "60s") 60 d2 Hc2) as (d3 & -> & Hn3 & Hc3 & Hl3); [lia|].
  cbn [snd]. split_and!; [congruence|done|].
  assert (forall w w' : string * Z, w ∈ WINDOWS -> w' ∈ WINDOWS -> w <> w' ->
    counter_key ip w.1 <> counter_key ip w'.1) as Hne.
  { intros w w' Hw Hw' Hww E. by destruct (counter_key_inj ip ip w w' Hw Hw' E). }
  assert (("1s", 1) ∈ WINDOWS /\ ("10s", 10) ∈ WINDOWS /\ ("60s", 60) ∈ WINDOWS) as (W1 & W10 & W60)
    by (unfold WINDOWS; split_and!; repeat first [apply list_elem_of_here | apply list_elem_of_further]).
  rewrite Hl3, lookup_insert_ne by (by apply (Hne ("60s", 60) ("1s", 1))).
  rewrite Hl2, lookup_insert_ne by (by apply (Hne ("10s", 10) ("1s", 1))).
  by rewrite Hl1, lookup_insert_eq.
Qed.

Lemma mem_burst ip n v x (d : MemDict.t) :
  MemDict.capacity d = None -> dict_live d !! counter_key ip "1s" = Some (v, x) ->
  let d' := happen (replicate n (Arrival ip)) d in
  dict_now d' = dict_now d /\ MemDict.capacity d' = None /\
  dict_live d' !! counter_key ip "1s" = Some (v + Z.of_nat n, x).
Proof.
  revert v d. induction n as [|n IH]; intros v d Hc Hk; cbn [replicate happen].
  - by rewrite Z.add_0_r.
  - destruct (mem_increment ip d Hc) as (Hn1 & Hc1 & Hk1). rewrite Hk in Hk1. cbn [bump] in Hk1.
    destruct (IH _ _ Hc1 Hk1) as (-> & Hc2 & ->). split_and!; [done|done|]. do 2 f_equal. lia.
Qed.

(** The windows do not slide.  The module calls its counters sliding windows, but
    a window opens with a request and closes a second later, whatever has arrived by
    then: of [n + 2] requests within 1001 milliseconds, the counter has dropped all but
    the last, while [n + 1] of them arrived in the last second. *)
Theorem windows_do_not_slide ip n :
  req_rate_1s (get_rates ip (happen (burst ip n) MemDict.empty)) = 1 /\
  sliding ip (dict_now MemDict.empty) 1 (burst ip n) = Z.of_nat n + 1.
Proof.
  split.
  - unfold burst. rewrite !happen_app. cbn [happen].
    destruct (mem_increment ip MemDict.empty eq_refl) as (Hn1 & Hc1 & Hk1).
    pose proof (MemDict.empty_no_counters ip ("1s", 1) (list_elem_of_here _ _)) as Hk0. cbn [fst] in Hk0.
    rewrite Hk0 in Hk1.
    set (d1 := snd (increment ip MemDict.empty)) in *. clearbody d1.
    assert (dict_live (dict_advance 999 d1) !! counter_key ip "1s" = Some (1, 1000)) as Hk2.
    { apply (advance_keep 999 _ 1 1000 d1); [lia|exact Hk1|by rewrite Hn1]. }
    assert (MemDict.capacity (dict_advance 999 d1) = None) as Hc2 by exact Hc1.
    destruct (mem_burst ip n 1 1000 (dict_advance 999 d1) Hc2 Hk2) as (Hn3 & Hc3 & Hk3).
    set (d3 := happen (replicate n (Arrival ip)) (dict_advance 999 d1)) in *. clearbody d3.
    assert (dict_now (dict_advance 2 d3) = 1001) as Hn4.
    { rewrite advance_now, Hn3, advance_now, Hn1 by lia. done. }
    assert (dict_live (dict_advance 2 d3) !! counter_key ip "1s" = None) as Hk4.
    { destruct (dict_live (dict_advance 2 d3) !! counter_key ip "1s") as [[v x]|] eqn:E; [|done].
      pose proof (live_law _ _ _ _ E) as Hx. apply advance_old in E; [|lia].
      rewrite Hk3 in E. injection E as _ <-. lia. }
    assert (MemDict.capacity (dict_advance 2 d3) = None) as Hc4 by exact Hc3.
    destruct (mem_increment ip (dict_advance 2 d3) Hc4) as (_ & _ & Hk5).
    rewrite Hk4 in Hk5. unfold get_rates. cbn [fmap list_fmap WINDOWS table nth req_rate_1s fst].
    by rewrite get_value, Hk5.
  - unfold sliding, burst. rewrite !duration_app, !arrivals_app, duration_arrivals, arrivals_replicate.
    cbn [duration arrivals]. rewrite !bool_decide_eq_true_2 by done.
    cbn [app]. unfold since. rewrite filter_cons, decide_False by (cbn; lia).
    rewrite filter_app, length_app. cbn. clear. induction n as [|n IH]; [done|].
    cbn [replicate]. rewrite filter_cons, decide_True by lia. cbn [length]. lia.
Qed.

Lemma rates_never_overcount_witness :
  req_rate_60s (get_rates "10.0.0.7" (happen (burst "10.0.0.7" 3) MemDict.empty)) <= 5.
Proof.
  refine (proj2 (proj2 (rates_never_overcount (burst "10.0.0.7" 3) MemDict.empty "10.0.0.7" _ _))).
  - repeat constructor; lia.
  - apply MemDict.empty_no_counters.
Defined.
