(* ===== verification/Fingerprint.v ===== *)
(** * nginx's side of the socket (nginx/lua/fingerprint.lua, access.lua)

    What a request becomes: the feature vector, its JSON, the exchange with the
    decision engine, and the verdict.  OpenResty's sockets, its md5 and lua-cjson are
    classes; a Lua error is an error of the [io] monad.  Lua numbers are [float64]. *)

From S2P Require Import Prelude GoFloat GoText GoJson GoPrint Counter.

(** ** Lua values *)

#[warnings="-register-all"]
Inductive lua_value :=
| LNil
| LNull (* cjson.null *)
| LBool (b : bool)
| LNumber (x : float64)
| LString (s : string)
| LTable (fields : list (string * lua_value)).

Definition lua_table : Type := list (string * lua_value).

Definition field_of (k : string) (t : lua_table) : lua_value :=
  match find (fun kv => bool_decide (kv.1 = k)) t with Some kv => kv.2 | None => LNil end.

(** [v.k]: strings have the fields of the string library, none of which is asked
    for here. *)
Definition index (v : lua_value) (k : string) : result lua_value :=
  match v with
  | LTable t => Ok (field_of k t)
  | LString _ => Ok LNil
  | _ => Err "attempt to index a value"
  end.

(** Everything but nil and false is true. *)
Definition lua_true (v : lua_value) : bool :=
  match v with LNil | LBool false => false | _ => true end.

(** [tonumber]: decimal digits are read here; other texts are the business of
    [tonumber_text]. *)
Class LuaNumbers := { tonumber_text : string -> option float64 }.

Definition all_digits (s : string) : bool :=
  negb (bool_decide (s = "")) && forallb is_digit (to_text s).

Definition tonumber `{LuaNumbers} (v : lua_value) : option float64 :=
  match v with
  | LNumber x => Some x
  | LString s =>
      if all_digits s then f64_of_Z <$> digits_val 0 s else tonumber_text s
  | _ => None
  end.

(** ** The libraries *)

(** lua-cjson (the safe variant): [nil, err] for what it cannot do. *)
Class Cjson := {
  cjson_encode : lua_table -> option string * option string;
  cjson_decode : string -> option lua_value * option string
}.

(** The members of a table that lua-cjson writes as expected: ASCII texts, and whole
    numbers of at most 14 digits, its default precision. *)
Inductive member_json : string * lua_value -> text * jvalue -> Prop :=
| member_text k s : ascii_text (to_text k) -> ascii_text (to_text s) ->
    member_json (k, LString s) (to_text k, VString (to_text s))
| member_number k z : ascii_text (to_text k) -> 0 <= z < 10 ^ 14 ->
    member_json (k, LNumber (f64_of_Z z)) (to_text k, VNumber (to_text (pretty z))).

Class CjsonLaws `{Cjson} : Prop := {
  (** an object on one line, its members in any order *)
  encode_law t ms : Forall2 member_json t ms ->
    exists s kvs, cjson_encode t = (Some s, None) /\ parse (to_text s) = Some (VObject kvs) /\
      kvs ≡ₚ ms /\ Forall graphic (to_text s);
  (** an object without repeated names becomes a table *)
  decode_law s kvs : parse (to_text s) = Some (VObject kvs) -> NoDup (fst <$> kvs) ->
    exists t, cjson_decode s = (Some (LTable t), None) /\
      (forall k v, (to_text k, VString (to_text v)) ∈ kvs -> field_of k t = LString v) /\
      (forall k z, (to_text k, VNumber (to_text (pretty z))) ∈ kvs -> 0 <= z < 2 ^ 53 ->
         field_of k t = LNumber (f64_of_Z z))
}.

(** [ngx.socket.tcp]: a call gives a value, or nil and perhaps an error text.
    [ngx.time], [ngx.md5]. *)
Class Cosocket (S : Type) := {
  sock_settimeouts : Z -> Z -> Z -> S -> S;
  sock_connect : string -> S -> (bool * option string) * S;
  sock_send : string -> S -> (option Z * option string) * S;
  sock_receive : string -> S -> (option string * option string) * S;
  sock_close : S -> S;
  sock_setkeepalive : Z -> Z -> S -> S
}.

Class Ngx (S : Type) := { ngx_time : S -> Z; ngx_md5 : string -> string }.

(** ** Requests and verdicts *)

(** nginx's variables, each of which may be unset, and the table of the headers with
    their names in lower case: texts, or tables of the values of repeated headers. *)
Record request := Request {
  remote_addr : option string; http_x_ja3_hash : option string; ssl_ja3_hash : option string;
  request_method : option string; uri : option string; server_protocol : option string;
  headers : lua_table
}.

(** How the access phase ends: the request goes on to the upstream, or is answered
    with a status, with [Retry-After] set. *)
Inductive verdict := Continue | Exit (status : Z) (retry_after : option float64).

Definition or_else {A} (o : option A) (d : A) : A := default d o.

Definition SOCKET_PATH : string := "unix:/tmp/decision.sock".
Definition CONNECT_TIMEOUT : Z := 50.
Definition SEND_TIMEOUT : Z := 50.
Definition READ_TIMEOUT : Z := 50.

Section Fingerprint.
Context {S : Type} `{SharedDict S, Cosocket S, Ngx S, Cjson, LuaNumbers}.

(** [ngx.md5(ua)] for a repeated header hashes the name of a Lua table, which is not
    modelled further: [table_name]. *)
Variable table_name : lua_table -> string.

Definition lua_tostring (v : lua_value) : string :=
  match v with LString s => s | LTable t => table_name t | _ => "" end.

(** The table of [build_vector]. *)
Definition build_vector (r : request) (s : S) : lua_table :=
  let client_ip := or_else (remote_addr r) "0.0.0.0" in
  let ja3_hash := or_else (http_x_ja3_hash r) (or_else (ssl_ja3_hash r) "none") in
  let ua := field_of "user-agent" (headers r) in
  let user_agent_hash := ngx_md5 (if lua_true ua then lua_tostring ua else "") in
  let rates := get_rates client_ip s in
  let http_method := or_else (request_method r) "GET" in
  let uri_hash := ngx_md5 (or_else (uri r) "/") in
  let content_length := or_else (tonumber (field_of "content-length" (headers r))) (f64_of_Z 0) in
  let header_count := Z.of_nat (length (headers r)) in
  let proto := or_else (server_protocol r) "" in
  let is_http2 := if bool_decide (proto = "HTTP/2.0") || bool_decide (proto = "HTTP/2") then 1 else 0 in
  let unix_timestamp := ngx_time s in
  [("client_ip", LString client_ip);
   ("ja3_hash", LString ja3_hash);
   ("user_agent_hash", LString user_agent_hash);
   ("req_rate_1s", LNumber (f64_of_Z (req_rate_1s rates)));
   ("req_rate_10s", LNumber (f64_of_Z (req_rate_10s rates)));
   ("req_rate_60s", LNumber (f64_of_Z (req_rate_60s rates)));
   ("http_method", LString http_method);
   ("uri_hash", LString uri_hash);
   ("content_length", LNumber content_length);
   ("header_count", LNumber (f64_of_Z header_count));
   ("is_http2", LNumber (f64_of_Z is_http2));
   ("unix_timestamp", LNumber (f64_of_Z unix_timestamp))].

(** [query_engine]: the line, or an error. *)
Definition query_engine (payload : string) (s : S) : result string * S :=
  let s := sock_settimeouts CONNECT_TIMEOUT SEND_TIMEOUT READ_TIMEOUT s in
  let '((ok, err), s) := sock_connect SOCKET_PATH s in
  if negb ok then (Err ("connect: " +:+ or_else err "unknown"), s)
  else
    let '((bytes, send_err), s) := sock_send (payload +:+ String "010" "") s in
    match bytes with
    | None => (Err ("send: " +:+ or_else send_err "unknown"), sock_close s)
    | Some _ =>
        let '((line, read_err), s) := sock_receive "*l" s in
        match line with
        | None => (Err ("read: " +:+ or_else read_err "unknown"), sock_close s)
        | Some line => (Ok line, sock_setkeepalive 60000 32 s)
        end
    end.

(** Steps 4 and 5 of [evaluate]: what the engine's line makes of the request. *)
Definition act (resp_body : string) : result verdict :=
  match fst (cjson_decode resp_body) with
  | None => Ok Continue
  | Some resp =>
      if negb (lua_true resp) then Ok Continue
      else
        action ← index resp "action";
        match action with
        | LString a =>
            if bool_decide (a = "block") then Ok (Exit 403 None)
            else if bool_decide (a = "throttle") then
              retry ← index resp "retry_after";
              Ok (Exit 429 (Some (or_else (tonumber retry) (f64_of_Z 5))))
            else Ok Continue
        | _ => Ok Continue
        end
  end.

Definition evaluate (r : request) : io S verdict := fun s =>
  match fst (cjson_encode (build_vector r s)) with
  | None => (Ok Continue, s)
  | Some payload =>
      let (resp, s) := query_engine payload s in
      match resp with
      | Err _ => (Ok Continue, s)
      | Ok resp_body => (act resp_body, s)
      end
  end.

(** access.lua: without an address the concatenation of the counters' keys fails. *)
Definition access (r : request) : io S verdict := fun s =>
  match remote_addr r with
  | None => (Err "attempt to concatenate a nil value", s)
  | Some ip => evaluate r (snd (increment ip s))
  end.
End Fingerprint.

(** ** Lemmas *)

Lemma field_of_in k v t :
  NoDup (fst <$> t) -> (k, v) ∈ t -> field_of k t = v.
Proof.
  unfold field_of. induction t as [|[k' v'] t IH]; [by intros _ ?%elem_of_nil|].
  cbn [fmap list_fmap fst find]. intros [Hnew Hnd]%NoDup_cons [[= <- <-]|Hin]%elem_of_cons.
  - by rewrite bool_decide_eq_true_2.
  - rewrite bool_decide_eq_false_2; [by apply IH|]. intros ->. apply Hnew.
    apply list_elem_of_fmap. by exists (k, v).
Qed.

(** ** Properties *)

Section Properties.
Context {S : Type} `{SharedDict S, Cosocket S, Ngx S, Cjson, LuaNumbers}.
Variable table_name : lua_table -> string.

(** The field of a decoded line. *)
Definition says (line k : string) (v : lua_value) : Prop :=
  exists resp, fst (cjson_decode line) = Some resp /\ lua_true resp = true /\ index resp k = Ok v.

(** C17: requests are refused on the engine's word only.  A request that is answered
    403 or 429 had a reply of the engine whose action was block or throttle, and the
    [Retry-After] of a 429 is the reply's number, or 5; when the vector cannot be
    encoded, when connecting, sending or receiving fails, or when the line is not JSON
    or says nothing of the kind, the request goes on.  Only a line that is JSON but
    neither an object nor a text makes the script fail. *)
Theorem evaluate_fails_open r (s s' : S) res :
  evaluate table_name r s = (res, s') ->
  (fst (cjson_encode (build_vector table_name r s)) = None -> res = Ok Continue /\ s' = s) /\
  forall payload, fst (cjson_encode (build_vector table_name r s)) = Some payload ->
    match fst (query_engine payload s) with
    | Err _ => res = Ok Continue
    | Ok line =>
        match res with
        | Ok Continue => ~ says line "action" (LString "block") /\ ~ says line "action" (LString "throttle")
        | Ok (Exit status retry) =>
            status = 403 /\ retry = None /\ says line "action" (LString "block") \/
            status = 429 /\ says line "action" (LString "throttle") /\
              exists v, says line "retry_after" v /\ retry = Some (default (f64_of_Z 5) (tonumber v))
        | Err _ => exists v, fst (cjson_decode line) = Some v /\
            (v = LNull \/ v = LBool true \/ exists x, v = LNumber x)
        end
    end.
Proof.
  unfold evaluate. intros E. split.
  { intros Hn. rewrite Hn in E. by injection E as <- <-. }
  intros payload Hp. rewrite Hp in E. destruct (query_engine payload s) as [[line|e] s1]; cbn [fst].
  2:{ by injection E as <- _. }
  injection E as <- _. unfold act, says.
  destruct (fst (cjson_decode line)) as [resp|]; [|split; by intros (? & ? & _)].
  destruct (lua_true resp) eqn:Ht; cbn [negb]; [|split; by intros (v & [= <-] & ? & _); congruence].
  destruct (index resp "action") as [action|e] eqn:Ea; cbn [mbind result_bind].
  2:{ exists resp. split; [done|]. destruct resp as [| |[]|x| |]; try done; eauto. }
  destruct action as [| | | |a|]; try (split; intros (v & [= <-] & _ & ?); congruence).
  case_bool_decide as Hb; [subst a; left; eauto 10|].
  case_bool_decide as Hth; [subst a|split; intros (v & [= <-] & _ & ?); congruence].
  destruct (index resp "retry_after") as [v|e] eqn:Er; cbn [mbind result_bind].
  - right. split; [done|]. split; [by exists resp|]. exists v. split; [by exists resp|done].
  - exfalso. destruct resp; done.
Qed.
End Properties.

(** ** lua-cjson for the examples: compact, in the order of the table *)

Module MemCjson.
Definition member (kv : string * lua_value) : option (text * jvalue) :=
  match kv.2 with
  | LString s => if forallb (fun c => code c <? 128) (to_text s) then Some (to_text kv.1, VString (to_text s)) else None
  | LNumber x => z ← f_trunc x; Some (to_text kv.1, VNumber (to_text (pretty z)))
  | LBool b => Some (to_text kv.1, VBool b)
  | _ => None
  end.

Definition value (v : jvalue) : lua_value :=
  match v with
  | VNull => LNull
  | VBool b => LBool b
  | VNumber lit => match ParseFloat (of_text lit) with Some x => LNumber x | None => LNil end
  | VString s => LString (of_text s)
  | VArray _ | VObject _ => LTable []
  end.

#[global] Instance cmds : Cjson := {|
  cjson_encode t :=
    match mapM member t with
    | Some ms => (Some (of_text (print (VObject ms))), None)
    | None => (None, Some "cannot serialise")
    end;
  cjson_decode s :=
    match parse (to_text s) with
    | Some (VObject kvs) => (Some (LTable ((fun kv => (of_text kv.1, value kv.2)) <$> kvs)), None)
    | Some v => (Some (value v), None)
    | None => (None, Some "Expected value but found invalid token")
    end
|}.

Lemma member_spec kv m : member_json kv m -> member kv = Some m /\ printable_pair m.
Proof.
  destruct 1 as [k s Hk Hs|k z Hk Hz]; unfold member; cbn [fst snd].
  - assert (forallb (fun c => code c <? 128) (to_text s) = true) as ->; [|by repeat split].
    clear -Hs. induction Hs as [|c l Hc _ IH]; [done|]. cbn. rewrite IH. by apply Z.ltb_lt in Hc as ->.
  - rewrite f64_of_Z_trunc by lia. split; [done|]. split; [done|]. apply number_literal_pretty.
Qed.

Lemma members_spec t ms : Forall2 member_json t ms -> mapM member t = Some ms /\ Forall printable_pair ms.
Proof.
  induction 1 as [|kv m t ms Hm _ [IH1 IH2]]; [done|]. destruct (member_spec kv m Hm) as [E Hp].
  cbn. rewrite E. cbn. rewrite IH1. split; [done|by constructor].
Qed.

Lemma encode_members t ms s err :
  Forall2 member_json t ms -> cjson_encode t = (Some s, err) -> s = of_text (print (VObject ms)).
Proof. intros [E _]%members_spec. cbn. rewrite E. by intros [= <- _]. Qed.

Lemma of_text_inj k k' : of_text k = of_text k' -> k = k'.
Proof. intros E. rewrite <- (to_of_text k), <- (to_of_text k'). by rewrite E. Qed.

#[global] Instance laws : CjsonLaws.
Proof.
  split.
  - intros t ms Hms. destruct (members_spec t ms Hms) as [E Hp].
    exists (of_text (print (VObject ms))), ms. split; [cbn; by rewrite E|]. rewrite to_of_text.
    assert (printable (VObject ms)) as Hpo by by apply printable_object. split_and!; [|done|by apply print_graphic].
    apply parse_whole; [done|]. cbn [nesting].
    enough (foldr Z.max 0 (map (fun kv => nesting kv.2) ms) <= 0) by (unfold maxNestingDepth; lia).
    clear -Hms. induction Hms as [|kv m t ms Hm _ IH]; [done|]. cbn [map foldr].
    destruct Hm; cbn [snd nesting]; lia.
  - intros s kvs Hs Hnd. cbn. rewrite Hs. eexists. split; [reflexivity|].
    assert (NoDup (fst <$> ((fun kv => (of_text kv.1, value kv.2)) <$> kvs))) as Hnd'.
    { rewrite <- list_fmap_compose. change (fst ∘ _) with (of_text ∘ @fst text jvalue).
      rewrite list_fmap_compose. apply (NoDup_fmap_2_strong of_text); [|done].
      intros k k' _ _. apply of_text_inj. }
    assert (forall k v, (to_text k, v) ∈ kvs -> field_of k ((fun kv => (of_text kv.1, value kv.2)) <$> kvs) = value v)
      as Hfield.
    { intros k v Hin. apply field_of_in; [done|]. apply list_elem_of_fmap.
      exists (to_text k, v). cbn [fst snd]. by rewrite of_to_text. }
    split.
    + intros k v Hin. rewrite (Hfield _ _ Hin). unfold value. by rewrite of_to_text.
    + intros k z Hin Hz. rewrite (Hfield _ _ Hin). unfold value. by rewrite of_to_text, ParseFloat_pretty.
Qed.
End MemCjson.
