(* ===== verification/Events.v ===== *)
(** * From decisions to messages

    The goroutines that [Evaluate] spawns run later, in any order, at any time.
    This file follows them to the topics: what is in Kafka once they have run. *)

From S2P Require Import Prelude GoFloat Json Config Ml Kafka Engine Server.

(** The goroutines in the order in which they run, each with its time. *)
Definition run_tasks {K} `{KafkaCluster K} (p : Producer) (runs : list (Z * task)) (k : K) : K :=
  foldl (fun k '(now, t) => run_task p now t k) k runs.

(** The message a goroutine writes, if it writes one. *)
Definition message_of (run : Z * task) : option (string * Message) :=
  match run with
  | (now, PublishBlockedTask ip) =>
      Some (topicBlocked, MkMessage ip (JObject [("ip", JString ip); ("timestamp", JTime now)]))
  | (_, PublishDecisionTask evt) =>
      if is_finite (ev_Score evt)
      then Some (topicDecisions, MkMessage (ev_IP evt) (event_json evt)) else None
  end.

(** Times in the years of JSON, features that encode. *)
Definition run_ok (run : Z * task) : Prop :=
  match run with
  | (now, PublishBlockedTask _) => year_ok now = true
  | (_, PublishDecisionTask evt) =>
      year_ok (ev_Timestamp evt) = true /\ encodable (ev_FeatureVector evt) = true
  end.

(** ** Reading the topics *)

(** The action in the payload of a decision message. *)
Definition message_action (tm : string * Message) : option string :=
  if bool_decide (tm.1 = topicDecisions) then
    match m_Value tm.2 with
    | JObject fields =>
        match list_find (fun kv => kv.1 = "action") fields with
        | Some (_, (_, JString a)) => Some a
        | _ => None
        end
    | _ => None
    end
  else None.

Definition blocked_message (tm : string * Message) : bool := bool_decide (tm.1 = topicBlocked).

Section Tasks.
Context {K : Type} `{KafkaLaws K}.

Lemma run_task_log brokers run (k : K) :
  kafka_up k -> run_ok run ->
  kafka_up (run_task (Kafka.New brokers) run.1 run.2 k) /\
  kafka_log (run_task (Kafka.New brokers) run.1 run.2 k) ≡ₚ
    match message_of run with Some m => [m] | None => [] end ++ kafka_log k.
Proof.
  destruct run as [now [ip|evt]]; cbn [run_ok message_of fst snd run_task]; intros Hup Hok.
  - unfold PublishBlocked, Marshal. cbn [encodable forallb snd]. rewrite Hok. cbn [andb].
    destruct (write_law (blocked (Kafka.New brokers)) (MkMessage ip
      (JObject [("ip", JString ip); ("timestamp", JTime now)])) k Hup) as (k' & E & Hup' & Hlog).
    by rewrite E.
  - destruct Hok as [Ht Hf]. unfold PublishDecision, Marshal, event_json.
    cbn [encodable forallb snd]. rewrite Ht, Hf, !andb_true_r.
    destruct (is_finite (ev_Score evt)); [|done].
    destruct (write_law (decisions (Kafka.New brokers))
      (MkMessage (ev_IP evt) (event_json evt)) k Hup) as (k' & E & Hup' & Hlog).
    unfold event_json in *. cbn [andb]. by rewrite E.
Qed.

Lemma run_tasks_log brokers runs (k : K) :
  kafka_up k -> Forall run_ok runs ->
  kafka_log (run_tasks (Kafka.New brokers) runs k) ≡ₚ omap message_of runs ++ kafka_log k.
Proof.
  intros Hup Hok. revert k Hup. induction Hok as [|run runs Hrun Hok IH]; intros k Hup; [done|].
  destruct (run_task_log brokers run k Hup Hrun) as [Hup' Hlog].
  unfold run_tasks in *. cbn [foldl]. destruct run as [now t]. cbn [fst snd] in *.
  rewrite (IH _ Hup'), Hlog. cbn [omap list_omap].
  destruct (message_of (now, t)); cbn [app]; [|done]. symmetry. apply Permutation_middle.
Qed.
End Tasks.

(** ** What the spawned goroutines are *)

Definition task_action (t : task) : option string :=
  match t with PublishDecisionTask evt => Some (ev_Action evt) | PublishBlockedTask _ => None end.

Definition is_blocked_task (t : task) : bool :=
  match t with PublishBlockedTask _ => true | PublishDecisionTask _ => false end.

Definition is_block (d : Decision) : bool := bool_decide (d_Action d = ActionBlock).

Section Spawned.
Context {R X B S : Type}.
Context `{RedisDecrementor R S, MLScorer X S, Engine.Blocklist B S, Clock S}.
Variable oob : spec_float -> Z.

(** What a decision spawns: its vector, score and time. *)
Definition decided : Type := FeatureVector * float32 * Decision * Z.
Definition tasks_of (x : decided) : list task :=
  let '(fv, score, d, now) := x in decision_tasks (Some fv) score d now.

Lemma evaluate_all_spawned (e : Engine R X B) fvs (w w' : World S) ds :
  evaluate_all oob e fvs w = (Returns ds, w') ->
  exists l : list decided, spawned w' = spawned w ++ (l ≫= tasks_of) /\ (fun x => x.1.2) <$> l = ds.
Proof.
  revert w ds. induction fvs as [|fv fvs IH]; intros w ds; cbn [evaluate_all].
  - intros [= <- <-]. exists []. by rewrite app_nil_r.
  - unfold mbind at 1, go_bind at 1. pose proof (Evaluate_eq oob e (Some fv) w) as E.
    destruct (Decrement _ _ _) as [r s1].
    destruct (Score (ml e) (Some fv) s1) as [[[[x ver] err]|msg] s2]; rewrite E; [|done].
    set (d := policy oob (cfg e) (tokens_of r) x).
    set (s3 := apply_decision e (GetClientIp (Some fv)) d s2). unfold mbind, go_bind.
    destruct (evaluate_all oob e fvs _) as [[ds'|msg] w1] eqn:Er; [|done].
    intros [= <- <-]. destruct (IH _ _ Er) as (l & Hts & Hds). cbn [spawned] in Hts.
    exists ((fv, x, d, time_now s3) :: l). split; [by rewrite Hts, <- app_assoc|]. cbn. by rewrite Hds.
Qed.

(** One event per decision, one blocked-ip goroutine per block. *)
Lemma evaluate_all_tasks (e : Engine R X B) fvs (w w' : World S) ds :
  evaluate_all oob e fvs w = (Returns ds, w') ->
  exists ts, spawned w' = spawned w ++ ts /\
    omap task_action ts = (fun d => action_text (d_Action d)) <$> ds /\
    length (filter (fun t => is_blocked_task t = true) ts) =
      length (filter (fun d => is_block d = true) ds).
Proof.
  intros (l & Hts & <-)%evaluate_all_spawned. exists (l ≫= tasks_of). split; [done|]. clear.
  induction l as [|[[[fv x] d] now] l [IH1 IH2]]; [done|].
  change (((fv, x, d, now) :: l) ≫= tasks_of) with (decision_tasks (Some fv) x d now ++ (l ≫= tasks_of)).
  rewrite omap_app, filter_app, length_app, IH1, IH2. cbn [fmap list_fmap fst snd].
  unfold decision_tasks, is_block. rewrite filter_cons. by destruct (d_Action d).
Qed.
End Spawned.

(** ** Properties *)

Section Properties.
Context {R X B S : Type}.
Context `{RedisDecrementor R S, MLScorer X S, Engine.Blocklist B S, Clock S}.
Context {K : Type} `{KafkaLaws K}.
Variable oob : spec_float -> Z.

(** The scores of the events are numbers. *)
Definition finite_scores (runs : list (Z * task)) : Prop :=
  Forall (fun r => match r.2 with
                   | PublishDecisionTask evt => is_finite (ev_Score evt) = true
                   | _ => True
                   end) runs.

(** C29: every decision is published once, in whatever order the goroutines run.
    After the engine has decided on some requests and all the goroutines it
    spawned have run, in any order and at any times, on a cluster that accepts
    writes: the decision messages carry exactly the actions decided, and there is
    one blocked-ip message per blocking decision.  (This needs finite scores: a
    decision with another score is not published.) *)
Theorem decisions_published (e : Engine R X B) brokers fvs (w w' : World S) ds runs (k : K) :
  kafka e = Kafka.New brokers ->
  evaluate_all oob e fvs w = (Returns ds, w') -> spawned w = [] ->
  snd <$> runs ≡ₚ spawned w' ->
  kafka_up k -> kafka_log k = [] -> Forall run_ok runs -> finite_scores runs ->
  let log := kafka_log (run_tasks (kafka e) runs k) in
  omap message_action log ≡ₚ (fun d => action_text (d_Action d)) <$> ds /\
  length (filter (fun m => blocked_message m = true) log) =
    length (filter (fun d => is_block d = true) ds).
Proof.
  intros -> Hev Hw Hruns Hup Hlog Hok Hfin log.
  destruct (evaluate_all_tasks oob e fvs w w' ds Hev) as (ts & Hts & Hact & Hblk).
  rewrite Hw in Hts. cbn [app] in Hts. rewrite Hts in Hruns.
  assert (log ≡ₚ omap message_of runs) as Hl.
  { subst log. by rewrite run_tasks_log, Hlog, app_nil_r. }
  assert (omap message_action (omap message_of runs) = omap task_action (snd <$> runs) /\
          length (filter (fun m => blocked_message m = true) (omap message_of runs)) =
          length (filter (fun t => is_blocked_task t = true) (snd <$> runs))) as [Ha Hb].
  { clear -Hfin. induction Hfin as [|[now [ip|evt]] runs Hr _ [IHa IHb]]; [done|..];
      cbn [omap list_omap message_of fmap list_fmap snd task_action] in *.
    - split; [exact IHa|]. rewrite !filter_cons, !decide_True by done.
      cbn [length]. f_equal. exact IHb.
    - rewrite Hr. split; [|rewrite !filter_cons; exact IHb].
      cbn [omap list_omap]. rewrite IHa. done. }
  split.
  - rewrite Hl, Ha, Hruns, Hact. done.
  - etrans; [apply Permutation_length; by rewrite Hl|]. etrans; [exact Hb|].
    etrans; [apply Permutation_length; by rewrite Hruns|exact Hblk].
Qed.
End Properties.

(** Two blocked requests; the goroutines run backwards. *)
Definition demo_world : World Mock.t := Mock.world (-1) None f_zero.
Definition demo_fv : FeatureVector := MkFeatureVector "1.2.3.4" "" "" f_zero f_zero f_zero "GET" "" 0 0 0 0.

Definition demo_runs : list (Z * task) :=
  (fun t => (5, t)) <$> reverse (spawned (snd (evaluate_all amd64_oob Mock.engine [demo_fv; demo_fv] demo_world))).

Lemma decisions_published_witness :
  omap message_action (kafka_log (run_tasks (kafka Mock.engine) demo_runs MemKafka.empty))
    ≡ₚ ["block"; "block"].
Proof.
  refine (proj1 (decisions_published amd64_oob Mock.engine ["localhost:9092"] [demo_fv; demo_fv] demo_world
    (snd (evaluate_all amd64_oob Mock.engine [demo_fv; demo_fv] demo_world))
    [MkDecision ActionBlock 0; MkDecision ActionBlock 0] demo_runs MemKafka.empty
    eq_refl _ eq_refl _ (conj eq_refl eq_refl) eq_refl _ _)).
  - vm_compute. reflexivity.
  - unfold demo_runs. rewrite <- list_fmap_compose.
    etrans; [|apply reverse_Permutation]. by rewrite list_fmap_id.
  - repeat constructor.
  - repeat constructor.
Defined.
