(* ===== verification/Retrain.v ===== *)
(** * The retraining job of the sidecar (ml-sidecar/training/retrain.py)

    It reads the topic that the engine's producer writes, groups the vectors by client,
    fits a forest per client and a baseline, and stores them.  The Kafka consumer, the
    disk and scikit-learn are classes; Python's dynamic values are [pyval], and an
    exception is an error of the [io] monad. *)

From S2P Require Import Prelude GoFloat GoText Json GoJson GoPrint Config Ml Sidecar Kafka Engine Server Events.

(** ** Python values, as json.loads makes them *)

#[warnings="-register-all"]
Inductive pyval :=
| PyNone
| PyBool (b : bool)
| PyInt (z : Z)
| PyFloat (x : float64)
| PyStr (s : string)
| PyList (l : list pyval)
| PyDict (d : list (string * pyval)).

(** A dictionary with texts as keys, each once. *)
Definition dict : Type := list (string * pyval).

(** [d.get(k, default)] *)
Definition py_dict_get (k : string) (default : pyval) (d : dict) : pyval :=
  match find (fun kv => bool_decide (kv.1 = k)) d with Some kv => kv.2 | None => default end.

Definition py_truthy (v : pyval) : bool :=
  match v with
  | PyNone => false
  | PyBool b => b
  | PyInt z => negb (z =? 0)
  | PyFloat x => match x with S754_zero _ => false | _ => true end
  | PyStr s => negb (bool_decide (s = ""))
  | PyList l => match l with [] => false | _ => true end
  | PyDict d => match d with [] => false | _ => true end
  end.

(** [float] of a text and [str] of a float. *)
Class PyText := { float_of_text : string -> result float64; float_repr : float64 -> string }.

(** [float(v)] *)
Definition py_float `{PyText} (v : pyval) : result float64 :=
  match v with
  | PyBool b => Ok (f64_of_Z (if b then 1 else 0))
  | PyInt z => if Z.abs z <? 2 ^ 1024 - 2 ^ 970 then Ok (f64_of_Z z) else Err "OverflowError"
  | PyFloat x => Ok x
  | PyStr s => float_of_text s
  | PyNone | PyList _ | PyDict _ => Err "TypeError"
  end.

(** [float(len(v))] *)
Definition py_float_len (v : pyval) : result float64 :=
  match v with
  | PyStr s => Ok (f64_of_Z (py_len s))
  | PyList l => Ok (f64_of_Z (Z.of_nat (length l)))
  | PyDict d => Ok (f64_of_Z (Z.of_nat (length d)))
  | _ => Err "TypeError"
  end.

(** [str(v)] of a key. *)
Definition py_str `{PyText} (v : pyval) : string :=
  match v with
  | PyStr s => s
  | PyInt z => pretty z
  | PyBool b => if b then "True" else "False"
  | PyFloat x => float_repr x
  | PyNone | PyList _ | PyDict _ => "None"
  end.

(** Keys of a Python dictionary: equal numbers are one key, whatever their type;
    lists and dictionaries are not hashable. *)
Definition hashable (v : pyval) : bool := match v with PyList _ | PyDict _ => false | _ => true end.

Definition whole (x : float64) : option Z :=
  z ← f_trunc x; if SFeqb x (f64_of_Z z) then Some z else None.

Definition number_of (v : pyval) : option (Z + float64) :=
  match v with
  | PyBool b => Some (inl (if b then 1 else 0))
  | PyInt z => Some (inl z)
  | PyFloat x => Some (match whole x with Some z => inl z | None => inr x end)
  | _ => None
  end.

Definition same_key (v w : pyval) : bool :=
  match v, w with
  | PyStr s, PyStr t => bool_decide (s = t)
  | PyNone, PyNone => true
  | _, _ =>
      match number_of v, number_of w with
      | Some (inl z), Some (inl z') => z =? z'
      | Some (inr x), Some (inr y) => SFeqb x y
      | _, _ => false
      end
  end.

(** A dictionary of lists, in the order of insertion. *)
Definition groups : Type := list (pyval * list dict).

(** [vectors_by_ip[ip].append(fv)] *)
Fixpoint append_to (ip : pyval) (fv : dict) (g : groups) : groups :=
  match g with
  | [] => [(ip, [fv])]
  | (k, l) :: g => if same_key k ip then (k, l ++ [fv]) :: g else (k, l) :: append_to ip fv g
  end.

(** ** The libraries *)

(** The consumer: the messages that it delivers, with their times in milliseconds, until
    the topic is silent for 30 s or the library raises.  [loads_value] is the
    deserialiser of a value; a library that decodes a batch before it delivers any of
    its messages raises before the first of them. *)
Class KafkaReader (K W : Type) := {
  reader_open : io K unit;
  fetch : K -> (list (Z * W) * option error) * K;
  reader_close : K -> K
}.

Class PyJson (W : Type) := { loads_value : W -> result pyval }.

(** The directory of the models: a file holds a whole forest, or what joblib cannot
    read. *)
Class Disk (Forest Fs : Type) := {
  disk_view : Fs -> gmap string (option Forest);
  path_exists : string -> Fs -> bool;
  path_rename : string -> string -> io Fs unit;
  (** [path.parent.mkdir(parents=True, exist_ok=True)] *)
  path_mkdir : string -> io Fs unit;
  file_dump : Forest -> string -> io Fs unit;
  path_unlink : string -> io Fs unit
}.

Class DiskLaws (Forest Fs : Type) `{Disk Forest Fs} : Prop := {
  exists_view p fs : path_exists p fs = bool_decide (is_Some (disk_view fs !! p));
  rename_law p q c fs r fs' : disk_view fs !! p = Some c -> p <> q -> path_rename p q fs = (r, fs') ->
    disk_view fs' = match r with Ok _ => <[q := c]> (delete p (disk_view fs)) | Err _ => disk_view fs end;
  mkdir_law p fs r fs' : path_mkdir p fs = (r, fs') -> disk_view fs' = disk_view fs;
  (** a failing dump leaves anything in the file *)
  dump_law f p fs r fs' : file_dump f p fs = (r, fs') ->
    match r with
    | Ok _ => disk_view fs' = <[p := Some f]> (disk_view fs)
    | Err _ => forall q, q <> p -> disk_view fs' !! q = disk_view fs !! q
    end;
  unlink_law p fs r fs' : path_unlink p fs = (r, fs') ->
    disk_view fs' = match r with Ok _ => delete p (disk_view fs) | Err _ => disk_view fs end
}.

(** [IsolationForest(n_estimators=200, ...).fit]; the forests per client, of 100 trees,
    are fitted by [forest_fit]. *)
Class BaselineFit (Forest : Type) := { baseline_fit : list (list float64) -> result Forest }.

(** [np.random.default_rng(0).standard_normal((rows, columns))]: always the same. *)
Class NumpyRandom := { standard_normal : nat -> nat -> list (list float64) }.

(** ** Encoding a dictionary *)

Section Encode.
Context `{PyText}.

(** [_encode_feature_vector] on any dictionary. *)
Definition encode_dict (fv : dict) : result (list float64) :=
  a ← py_float (py_dict_get "req_rate_1s" (PyFloat f_zero) fv);
  b ← py_float (py_dict_get "req_rate_10s" (PyFloat f_zero) fv);
  c ← py_float (py_dict_get "req_rate_60s" (PyFloat f_zero) fv);
  d ← py_float (py_dict_get "content_length" (PyInt 0) fv);
  e ← py_float (py_dict_get "header_count" (PyInt 0) fv);
  f ← py_float (py_dict_get "is_http2" (PyInt 0) fv);
  g ← py_float_len (py_dict_get "http_method" (PyStr "") fv);
  h ← py_float_len (py_dict_get "ja3_hash" (PyStr "") fv);
  i ← py_float_len (py_dict_get "user_agent_hash" (PyStr "") fv);
  Ok [a; b; c; d; e; f; g; h; i].

(** [_fv_to_dict] of server.py. *)
Definition fv_to_dict (fv : FeatureVector) : dict :=
  [("client_ip", PyStr (ClientIp fv)); ("ja3_hash", PyStr (Ja3Hash fv));
   ("user_agent_hash", PyStr (UserAgentHash fv)); ("req_rate_1s", PyFloat (ReqRate_1S fv));
   ("req_rate_10s", PyFloat (ReqRate_10S fv)); ("req_rate_60s", PyFloat (ReqRate_60S fv));
   ("http_method", PyStr (HttpMethod fv)); ("uri_hash", PyStr (UriHash fv));
   ("content_length", PyInt (ContentLength fv)); ("header_count", PyInt (HeaderCount fv));
   ("is_http2", PyInt (IsHttp2 fv)); ("unix_timestamp", PyInt (UnixTimestamp fv))].
End Encode.

(** ** The job *)

Definition BASELINE_PATH : string := "baseline_iso.pkl".
Definition BACKUP_PATH : string := "baseline_iso.pkl.bak".

Record machine (St Fs K : Type) := Machine { m_redis : St; m_disk : Fs; m_kafka : K }.
Arguments Machine {St Fs K}.
Arguments m_redis {St Fs K}.
Arguments m_disk {St Fs K}.
Arguments m_kafka {St Fs K}.

Section Collect.
Context {W : Type} `{PyJson W}.

(** The loop over the messages; an exception ends it, and is caught. *)
Fixpoint collect (cutoff : Z) (msgs : list (Z * W)) (g : groups) : groups :=
  match msgs with
  | [] => g
  | (timestamp, b) :: msgs =>
      match loads_value b with
      | Err _ => g
      | Ok fv =>
          if timestamp <? cutoff then collect cutoff msgs g
          else
            match fv with
            | PyDict d =>
                let ip := py_dict_get "client_ip" (PyStr "") d in
                if py_truthy ip then
                  if hashable ip then collect cutoff msgs (append_to ip d g) else g
                else collect cutoff msgs g
            | _ => g (* AttributeError *)
            end
      end
  end.
End Collect.

Section Job.
Context {St Fs K V W Forest : Type}.
Context `{PyRedis V St, Codecs V Forest, Sklearn Forest, BaselineFit Forest, Disk Forest Fs}.
Context `{KafkaReader K W, PyJson W, PyText}.

(** [try: for msg in consumer ... finally: consumer.close()] *)
Definition read_all (cutoff : Z) : io K groups := fun k =>
  let '((msgs, _), k) := fetch k in
  let k := reader_close (W := W) k in
  (Ok (collect cutoff msgs []), k).

Definition consume_feature_vectors (cutoff : Z) : io K groups :=
  _ ← reader_open (W := W);
  read_all cutoff.

(** [IsolationForestModel.fit] on dictionaries. *)
Definition fit_dicts (ip : string) (history : list dict) : io St unit :=
  if (length history <? MIN_SAMPLES_FOR_FIT)%nat then mret tt
  else
    X ← lift (mapM encode_dict history);
    model ← lift (forest_fit X);
    iso_store ip model.

Fixpoint retrain_per_client (g : groups) : io St unit :=
  match g with
  | [] => mret tt
  | (ip, vectors) :: g =>
      _ ← (if (MIN_SAMPLES_FOR_FIT <=? length vectors)%nat then fit_dicts (py_str ip) vectors
           else mret tt);
      retrain_per_client g
  end.

Definition move_aside : io Fs unit := fun fs =>
  if path_exists BASELINE_PATH fs then path_rename BASELINE_PATH BACKUP_PATH fs else (Ok tt, fs).
Definition drop_backup : io Fs unit := fun fs =>
  if path_exists BACKUP_PATH fs then path_unlink BACKUP_PATH fs else (Ok tt, fs).

Definition retrain_baseline (all_vectors : list dict) : io Fs unit :=
  if (length all_vectors <? MIN_SAMPLES_FOR_FIT)%nat then mret tt
  else
    X ← lift (mapM encode_dict all_vectors);
    model ← lift (baseline_fit X);
    _ ← move_aside;
    _ ← path_mkdir BASELINE_PATH;
    _ ← file_dump model BASELINE_PATH;
    drop_backup.

(** The first baseline, made when the image is built. *)
Definition create_and_save_baseline `{NumpyRandom} (output_path : option string) : io Fs unit :=
  let X := standard_normal 500 FEATURE_DIM in
  model ← lift (forest_fit X);
  let path := default BASELINE_PATH output_path in
  _ ← path_mkdir path;
  file_dump model path.

(** [IsolationForestModel._load_baseline] of a sidecar that starts. *)
Definition load_baseline (fs : Fs) : option Forest :=
  if path_exists BASELINE_PATH fs then disk_view fs !! BASELINE_PATH ≫= id else None.

Definition on_kafka {A} (m : io K A) : io (machine St Fs K) A := fun s =>
  let (r, k) := m (m_kafka s) in (r, Machine (m_redis s) (m_disk s) k).
Definition on_redis {A} (m : io St A) : io (machine St Fs K) A := fun s =>
  let (r, st) := m (m_redis s) in (r, Machine st (m_disk s) (m_kafka s)).
Definition on_disk {A} (m : io Fs A) : io (machine St Fs K) A := fun s =>
  let (r, fs) := m (m_disk s) in (r, Machine (m_redis s) fs (m_kafka s)).

Definition retrain_main (cutoff : Z) : io (machine St Fs K) unit :=
  vectors_by_ip ← on_kafka (consume_feature_vectors cutoff);
  match vectors_by_ip with
  | [] => mret tt
  | _ =>
      _ ← on_redis (retrain_per_client vectors_by_ip);
      let all_vectors := concat (snd <$> vectors_by_ip) in
      on_disk (retrain_baseline all_vectors)
  end.
End Job.

(** ** The producer's messages as the job reads them *)

Fixpoint json_depth (j : json) : nat :=
  match j with
  | JArray l => S (foldr Nat.max 0%nat (map json_depth l))
  | JObject kvs => S (foldr Nat.max 0%nat (map (fun kv => json_depth kv.2) kvs))
  | _ => 0%nat
  end.

(** An object with distinct ASCII names, nested within reason, becomes a dictionary with
    these names. *)
Class EventLaws `{PyJson json} : Prop := {
  loads_object kvs : encodable (JObject kvs) = true -> (json_depth (JObject kvs) <= 100)%nat ->
    NoDup (fst <$> kvs) -> Forall (fun kv => ascii_text (to_text kv.1)) kvs ->
    exists d, loads_value (JObject kvs) = Ok (PyDict d) /\ fst <$> d = fst <$> kvs
}.

(** The consumer delivers messages of the topic and writes none. *)
Class ReaderLaws (K : Type) `{KafkaLaws K, KafkaReader K json} : Prop := {
  open_law k r k' : reader_open k = (r, k') -> kafka_log k' = kafka_log k;
  fetch_law k msgs err k' : fetch k = ((msgs, err), k') ->
    forall timestamp v, (timestamp, v) ∈ msgs -> exists m, (topicDecisions, m) ∈ kafka_log k /\ m_Value m = v
}.

(** ** Lemmas *)

Lemma py_dict_get_absent k v d : k ∉ fst <$> d -> py_dict_get k v d = v.
Proof.
  unfold py_dict_get. induction d as [|[k' v'] d IH]; [done|]. cbn [fmap list_fmap fst find].
  intros [Hne Hd]%not_elem_of_cons. rewrite bool_decide_eq_false_2 by done. by apply IH.
Qed.

Lemma py_float_int64 `{PyText} z : is_int64 z = true -> py_float (PyInt z) = Ok (f64_of_Z z).
Proof.
  intros Hz%is_int64_spec. cbn [py_float].
  assert ((Z.abs z <? 2 ^ 1024 - 2 ^ 970) = true) as ->; [|done]. apply Z.ltb_lt.
  apply (Z.le_lt_trans _ (2 ^ 63)); [unfold int64_min, int64_max in Hz; lia|]. by vm_compute.
Qed.

(** On the dictionaries of the servicer the encoding is the one of [Sidecar]. *)
Lemma encode_fv_to_dict `{PyText} fv :
  is_int64 (ContentLength fv) = true -> is_int64 (HeaderCount fv) = true -> is_int64 (IsHttp2 fv) = true ->
  encode_dict (fv_to_dict fv) = Ok (encode_feature_vector fv).
Proof.
  intros Hc Hh H2. unfold encode_dict.
  change (py_dict_get "req_rate_1s" _ (fv_to_dict fv)) with (PyFloat (ReqRate_1S fv)).
  change (py_dict_get "req_rate_10s" _ (fv_to_dict fv)) with (PyFloat (ReqRate_10S fv)).
  change (py_dict_get "req_rate_60s" _ (fv_to_dict fv)) with (PyFloat (ReqRate_60S fv)).
  change (py_dict_get "content_length" _ (fv_to_dict fv)) with (PyInt (ContentLength fv)).
  change (py_dict_get "header_count" _ (fv_to_dict fv)) with (PyInt (HeaderCount fv)).
  change (py_dict_get "is_http2" _ (fv_to_dict fv)) with (PyInt (IsHttp2 fv)).
  change (py_dict_get "http_method" _ (fv_to_dict fv)) with (PyStr (HttpMethod fv)).
  change (py_dict_get "ja3_hash" _ (fv_to_dict fv)) with (PyStr (Ja3Hash fv)).
  change (py_dict_get "user_agent_hash" _ (fv_to_dict fv)) with (PyStr (UserAgentHash fv)).
  by rewrite !py_float_int64.
Qed.

(** *** Collecting *)

Section Collecting.
Context {W : Type} `{PyJson W}.

(** Messages without an address leave no trace. *)
Lemma collect_anonymous cutoff (msgs : list (Z * W)) g :
  Forall (fun m => exists d, loads_value m.2 = Ok (PyDict d) /\ "client_ip" ∉ fst <$> d) msgs ->
  collect cutoff msgs g = g.
Proof.
  induction 1 as [|[ts b] msgs (d & Hd & Hip) _ IH]; [done|]. cbn [collect snd] in *. rewrite Hd.
  rewrite (py_dict_get_absent _ _ _ Hip). cbn [py_truthy]. rewrite IH. by destruct (ts <? cutoff).
Qed.

(** A message that ends the loop. *)
Definition bad_message (cutoff : Z) (m : Z * W) : Prop :=
  match loads_value m.2 with
  | Err _ => True
  | Ok (PyDict d) => cutoff <= m.1 /\ py_truthy (py_dict_get "client_ip" (PyStr "") d) = true /\
                     hashable (py_dict_get "client_ip" (PyStr "") d) = false
  | Ok _ => cutoff <= m.1
  end.

Lemma collect_bad cutoff m (rest : list (Z * W)) g :
  bad_message cutoff m -> collect cutoff (m :: rest) g = g.
Proof.
  destruct m as [ts b]. unfold bad_message. cbn [collect fst snd].
  destruct (loads_value b) as [v|e]; [|done].
  destruct v; intros Hm; try by (rewrite (proj2 (Z.ltb_ge ts cutoff)) by lia).
  destruct Hm as (Ht & -> & ->). by rewrite (proj2 (Z.ltb_ge ts cutoff)) by lia.
Qed.

End Collecting.

(** *** Groups whose keys are texts *)

Definition texts (gs : list (string * list dict)) : groups := (fun kl => (PyStr kl.1, kl.2)) <$> gs.

Fixpoint append_text (ip : string) (d : dict) (gs : list (string * list dict)) : list (string * list dict) :=
  match gs with
  | [] => [(ip, [d])]
  | (k, l) :: gs => if decide (k = ip) then (k, l ++ [d]) :: gs else (k, l) :: append_text ip d gs
  end.

Definition group_of (ip : string) (gs : list (string * list dict)) : list dict :=
  match find (fun kl => bool_decide (kl.1 = ip)) gs with Some kl => kl.2 | None => [] end.

Lemma append_to_texts ip d gs : append_to (PyStr ip) d (texts gs) = texts (append_text ip d gs).
Proof.
  induction gs as [|[k l] gs IH]; [done|]. cbn. case_bool_decide as Hk.
  - by rewrite decide_True.
  - rewrite decide_False by done. cbn. f_equal. exact IH.
Qed.

Lemma append_text_names ip d gs :
  fst <$> append_text ip d gs = if decide (ip ∈ fst <$> gs) then fst <$> gs else (fst <$> gs) ++ [ip].
Proof.
  induction gs as [|[k l] gs IH]; [done|]. cbn [append_text fmap list_fmap fst].
  destruct (decide (k = ip)) as [->|Hne].
  - rewrite decide_True by apply list_elem_of_here. done.
  - cbn [fmap list_fmap fst]. rewrite IH. destruct (decide (ip ∈ fst <$> gs)) as [Hin|Hin].
    + by rewrite decide_True by (by apply list_elem_of_further).
    + rewrite decide_False; [done|]. by intros [->|?]%elem_of_cons.
Qed.

Lemma append_text_group ip d gs ip' :
  group_of ip' (append_text ip d gs) = group_of ip' gs ++ (if decide (ip = ip') then [d] else []).
Proof.
  unfold group_of. induction gs as [|[k l] gs IH]; cbn [append_text find fst].
  - case_bool_decide; case_decide; done.
  - destruct (decide (k = ip)) as [->|Hne]; cbn [find fst].
    + case_bool_decide as Hk; [by rewrite decide_True|]. by rewrite decide_False, app_nil_r.
    + case_bool_decide as Hk; [|done]. rewrite decide_False by congruence. by rewrite app_nil_r.
Qed.

Lemma group_of_in ip gs :
  if decide (ip ∈ fst <$> gs) then (ip, group_of ip gs) ∈ gs else group_of ip gs = [].
Proof.
  unfold group_of. induction gs as [|[k l] gs IH]; cbn [find fst fmap list_fmap].
  { by rewrite decide_False by apply not_elem_of_nil. }
  destruct (decide (k = ip)) as [->|Hne].
  - rewrite decide_True by apply list_elem_of_here. rewrite bool_decide_eq_true_2 by done. apply list_elem_of_here.
  - rewrite bool_decide_eq_false_2 by done. destruct (decide (ip ∈ fst <$> gs)) as [Hin|Hin].
    + rewrite decide_True by (by apply list_elem_of_further). by apply list_elem_of_further.
    + rewrite decide_False; [done|]. by intros [->|?]%elem_of_cons.
Qed.

(** The groups of vectors with texts as addresses. *)
Definition group_all (cutoff : Z) (vs : list (Z * (string * dict))) (gs : list (string * list dict)) :=
  foldl (fun gs v => if decide (cutoff <= v.1 /\ v.2.1 <> "") then append_text v.2.1 v.2.2 gs else gs) gs vs.

Lemma group_all_cons cutoff v vs gs : group_all cutoff (v :: vs) gs =
  group_all cutoff vs (if decide (cutoff <= v.1 /\ v.2.1 <> "") then append_text v.2.1 v.2.2 gs else gs).
Proof. done. Qed.

(** The vectors of an address, in their order. *)
Definition vectors_of (cutoff : Z) (ip : string) (vs : list (Z * (string * dict))) : list dict :=
  (fun v => v.2.2) <$> filter (fun v => cutoff <= v.1 /\ v.2.1 = ip) vs.

Lemma group_all_spec cutoff vs gs :
  NoDup (fst <$> gs) -> NoDup (fst <$> group_all cutoff vs gs) /\
  forall ip, ip <> "" -> group_of ip (group_all cutoff vs gs) = group_of ip gs ++ vectors_of cutoff ip vs.
Proof.
  revert gs. induction vs as [|[ts [ip' d]] vs IH]; intros gs Hnd.
  { split; [done|]. intros ip _. by rewrite app_nil_r. }
  rewrite group_all_cons. cbn [fst snd].
  assert (NoDup (fst <$> append_text ip' d gs)) as Hnd'.
  { rewrite append_text_names. case_decide as Hin; [done|]. apply NoDup_app. split; [done|]. split.
    - intros k Hk ->%list_elem_of_singleton. done.
    - apply NoDup_singleton. }
  unfold vectors_of. destruct (decide (cutoff <= ts /\ ip' <> "")) as [[Ht Hne]|Hno].
  - destruct (IH _ Hnd') as [H1 H2]. split; [done|]. intros ip Hip.
    rewrite (H2 ip Hip), append_text_group, filter_cons, <- app_assoc. cbn [fst snd]. f_equal.
    unfold vectors_of. destruct (decide (ip' = ip)) as [->|Hdiff].
    + by rewrite (decide_True (P := cutoff <= ts /\ ip = ip)).
    + by rewrite (decide_False (P := cutoff <= ts /\ ip' = ip)) by tauto.
  - destruct (IH _ Hnd) as [H1 H2]. split; [done|]. intros ip Hip. rewrite (H2 ip Hip), filter_cons. cbn [fst snd].
    rewrite decide_False; [done|]. intros [? ->]. by apply Hno.
Qed.

Section Addressed.
Context {W : Type} `{PyJson W}.

(** Messages that hold vectors with texts as addresses. *)
Definition addressed (m : Z * W) (v : Z * (string * dict)) : Prop :=
  m.1 = v.1 /\ loads_value m.2 = Ok (PyDict v.2.2) /\ py_dict_get "client_ip" (PyStr "") v.2.2 = PyStr v.2.1.

Lemma collect_addressed cutoff msgs vs (rest : list (Z * W)) gs :
  Forall2 addressed msgs vs ->
  collect cutoff (msgs ++ rest) (texts gs) = collect cutoff rest (texts (group_all cutoff vs gs)).
Proof.
  intros Hm. revert gs. induction Hm as [|[ts b] [ts' [ip d]] msgs vs (Ht & Hd & Hip) _ IH]; intros gs; [done|].
  cbn [fst snd] in *. subst ts'. cbn [app collect]. rewrite Hd, Hip. cbn [py_truthy hashable].
  rewrite group_all_cons, append_to_texts. cbn [fst snd].
  destruct (Z.ltb_spec ts cutoff) as [Hlt|Hge].
  - rewrite decide_False by lia. apply IH.
  - case_bool_decide as Hempty; cbn [negb].
    + rewrite decide_False by tauto. apply IH.
    + rewrite decide_True by done. apply IH.
Qed.
End Addressed.

(** *** Fitting *)

(** joblib reads what it wrote. *)
Class JoblibLaws (V Forest : Type) `{Codecs V Forest} : Prop :=
  joblib_roundtrip f : joblib_load (joblib_dump f) = Ok f.

Section Fitting.
Context {St Fs K V W Forest : Type}.
Context `{PyRedisLaws V St, Codecs V Forest, Sklearn Forest, PyText}.

(** The forest that the job fits for some vectors. *)
Definition trained (vs : list dict) (f : Forest) : Prop :=
  exists X, mapM encode_dict vs = Ok X /\ forest_fit X = Ok f.

Lemma fit_dicts_spec ip vs (st st' : St) r :
  fit_dicts ip vs st = (r, st') -> (MIN_SAMPLES_FOR_FIT <= length vs)%nat ->
  (forall key, key <> iso_key ip -> py_view st' !! key = py_view st !! key) /\
  (r = Ok tt -> exists f, trained vs f /\ py_view st' !! iso_key ip = Some (joblib_dump f)).
Proof.
  intros E Hlen. unfold fit_dicts, mbind, io_bind, lift in E.
  destruct (Nat.ltb_spec (length vs) MIN_SAMPLES_FOR_FIT); [lia|].
  destruct (mapM encode_dict vs) as [X|e] eqn:EX; [|injection E as <- <-; done].
  destruct (forest_fit X) as [f|e] eqn:Ef; [|injection E as <- <-; done].
  apply setex_law in E; [|done]. destruct r as [[]|e].
  - rewrite E. split; [intros key Hne; by rewrite lookup_insert_ne|]. intros _. exists f.
    split; [by exists X|]. by rewrite lookup_insert_eq.
  - split; [|done]. intros key Hne. destruct E as [->| ->]; [done|by rewrite lookup_insert_ne].
Qed.

Lemma iso_key_inj ip ip' : iso_key ip = iso_key ip' -> ip = ip'.
Proof. apply append_inj_l. Qed.

(** The keys of the clients, and what is stored under them. *)
Lemma retrain_per_client_spec g (st st' : St) r :
  retrain_per_client g st = (r, st') -> NoDup (py_str <$> (fst <$> g)) ->
  (forall key, (forall ip, ip ∈ py_str <$> (fst <$> g) -> key <> iso_key ip) ->
     py_view st' !! key = py_view st !! key) /\
  (r = Ok tt -> forall k vs, (k, vs) ∈ g ->
     if (MIN_SAMPLES_FOR_FIT <=? length vs)%nat
     then exists f, trained vs f /\ py_view st' !! iso_key (py_str k) = Some (joblib_dump f)
     else py_view st' !! iso_key (py_str k) = py_view st !! iso_key (py_str k)).
Proof.
  revert st. induction g as [|[k vs] g IH]; intros st E Hnd.
  { injection E as <- <-. split; [done|]. intros _ k vs Hin. by apply elem_of_nil in Hin. }
  cbn [retrain_per_client] in E. unfold mbind at 1, io_bind at 1 in E.
  cbn [fmap list_fmap fst] in Hnd. apply NoDup_cons in Hnd as [Hnew Hnd].
  set (first := if (MIN_SAMPLES_FOR_FIT <=? length vs)%nat then fit_dicts (py_str k) vs else mret tt) in E.
  destruct (first st) as [r1 st1] eqn:E1.
  assert ((forall key, key <> iso_key (py_str k) -> py_view st1 !! key = py_view st !! key) /\
    (r1 = Ok tt -> if (MIN_SAMPLES_FOR_FIT <=? length vs)%nat
       then exists f, trained vs f /\ py_view st1 !! iso_key (py_str k) = Some (joblib_dump f)
       else py_view st1 !! iso_key (py_str k) = py_view st !! iso_key (py_str k))) as [Hother Hfirst].
  { unfold first in E1. destruct (Nat.leb_spec MIN_SAMPLES_FOR_FIT (length vs)) as [Hle|Hlt].
    - by apply fit_dicts_spec.
    - by injection E1 as <- <-. }
  clearbody first. destruct r1 as [[]|e].
  2:{ injection E as <- <-. split; [|done]. intros key Hkey. apply Hother, Hkey, list_elem_of_here. }
  destruct (IH st1 E Hnd) as [IHother IHall]. split.
  - intros key Hkey. rewrite IHother, Hother; [done|apply Hkey, list_elem_of_here|].
    intros ip Hip. apply Hkey. by apply list_elem_of_further.
  - intros Hr k' vs' [[= -> ->]|Hin]%elem_of_cons.
    + rewrite IHother; [by apply Hfirst|]. intros ip Hip Heq%iso_key_inj. by subst ip.
    + specialize (IHall Hr k' vs' Hin). rewrite <- (Hother (iso_key (py_str k'))); [done|].
      intros Heq%iso_key_inj. apply Hnew. rewrite <- Heq. apply list_elem_of_fmap_2.
      apply (list_elem_of_fmap_2 fst) in Hin. exact Hin.
Qed.
End Fitting.

(** ** Properties *)

(** A client whose forest is stored. *)
Lemma iso_score_stored {St V Forest : Type}
    `{PyRedisLaws V St, !Codecs V Forest, !JoblibLaws V Forest, Numpy, Sklearn Forest}
    (m : IsolationForestModel Forest) ip fv (st st' : St) i f :
  py_view st !! iso_key ip = Some (joblib_dump f) -> iso_score m ip fv st = (Ok i, st') ->
  exists raw, decision_function f (encode_feature_vector fv) = Ok raw /\ i = anomaly raw.
Proof.
  intros Hv. unfold iso_score, iso_load, mbind, io_bind.
  destruct (py_get (iso_key ip) st) as [[data|e] st1] eqn:Eg; [|done].
  apply get_law in Eg as [_ ->]. rewrite Hv, joblib_roundtrip. cbn. unfold lift.
  destruct (decision_function f _) as [raw|e]; [|done]. intros [= <- _]. by exists raw.
Qed.

(** *** What the engine publishes *)

(** The features of [Evaluate]. *)
Definition engine_task (t : task) : Prop :=
  match t with
  | PublishDecisionTask evt => exists fv, ev_FeatureVector evt = event_features fv
  | PublishBlockedTask _ => True
  end.

Lemma engine_tasks (l : list decided) : Forall engine_task (l ≫= tasks_of).
Proof.
  induction l as [|[[[fv x] d] now] l IH]; [constructor|].
  change (((fv, x, d, now) :: l) ≫= tasks_of) with (decision_tasks (Some fv) x d now ++ (l ≫= tasks_of)).
  apply Forall_app. split; [|done]. unfold decision_tasks. apply Forall_app. split.
  - by destruct (d_Action d); repeat constructor.
  - constructor; [|done]. by exists (Some fv).
Qed.

(** Such an event has no member [client_ip]. *)
Lemma event_anonymous `{EventLaws} evt fv :
  ev_FeatureVector evt = event_features fv -> year_ok (ev_Timestamp evt) = true ->
  encodable (ev_FeatureVector evt) = true -> is_finite (ev_Score evt) = true ->
  exists d, loads_value (event_json evt) = Ok (PyDict d) /\ "client_ip" ∉ fst <$> d.
Proof.
  intros Hfv Ht Hf Hs.
  destruct (loads_object [("ip", JString (ev_IP evt)); ("score", JFloat32 (ev_Score evt));
    ("action", JString (ev_Action evt)); ("timestamp", JTime (ev_Timestamp evt));
    ("feature_vector", ev_FeatureVector evt)]) as (d & Hd & Hnames).
  - cbn [encodable forallb snd]. by rewrite Hs, Ht, Hf.
  - rewrite Hfv. cbn. lia.
  - by apply (bool_decide_unpack _).
  - by repeat constructor.
  - exists d. split; [exact Hd|]. rewrite Hnames. by apply (bool_decide_unpack _).
Qed.

Section Properties.
Context {St Fs K V W Forest : Type}.
Context `{PyRedisLaws V St, Codecs V Forest, Sklearn Forest, BaselineFit Forest, DiskLaws Forest Fs}.
Context `{PyText}.

Lemma move_aside_spec (fs fs' : Fs) r :
  move_aside fs = (r, fs') ->
  match disk_view fs !! BASELINE_PATH, r with
  | Some c, Ok _ => disk_view fs' = <[BACKUP_PATH := c]> (delete BASELINE_PATH (disk_view fs))
  | _, _ => disk_view fs' = disk_view fs
  end.
Proof.
  unfold move_aside. rewrite exists_view. destruct (disk_view fs !! BASELINE_PATH) as [c|] eqn:E.
  - rewrite bool_decide_eq_true_2 by done. intros Er. by apply (rename_law _ _ c) in Er; [destruct r|..].
  - rewrite bool_decide_eq_false_2 by (by intros [? ?]). by intros [= <- <-].
Qed.

Lemma drop_backup_spec (fs fs' : Fs) r :
  drop_backup fs = (r, fs') ->
  disk_view fs' = disk_view fs \/ disk_view fs' = delete BACKUP_PATH (disk_view fs).
Proof.
  unfold drop_backup. destruct (path_exists BACKUP_PATH fs); [|intros [= _ <-]; by left].
  intros Er%unlink_law. destruct r; [by right|by left].
Qed.

(** The baseline made with the image is the one that a sidecar loads. *)
Lemma image_has_baseline `{NumpyRandom} (fs fs' : Fs) :
  create_and_save_baseline None fs = (Ok tt, fs') ->
  exists f, forest_fit (standard_normal 500 FEATURE_DIM) = Ok f /\ load_baseline fs' = Some f.
Proof.
  unfold create_and_save_baseline, mbind, io_bind, lift. cbn [default].
  destruct (forest_fit _) as [f|e]; [|done]. destruct (path_mkdir _ fs) as [[[]|e] fs1]; [|done].
  intros Hv%dump_law. exists f. split; [done|].
  unfold load_baseline. by rewrite exists_view, Hv, lookup_insert_eq, bool_decide_eq_true_2.
Qed.

(** C14: the old baseline is not lost before the new one is there.  Whatever fails while
    the baseline is retrained (an odd value among the vectors, the fit, the rename, a
    dump that stops half-way, the removal of the backup), afterwards the file that was
    there is still at its path or is the backup, or the new model is whole at its path;
    no other file changes.  With fewer than 20 vectors nothing changes at all. *)
Theorem old_baseline_survives (vs : list dict) (fs fs' : Fs) r :
  retrain_baseline vs fs = (r, fs') ->
  (forall q, q <> BASELINE_PATH -> q <> BACKUP_PATH -> disk_view fs' !! q = disk_view fs !! q) /\
  ((length vs < MIN_SAMPLES_FOR_FIT)%nat -> r = Ok tt /\ fs' = fs) /\
  forall c, disk_view fs !! BASELINE_PATH = Some c ->
    disk_view fs' !! BASELINE_PATH = Some c \/ disk_view fs' !! BACKUP_PATH = Some c \/
    exists X f, mapM encode_dict vs = Ok X /\ baseline_fit X = Ok f /\ load_baseline fs' = Some f.
Proof.
  unfold retrain_baseline, mbind, io_bind, lift.
  destruct (Nat.ltb_spec (length vs) MIN_SAMPLES_FOR_FIT) as [Hlt|Hge].
  { intros [= <- <-]. split; [done|]. split; [done|]. by left. }
  destruct (mapM encode_dict vs) as [X|e] eqn:EX;
    [|intros [= <- <-]; split; [done|]; split; [lia|by left]].
  destruct (baseline_fit X) as [f|e] eqn:Ef; [|intros [= <- <-]; split; [done|]; split; [lia|by left]].
  destruct (move_aside fs) as [[[]|e] fs1] eqn:E1; apply move_aside_spec in E1.
  2:{ intros [= <- <-]. assert (disk_view fs1 = disk_view fs) as -> by (by destruct (disk_view fs !! BASELINE_PATH)).
      split; [done|]. split; [lia|by left]. }
  assert ((forall q, q <> BASELINE_PATH -> q <> BACKUP_PATH -> disk_view fs1 !! q = disk_view fs !! q) /\
    forall c, disk_view fs !! BASELINE_PATH = Some c -> disk_view fs1 !! BACKUP_PATH = Some c) as [Hother Hkept].
  { destruct (disk_view fs !! BASELINE_PATH) as [c|]; rewrite E1; [|done]. split.
    - intros q Hb Hk. by rewrite lookup_insert_ne, lookup_delete_ne.
    - intros c' [= <-]. by rewrite lookup_insert_eq. }
  clear E1. destruct (path_mkdir BASELINE_PATH fs1) as [[[]|e] fs2] eqn:E2; apply mkdir_law in E2; rewrite <- E2 in Hother, Hkept.
  2:{ intros [= <- <-]. split; [done|]. split; [lia|]. intros c Hc. right; left. by apply Hkept. }
  destruct (file_dump f BASELINE_PATH fs2) as [[[]|e] fs3] eqn:E3; apply dump_law in E3.
  2:{ intros [= <- <-]. split; [|split; [lia|]].
      - intros q Hb Hk. by rewrite E3, Hother.
      - intros c Hc. right; left. by rewrite E3, (Hkept c). }
  intros E4%drop_backup_spec. assert (disk_view fs' !! BASELINE_PATH = Some (Some f)) as Hnew.
  { destruct E4 as [->| ->]; [|rewrite lookup_delete_ne by done]; by rewrite E3, lookup_insert_eq. }
  split; [|split; [lia|]].
  - intros q Hb Hk. destruct E4 as [->| ->]; [|rewrite lookup_delete_ne by done];
      rewrite E3, lookup_insert_ne by done; by apply Hother.
  - intros c _. right; right. exists X, f. split; [done|]. split; [done|].
    unfold load_baseline. by rewrite exists_view, Hnew, bool_decide_eq_true_2.
Qed.

(** C37: a client with 20 vectors gets its own forest.  For a topic of vectors whose
    addresses are texts, up to a first message that is not one (at which the job stops
    reading, whatever follows): the groups hold, for every address, the vectors since
    the cutoff in their order.  If the training of the groups then ends without an
    exception, the next score of an address with at least 20 vectors comes from a
    forest fitted to exactly these; for an address with fewer, what Redis held for it
    is still there. *)
Theorem clients_get_their_forest `{PyJson W, !JoblibLaws V Forest, Numpy}
    cutoff msgs vs (rest : list (Z * W)) ip (st st' : St) :
  Forall2 addressed msgs vs -> match rest with [] => True | bad :: _ => bad_message cutoff bad end ->
  ip <> "" ->
  let mine := vectors_of cutoff ip vs in
  retrain_per_client (collect cutoff (msgs ++ rest) []) st = (Ok tt, st') ->
  if (MIN_SAMPLES_FOR_FIT <=? length mine)%nat
  then exists f, trained mine f /\
    forall m fv i st1 st2, py_view st1 = py_view st' -> iso_score m ip fv st1 = (Ok i, st2) ->
      exists raw, decision_function f (encode_feature_vector fv) = Ok raw /\ i = anomaly raw
  else py_view st' !! iso_key ip = py_view st !! iso_key ip.
Proof.
  intros Hm Hrest Hip mine Er.
  change ([] : groups) with (texts []) in Er. rewrite (collect_addressed _ _ _ _ _ Hm) in Er.
  destruct (group_all_spec cutoff vs [] (NoDup_nil_2)) as [Hnd Hgroup]. specialize (Hgroup ip Hip).
  change (group_of ip (group_all cutoff vs []) = mine) in Hgroup.
  set (gs := group_all cutoff vs []) in *.
  assert (collect cutoff rest (texts gs) = texts gs) as Hc.
  { destruct rest as [|bad rest]; [done|]. by apply collect_bad. }
  rewrite Hc in Er.
  assert (py_str <$> (fst <$> texts gs) = fst <$> gs) as Hnames.
  { clear. induction gs as [|[k l] gs IH]; [done|]. cbn in *. by f_equal. }
  apply retrain_per_client_spec in Er as [Hother Hall]; [|by rewrite Hnames].
  specialize (Hall eq_refl).
  pose proof (group_of_in ip gs) as Hin. rewrite Hgroup in Hin.
  destruct (decide (ip ∈ fst <$> gs)) as [_|Hno] in Hin.
  - assert ((PyStr ip, mine) ∈ texts gs) as Hin' by (by apply (list_elem_of_fmap_2 (fun kl => (PyStr kl.1, kl.2))) in Hin).
    specialize (Hall _ _ Hin'). cbn [py_str] in Hall.
    destruct (MIN_SAMPLES_FOR_FIT <=? length mine)%nat; [|done].
    destruct Hall as (f & Hf & Hview). exists f. split; [done|].
    intros m fv i st1 st2 Hst1 Hi. by apply (iso_score_stored m ip fv st1 st2 i f); [rewrite Hst1|].
  - rewrite Hin. apply Hother. intros ip' Hip' Heq%iso_key_inj. subst ip'. apply Hno. by rewrite <- Hnames.
Qed.
End Properties.

Section Idle.
Context {R X B S St Fs K V Forest : Type}.
Context `{RedisDecrementor R S, MLScorer X S, Engine.Blocklist B S, Clock S}.
Context `{KafkaLaws K, !KafkaReader K json, !ReaderLaws K, !PyJson json, !EventLaws}.
Context `{PyRedis V St, Codecs V Forest, Sklearn Forest, BaselineFit Forest, Disk Forest Fs, PyText}.
Variable oob : spec_float -> Z.

(** C13: the retraining never trains.  The job looks for [client_ip] at the top of a
    message, where the engine's events have [ip], and the vector inside under
    [feature_vector].  So after any requests, with all the goroutines that they spawned
    run in any order on an empty topic, and whatever of the topic the consumer delivers
    before it stops or fails, the job ends without having written to Redis or to the
    disk: no client ever gets its own forest, and the baseline stays that of the image. *)
Theorem retraining_is_idle (e : Engine R X B) brokers fvs (w w' : World S) ds runs (k : K) cutoff
    (s s' : machine St Fs K) r :
  kafka e = Kafka.New brokers ->
  evaluate_all oob e fvs w = (Returns ds, w') -> spawned w = [] -> snd <$> runs ≡ₚ spawned w' ->
  kafka_up k -> kafka_log k = [] -> Forall run_ok runs ->
  m_kafka s = run_tasks (kafka e) runs k ->
  retrain_main (W := json) cutoff s = (r, s') ->
  m_redis s' = m_redis s /\ m_disk s' = m_disk s /\
  (is_ok (fst (reader_open (m_kafka s))) = true -> r = Ok tt).
Proof.
  intros -> Hev Hw Hruns Hup Hlog Hok Hk Hmain.
  assert (Forall engine_task (snd <$> runs)) as Htasks.
  { rewrite Hruns. destruct (evaluate_all_spawned oob e fvs w w' ds Hev) as (l & -> & _).
    rewrite Hw. apply engine_tasks. }
  unfold retrain_main, consume_feature_vectors, on_kafka, mbind, io_bind in Hmain.
  destruct (reader_open (m_kafka s)) as [[[]|err] k1] eqn:Eo; [|by injection Hmain as <- <-].
  apply open_law in Eo. unfold read_all in Hmain.
  destruct (fetch k1) as [[msgs err] k2] eqn:Ef.
  rewrite collect_anonymous in Hmain; [by injection Hmain as <- <-|].
  apply Forall_forall. intros [ts v] Hin. destruct (fetch_law _ _ _ _ Ef ts v Hin) as (m & Hm & <-).
  rewrite Eo, Hk, (run_tasks_log brokers runs k Hup Hok), Hlog, app_nil_r in Hm.
  apply list_elem_of_omap in Hm as ([now t] & Ht & Hm).
  rewrite Forall_fmap, Forall_forall in Htasks. specialize (Htasks _ Ht).
  rewrite Forall_forall in Hok. specialize (Hok _ Ht). destruct t as [ip|evt]; cbn in Hm; [done|].
  destruct (is_finite (ev_Score evt)) eqn:Hs; [|done]. injection Hm as <-.
  destruct Hok as [Hyear Henc], Htasks as [fv Hfv]. by apply (event_anonymous evt fv).
Qed.
End Idle.

(** ** Libraries for the examples *)

Module MemJob.
#[global] Instance text : PyText := {| float_of_text _ := Err "ValueError"; float_repr _ := "0.5" |}.

Fixpoint value_of (j : json) : pyval :=
  match j with
  | JString s => PyStr s
  | JInt z => PyInt z
  | JFloat32 x => PyFloat (f32_to_f64 x)
  | JFloat64 x => PyFloat x
  | JTime _ => PyStr "2026-01-01T00:00:00Z"
  | JArray l => PyList (map value_of l)
  | JObject kvs => PyDict (map (fun kv => (kv.1, value_of kv.2)) kvs)
  end.

(** An empty array stands for what does not decode. *)
#[global] Instance loads : PyJson json := {|
  loads_value j := match j with JArray [] => Err "JSONDecodeError" | _ => Ok (value_of j) end
|}.

#[global] Instance event_laws : EventLaws.
Proof.
  constructor. intros kvs _ _ _ _. eexists. split; [reflexivity|].
  induction kvs as [|kv kvs IH]; [done|]. cbn in *. by f_equal.
Qed.

#[global] Instance reader : KafkaReader MemKafka.t json := {|
  reader_open k := (Ok tt, k);
  fetch k := (((fun tm => (1000, m_Value tm.2)) <$> filter (fun tm => tm.1 = topicDecisions) (MemKafka.written k),
               None), k);
  reader_close k := k
|}.

#[global] Instance reader_laws : ReaderLaws MemKafka.t.
Proof.
  split; cbn.
  - by intros k r k' [= _ <-].
  - intros k msgs err k' [= <- _ _] ts v ([tp m] & [= -> ->] & [Htp Hin]%list_elem_of_filter)%list_elem_of_fmap.
    cbn in Htp. subst tp. by exists m.
Qed.

#[global] Instance joblib : JoblibLaws MemPy.bytes float64.
Proof. done. Qed.

#[global] Instance baseline : BaselineFit float64 := {| baseline_fit _ := Ok f64_one |}.

(** A disk, and whether it is full. *)
Record disk := Mem { files : gmap string (option float64); full : bool }.

#[global] Instance cmds : Disk float64 disk := {|
  disk_view := files;
  path_exists p fs := bool_decide (is_Some (files fs !! p));
  path_rename p q fs :=
    match files fs !! p with
    | Some c => (Ok tt, Mem (<[q := c]> (delete p (files fs))) (full fs))
    | None => (Err "FileNotFoundError", fs)
    end;
  path_mkdir _ fs := (Ok tt, fs);
  file_dump f p fs :=
    if full fs then (Err "No space left on device", Mem (<[p := None]> (files fs)) (full fs))
    else (Ok tt, Mem (<[p := Some f]> (files fs)) (full fs));
  path_unlink p fs := (Ok tt, Mem (delete p (files fs)) (full fs))
|}.

#[global] Instance laws : DiskLaws float64 disk.
Proof.
  split; cbn.
  - done.
  - intros p q c fs r fs' Hp _. rewrite Hp. by intros [= <- <-].
  - by intros p fs r fs' [= _ <-].
  - intros f p fs r fs'. destruct (full fs); intros [= <- <-]; [|done].
    intros q Hq. cbn. by rewrite lookup_insert_ne.
  - by intros p fs r fs' [= <- <-].
Qed.

Definition vector (ip : string) : json := JObject [("client_ip", JString ip); ("req_rate_1s", JInt 3)].
Definition dict_of (ip : string) : dict := [("client_ip", PyStr ip); ("req_rate_1s", PyInt 3)].
Definition image : disk := Mem {[BASELINE_PATH := Some (f64_of_Z (-1))]} true.
End MemJob.

Lemma retraining_is_idle_witness :
  exists r s', retrain_main (W := json) (V := MemPy.bytes) (Forest := float64) 0
    (Machine MemPy.empty MemJob.image (run_tasks (kafka Mock.engine) demo_runs MemKafka.empty)) = (r, s') /\
  r = Ok tt /\ m_redis s' = MemPy.empty /\ m_disk s' = MemJob.image.
Proof.
  destruct (retrain_main (W := json) (V := MemPy.bytes) (Forest := float64) 0
    (Machine MemPy.empty MemJob.image (run_tasks (kafka Mock.engine) demo_runs MemKafka.empty))) as [r s'] eqn:E.
  exists r, s'. split; [done|].
  destruct (retraining_is_idle amd64_oob Mock.engine ["localhost:9092"] [demo_fv; demo_fv] demo_world
    (snd (evaluate_all amd64_oob Mock.engine [demo_fv; demo_fv] demo_world))
    [MkDecision ActionBlock 0; MkDecision ActionBlock 0] demo_runs MemKafka.empty 0
    (Machine MemPy.empty MemJob.image (run_tasks (kafka Mock.engine) demo_runs MemKafka.empty)) s' r
    eq_refl) as (H1 & H2 & H3).
  - vm_compute. reflexivity.
  - reflexivity.
  - unfold demo_runs. rewrite <- list_fmap_compose.
    etrans; [|apply reverse_Permutation]. by rewrite list_fmap_id.
  - done.
  - done.
  - repeat constructor.
  - done.
  - exact E.
  - split; [by apply H3|]. by split.
Defined.

(** A dump onto a full disk: the baseline is gone from its path, the backup is there. *)
Lemma old_baseline_survives_witness :
  let after := snd (retrain_baseline (replicate 20 (MemJob.dict_of "10.0.0.7")) MemJob.image) in
  disk_view after !! BASELINE_PATH = Some None /\ load_baseline after = None /\
  disk_view after !! BACKUP_PATH = Some (Some (f64_of_Z (-1))).
Proof.
  intros after. split; [by vm_compute|]. split; [by vm_compute|].
  destruct (old_baseline_survives (replicate 20 (MemJob.dict_of "10.0.0.7")) MemJob.image after
    (fst (retrain_baseline (replicate 20 (MemJob.dict_of "10.0.0.7")) MemJob.image))) as (_ & _ & Hc).
  - by destruct (retrain_baseline _ _).
  - destruct (Hc (Some (f64_of_Z (-1))) eq_refl) as [H|[H|(X & f & _ & _ & H)]]; [|exact H|]; vm_compute in H; discriminate.
Defined.

(** Twenty vectors, then one that does not decode. *)
Lemma clients_get_their_forest_witness :
  exists st' f, retrain_per_client (collect 0 (replicate 20 (5, MemJob.vector "10.0.0.7") ++
      [(5, JArray []); (5, MemJob.vector "10.0.0.8")]) []) MemPy.empty = (Ok tt, st') /\
    trained (replicate 20 (MemJob.dict_of "10.0.0.7")) f.
Proof.
  destruct (retrain_per_client (collect 0 (replicate 20 (5, MemJob.vector "10.0.0.7") ++
      [(5, JArray []); (5, MemJob.vector "10.0.0.8")]) []) MemPy.empty) as [r st'] eqn:E.
  assert (r = Ok tt) as -> by (apply (f_equal fst) in E; vm_compute in E; done).
  destruct (clients_get_their_forest 0 (replicate 20 (5, MemJob.vector "10.0.0.7"))
    (replicate 20 (5, ("10.0.0.7", MemJob.dict_of "10.0.0.7"))) [(5, JArray []); (5, MemJob.vector "10.0.0.8")]
    "10.0.0.7" MemPy.empty st') as (f & Hf & _).
  - repeat constructor.
  - exact I.
  - done.
  - exact E.
  - exists st', f. split; [done|]. exact Hf.
Defined.
