(* ===== verification/System.v ===== *)
(** * The running decision engine (cmd/server/main.go)

    The implementations put behind the engine's interfaces, the start-up of
    [main], and the requests in flight: each connection runs [Evaluate] in its own
    goroutine, and the calls to Redis, to the scorer and to the blocklist of
    different requests interleave. *)

From S2P Require Import Prelude GoNet GoFloat GoText Json GoJson GoPrint Http Redis TokenBucket Config.
From S2P Require Import Ml Wire Kafka Engine BpfMap Blocklist Server.

(** What depends on the machine: byte order, out-of-range float conversions. *)
Class Platform := { plat_endian : endianness; plat_oob : spec_float -> Z }.

(** ** The outside world of the process *)

(** [sys_net] is how the next script runs fare on the network; once it is used up
    every reply arrives. *)
Record Sys (St G M : Type) := MkSys {
  sys_redis : St; sys_net : list delivery; sys_ml : G; sys_map : M; sys_time : Z
}.
Arguments MkSys {St G M}.
Arguments sys_redis {St G M}.
Arguments sys_net {St G M}.
Arguments sys_ml {St G M}.
Arguments sys_map {St G M}.
Arguments sys_time {St G M}.

Definition next_delivery (net : list delivery) : delivery * list delivery :=
  match net with [] => (Reply 0, []) | d :: net => (d, net) end.

Section Implementations.
Context `{Platform} {St Conn G M : Type} `{RedisCmds St, Grpc Conn G, BpfMap M}.

#[global] Instance sys_decrementor : RedisDecrementor Redis.Client (Sys St G M) := {|
  Decrement c ip s :=
    let (d, net) := next_delivery (sys_net s) in
    let (r, st) := Redis.Decrement plat_oob d c ip (sys_redis s) in
    (r, MkSys st net (sys_ml s) (sys_map s) (sys_time s))
|}.

#[global] Instance sys_scorer : MLScorer (option (Ml.Client Conn)) (Sys St G M) := {|
  Score c fv s :=
    let (o, g) := Ml.Score c fv (sys_ml s) in
    (o, MkSys (sys_redis s) (sys_net s) g (sys_map s) (sys_time s))
|}.

Definition on_map (f : io M unit) (s : Sys St G M) : option error * Sys St G M :=
  let (r, m) := f (sys_map s) in
  (match r with Ok _ => None | Err e => Some e end,
   MkSys (sys_redis s) (sys_net s) (sys_ml s) m (sys_time s)).

#[global] Instance sys_blocklist : Engine.Blocklist Blocklist.Blocklist (Sys St G M) := {|
  Engine.Add b ip := on_map (Blocklist.Add plat_endian b ip);
  Engine.Remove b ip := on_map (Blocklist.Remove b ip)
|}.

#[global] Instance sys_clock : Clock (Sys St G M) := {| time_now := sys_time |}.

(** ** Start-up *)

Definition engine_t : Type := Engine Redis.Client (option (Ml.Client Conn)) Blocklist.Blocklist.

(** [main] up to the servers: [env] is the environment, [ping] and [load] the
    outcomes of the Redis connection test and of opening the pinned map. An error
    is a fatal exit; failures of the scorer and of the map are only logged. *)
Definition main (env : string -> string) (ping : option error) (load : string -> result unit)
    (g : G) : result engine_t * G :=
  let cfg := Load env in
  match Redis.New (RedisAddrs cfg) (BucketSize cfg) (BucketTTL cfg) ping with
  | Err e => (Err ("redis: init failed: " +:+ e), g)
  | Ok redisClient =>
      let kafkaProducer := Kafka.New (KafkaBrokers cfg) in
      let '((mlClient, err), g) := Ml.New (MLSidecarAddr cfg) g in
      let bl := Blocklist.New load in
      (Ok (Engine.New cfg redisClient mlClient kafkaProducer bl), g)
  end.

(** ** Requests in flight *)

(** How far a goroutine has come in [Evaluate]. *)
Inductive phase :=
| Arrived
| Counted (r : Z * option error)
| Scored (r : Z * option error) (score : float32)
| Decided (r : Z * option error) (score : float32) (d : Decision).

Record flight := Flight { f_vector : option FeatureVector; f_phase : phase }.

Definition f_ip (f : flight) : string := GetClientIp (f_vector f).

Record process := Process {
  p_world : World (Sys St G M); p_flights : list flight; p_crashed : bool
}.

Definition with_redis (st : St) (s : Sys St G M) : Sys St G M :=
  MkSys st (sys_net s) (sys_ml s) (sys_map s) (sys_time s).

(** Time passes, for Redis (in milliseconds) and for the clock of the process. *)
Definition elapse (ms : Z) (s : Sys St G M) : Sys St G M :=
  MkSys (redis_advance ms (sys_redis s)) (sys_net s) (sys_ml s) (sys_map s)
    (sys_time s + ms * Millisecond).

(** Redis evicts a key to make room. *)
Definition make_room (key : string) (s : Sys St G M) : Sys St G M :=
  with_redis (redis_evict key (sys_redis s)) s.

(** One step of the process; the label lists what Redis sees of it. *)
Inductive step (e : engine_t) : process -> list event -> process -> Prop :=
| step_arrive w fs fv :
    step e (Process w fs false) [] (Process w (fs ++ [Flight fv Arrived]) false)
| step_tick w fs ms :
    0 <= ms ->
    step e (Process w fs false) [Tick ms]
      (Process (MkWorld (elapse ms (ext w)) (spawned w)) fs false)
| step_evict w fs key :
    step e (Process w fs false) [Evict key]
      (Process (MkWorld (make_room key (ext w)) (spawned w)) fs false)
| step_count w fs i fv r s' :
    fs !! i = Some (Flight fv Arrived) ->
    Decrement (redis e) (GetClientIp fv) (ext w) = (r, s') ->
    step e (Process w fs false)
      [Request (GetClientIp fv) (fst (next_delivery (sys_net (ext w))))]
      (Process (MkWorld s' (spawned w)) (<[i := Flight fv (Counted r)]> fs) false)
| step_score w fs i fv r score ver err s' :
    fs !! i = Some (Flight fv (Counted r)) ->
    Score (ml e) fv (ext w) = (Returns (score, ver, err), s') ->
    step e (Process w fs false) []
      (Process (MkWorld s' (spawned w)) (<[i := Flight fv (Scored r score)]> fs) false)
| step_panic w fs i fv r msg s' :
    fs !! i = Some (Flight fv (Counted r)) ->
    Score (ml e) fv (ext w) = (Panics msg, s') ->
    step e (Process w fs false) [] (Process (MkWorld s' (spawned w)) fs true)
| step_decide w fs i fv r score :
    fs !! i = Some (Flight fv (Scored r score)) ->
    let d := policy plat_oob (cfg e) (tokens_of r) score in
    let s' := apply_decision e (GetClientIp fv) d (ext w) in
    step e (Process w fs false) []
      (Process (MkWorld s' (spawned w ++ decision_tasks fv score d (time_now s')))
         (<[i := Flight fv (Decided r score d)]> fs) false).

Inductive steps (e : engine_t) (p : process) : list event -> process -> Prop :=
| steps_refl : steps e p [] p
| steps_snoc evs p1 evs' p2 : steps e p evs p1 -> step e p1 evs' p2 -> steps e p (evs ++ evs') p2.

(** ** Lemmas *)

Lemma steps_one e p evs p' : step e p evs p' -> steps e p evs p'.
Proof. intros Hst. rewrite <- (app_nil_l evs). eapply steps_snoc; [apply steps_refl|done]. Qed.

Lemma steps_silent e p evs p1 p2 : steps e p evs p1 -> step e p1 [] p2 -> steps e p evs p2.
Proof. intros Hs Hst. rewrite <- (app_nil_r evs). by eapply steps_snoc. Qed.

(** The replies of Redis that the flights of [ip] hold. *)
Definition flight_reply (ip : string) (f : flight) : option (Z * option error) :=
  if bool_decide (f_ip f = ip) then
    match f_phase f with
    | Arrived => None
    | Counted r | Scored r _ | Decided r _ _ => Some r
    end
  else None.

Definition counted (ip : string) (fs : list flight) : list (Z * option error) :=
  omap (flight_reply ip) fs.

(** Replacing a flight changes its contribution only. *)
Lemma counted_insert ip fs i f f' :
  fs !! i = Some f ->
  (flight_reply ip f' = flight_reply ip f -> counted ip (<[i := f']> fs) = counted ip fs) /\
  (forall r, flight_reply ip f = None -> flight_reply ip f' = Some r ->
     counted ip (<[i := f']> fs) ≡ₚ r :: counted ip fs).
Proof.
  intros Hi. unfold counted. set (g := flight_reply ip).
  assert (omap g fs = omap g (firstn i fs) ++ omap g (f :: drop (Datatypes.S i) fs)) as ->
    by (by rewrite <- omap_app, take_drop_middle).
  rewrite (insert_take_drop fs i f') by (by eapply lookup_lt_Some).
  rewrite omap_app. cbn [omap list_omap]. split; [by intros ->|].
  intros r -> ->. symmetry. apply Permutation_middle.
Qed.

Lemma run_trace_app oob c e1 e2 (s : St) :
  run_trace oob c (e1 ++ e2) s =
    let (r1, s1) := run_trace oob c e1 s in
    let (r2, s2) := run_trace oob c e2 s1 in (r1 ++ r2, s2).
Proof.
  revert s. induction e1 as [|[ip d|ms|key] e1 IH]; intros s; cbn [app run_trace].
  - by destruct (run_trace oob c e2 s).
  - destruct (Redis.Decrement oob d c ip s) as [r s1]. rewrite IH.
    destruct (run_trace oob c e1 s1) as [r1 s2]. by destruct (run_trace oob c e2 s2).
  - apply IH.
  - apply IH.
Qed.

Lemma replies_of_app ip r1 r2 : replies_of ip (r1 ++ r2) = replies_of ip r1 ++ replies_of ip r2.
Proof. unfold replies_of. by rewrite filter_app, fmap_app. Qed.

(** What Redis and the flights know agrees with the sequential trace. *)
Definition in_step (e : engine_t) (st0 : St) (evs : list event) (p : process) : Prop :=
  snd (run_trace plat_oob (redis e) evs st0) = sys_redis (ext (p_world p)) /\
  (forall ip, counted ip (p_flights p) ≡ₚ
     replies_of ip (fst (run_trace plat_oob (redis e) evs st0))) /\
  Forall (fun f => match f_phase f with
                   | Decided r score d => d = policy plat_oob (cfg e) (tokens_of r) score
                   | _ => True
                   end) (p_flights p).

Lemma apply_decision_redis (e : engine_t) ip d (s : Sys St G M) :
  sys_redis (apply_decision e ip d s) = sys_redis s.
Proof.
  unfold apply_decision. destruct (d_Action d); [done|done|].
  cbn [Engine.Add sys_blocklist]. unfold on_map. by destruct (Blocklist.Add _ _ _ _).
Qed.

Lemma Score_redis c fv (s : Sys St G M) o s' :
  Score (c : option (Ml.Client Conn)) fv s = (o, s') -> sys_redis s' = sys_redis s.
Proof.
  cbn [Score sys_scorer]. destruct (Ml.Score c fv (sys_ml s)) as [o' g]. by intros [= <- <-].
Qed.

Lemma Decrement_redis c ip (s : Sys St G M) r s' :
  Decrement c ip s = (r, s') ->
  Redis.Decrement plat_oob (fst (next_delivery (sys_net s))) c ip (sys_redis s) =
    (r, sys_redis s').
Proof.
  cbn [Decrement sys_decrementor]. destruct (next_delivery (sys_net s)) as [d net]. cbn [fst].
  destruct (Redis.Decrement plat_oob d c ip (sys_redis s)) as [r' st]. by intros [= <- <-].
Qed.

(** The counted replies do not change when no flight counts. *)
Lemma in_step_same (e : engine_t) st0 evs w w' fs fs' b b' :
  sys_redis (ext w') = sys_redis (ext w) ->
  (forall ip, counted ip fs' = counted ip fs) ->
  (Forall (fun f => match f_phase f with
                    | Decided r score d => d = policy plat_oob (cfg e) (tokens_of r) score
                    | _ => True end) fs ->
   Forall (fun f => match f_phase f with
                    | Decided r score d => d = policy plat_oob (cfg e) (tokens_of r) score
                    | _ => True end) fs') ->
  in_step e st0 evs (Process w fs b) -> in_step e st0 (evs ++ []) (Process w' fs' b').
Proof.
  intros Hr Hc Hf (H1' & H2' & H3'). rewrite app_nil_r. unfold in_step in *. cbn [p_world p_flights] in *.
  split; [congruence|]. split; [|auto]. intros ip. by rewrite Hc.
Qed.

(** What only Redis sees. *)
Lemma in_step_redis (e : engine_t) st0 evs w w' fs ev :
  (match ev with Request _ _ => False | _ => True end) ->
  sys_redis (ext w') = snd (run_trace plat_oob (redis e) [ev] (sys_redis (ext w))) ->
  in_step e st0 evs (Process w fs false) -> in_step e st0 (evs ++ [ev]) (Process w' fs false).
Proof.
  intros Hev Hr (H1' & H2' & H3'). unfold in_step. cbn [p_world p_flights] in *.
  rewrite run_trace_app. destruct (run_trace plat_oob (redis e) evs st0) as [r1 s1]. cbn [fst snd] in *.
  subst s1. destruct ev as [ip d|ms|key]; [done|..]; cbn [run_trace fst snd] in *;
    (split; [done|split; [intros ip; by rewrite app_nil_r|done]]).
Qed.

Lemma step_in_step (e : engine_t) st0 evs p evs' p' :
  in_step e st0 evs p -> step e p evs' p' -> in_step e st0 (evs ++ evs') p'.
Proof.
  intros Hin Hst.
  destruct Hst as [w fs fv|w fs ms Hms|w fs key|w fs i fv r s' Hi Hd|w fs i fv r score ver err s' Hi Hs|
                   w fs i fv r msg s' Hi Hs|w fs i fv r score Hi d s'].
  - eapply in_step_same; [done|..|exact Hin].
    + intros ip. unfold counted. rewrite omap_app. cbn. unfold flight_reply at 2. cbn.
      case_bool_decide; apply app_nil_r.
    + intros Hf. apply Forall_app. split; [done|]. by repeat constructor.
  - by eapply in_step_redis.
  - by eapply in_step_redis.
  - destruct Hin as (H1' & H2' & H3'). unfold in_step. cbn [p_world p_flights ext] in *.
    apply Decrement_redis in Hd. rewrite run_trace_app.
    destruct (run_trace plat_oob (redis e) evs st0) as [r1 s1]. cbn [fst snd] in *. subst s1.
    cbn [run_trace]. rewrite Hd. cbn [fst snd]. split; [done|]. split.
    + intros ip. rewrite replies_of_app.
      destruct (counted_insert ip fs i (Flight fv Arrived) (Flight fv (Counted r)) Hi) as [Hsame Hnew].
      unfold replies_of at 2. rewrite filter_cons. unfold flight_reply in Hsame, Hnew.
      unfold f_ip in *. cbn in *. case_bool_decide as Hip.
      * rewrite decide_True by done. cbn. rewrite (Hnew r eq_refl eq_refl), H2'.
        apply Permutation_cons_append.
      * rewrite decide_False by done. cbn. by rewrite app_nil_r, (Hsame eq_refl).
    + by apply Forall_insert.
  - eapply in_step_same; [cbn; by eapply Score_redis|..|exact Hin].
    + intros ip. by apply (counted_insert ip fs i (Flight fv (Counted r))).
    + intros Hf. by apply Forall_insert.
  - eapply in_step_same; [cbn; by eapply Score_redis|done|done|exact Hin].
  - eapply in_step_same; [cbn; by apply apply_decision_redis|..|exact Hin].
    + intros ip. by apply (counted_insert ip fs i (Flight fv (Scored r score))).
    + intros Hf. by apply Forall_insert.
Qed.

Lemma steps_in_step (e : engine_t) p0 evs p :
  p_flights p0 = [] -> steps e p0 evs p -> in_step e (sys_redis (ext (p_world p0))) evs p.
Proof.
  intros H0' Hst. induction Hst as [|evs p1 evs' p2 _ IH Hst].
  - unfold in_step. rewrite H0'. by repeat constructor.
  - by eapply step_in_step.
Qed.

(** A flight of [ip] that Redis answered and that was not blocked. *)
Definition admitted (ip : string) (f : flight) : bool :=
  bool_decide (f_ip f = ip) &&
  match f_phase f with
  | Decided (_, None) _ d => negb (bool_decide (d_Action d = ActionBlock))
  | _ => false
  end.

(** Every such flight holds a granted token. *)
Lemma admitted_granted (e : engine_t) ip fs :
  Forall (fun f => match f_phase f with
                   | Decided r score d => d = policy plat_oob (cfg e) (tokens_of r) score
                   | _ => True end) fs ->
  Z.of_nat (length (filter (fun f => admitted ip f = true) fs)) <= count_granted (counted ip fs).
Proof.
  intros Hfs. unfold counted, count_granted.
  induction Hfs as [|f fs Hf _ IH]; [done|]. cbn [omap list_omap].
  rewrite filter_cons. unfold admitted, flight_reply in *. case_bool_decide as Hip; cbn [andb].
  2:{ by rewrite decide_False. }
  destruct f as [fv [|r|r score|[n [err|]] score d]]; cbn [f_phase] in *.
  - by rewrite decide_False.
  - rewrite decide_False, filter_cons by done. case_decide; cbn [length]; lia.
  - rewrite decide_False, filter_cons by done. case_decide; cbn [length]; lia.
  - by rewrite decide_False, filter_cons, decide_False by done.
  - rewrite filter_cons. case_bool_decide as Ha; cbn [negb granted].
    + rewrite (decide_False (P := false = true)) by done. case_decide; cbn [length]; lia.
    + rewrite !decide_True; [cbn [length]; lia| |done]. apply Z.leb_le.
      destruct (Z.le_gt_cases 0 n); [done|]. exfalso. apply Ha. rewrite Hf.
      apply policy_block. right. exists n. cbn. auto.
Qed.

Lemma count_granted_perm l1 l2 : l1 ≡ₚ l2 -> count_granted l1 = count_granted l2.
Proof. intros Hp. unfold count_granted. by rewrite Hp. Qed.

(** The decision on the tokens alone. *)
Definition by_tokens (r : Z * option error) : Decision :=
  match tokens_of r with
  | Some n => if n <? 0 then MkDecision ActionBlock 0 else MkDecision ActionAllow 0
  | None => MkDecision ActionAllow 0
  end.

(** ** Properties *)

(** C28: start-up without the ML sidecar's client is not graceful.  When dialling
    fails, [main] goes on ("running without ML scoring") and returns an engine;
    but its every [Evaluate] panics on the nil client, after the request has taken
    its token from Redis, and before any decision, blocklist call or event.  When
    Redis does not answer the ping, [main] exits instead. *)
Theorem main_without_scorer env load (g g1 : G) err :
  grpc_dial (MLSidecarAddr (Load env)) g = (Err err, g1) ->
  exists e : engine_t, main env None load g = (Ok e, g1) /\ ml e = None /\
    (forall fv (w : World (Sys St G M)),
       let '(r, s') := Decrement (redis e) (GetClientIp fv) (ext w) in
       Evaluate plat_oob e fv w = (Panics nil_dereference, MkWorld s' (spawned w))) /\
    forall msg, is_ok (fst (main env (Some msg) load g)) = false.
Proof.
  intros Hdial. unfold main, Ml.New. cbn [Redis.New]. rewrite Hdial.
  eexists. split; [reflexivity|]. split; [reflexivity|]. split; [|done].
  intros fv w. pose proof (Evaluate_eq plat_oob (Engine.New (Load env) (Redis.MkClient
    (BucketSize (Load env)) (BucketTTL (Load env))) (None : option (Ml.Client Conn))
    (Kafka.New (KafkaBrokers (Load env))) (Blocklist.New load)) fv w) as E.
  destruct (Decrement _ _ (ext w)) as [r s1].
  cbn [Score sys_scorer ml Engine.New Ml.Score] in E. unfold go_panic in E.
  rewrite E. by destruct s1.
Qed.

(** C27: [Evaluate] is the run of one flight.  Executed without interleaving, the
    steps of a flight take the process from the world before the call to the world
    after it, with the decision [Evaluate] returns; Redis sees one request for the
    address.  If [Evaluate] panics, the run ends in the crashed process. *)
Theorem Evaluate_is_a_run (e : engine_t) fv (w w' : World (Sys St G M)) o fs :
  Evaluate plat_oob e fv w = (o, w') ->
  exists f b d, steps e (Process w (fs ++ [Flight fv Arrived]) false)
      [Request (GetClientIp fv) d] (Process w' (fs ++ [f]) b) /\
    match o with
    | Returns dec => b = false /\ exists r x, f_phase f = Decided r x dec
    | Panics _ => b = true
    end.
Proof.
  intros Hev. pose proof (Evaluate_eq plat_oob e fv w) as E.
  assert (forall f f', <[length fs := f']> (fs ++ [f]) = fs ++ [f']) as Hins.
  { intros f f'. rewrite insert_app_r_alt, Nat.sub_diag by done. done. }
  assert (forall f, (fs ++ [f]) !! length fs = Some f) as Hlk.
  { intros f. by rewrite lookup_app_r, Nat.sub_diag. }
  destruct (Decrement _ _ (ext w)) as [r s1] eqn:Hd. rewrite Hev in E.
  pose proof (step_count e w _ _ fv r s1 (Hlk _) Hd) as St1. rewrite Hins in St1.
  destruct (Score (ml e) fv s1) as [[[[x ver] err]|msg] s2] eqn:Hs; injection E as -> ->.
  - pose proof (step_score e (MkWorld s1 (spawned w)) _ _ fv r x ver err s2 (Hlk _) Hs) as St2.
    rewrite Hins in St2.
    pose proof (step_decide e (MkWorld s2 (spawned w)) _ _ fv r x (Hlk _)) as St3.
    cbn zeta in St3. rewrite Hins in St3.
    exists (Flight fv (Decided r x (policy plat_oob (cfg e) (tokens_of r) x))), false,
      (fst (next_delivery (sys_net (ext w)))).
    split; [|split; [reflexivity|do 2 eexists; reflexivity]].
    exact (steps_silent _ _ _ _ _ (steps_silent _ _ _ _ _ (steps_one _ _ _ _ St1) St2) St3).
  - pose proof (step_panic e (MkWorld s1 (spawned w)) _ _ fv r msg s2 (Hlk _) Hs) as St2.
    exists (Flight fv (Counted r)), true, (fst (next_delivery (sys_net (ext w)))). split; [|reflexivity].
    exact (steps_silent _ _ _ _ _ (steps_one _ _ _ _ St1) St2).
Qed.

(** A client that was dialled never panics. *)
Lemma client_never_panics (e : engine_t) : ml e <> None -> never_panics e.
Proof.
  intros Hml fv s. destruct (ml e) as [c|]; [|done]. cbn [Score sys_scorer].
  destruct (stub_Score (scorer c) callDeadline fv (sys_ml s)) as [[resp [err|]] g'] eqn:E;
    unfold Ml.Score; go_unfold; rewrite E; cbn; eauto.
Qed.

Section Limits.
Context `{!RedisLaws St}.

(** C1: the limit holds under concurrency.  However the goroutines of any number
    of requests interleave, whatever the scores, and whatever replies the network
    loses: of the requests of one address that Redis answered, at most
    [bucketSize] are not blocked until the address has been silent for longer than
    the TTL, and another [bucketSize] for every time that Redis evicts the bucket of
    the address to make room (requests for which Redis failed are let through). *)
Theorem concurrent_admission_bounded (e : engine_t) ip evs p0 p :
  client_ok plat_oob (redis e) -> 0 <= bucketSize (redis e) ->
  well_formed (sys_redis (ext (p_world p0))) ->
  represents (sys_redis (ext (p_world p0))) (bucket_key ip) None ->
  p_flights p0 = [] -> steps e p0 evs p ->
  no_silence (ttl_arg plat_oob (redis e) * 1000) ip None evs = true ->
  Z.of_nat (length (filter (fun f => admitted ip f = true) (p_flights p)))
    <= bucketSize (redis e) * (1 + Z.of_nat (evictions ip evs)).
Proof.
  intros Hc Hcap Hwf Hrep H0' Hst Hns.
  destruct (steps_in_step e p0 evs p H0' Hst) as (_ & Hperm & Hdec).
  pose proof (admitted_granted e ip _ Hdec) as Hle.
  rewrite (count_granted_perm _ _ (Hperm ip)) in Hle.
  etrans; [exact Hle|].
  etrans; [apply (run_trace_budget plat_oob (redis e) Hc ip evs None _ (bucketSize (redis e)));
    [done..| |done]|lia].
  split; [done|]. cbn. lia.
Qed.

(** The requests of a trace are of one address. *)
Definition only_from (ip : string) (evs : list event) : Prop :=
  Forall (fun ev => match ev with Request ip' _ => ip' = ip | _ => True end) evs.

Lemma replies_only ip oob c evs (s : St) :
  only_from ip evs -> snd <$> fst (run_trace oob c evs s) = replies_of ip (fst (run_trace oob c evs s)).
Proof.
  intros Hip. revert s. induction Hip as [|[ip' d|ms|key] evs Hev _ IH]; intros s; [done| |apply IH|apply IH].
  subst ip'. rewrite run_trace_request. cbn [fst fmap list_fmap]. rewrite IH.
  unfold replies_of at 2. rewrite filter_cons. cbn [fst]. by rewrite decide_True.
Qed.

(** The decisions on the tokens of a new address. *)
Lemma trace_countdown (e : engine_t) ip evs (s : St) :
  client_ok plat_oob (redis e) -> 0 < bucketSize (redis e) ->
  well_formed s -> represents s (bucket_key ip) None ->
  no_silence (ttl_arg plat_oob (redis e) * 1000) ip None evs = true -> forallb (clean ip) evs = true ->
  only_from ip evs ->
  (fun r => by_tokens (snd r)) <$> fst (run_trace plat_oob (redis e) evs s) =
  (fun k => MkDecision (if k <? bucketSize (redis e) then ActionAllow else ActionBlock) 0) <$> spent ip 0 evs.
Proof.
  intros Hc Hcap Hwf Hrep Hns Hcl Hip.
  etrans; [exact (list_fmap_compose snd by_tokens _)|]. rewrite (replies_only ip) by done.
  rewrite (run_trace_countdown plat_oob (redis e) Hc ip _ None _ 0);
    [|lia|lia|done|split; [done|cbn; lia]|done|done].
  rewrite <- list_fmap_compose. apply list_fmap_ext. intros _ k _. cbn.
  unfold by_tokens, reply_after. cbn [tokens_of]. destruct (Z.ltb_spec k (bucketSize (redis e))); [|done].
  destruct (Z.ltb_spec (bucketSize (redis e) - 1 - k) 0); [lia|done].
Qed.
End Limits.
End Implementations.
Arguments process : clear implicits.
Arguments engine_t : clear implicits.

(** ** Witnesses: a process over the in-memory collaborators *)

Module Demo.
#[global] Instance platform : Platform :=
  {| plat_endian := LittleEndian; plat_oob := amd64_oob |}.

Definition sys : Type := Sys MemRedis.t MockGrpc.t LruMap.t.

Definition env (key : string) : string := if bool_decide (key = "BUCKET_SIZE") then "2" else "".
Definition load (_ : string) : result unit := Err "no such file".

(** A sidecar that finds nothing unusual, and one that cannot be dialled. *)
Definition sidecar : MockGrpc.t := MockGrpc.Mock None (Ok (MkScoreResponse f_zero "v1")) [].
Definition no_sidecar : MockGrpc.t := MockGrpc.Mock (Some "refused") (Err "unreachable") [].

Definition e : engine_t string :=
  Engine.New (Load env) (Redis.MkClient 2 (60 * Second))
    (Some (Ml.MkClient "localhost:50051" (NewMLScorerClient "localhost:50051")))
    (Kafka.New ["localhost:9092"]) (Blocklist.New load).

Definition vector : FeatureVector :=
  MkFeatureVector "1.2.3.4" "none" "ua" f_zero f_zero f_zero "GET" "u" 0 5 0 0.

Definition w0 : World sys := MkWorld (MkSys MemRedis.empty [] sidecar LruMap.blocked_ips 0) [].

Definition policy0 (r : Z * option error) : Decision :=
  policy amd64_oob (Load env) (tokens_of r) f_zero.

(** Two requests of one address: the second is counted first and decided last. *)
Definition w1 : World sys := MkWorld (snd (Decrement (redis e) "1.2.3.4" (ext w0))) [].
Definition w2 : World sys := MkWorld (snd (Decrement (redis e) "1.2.3.4" (ext w1))) [].
Definition w3 : World sys := MkWorld (snd (Score (ml e) (Some vector) (ext w2))) [].

Definition at_ (ph1 ph2 : phase) : list flight :=
  [Flight (Some vector) ph1; Flight (Some vector) ph2].

Definition p0 : process MemRedis.t MockGrpc.t LruMap.t := Process w0 [] false.
Definition p : process MemRedis.t MockGrpc.t LruMap.t :=
  Process (MkWorld (ext w3) (decision_tasks (Some vector) f_zero (policy0 (0, None)) 0))
    (at_ (Decided (0, None) f_zero (policy0 (0, None))) (Counted (1, None))) false.

Lemma run : steps e p0 [Request "1.2.3.4" (Reply 0); Request "1.2.3.4" (Reply 0)] p.
Proof.
  refine (steps_silent _ _ _ (Process w3 (at_ (Scored (0, None) f_zero) (Counted (1, None))) false) _ _ _).
  2: exact (step_decide e w3 (at_ (Scored (0, None) f_zero) (Counted (1, None))) 0%nat (Some vector) (0, None) f_zero eq_refl).
  refine (steps_silent _ _ _ (Process w2 (at_ (Counted (0, None)) (Counted (1, None))) false) _ _ _).
  2: exact (step_score e w2 (at_ (Counted (0, None)) (Counted (1, None))) 0%nat (Some vector) (0, None) f_zero "v1" None (ext w3) eq_refl eq_refl).
  refine (steps_snoc _ _ [_] (Process w1 (at_ Arrived (Counted (1, None))) false) [_] _ _ _).
  2: exact (step_count e w1 (at_ Arrived (Counted (1, None))) 0%nat (Some vector) (0, None) (ext w2) eq_refl eq_refl).
  refine (steps_snoc _ _ [] (Process w0 (at_ Arrived Arrived) false) [_] _ _ _).
  2: exact (step_count e w0 (at_ Arrived Arrived) 1%nat (Some vector) (1, None) (ext w1) eq_refl eq_refl).
  exact (steps_silent _ _ _ _ _ (steps_one _ _ _ _ (step_arrive e w0 [] (Some vector)))
           (step_arrive e w0 [Flight (Some vector) Arrived] (Some vector))).
Qed.

Lemma client_fine : client_ok amd64_oob (redis e).
Proof. split; [unfold cap_ok; cbn; lia|]. split; vm_compute; congruence. Qed.

End Demo.

Lemma main_without_scorer_witness :
  exists e : engine_t string, main Demo.env None Demo.load Demo.no_sidecar = (Ok e, Demo.no_sidecar) /\
    fst (Evaluate plat_oob e (Some Demo.vector) Demo.w0) = Panics nil_dereference.
Proof.
  destruct (main_without_scorer (St := MemRedis.t) (Conn := string) (M := LruMap.t) Demo.env
    Demo.load Demo.no_sidecar Demo.no_sidecar "refused") as (e & Hmain & _ & Hpanic & _);
    [reflexivity|].
  exists e. split; [exact Hmain|]. specialize (Hpanic (Some Demo.vector) Demo.w0).
  destruct (Decrement _ _ _) as [r s'] in Hpanic. exact (f_equal fst Hpanic).
Defined.

Lemma Evaluate_is_a_run_witness :
  exists f b d,
    steps Demo.e (Process Demo.w0 ([] ++ [Flight (Some Demo.vector) Arrived]) false)
      [Request "1.2.3.4" d]
      (Process (snd (Evaluate plat_oob Demo.e (Some Demo.vector) Demo.w0)) ([] ++ [f]) b) /\
    b = false.
Proof.
  destruct (Evaluate_is_a_run Demo.e (Some Demo.vector) Demo.w0
    (snd (Evaluate plat_oob Demo.e (Some Demo.vector) Demo.w0))
    (Returns (MkDecision ActionAllow 0)) []) as (f & b & d & Hst & Hb & _).
  - vm_compute. reflexivity.
  - exists f, b, d. split; [exact Hst|exact Hb].
Defined.

(** The bucket is evicted at the end. *)
Lemma concurrent_admission_bounded_witness :
  Z.of_nat (length (filter (fun f => admitted "1.2.3.4" f = true) (p_flights Demo.p))) <= 2 * (1 + 1).
Proof.
  refine (concurrent_admission_bounded Demo.e "1.2.3.4"
    ([Request "1.2.3.4" (Reply 0); Request "1.2.3.4" (Reply 0)] ++ [Evict (bucket_key "1.2.3.4")]) Demo.p0
    (Process (MkWorld (make_room (bucket_key "1.2.3.4") (ext (p_world Demo.p))) (spawned (p_world Demo.p)))
       (p_flights Demo.p) false)
    Demo.client_fine _ mem_empty_well_formed (mem_empty_fresh "1.2.3.4") eq_refl _ _).
  - cbn. lia.
  - exact (steps_snoc _ _ _ _ _ _ Demo.run (step_evict _ _ _ _)).
  - vm_compute. reflexivity.
Defined.
