(* ===== verification/Scoring.v ===== *)
(** * The engine and the sidecar together

    The Python servicer behind the Go client: an instance of [Grpc] that runs
    [Sidecar.servicer_Score], and what the engine's policy makes of its scores. *)

From S2P Require Import Prelude GoNet GoFloat GoText FloatOrder Json GoJson GoPrint Http Redis TokenBucket Config.
From S2P Require Import Ml Sidecar Wire Kafka Engine BpfMap Blocklist Server System.

(** How a call fares: it is answered, or it fails on the network (the deadline, a lost
    connection), the sidecar having run it or not. *)
Inductive fate := Delivered | Lost (ran : bool) (e : error).

(** The sidecar as the client sees it; when [fates] is used up calls are answered. *)
Record Peer (V St Forest Session : Type) := MkPeer {
  peer_scorer : Scorer Forest Session; peer_st : St; peer_fates : list fate
}.
Arguments MkPeer {V St Forest Session}.
Arguments peer_scorer {V St Forest Session}.
Arguments peer_st {V St Forest Session}.
Arguments peer_fates {V St Forest Session}.

Definition next_fate (l : list fate) : fate * list fate :=
  match l with [] => (Delivered, []) | f :: l => (f, l) end.

Section Sidecar.
Context {St V Forest Session : Type}.
Context `{PyRedis V St, Codecs V Forest, Numpy, Sklearn Forest, Onnx Session}.

(** One unary call.  A nil message is sent as an empty one; a method other than the
    service's is not implemented; an exception is a status. *)
Definition call (method : string) (fv : option FeatureVector) (g : Peer V St Forest Session)
    : result ScoreResponse * Peer V St Forest Session :=
  let (f, fates) := next_fate (peer_fates g) in
  let run :=
    if bool_decide (method = "/scorer.MLScorer/Score")
    then servicer_Score (peer_scorer g) (default zero_FeatureVector fv)
    else fun st => (Err "rpc error: code = Unimplemented", st) in
  match f with
  | Delivered =>
      let (r, st) := run (peer_st g) in
      (wrap_err "rpc error: code = Unknown desc" r, MkPeer (peer_scorer g) st fates)
  | Lost ran e =>
      (Err e, MkPeer (peer_scorer g) (if ran : bool then snd (run (peer_st g)) else peer_st g) fates)
  end.

#[global] Instance sidecar_grpc : Grpc string (Peer V St Forest Session) := {|
  grpc_dial addr g := (Ok addr, g);
  grpc_invoke conn timeout method fv g := call method fv g;
  grpc_close conn g := (None, g)
|}.
End Sidecar.

(** ** Lemmas *)

Section Engine.
Context `{Platform} {RSt M St V Forest Session : Type} `{RedisLaws RSt, BpfMap M}.
Context `{PyRedisLaws V St, CodecLaws V Forest, NumpyLaws, ModelLaws Forest Session}.

Local Abbreviation peer := (Peer V St Forest Session).
Local Abbreviation world := (World (Sys RSt peer M)).

(** The sidecar has no LSTM file. *)
Definition no_lstm (g : peer) : Prop := session (lstm (peer_scorer g)) = None.

Lemma call_no_lstm method fv (g g' : peer) r :
  no_lstm g -> call method fv g = (r, g') ->
  no_lstm g' /\ forall resp, r = Ok resp -> f_gt (AnomalyScore resp) f32_08 = false.
Proof.
  unfold no_lstm, call. intros Hg. destruct (next_fate (peer_fates g)) as [[|ran e] fates].
  2:{ intros [= <- <-]. done. }
  case_bool_decide; [|intros [= <- <-]; done].
  destruct (servicer_Score _ _ _) as [[resp|e] st] eqn:Es; intros [= <- <-]; (split; [done|]);
    intros resp' [= <-].
  by destruct (score_bounds _ _ _ _ _ Es) as (_ & _ & H08 & _); apply H08.
Qed.

(** 0.8 is below the default threshold for blocking. *)
Lemma below_block x : f_gt x f32_08 = false -> f_gt x (f64_to_f32 defaultBlock) = false.
Proof.
  intros Hx. destruct (f_gt x (f64_to_f32 defaultBlock)) eqn:E; [|done].
  rewrite (f_gt_trans _ _ _ E) in Hx; [done|reflexivity].
Qed.

Lemma client_mild (c : Ml.Client string) fv (g : peer) :
  no_lstm g -> exists x ver err g', Ml.Score (Some c) fv g = (Returns (x, ver, err), g') /\
    no_lstm g' /\ f_gt x (f64_to_f32 defaultBlock) = false.
Proof.
  intros Hg. unfold Ml.Score, stub_Score, mbind, go_bind, go_lift. cbn [grpc_invoke sidecar_grpc].
  destruct (call MLScorer_Score_FullMethodName fv g) as [r g'] eqn:Ec.
  destruct (call_no_lstm _ _ _ _ _ Hg Ec) as [Hg' Hr].
  destruct r as [resp|e]; do 4 eexists; (split; [reflexivity|split; [done|]]); [|done].
  by apply below_block, Hr.
Qed.

Definition blocks (d : Decision) : bool := bool_decide (d_Action d = ActionBlock).

(** Such scores leave the blocking to the tokens. *)
Lemma policy_mild oob c tokens x :
  f_gt x (f64_to_f32 (ScoreBlockThreshold c)) = false ->
  blocks (policy oob c tokens x) = match tokens with Some n => n <? 0 | None => false end.
Proof.
  unfold policy, blocks. intros ->. cbn [orb]. destruct (match tokens with Some n => n <? 0 | None => false end); [done|].
  by case_match.
Qed.

Lemma Evaluate_mild (e : engine_t string) c fv (w : world) :
  ml e = Some c -> ScoreBlockThreshold (cfg e) = defaultBlock -> no_lstm (sys_ml (ext w)) ->
  exists d w', Evaluate plat_oob e fv w = (Returns d, w') /\
    no_lstm (sys_ml (ext w')) /\
    blocks d = match tokens_of (fst (Decrement (redis e) (GetClientIp fv) (ext w))) with
               | Some n => n <? 0 | None => false
               end /\
    sys_redis (ext w') = sys_redis (snd (Decrement (redis e) (GetClientIp fv) (ext w))) /\
    sys_net (ext w') = sys_net (snd (Decrement (redis e) (GetClientIp fv) (ext w))) /\
    sys_time (ext w') = sys_time (ext w) /\
    exists tokens x, d = policy plat_oob (cfg e) tokens x /\
      f_gt x (f64_to_f32 defaultBlock) = false.
Proof.
  intros Hml Hthr Hg. pose proof (Evaluate_eq plat_oob e fv w) as E.
  destruct (Decrement (redis e) (GetClientIp fv) (ext w)) as [r s1] eqn:Ed.
  assert (sys_ml s1 = sys_ml (ext w) /\ sys_time s1 = sys_time (ext w)) as [Hs1 Ht1].
  { cbn in Ed. destruct (next_delivery _) as [dl net].
    destruct (Redis.Decrement _ _ _ _ _) as [r' st]. by injection Ed as _ <-. }
  cbn [Score sys_scorer] in E. rewrite Hml, Hs1 in E.
  destruct (client_mild c fv _ Hg) as (x & ver & err & g' & Es & Hg' & Hx). rewrite Es in E.
  do 2 eexists. split; [exact E|]. cbn [ext fst snd]. rewrite policy_mild by (by rewrite Hthr).
  unfold apply_decision. destruct (d_Action _); [by eauto 10..|]. cbn. unfold on_map.
  destruct (Blocklist.Add _ _ _ _). by eauto 10.
Qed.

(** Over any trace without long silences, the tokens of a new address block what comes
    after [bucketSize] others since its bucket was evicted last. *)
Lemma trace_blocks (e : engine_t string) ip evs (st : RSt) :
  client_ok plat_oob (redis e) -> 0 < bucketSize (redis e) ->
  well_formed st -> represents st (bucket_key ip) None ->
  no_silence (ttl_arg plat_oob (redis e) * 1000) ip None evs = true -> forallb (clean ip) evs = true ->
  only_from ip evs ->
  (fun r => blocks (by_tokens (snd r))) <$> fst (run_trace plat_oob (redis e) evs st) =
  (fun k => bucketSize (redis e) <=? k) <$> spent ip 0 evs.
Proof.
  intros Hc Hcap Hwf Hrep Hns Hcl Hip.
  etrans; [exact (list_fmap_compose (fun r => by_tokens (snd r)) blocks _)|].
  rewrite (trace_countdown e ip), <- list_fmap_compose by done.
  apply list_fmap_ext. intros _ k _. unfold blocks. cbn.
  destruct (Z.ltb_spec k (bucketSize (redis e))); case_bool_decide; lia || done.
Qed.

(** ** Properties *)

(** C5: the score alone never blocks.  With the default threshold and the sidecar of
    the repository, whose LSTM file is missing, the engine answers every request
    without a panic, and it blocks exactly when the bucket of the address is
    exhausted: whatever the forests find, whatever is in the sidecar's Redis,
    whatever calls are lost.  "block if the score exceeds 0.85" cannot happen. *)
Theorem block_means_exhausted (e : engine_t string) c fv (w : world) :
  ml e = Some c -> ScoreBlockThreshold (cfg e) = defaultBlock -> no_lstm (sys_ml (ext w)) ->
  exists d w', Evaluate plat_oob e fv w = (Returns d, w') /\ no_lstm (sys_ml (ext w')) /\
    (d_Action d = ActionBlock <->
     exists n, fst (Decrement (redis e) (GetClientIp fv) (ext w)) = (n, None) /\ n < 0).
Proof.
  intros Hml Hthr Hg. destruct (Evaluate_mild e c fv w Hml Hthr Hg) as (d & w' & E & Hg' & Hd & _).
  exists d, w'. split; [done|]. split; [done|]. rewrite <- (bool_decide_eq_true (_ = _)).
  fold (blocks d). rewrite Hd. destruct (fst (Decrement _ _ _)) as [n [err|]]; cbn [tokens_of].
  - split; [done|]. by intros (n' & [=] & _).
  - rewrite Z.ltb_lt. split; [by exists n|]. by intros (n' & [= <-] & ?).
Qed.

End Engine.

(** ** Witnesses: the shipped sidecar, whose forest finds everything anomalous *)

Module ScoringDemo.
Definition g : Peer MemPy.bytes MemPy.t float64 float32 :=
  MkPeer MemPy.shipped MemPy.empty [Delivered; Lost true "deadline exceeded"].
Definition w0 : World (Sys MemRedis.t (Peer MemPy.bytes MemPy.t float64 float32) LruMap.t) :=
  MkWorld (MkSys MemRedis.empty [] g LruMap.blocked_ips 0) [].
Definition e : engine_t string := Demo.e.
Definition client : Ml.Client string := Ml.MkClient "localhost:50051" (NewMLScorerClient "localhost:50051").
End ScoringDemo.

Lemma block_means_exhausted_witness :
  exists d w', Evaluate plat_oob ScoringDemo.e (Some demo_vector) ScoringDemo.w0 = (Returns d, w') /\
    d = MkDecision ActionThrottle 96 /\ d_Action d <> ActionBlock.
Proof.
  destruct (block_means_exhausted ScoringDemo.e ScoringDemo.client (Some demo_vector) ScoringDemo.w0)
    as (d & w' & E & _ & Hb); [reflexivity..|].
  exists d, w'. split; [exact E|]. split.
  - apply (f_equal fst) in E. vm_compute in E. by injection E as <-.
  - intros Hd%Hb. vm_compute in Hd. by destruct Hd as (n & [= <-] & Hn).
Defined.
