(* ===== verification/Nginx.v ===== *)
(** * nginx and the decision engine together

    The Lua scripts of nginx over a socket whose other end is [handleConn] with its
    200 ms deadline, one request at a time: an instance of the classes of
    [Fingerprint] that runs the engine.  From the request's variables to its status. *)

From S2P Require Import Prelude GoNet GoFloat GoText Json GoJson GoPrint GoStruct Counter Fingerprint.
From S2P Require Import Redis TokenBucket Config Ml Sidecar Wire Kafka Engine BpfMap Blocklist Server Deadline.
From S2P Require Import System Scoring.

(** ** The machine *)

(** [f_pool] is the accept time of the connection kept for reuse, [f_conn] that of the
    connection in use, [f_out] what has been sent on it.  [f_up] says that the engine's
    process runs. *)
Record front (D W : Type) := Front {
  f_dict : D; f_world : World W; f_pool : option Z; f_conn : option Z; f_out : string;
  f_read_timeout : Z; f_up : bool
}.
Arguments Front {D W}.
Arguments f_dict {D W}.
Arguments f_world {D W}.
Arguments f_pool {D W}.
Arguments f_conn {D W}.
Arguments f_out {D W}.
Arguments f_read_timeout {D W}.
Arguments f_up {D W}.

Section Front.
Context {D R X B W : Type}.
Context `{SharedDict D, RedisDecrementor R W, MLScorer X W, Engine.Blocklist B W, Clock W}.
Variable oob : spec_float -> Z.
Variable e : Engine R X B.
Variable md5 : string -> string.

Definition f_now (f : front D W) : Z := time_now (ext (f_world f)).

Definition with_dict (d : D) (f : front D W) : front D W :=
  Front d (f_world f) (f_pool f) (f_conn f) (f_out f) (f_read_timeout f) (f_up f).

Definition front_dict : SharedDict (front D W) := {|
  dict_now f := dict_now (f_dict f);
  dict_live f := dict_live (f_dict f);
  dict_incr k n init ttl f :=
    let (r, d) := dict_incr k n init ttl (f_dict f) in (r, with_dict d f);
  dict_get k f := dict_get k (f_dict f);
  dict_advance ms f := with_dict (dict_advance ms (f_dict f)) f
|}.

(** A pooled connection that the engine has not closed yet is used again. *)
Definition connect (f : front D W) : (bool * option string) * front D W :=
  if f_up f then
    let t0 := match f_pool f with
              | Some t => if f_now f <? t + connDeadline then t else f_now f
              | None => f_now f
              end in
    ((true, None), Front (f_dict f) (f_world f) None (Some t0) "" (f_read_timeout f) true)
  else ((false, Some "connection refused"), f).

(** The engine serves what it was sent; its answer counts if it is there before the
    read times out. *)
Definition receive (f : front D W) : (option string * option string) * front D W :=
  match f_conn f with
  | None => ((None, Some "closed"), f)
  | Some t0 =>
      match timed_lines oob e (t0 + connDeadline) (tokens (f_out f)) (MkConn (f_world f) []) with
      | (Panics _, c) =>
          ((None, Some "closed"), Front (f_dict f) (world c) None None "" (f_read_timeout f) false)
      | (Returns _, c) =>
          let f' := Front (f_dict f) (world c) (f_pool f) (f_conn f) "" (f_read_timeout f) (f_up f) in
          if now c <=? f_now f + f_read_timeout f * Millisecond then
            match cut_line (String.concat "" (sent c)) with
            | (line, Some _) => ((Some line, None), f')
            | (_, None) => ((None, Some "closed"), f')
            end
          else ((None, Some "timeout"), f')
      end
  end.

Definition front_socket : Cosocket (front D W) := {|
  sock_settimeouts c s r f :=
    Front (f_dict f) (f_world f) (f_pool f) (f_conn f) (f_out f) r (f_up f);
  sock_connect _ f := connect f;
  sock_send text f :=
    ((Some (Z.of_nat (String.length text)), None),
     Front (f_dict f) (f_world f) (f_pool f) (f_conn f) (f_out f +:+ text) (f_read_timeout f) (f_up f));
  sock_receive _ f := receive f;
  sock_close f := Front (f_dict f) (f_world f) (f_pool f) None "" (f_read_timeout f) (f_up f);
  sock_setkeepalive _ _ f :=
    Front (f_dict f) (f_world f) (f_conn f) None "" (f_read_timeout f) (f_up f)
|}.

Definition front_ngx : Ngx (front D W) := {|
  ngx_time f := f_now f / Second;
  ngx_md5 := md5
|}.

Context `{Cjson, LuaNumbers}.
Variable table_name : lua_table -> string.

(** A request that nginx serves. *)
Definition visit (r : Fingerprint.request) : io (front D W) verdict :=
  @access (front D W) front_dict front_socket front_ngx _ _ table_name r.

Fixpoint visits (rs : list Fingerprint.request) (f : front D W) : list (result verdict) * front D W :=
  match rs with
  | [] => ([], f)
  | r :: rs => let (v, f) := visit r f in let (vs, f) := visits rs f in (v :: vs, f)
  end.

(** ** Requests and vectors *)

(** The vector of a request. *)
Definition vector_of (r : Fingerprint.request) (cl : Z) (f : front D W) : FeatureVector :=
  let ip := or_else (remote_addr r) "0.0.0.0" in
  let rates := get_rates ip (f_dict f) in
  let ua := field_of "user-agent" (headers r) in
  let proto := or_else (server_protocol r) "" in
  MkFeatureVector ip (or_else (http_x_ja3_hash r) (or_else (ssl_ja3_hash r) "none"))
    (md5 (if lua_true ua then lua_tostring table_name ua else ""))
    (f64_of_Z (req_rate_1s rates)) (f64_of_Z (req_rate_10s rates)) (f64_of_Z (req_rate_60s rates))
    (or_else (request_method r) "GET") (md5 (or_else (uri r) "/"))
    cl (Z.of_nat (length (headers r)))
    (if bool_decide (proto = "HTTP/2.0") || bool_decide (proto = "HTTP/2") then 1 else 0)
    (f_now f / Second).

(** What the scripts can send on unchanged: ASCII texts and numbers of at most 14
    digits. *)
Record sendable (r : Fingerprint.request) (cl : Z) (f : front D W) : Prop := {
  send_ascii : ascii_vector (vector_of r cl f);
  send_length : or_else (tonumber (field_of "content-length" (headers r))) (f64_of_Z 0) = f64_of_Z cl;
  send_cl : 0 <= cl < 10 ^ 14;
  send_headers : Z.of_nat (length (headers r)) < 2 ^ 31;
  send_time : 0 <= f_now f / Second < 10 ^ 14;
  send_rates : rates_within (10 ^ 14 - 1) (get_rates (or_else (remote_addr r) "0.0.0.0") (f_dict f))
}.

(** A decision as nginx carries it out. *)
Definition verdict_of (d : Decision) : verdict :=
  match d_Action d with
  | ActionAllow => Continue
  | ActionThrottle => Exit 429 (Some (f64_of_Z (d_RetryAfter d)))
  | ActionBlock => Exit 403 None
  end.
End Front.

(** ** Lemmas *)

Lemma f64_of_Z_finite z : - 2 ^ 53 < z < 2 ^ 53 -> is_finite (f64_of_Z z) = true.
Proof. intros Hz. apply f64_of_Z_trunc in Hz. by destruct (f64_of_Z z). Qed.

Lemma denotes_pretty z : 0 <= z < 2 ^ 53 -> denotes (to_text (pretty z)) (f64_of_Z z).
Proof.
  intros Hz. split; [apply number_literal_pretty|]. by rewrite of_to_text, ParseFloat_pretty.
Qed.

Lemma length_to_text s : length (to_text s) = String.length s.
Proof. induction s as [|c s IH]; [done|]. cbn. by f_equal. Qed.

Lemma number_length z : 0 <= z < 10 ^ 14 -> (length (print (VNumber (to_text (pretty z)))) <= 50)%nat.
Proof.
  intros Hz. cbn [print]. rewrite length_to_text.
  assert (pretty z = pretty (Z.to_N z)) as -> by (destruct z; done || lia).
  pose proof (pretty_length 13 (Z.to_N z) ltac:(lia)). lia.
Qed.

(** The engine's answer as nginx reads it. *)
Definition decision_members (d : Decision) : list (text * jvalue) :=
  [(to_text "action", VString (to_text (action_text (d_Action d))));
   (to_text "retry_after", VNumber (to_text (pretty (d_RetryAfter d))))].

Lemma marshal_parse d : parse (to_text (marshal_Decision d)) = Some (VObject (decision_members d)).
Proof.
  assert (to_text (marshal_Decision d) = print (VObject (decision_members d))) as ->.
  { unfold marshal_Decision, decision_members. cbn [print map join fst snd].
    rewrite !to_text_app. by destruct (d_Action d). }
  apply parse_whole; [|done]. apply printable_object. unfold decision_members.
  repeat apply Forall_cons_2; [..|apply Forall_nil_2]; (split; [by repeat constructor|]); cbn [snd printable].
  - destruct (d_Action d); by repeat constructor.
  - apply number_literal_pretty.
Qed.

Lemma act_decision `{CjsonLaws, LuaNumbers} d :
  0 <= d_RetryAfter d < 2 ^ 53 -> act (marshal_Decision d) = Ok (verdict_of d).
Proof.
  intros Hd. destruct (decode_law _ _ (marshal_parse d)) as (t & Ht & Htext & Hnum).
  { apply (bool_decide_unpack _). vm_compute. exact I. }
  unfold act. rewrite Ht. cbn [fst lua_true negb index mbind result_bind].
  rewrite (Htext "action" (action_text (d_Action d))) by apply list_elem_of_here.
  rewrite (Hnum "retry_after" (d_RetryAfter d)); [|apply list_elem_of_further, list_elem_of_here|done].
  unfold verdict_of. by destruct (d_Action d).
Qed.

Lemma answer_line d : cut_line (response_text d) = (marshal_Decision d, Some "").
Proof.
  unfold response_text. apply cut_line_app. unfold marshal_Decision.
  rewrite !has_char_app, pretty_no_newline. by destruct (d_Action d).
Qed.

Section Lemmas.
Context {D R X B W : Type}.
Context `{SharedDict D, RedisDecrementor R W, MLScorer X W, Engine.Blocklist B W, Clock W}.
Context `{CjsonLaws, LuaNumbers}.
Variable oob : spec_float -> Z.
Variable e : Engine R X B.
Variable md5 : string -> string.
Variable table_name : lua_table -> string.

Local Abbreviation front := (front D W).
Local Abbreviation vector := (vector_of md5 table_name).

Lemma vector_members r cl (f : front) :
  sendable md5 table_name r cl f ->
  let rates := get_rates (or_else (remote_addr r) "0.0.0.0") (f_dict f) in
  Forall2 member_json (@build_vector front front_dict (front_ngx md5) _ table_name r f)
    (payload (to_text (pretty (req_rate_1s rates))) (to_text (pretty (req_rate_10s rates)))
             (to_text (pretty (req_rate_60s rates))) (vector r cl f)).
Proof.
  intros [(Ha1 & Ha2 & Ha3 & Ha4 & Ha5) Hlen Hcl Hh Ht (Hr1 & Hr10 & Hr60)]. cbv zeta.
  unfold build_vector, payload. rewrite Hlen. cbn [fmap list_fmap].
  repeat apply Forall2_cons_2; [..|apply Forall2_nil_2];
    first [apply member_text; [by repeat constructor|assumption]
          |apply member_number; [by repeat constructor|]].
  - lia.
  - lia.
  - lia.
  - exact Hcl.
  - cbn. lia.
  - cbn. by destruct (_ || _).
  - exact Ht.
Qed.

Lemma vector_holds r cl (f : front) kvs :
  sendable md5 table_name r cl f ->
  let rates := get_rates (or_else (remote_addr r) "0.0.0.0") (f_dict f) in
  kvs ≡ₚ payload (to_text (pretty (req_rate_1s rates))) (to_text (pretty (req_rate_10s rates)))
             (to_text (pretty (req_rate_60s rates))) (vector r cl f) ->
  holds kvs (vector r cl f).
Proof.
  intros [Ha _ Hcl Hh Ht (Hr1 & Hr10 & Hr60)]. cbv zeta. intros Hperm. split.
  - unfold typed, vector_of.
    cbn [ReqRate_1S ReqRate_10S ReqRate_60S ContentLength HeaderCount IsHttp2 UnixTimestamp].
    rewrite !f64_of_Z_finite by lia. unfold fits. split_and!; try done; try lia.
    by destruct (_ || _).
  - do 3 eexists. exists []. split_and!; [apply denotes_pretty; lia..|done|by rewrite app_nil_r].
Qed.

(** One line on a connection. *)
Lemma exchange line fv d w w' t0 :
  Unmarshal line = Some fv -> Evaluate oob e (Some fv) w = (Returns d, w') ->
  timed_lines oob e (t0 + connDeadline) [line] (MkConn w []) =
    (Returns tt, MkConn w' (if time_now (ext w') <? t0 + connDeadline then [response_text d] else [])).
Proof.
  intros Hu He. cbn [timed_lines]. unfold timed_line, handle_line, mbind, go_bind. cbn [world sent].
  rewrite Hu. unfold call_engine. cbn [world]. rewrite He. unfold writeResponse, go_modify. cbn.
  unfold now. cbn. by destruct (_ <? _).
Qed.

(** The accept time of the connection that the next request uses. *)
Definition conn_start (f : front) : Z :=
  match f_pool f with
  | Some t => if f_now f <? t + connDeadline then t else f_now f
  | None => f_now f
  end.

(** The answer is written before the deadline and read before the timeout. *)
Definition in_time (f : front) (t1 : Z) : bool :=
  (t1 <? conn_start f + connDeadline) && (t1 <=? f_now f + READ_TIMEOUT * Millisecond).

Definition after_answer (f : front) (d : D) (w : World W) : front :=
  Front d w (Some (conn_start f)) None "" READ_TIMEOUT true.
Definition after_silence (f : front) (d : D) (w : World W) : front :=
  Front d w None None "" READ_TIMEOUT true.

Lemma query_spec (f : front) payload fv d w' :
  f_up f = true -> Unmarshal payload = Some fv -> plain_line payload ->
  Evaluate oob e (Some fv) (f_world f) = (Returns d, w') ->
  let r := @query_engine front (front_socket oob e) payload f in
  if in_time f (time_now (ext w'))
  then r = (Ok (marshal_Decision d), after_answer f (f_dict f) w')
  else exists msg, r = (Err msg, after_silence f (f_dict f) w').
Proof.
  intros Hup Hu (Hnl & Hcr & Hlen) He. unfold query_engine.
  cbn [sock_settimeouts sock_connect sock_send sock_receive sock_close sock_setkeepalive front_socket].
  assert (connect (Front (f_dict f) (f_world f) (f_pool f) (f_conn f) (f_out f) READ_TIMEOUT (f_up f))
    = ((true, None), Front (f_dict f) (f_world f) None (Some (conn_start f)) "" READ_TIMEOUT true)) as ->.
  { unfold connect. cbn [f_up f_pool f_dict f_world f_read_timeout]. by rewrite Hup. }
  cbn [negb]. unfold receive. cbn [f_conn f_out f_world f_dict f_pool f_read_timeout f_up].
  assert (tokens ("" +:+ (payload +:+ String "010" "")) = [payload]) as ->.
  { change ("" +:+ (payload +:+ String "010" "")) with (payload +:+ String newline "").
    rewrite tokens_cons by done. by rewrite Hcr. }
  rewrite (exchange payload fv d _ w' _ Hu He). cbn [world]. unfold now, f_now. cbn [world f_world sent].
  fold (f_now f). unfold in_time. set (t0 := conn_start f).
  destruct (Z.leb_spec (time_now (ext w')) (f_now f + READ_TIMEOUT * Millisecond)) as [Hr|Hr].
  - rewrite andb_true_r. destruct (time_now (ext w') <? t0 + connDeadline).
    + change (String.concat "" [response_text d]) with (response_text d). by rewrite answer_line.
    + cbn. by eexists.
  - rewrite andb_false_r. cbn. by eexists.
Qed.

(** The counters of the front are those of its dictionary. *)
Lemma front_increment ip (f : front) :
  snd (@increment front front_dict ip f) = with_dict (snd (increment ip (f_dict f))) f.
Proof.
  unfold increment.
  assert (forall ws f, @increment_loop front front_dict ip ws f =
    let (l, d) := increment_loop ip ws (f_dict f) in (l, with_dict d f)) as Hloop.
  { clear. induction ws as [|[sfx ttl] ws IH]; intros f; [by destruct f|]. cbn [increment_loop].
    cbn [dict_incr front_dict]. destruct (dict_incr _ 1 0 ttl (f_dict f)) as [r d1].
    rewrite IH. cbn [f_dict with_dict]. by destruct (increment_loop ip ws d1) as [l d2]. }
  rewrite Hloop. by destruct (increment_loop ip WINDOWS (f_dict f)) as [l d].
Qed.

(** The vector's JSON fits the engine's line buffer. *)
Definition short (r : Fingerprint.request) (f : front) : Prop :=
  forall s err, cjson_encode (@build_vector front front_dict (front_ngx md5) _ table_name r f) = (Some s, err) ->
    (String.length s < MaxScanTokenSize)%nat.

(** The payload of a request. *)
Lemma payload_spec r cl (f : front) :
  sendable md5 table_name r cl f -> short r f ->
  exists s, cjson_encode (@build_vector front front_dict (front_ngx md5) _ table_name r f) = (Some s, None) /\
    Unmarshal s = Some (vector r cl f) /\ plain_line s.
Proof.
  intros Hs Hshort. pose proof (vector_members r cl f Hs) as Hm. cbv zeta in Hm.
  destruct (encode_law _ _ Hm) as (s & kvs & Henc & Hparse & Hperm & Hg). exists s. split; [done|]. split.
  - apply Unmarshal_carries. exists kvs. split; [exact Hparse|]. by apply vector_holds.
  - rewrite <- (of_to_text s). apply graphic_plain; [done|]. rewrite length_to_text. by eapply Hshort.
Qed.

Lemma visit_spec r ip cl (f : front) d w' :
  let f1 := with_dict (snd (increment ip (f_dict f))) f in
  f_up f = true -> remote_addr r = Some ip -> sendable md5 table_name r cl f1 -> short r f1 ->
  Evaluate oob e (Some (vector r cl f1)) (f_world f) = (Returns d, w') ->
  0 <= d_RetryAfter d < 2 ^ 53 ->
  visit oob e md5 table_name r f =
    if in_time f (time_now (ext w'))
    then (Ok (verdict_of d), after_answer f (f_dict f1) w')
    else (Ok Continue, after_silence f (f_dict f1) w').
Proof.
  intros f1 Hup Hip Hs Hshort He Hd. unfold visit, access. rewrite Hip, front_increment. fold f1.
  destruct (payload_spec r cl f1 Hs Hshort) as (s & Henc & Hu & Hpl).
  unfold evaluate. rewrite Henc. cbn [fst].
  pose proof (query_spec f1 s _ d w' Hup Hu Hpl He) as Hq. cbv zeta in Hq.
  change (in_time f1 (time_now (ext w'))) with (in_time f (time_now (ext w'))) in Hq.
  destruct (in_time f _).
  - rewrite Hq. by rewrite act_decision.
  - by destruct Hq as (msg & ->).
Qed.
End Lemmas.


(** ** Properties *)

Section Verdicts.
Context {D R X B W : Type}.
Context `{SharedDictLaws D, RedisDecrementor R W, MLScorer X W, Engine.Blocklist B W, Clock W}.
Context `{CjsonLaws, LuaNumbers}.
Variable oob : spec_float -> Z.
Variable e : Engine R X B.
Variable md5 : string -> string.
Variable table_name : lua_table -> string.

(** C11: the engine's decision is the request's fate, if it comes in time.  For a
    request that nginx can send on, and an engine that decides [d] on its vector, with
    the counters that include this request: if the answer is written within 200 ms of
    the connection's start and read within 50 ms, an allow lets the request go on, a
    throttle is a 429 with the engine's number of seconds, a block a 403, and the
    connection is kept; if it is late for one of the two, the request goes on and the
    connection is closed, although the engine has taken the token and done all that
    goes with [d]. *)
Theorem visit_verdict r ip cl (f : front D W) d w' :
  let f1 := with_dict (snd (increment ip (f_dict f))) f in
  let answered := time_now (ext w') in
  let too_late := conn_start f + 200 * Millisecond <= answered \/ f_now f + 50 * Millisecond < answered in
  f_up f = true -> remote_addr r = Some ip ->
  sendable md5 table_name r cl f1 -> short md5 table_name r f1 ->
  Evaluate oob e (Some (vector_of md5 table_name r cl f1)) (f_world f) = (Returns d, w') ->
  0 <= d_RetryAfter d < 2 ^ 53 ->
  (~ too_late -> visit oob e md5 table_name r f =
     (Ok (match d_Action d with
          | ActionAllow => Continue
          | ActionThrottle => Exit 429 (Some (f64_of_Z (d_RetryAfter d)))
          | ActionBlock => Exit 403 None
          end), Front (f_dict f1) w' (Some (conn_start f)) None "" READ_TIMEOUT true)) /\
  (too_late -> visit oob e md5 table_name r f =
     (Ok Continue, Front (f_dict f1) w' None None "" READ_TIMEOUT true)).
Proof.
  intros f1 answered too_late Hup Hip Hs Hshort He Hd.
  pose proof (visit_spec oob e md5 table_name r ip cl f d w' Hup Hip Hs Hshort He Hd) as E.
  fold f1 answered in E. unfold too_late.
  assert (Millisecond = 1000000) as HM by done. unfold in_time, connDeadline, READ_TIMEOUT in E. rewrite HM in *.
  destruct (Z.ltb_spec answered (conn_start f + 200 * 1000000)), (Z.leb_spec answered (f_now f + 50 * 1000000));
    (split; [intros Hin|intros Hlate]; first [exact E | lia]).
Qed.
End Verdicts.

Section Requests.
Context {D W : Type} `{SharedDictLaws D, Clock W, CjsonLaws, LuaNumbers}.
Variable md5 : string -> string.
Variable table_name : lua_table -> string.

Hypothesis Hmd5 : forall s, ascii_text (to_text (md5 s)).

(** The requests of an address that the scripts can send on, whatever their counters
    and the time say within 14 digits. *)
Record plain_request (ip : string) (r : Fingerprint.request) (cl : Z) : Prop := {
  plain_addr : remote_addr r = Some ip;
  plain_ja3 : ascii_text (to_text (or_else (http_x_ja3_hash r) (or_else (ssl_ja3_hash r) "none")));
  plain_method : ascii_text (to_text (or_else (request_method r) "GET"));
  plain_length : or_else (tonumber (field_of "content-length" (headers r))) (f64_of_Z 0) = f64_of_Z cl;
  plain_cl : 0 <= cl < 10 ^ 14;
  plain_headers : Z.of_nat (length (headers r)) < 2 ^ 31;
  plain_short : forall f : front D W, sendable md5 table_name r cl f -> short md5 table_name r f
}.

Lemma plain_sendable ip r cl (f : front D W) :
  ascii_text (to_text ip) -> plain_request ip r cl -> counts_within (10 ^ 14 - 1) (f_dict f) ->
  0 <= f_now f / Second < 10 ^ 14 -> sendable md5 table_name r cl f.
Proof.
  intros Hip [Ha Hj Hm Hl Hcl Hh _] Hd Ht. split; try done.
  - unfold ascii_vector, vector_of. cbn [ClientIp Ja3Hash UserAgentHash HttpMethod UriHash].
    rewrite Ha. split_and!; try done; apply Hmd5.
  - rewrite Ha. by apply get_rates_within.
Qed.
End Requests.

(** The decisions without blocking scores. *)
Lemma mild_retry oob c tokens x :
  ScoreBlockThreshold c = defaultBlock -> ScoreThrottleThreshold c = defaultThrottle ->
  f_gt x (f64_to_f32 defaultBlock) = false ->
  match d_Action (policy oob c tokens x) with
  | ActionThrottle => 72 <= d_RetryAfter (policy oob c tokens x) <= 102
  | _ => d_RetryAfter (policy oob c tokens x) = 0
  end.
Proof.
  unfold policy. intros -> -> Hx. rewrite Hx. cbn [orb].
  destruct (match tokens with Some n => n <? 0 | None => false end); [done|].
  destruct (f_gt x (f64_to_f32 defaultThrottle)) eqn:Ht; [|done]. cbn [d_Action d_RetryAfter].
  destruct (default_throttled x Ht Hx) as (m & -> & Hm).
  destruct (retry_seconds_band oob m Hm) as (q & _ & Hq & Hband). unfold retry_after. rewrite Hq.
  by destruct (Z.ltb_spec (q / 2 ^ 17) 1); [lia|].
Qed.

(** What is left for nginx to do. *)
Definition fair (v : result verdict) : Prop :=
  v = Ok Continue \/ v = Ok (Exit 403 None) \/
  exists s, 72 <= s <= 102 /\ v = Ok (Exit 429 (Some (f64_of_Z s))).

Definition forbidden (v : result verdict) : bool :=
  match v with Ok (Exit status _) => status =? 403 | _ => false end.

Lemma fair_decision oob c tokens x :
  ScoreBlockThreshold c = defaultBlock -> ScoreThrottleThreshold c = defaultThrottle ->
  f_gt x (f64_to_f32 defaultBlock) = false ->
  let d := policy oob c tokens x in
  fair (Ok (verdict_of d)) /\ forbidden (Ok (verdict_of d)) = blocks d /\ 0 <= d_RetryAfter d < 2 ^ 53.
Proof.
  intros Hb Ht Hx d. pose proof (mild_retry oob c tokens x Hb Ht Hx) as Hr. fold d in Hr.
  unfold verdict_of, blocks, fair. destruct (d_Action d); cbn.
  - split_and!; [by left|done|lia..].
  - split_and!; [right; right; by eauto|done|lia..].
  - split_and!; [by right; left|done|lia..].
Qed.

(** ** Witnesses: three requests of one address, over the parts of the other files *)

Module NginxDemo.
#[global] Instance numbers : LuaNumbers := {| tonumber_text _ := None |}.
Definition md5 (s : string) : string :=
  if bool_decide (s = "") then "d41d8cd98f00b204e9800998ecf8427e" else "9e107d9d372bb6826bd81d3542a419d6".
Definition table_name (_ : lua_table) : string := "table: 0x7f3a".
Definition r : Fingerprint.request :=
  Fingerprint.Request (Some "10.0.0.7") None None (Some "POST") (Some "/login") (Some "HTTP/2.0")
    [("user-agent", LString "curl/8.5.0"); ("content-length", LString "12")].

(** With the sidecar and Redis of the examples, and with the Redis that takes 90 ms and
    has no tokens left. *)
Definition f0 := Front MemDict.empty ScoringDemo.w0 None None "" 0 true.
Definition slow := Front MemDict.empty (MkWorld (SlowMock.MkSlow 0 3) []) None None "" 0 true.
Definition slow1 := with_dict (snd (increment "10.0.0.7" MemDict.empty)) slow.

Lemma plain {W} `{Clock W} : plain_request (D := MemDict.t) (W := W) md5 table_name "10.0.0.7" r 12.
Proof.
  split; [done|by repeat constructor..|done|done|done|]. intros f Hs s err E.
  pose proof (vector_members md5 table_name r 12 f Hs) as Hm. cbv zeta in Hm.
  rewrite (MemCjson.encode_members _ _ _ _ Hm E), <- length_to_text, to_of_text.
  eapply Nat.le_lt_trans; [apply (print_object_length 50)|].
  - destruct (send_rates _ _ _ _ _ Hs) as (H1 & H10 & H60). pose proof (send_time _ _ _ _ _ Hs).
    unfold payload, vector_of.
    cbn [fmap list_fmap UnixTimestamp].
    repeat first [apply Forall_nil; exact I | apply Forall_cons; split];
      (split; [apply Nat.leb_le; reflexivity|]);
      first [apply Nat.leb_le; reflexivity | apply number_length; lia].
  - apply Nat.ltb_lt. vm_compute. reflexivity.
Qed.
End NginxDemo.

(** The block of an engine that waits 90 ms for Redis comes too late; the token is
    taken all the same. *)
Lemma visit_verdict_witness :
  exists w', Evaluate amd64_oob Mock.engine
      (Some (vector_of NginxDemo.md5 NginxDemo.table_name NginxDemo.r 12 NginxDemo.slow1))
      (f_world NginxDemo.slow) = (Returns (MkDecision ActionBlock 0), w') /\
    SlowMock.asked (ext w') = 4 /\
    fst (visit amd64_oob Mock.engine NginxDemo.md5 NginxDemo.table_name NginxDemo.r NginxDemo.slow)
      = Ok Continue.
Proof.
  destruct (Evaluate amd64_oob Mock.engine
      (Some (vector_of NginxDemo.md5 NginxDemo.table_name NginxDemo.r 12 NginxDemo.slow1))
      (f_world NginxDemo.slow)) as [d w'] eqn:E.
  pose proof E as E'. vm_compute in E'. injection E' as <- Ew. exists w'. split; [done|].
  split; [by rewrite <- Ew|].
  edestruct (visit_verdict amd64_oob Mock.engine NginxDemo.md5 NginxDemo.table_name NginxDemo.r "10.0.0.7" 12
    NginxDemo.slow (MkDecision ActionBlock 0) w') as [_ Hlate];
    [done|done| | |exact E|done|rewrite Hlate; [done|right; by rewrite <- Ew]].
  - split.
    + split_and!; by repeat constructor.
    + reflexivity.
    + done.
    + reflexivity.
    + done.
    + split_and!; vm_compute; done.
  - intros s err Hs. vm_compute in Hs. injection Hs as <- _. apply Nat.ltb_lt. vm_compute. reflexivity.
Defined.

(** The third request is refused on the engine's word. *)
Definition third : front MemDict.t _ := snd (visits plat_oob ScoringDemo.e NginxDemo.md5 NginxDemo.table_name
  (replicate 2 NginxDemo.r) NginxDemo.f0).

Lemma evaluate_fails_open_witness :
  exists payload line, fst (@query_engine _ (front_socket plat_oob ScoringDemo.e) payload third) = Ok line /\
    says line "action" (LString "block").
Proof.
  assert (fst (@evaluate _ front_dict (front_socket plat_oob ScoringDemo.e) (front_ngx NginxDemo.md5) _ _
    NginxDemo.table_name NginxDemo.r third) = Ok (Exit 403 None)) as E by (vm_compute; reflexivity).
  revert E. generalize third. intros f E. destruct (evaluate _ _ f) as [res s'] eqn:Ef.
  cbn [fst] in E. subst res.
  destruct (@evaluate_fails_open _ _ _ _ _ _ _ _ _ _ _ Ef) as [Hnone Hsome].
  destruct (fst (cjson_encode _)) as [payload|]; [|by destruct (Hnone eq_refl)].
  specialize (Hsome payload eq_refl). exists payload.
  destruct (fst (query_engine payload f)) as [line|err]; [|done]. exists line. split; [done|].
  by destruct Hsome as [(_ & _ & H)|(? & _)].
Defined.
