(* ===== verification/Timed.v ===== *)
(** * From the request to the status, over time

    nginx, the engine, Redis and the sidecar with their clocks running: pauses between
    the requests, lags on the way to Redis, back, and in the sidecar, and the buckets
    that Redis evicts in the meantime.  The world of [System] with a clock, as another
    instance of the engine's classes. *)

From S2P Require Import Prelude GoNet GoFloat FloatOrder GoText Json GoJson GoPrint Counter Fingerprint Redis TokenBucket Config.
From S2P Require Import Ml Sidecar Wire Kafka Engine BpfMap Blocklist Server Deadline System Scoring Nginx.

(** ** The world with a clock *)

(** Milliseconds that the calls of one request take: until the script runs, until its
    reply is back, and for the score, for which the client waits 100 ms at most.  And the
    keys that Redis has evicted since the script ran for the request before; since only
    these scripts use the buckets, all of them may go at the end of that time. *)
Record lag := Lag { to_redis : Z; evicted : list string; from_redis : Z; scoring : Z }.

Definition score_wait (l : lag) : Z := Z.min (scoring l) (callDeadline / Millisecond).

(** The lags of the requests to come; when they are used up, calls take no time. *)
Record Timed (W : Type) := MkTimed { t_sys : W; t_lags : list lag }.
Arguments MkTimed {W}.
Arguments t_sys {W}.
Arguments t_lags {W}.

Definition next_lag (l : list lag) : lag * list lag :=
  match l with [] => (Lag 0 [] 0 0, []) | x :: l => (x, l) end.

Section World.
Context `{Platform} {St Conn G M : Type} `{RedisCmds St, Grpc Conn G, BpfMap M}.

Local Abbreviation sys := (Sys St G M).

(** Evictions, one after the other. *)
Fixpoint evict_all (keys : list string) (st : St) : St :=
  match keys with [] => st | key :: keys => evict_all keys (redis_evict key st) end.

#[global] Instance timed_decrementor : RedisDecrementor Redis.Client (Timed sys) := {|
  Decrement c ip s :=
    let (l, _) := next_lag (t_lags s) in
    let s0 := elapse (to_redis l) (t_sys s) in
    let (r, s1) := Decrement c ip (with_redis (evict_all (evicted l) (sys_redis s0)) s0) in
    (r, MkTimed (elapse (from_redis l) s1) (t_lags s))
|}.

#[global] Instance timed_scorer : MLScorer (option (Ml.Client Conn)) (Timed sys) := {|
  Score c fv s :=
    let (l, lags) := next_lag (t_lags s) in
    let (o, s1) := Score c fv (t_sys s) in
    (o, MkTimed (elapse (score_wait l) s1) lags)
|}.

#[global] Instance timed_blocklist : Engine.Blocklist Blocklist.Blocklist (Timed sys) := {|
  Engine.Add b ip s := let (r, s1) := Engine.Add b ip (t_sys s) in (r, MkTimed s1 (t_lags s));
  Engine.Remove b ip s := let (r, s1) := Engine.Remove b ip (t_sys s) in (r, MkTimed s1 (t_lags s))
|}.

#[global] Instance timed_clock : Clock (Timed sys) := {| time_now s := time_now (t_sys s) |}.

(** Waiting; Redis counts whole milliseconds. *)
#[global] Instance timed_timer : Timer (Timed sys) := {|
  sleep_until t s :=
    let d := Z.max 0 (t - sys_time (t_sys s)) in
    MkTimed (MkSys (redis_advance (d / Millisecond) (sys_redis (t_sys s))) (sys_net (t_sys s))
      (sys_ml (t_sys s)) (sys_map (t_sys s)) (sys_time (t_sys s) + d)) (t_lags s)
|}.

(** What Redis sees of a request of an address, of requests with pauses before them, and
    of requests without. *)
Definition at_redis (ip : string) (l : lag) : list event :=
  Tick (to_redis l) :: (Evict <$> evicted l) ++ [Request ip (Reply 0); Tick (from_redis l); Tick (score_wait l)].

Fixpoint arrivals_at_redis (ip : string) (pauses : list Z) (lags : list lag) : list event :=
  match pauses with
  | [] => []
  | ms :: pauses =>
      let (l, lags) := next_lag lags in
      Tick ms :: at_redis ip l ++ arrivals_at_redis ip pauses lags
  end.

Fixpoint burst_at_redis (ip : string) (n : nat) (lags : list lag) : list event :=
  match n with
  | O => []
  | S n => let (l, lags) := next_lag lags in at_redis ip l ++ burst_at_redis ip n lags
  end.

(** The time of a request, and when the decisions of a burst that begins at [t] are
    there. *)
Definition request_time (l : lag) : Z := to_redis l + from_redis l + score_wait l.

Fixpoint decision_times (t : Z) (n : nat) (lags : list lag) : list Z :=
  match n with
  | O => []
  | S n =>
      let (l, lags) := next_lag lags in
      let t := t + request_time l * Millisecond in
      t :: decision_times t n lags
  end.

(** The time that a trace takes, in milliseconds. *)
Definition span (evs : list event) : Z :=
  foldr (fun ev t => match ev with Tick ms => ms + t | _ => t end) 0 evs.

(** *** nginx *)

Context {D : Type} `{SharedDict D, Cjson, LuaNumbers}.
Variable e : engine_t Conn.
Variable md5 : string -> string.
Variable table_name : lua_table -> string.

Local Abbreviation front := (front D (Timed sys)).

(** Nothing happens for a while. *)
Definition pause (ms : Z) (f : front) : front :=
  let w := f_world f in
  Front (dict_advance ms (f_dict f))
    (MkWorld (MkTimed (elapse ms (t_sys (ext w))) (t_lags (ext w))) (spawned w))
    (f_pool f) (f_conn f) (f_out f) (f_read_timeout f) (f_up f).

(** A request after a pause.  nginx's clock runs with the engine's; the flag says that
    the answer was there in time. *)
Definition timed_visit (ms : Z) (r : Fingerprint.request) (f : front) : (bool * result verdict) * front :=
  let f0 := pause ms f in
  let (v, f1) := visit plat_oob e md5 table_name r f0 in
  let passed := (f_now f1 - f_now f0) / Millisecond in
  ((in_time f0 (f_now f1), v), with_dict (dict_advance passed (f_dict f1)) f1).

(** One after the other: the next pause begins when the engine is done. *)
Fixpoint timed_visits (rs : list (Z * Fingerprint.request)) (f : front)
    : list (bool * result verdict) * front :=
  match rs with
  | [] => ([], f)
  | (ms, r) :: rs =>
      let (v, f) := timed_visit ms r f in
      let (vs, f) := timed_visits rs f in
      (v :: vs, f)
  end.
End World.

(** ** Lemmas *)

Lemma counts_advance {D} `{SharedDictLaws D} n ms d :
  0 <= ms -> counts_within n d -> counts_within n (dict_advance ms d).
Proof. intros Hms Hd ip w v x Hw Hl. by eapply Hd, advance_old. Qed.

Lemma counts_mono {D} `{SharedDictLaws D} n m d : n <= m -> counts_within n d -> counts_within m d.
Proof. intros Hnm Hd ip w v x Hw Hl. specialize (Hd ip w v x Hw Hl). lia. Qed.

Definition lag_ok (l : lag) : Prop := 0 <= to_redis l /\ 0 <= from_redis l /\ 0 <= scoring l.

Lemma next_lag_ok ls l ls' : Forall lag_ok ls -> next_lag ls = (l, ls') -> lag_ok l /\ Forall lag_ok ls'.
Proof.
  destruct ls as [|x ls]; cbn; intros Hl [= <- <-]; [by split; [|constructor]|]. by apply Forall_cons in Hl.
Qed.

Lemma score_wait_ok l : lag_ok l -> 0 <= score_wait l.
Proof. intros (_ & _ & ?). unfold score_wait. change (callDeadline / Millisecond) with 100. lia. Qed.

(** *** What Redis sees *)

(** A trace of one address whose calls all reach the server once, with [n] requests. *)
Definition served (ip : string) (n : nat) (evs : list event) : Prop :=
  forallb (clean ip) evs = true /\ only_from ip evs /\ requests ip evs = n.

Lemma served_app ip n m e1 e2 : served ip n e1 -> served ip m e2 -> served ip (n + m) (e1 ++ e2).
Proof.
  intros (C1 & O1 & R1) (C2 & O2 & R2). split; [|split].
  - by rewrite forallb_app, C1, C2.
  - by apply Forall_app.
  - unfold requests in *. rewrite filter_app, length_app. lia.
Qed.

Lemma served_tick ip n ms evs : served ip n evs -> served ip n (Tick ms :: evs).
Proof. intros Hevs. apply (served_app ip 0 n [_]); [|done]. by repeat constructor. Qed.

Lemma served_one ip l : served ip 1 (at_redis ip l).
Proof.
  unfold at_redis. apply served_tick, (served_app ip 0 1).
  - induction (evicted l) as [|key keys IH]; [by repeat constructor|].
    apply (served_app ip 0 0 [_]); [by repeat constructor|done].
  - split; [|split].
    + cbn. by rewrite orb_true_r.
    + by repeat constructor.
    + unfold requests. rewrite filter_cons. cbn [is_request]. rewrite bool_decide_eq_true_2 by done.
      by rewrite decide_True.
Qed.

Lemma served_arrivals ip pauses lags : served ip (length pauses) (arrivals_at_redis ip pauses lags).
Proof.
  revert lags. induction pauses as [|ms pauses IH]; intros lags; [by repeat constructor|].
  cbn [arrivals_at_redis length]. destruct (next_lag lags) as [l lags'].
  apply served_tick, (served_app ip 1); [apply served_one|apply IH].
Qed.

Lemma served_burst ip n lags : served ip n (burst_at_redis ip n lags).
Proof.
  revert lags. induction n as [|n IH]; intros lags; [by repeat constructor|].
  cbn [burst_at_redis]. destruct (next_lag lags) as [l lags'].
  apply (served_app ip 1); [apply served_one|apply IH].
Qed.

(** The time of a request with its pause. *)
Definition visit_time (ms : Z) (l : lag) : Z := ms + request_time l.

Lemma span_app e1 e2 : span (e1 ++ e2) = span e1 + span e2.
Proof. unfold span. induction e1 as [|[ip d|ms|key] e1 IH]; cbn [app foldr]; lia. Qed.

Lemma span_arrivals ip ms pauses lags l lags' :
  next_lag lags = (l, lags') ->
  span (arrivals_at_redis ip (ms :: pauses) lags) = visit_time ms l + span (arrivals_at_redis ip pauses lags').
Proof.
  intros Hl. cbn [arrivals_at_redis]. rewrite Hl.
  change (Tick ms :: ?l1 ++ ?l2) with ([Tick ms; Tick (to_redis l)] ++ tail l1 ++ l2).
  unfold at_redis. cbn [tail]. rewrite !span_app.
  assert (forall keys, span (Evict <$> keys) = 0) as -> by (by induction keys). cbn. unfold visit_time, request_time. lia.
Qed.

Lemma arrivals_span ip pauses lags :
  Forall (fun ms => 0 <= ms) pauses -> Forall lag_ok lags -> 0 <= span (arrivals_at_redis ip pauses lags).
Proof.
  intros Hp. revert lags. induction Hp as [|ms pauses Hms _ IH]; intros lags Hl; [done|].
  destruct (next_lag lags) as [l lags'] eqn:En. rewrite (span_arrivals _ _ _ _ _ _ En).
  destruct (next_lag_ok _ _ _ Hl En) as [Hlok Hl']. pose proof (score_wait_ok l Hlok).
  destruct Hlok as (? & ? & _). specialize (IH lags' Hl'). unfold visit_time, request_time. lia.
Qed.

Section Limit.
Context `{Platform} {D RSt M St V Forest Session : Type}.
Context `{SharedDictLaws D, RedisLaws RSt, BpfMap M}.
Context `{PyRedisLaws V St, CodecLaws V Forest, NumpyLaws, ModelLaws Forest Session}.
Context `{CjsonLaws, LuaNumbers}.
Variable md5 : string -> string.
Variable table_name : lua_table -> string.

Local Abbreviation peer := (Peer V St Forest Session).
Local Abbreviation timed := (Timed (Sys RSt peer M)).

Hypothesis Hmd5 : forall s, ascii_text (to_text (md5 s)).

(** Redis, the network, the sidecar and the clock of the engine's world. *)
Definition t_redis (w : World timed) : RSt := sys_redis (t_sys (ext w)).
Definition t_net (w : World timed) : list delivery := sys_net (t_sys (ext w)).
Definition t_peer (w : World timed) : peer := sys_ml (t_sys (ext w)).

Lemma block_frame (b : Blocklist.Blocklist) ip (s : timed) :
  let s' := snd (Engine.Add b ip s) in
  sys_redis (t_sys s') = sys_redis (t_sys s) /\ sys_net (t_sys s') = sys_net (t_sys s) /\
  sys_ml (t_sys s') = sys_ml (t_sys s) /\ sys_time (t_sys s') = sys_time (t_sys s) /\ t_lags s' = t_lags s.
Proof.
  cbn [Engine.Add timed_blocklist sys_blocklist]. unfold on_map.
  by destruct (Blocklist.Add _ _ _ _).
Qed.

Lemma run_trace_one (e : engine_t string) ip l evs rep st st0 :
  Redis.Decrement plat_oob (Reply 0) (redis e) ip (evict_all (evicted l) (redis_advance (to_redis l) st0)) = (rep, st) ->
  fst (run_trace plat_oob (redis e) (at_redis ip l ++ evs) st0) =
    (ip, rep) :: fst (run_trace plat_oob (redis e) evs (redis_advance (score_wait l) (redis_advance (from_redis l) st))).
Proof.
  intros Ed. unfold at_redis. cbn [app run_trace]. rewrite <- app_assoc.
  assert (forall keys evs (st : RSt), run_trace plat_oob (redis e) ((Evict <$> keys) ++ evs) st =
    run_trace plat_oob (redis e) evs (evict_all keys st)) as Hkeys.
  { induction keys as [|key keys IH]; [done|]. intros. apply IH. }
  rewrite Hkeys. cbn [app run_trace]. rewrite Ed. by destruct (run_trace _ _ evs _).
Qed.

(** An evaluation takes its lags, and leaves the blocking to the tokens. *)
Lemma timed_Evaluate (e : engine_t string) c fv (w : World timed) l lags :
  ml e = Some c -> ScoreBlockThreshold (cfg e) = defaultBlock -> no_lstm (t_peer w) -> t_net w = [] ->
  next_lag (t_lags (ext w)) = (l, lags) ->
  exists r st x w', Redis.Decrement plat_oob (Reply 0) (redis e) (GetClientIp fv)
      (evict_all (evicted l) (redis_advance (to_redis l) (t_redis w))) = (r, st) /\
    Evaluate plat_oob e fv w = (Returns (policy plat_oob (cfg e) (tokens_of r) x), w') /\
    f_gt x (f64_to_f32 defaultBlock) = false /\ no_lstm (t_peer w') /\ t_net w' = [] /\
    t_lags (ext w') = lags /\
    t_redis w' = redis_advance (score_wait l) (redis_advance (from_redis l) st) /\
    time_now (ext w') = time_now (ext w) + request_time l * Millisecond.
Proof.
  unfold t_peer, t_net, t_redis. intros Hml Hthr Hg Hnet Hl.
  pose proof (Evaluate_eq plat_oob e fv w) as E.
  cbn [Decrement Score timed_decrementor timed_scorer sys_decrementor sys_scorer elapse with_redis sys_net sys_redis
    sys_ml sys_map sys_time] in E.
  rewrite Hl, Hnet in E. cbn [next_delivery] in E.
  destruct (Redis.Decrement plat_oob (Reply 0) (redis e) (GetClientIp fv)
    (evict_all (evicted l) (redis_advance (to_redis l) (sys_redis (t_sys (ext w)))))) as [r st] eqn:Ed.
  cbn [t_lags t_sys sys_ml elapse] in E. rewrite Hl, Hml in E.
  destruct (client_mild c fv _ Hg) as (x & ver & err & g' & Es & Hg' & Hx). rewrite Es in E.
  exists r, st, x. eexists. split; [done|]. split; [exact E|]. split; [done|]. cbn [ext].
  set (s2 := MkTimed _ lags). set (d := policy _ _ _ _).
  assert (forall s', s' = s2 \/ (exists b ip, s' = snd (Engine.Add b ip s2)) ->
    no_lstm (sys_ml (t_sys s')) /\ sys_net (t_sys s') = [] /\ t_lags s' = lags /\
    sys_redis (t_sys s') = redis_advance (score_wait l) (redis_advance (from_redis l) st) /\
    time_now s' = time_now (ext w) + request_time l * Millisecond) as Hframe.
  { intros s' Hs'. assert (sys_redis (t_sys s') = sys_redis (t_sys s2) /\ sys_net (t_sys s') = sys_net (t_sys s2) /\
      sys_ml (t_sys s') = sys_ml (t_sys s2) /\ sys_time (t_sys s') = sys_time (t_sys s2) /\ t_lags s' = t_lags s2)
      as (-> & -> & -> & Ht & ->).
    { destruct Hs' as [->|(b & ip & ->)]; [repeat split|apply block_frame]. }
    cbn [time_now timed_clock sys_clock] in *. rewrite Ht. cbn. repeat (split; [done|]). unfold request_time. lia. }
  apply Hframe. unfold apply_decision. destruct (d_Action d); [by left|by left|right; by eauto].
Qed.

(** What holds of nginx and the engine between two requests; [n] bounds the counters. *)
Record between (n : Z) (f : front D timed) : Prop := {
  b_up : f_up f = true;
  b_peer : no_lstm (t_peer (f_world f));
  b_net : t_net (f_world f) = [];
  b_counts : counts_within n (f_dict f);
  b_lags : Forall lag_ok (t_lags (ext (f_world f)));
  b_time : 0 <= f_now f
}.

(** Until the blocking scores are out of reach, a timely answer is [fair] and refuses
    what has no token left. *)
Definition treated (v : bool * result verdict) (blocked : bool) : Prop :=
  (if v.1 then fair v.2 else v.2 = Ok Continue) /\ forbidden v.2 = v.1 && blocked.

Definition mild (e : engine_t string) (c : Ml.Client string) : Prop :=
  ml e = Some c /\ ScoreBlockThreshold (cfg e) = defaultBlock /\
  ScoreThrottleThreshold (cfg e) = defaultThrottle.

(** The front after an evaluation, whether its answer came in time or not. *)
Definition settled (ok : bool) (f : front D timed) (d : D) (w : World timed) : front D timed :=
  if ok then after_answer f d w else after_silence f d w.

Lemma settled_world ok f d w : f_world (settled ok f d w) = w /\ f_up (settled ok f d w) = true.
Proof. by destruct ok. Qed.

Lemma timed_visit_spec (e : engine_t string) ms r ip cl (f : front D timed) d w' :
  let f0 := pause ms f in
  let f1 := with_dict (snd (increment ip (f_dict f0))) f0 in
  let ok := in_time f0 (time_now (ext w')) in
  let passed := (time_now (ext w') - f_now f0) / Millisecond in
  f_up f = true -> remote_addr r = Some ip -> sendable md5 table_name r cl f1 -> short md5 table_name r f1 ->
  Evaluate plat_oob e (Some (vector_of md5 table_name r cl f1)) (f_world f0) = (Returns d, w') ->
  0 <= d_RetryAfter d < 2 ^ 53 ->
  timed_visit e md5 table_name ms r f =
    ((ok, Ok (if ok then verdict_of d else Continue)),
     with_dict (dict_advance passed (f_dict f1)) (settled ok f0 (f_dict f1) w')).
Proof.
  intros f0 f1 ok passed Hup Hip Hs Hshort He Hd. unfold timed_visit. fold f0.
  pose proof (visit_spec plat_oob e md5 table_name r ip cl f0 d w' Hup Hip Hs Hshort He Hd) as E.
  fold f1 ok in E. rewrite E. clear E. unfold ok, passed. set (t := time_now (ext w')).
  destruct (in_time f0 t) eqn:Eok; unfold settled, f_now at 1 2;
    cbn [f_world after_answer after_silence f_dict]; fold t; by rewrite Eok.
Qed.

Lemma policy_by_tokens (c : Config) rep x :
  ScoreBlockThreshold c = defaultBlock -> f_gt x (f64_to_f32 defaultBlock) = false ->
  blocks (policy plat_oob c (tokens_of rep) x) = blocks (by_tokens rep).
Proof.
  intros Hb Hx. rewrite policy_mild by (by rewrite Hb). unfold by_tokens, blocks.
  destruct (tokens_of rep) as [m|]; [by destruct (m <? 0)|done].
Qed.

Lemma pause_sendable ip ms r cl n (f : front D timed) :
  ascii_text (to_text ip) -> plain_request (D := D) (W := timed) md5 table_name ip r cl ->
  0 <= n -> n + 3 < 10 ^ 14 -> between n f -> 0 <= ms -> f_now f + ms * Millisecond < 10 ^ 14 * Second ->
  let f1 := with_dict (snd (increment ip (f_dict (pause ms f)))) (pause ms f) in
  counts_within (n + 3) (f_dict f1) /\ sendable md5 table_name r cl f1.
Proof.
  intros Hip Hr Hn Hlen Hf Hms Hspan f1. pose proof (b_time _ _ Hf) as Htime.
  assert (Millisecond = 1000000 /\ Second = 1000000000) as [HM HS] by done.
  assert (counts_within (n + 3) (f_dict f1)) as Hd1 by (by apply increment_within, counts_advance, Hf).
  split; [done|]. apply (plain_sendable md5 table_name Hmd5 ip); [done|done| |].
  - eapply counts_mono; [|exact Hd1]. lia.
  - change (f_now f1) with (f_now f + ms * Millisecond).
    split; [apply Z.div_pos; lia|apply Z.div_lt_upper_bound; lia].
Qed.

Lemma timed_visit_mild (e : engine_t string) c ip ms r cl n (f : front D timed) l lags :
  mild e c -> ascii_text (to_text ip) -> plain_request (D := D) (W := timed) md5 table_name ip r cl ->
  0 <= n -> n + 3 < 10 ^ 14 -> between n f -> 0 <= ms -> next_lag (t_lags (ext (f_world f))) = (l, lags) ->
  f_now f + visit_time ms l * Millisecond < 10 ^ 14 * Second ->
  exists v f' rep st, timed_visit e md5 table_name ms r f = (v, f') /\
    Redis.Decrement plat_oob (Reply 0) (redis e) ip
      (evict_all (evicted l) (redis_advance (to_redis l) (redis_advance ms (t_redis (f_world f))))) = (rep, st) /\
    treated v (blocks (by_tokens rep)) /\ between (n + 3) f' /\ t_lags (ext (f_world f')) = lags /\
    t_redis (f_world f') = redis_advance (score_wait l) (redis_advance (from_redis l) st) /\
    f_now f' = f_now f + visit_time ms l * Millisecond.
Proof.
  intros (Hml & Hb & Ht) Hip Hr Hn Hlen Hf Hms Hl Hspan. pose proof Hf as [Hup Hg Hnet _ Hlags Htime].
  destruct (next_lag_ok _ _ _ Hlags Hl) as [Hlok Hlags'].
  pose proof (score_wait_ok l Hlok) as Hwait. pose proof Hlok as (Hto & Hfrom & _).
  assert (Millisecond = 1000000) as HM by done. unfold visit_time, request_time in *.
  destruct (pause_sendable ip ms r cl n f) as [Hd1 Hsend]; [done..|rewrite HM in *; lia|]. cbv zeta in Hd1, Hsend.
  set (f0 := pause ms f) in *. set (f1 := with_dict _ f0) in *.
  set (fv := vector_of md5 table_name r cl f1).
  assert (ClientIp fv = ip) as Hfv by (unfold fv, vector_of; by rewrite (plain_addr _ _ _ _ _ Hr)).
  destruct (timed_Evaluate e c (Some fv) (f_world f0) l lags Hml Hb Hg Hnet Hl)
    as (rep & st & x & w1 & Ed & E1 & Hx & Hg1 & Hn1 & Hl1 & Hr1 & Ht1).
  destruct (fair_decision plat_oob (cfg e) (tokens_of rep) x Hb Ht Hx) as (Hfair & Hforb & Hretry).
  pose proof (timed_visit_spec e ms r ip cl f _ w1 Hup (plain_addr _ _ _ _ _ Hr) Hsend
    (plain_short _ _ _ _ _ Hr f1 Hsend) E1 Hretry) as Hv. fold f0 f1 in Hv.
  cbn [GetClientIp getter] in Ed. rewrite Hfv in Ed.
  change (time_now (ext (f_world f0))) with (f_now f + ms * Millisecond) in Ht1. unfold request_time in Ht1.
  change (f_now f0) with (f_now f + ms * Millisecond) in Hv.
  set (ok := in_time f0 (time_now (ext w1))) in *.
  do 2 eexists. exists rep, st. split; [exact Hv|]. split; [exact Ed|]. unfold treated. cbn [fst snd].
  split; [rewrite <- (policy_by_tokens (cfg e) rep x Hb Hx), <- Hforb; destruct ok; [split; [exact Hfair|reflexivity]|repeat split]|].
  destruct (settled_world ok f0 (f_dict f1) w1) as [Hw Hup1].
  assert (forall d1, f_now (with_dict d1 (settled ok f0 (f_dict f1) w1)) =
    f_now f + (ms + (to_redis l + from_redis l + score_wait l)) * Millisecond) as Hnow.
  { intros d1. unfold f_now at 1. cbn [f_world with_dict]. rewrite Hw, Ht1. lia. }
  cbn [f_world with_dict]. rewrite Hnow, Hw. split; [|split; [exact Hl1|split; [exact Hr1|reflexivity]]].
  rewrite HM in *.
  split; cbn [f_up f_world f_dict with_dict]; rewrite ?Hnow, ?Hw;
    [exact Hup1|exact Hg1|exact Hn1| |by rewrite Hl1|lia].
  apply counts_advance; [apply Z.div_pos; lia|exact Hd1].
Qed.

(** A request of [ip], after a pause. *)
Definition request_ok (ip : string) (mr : Z * Fingerprint.request) : Prop :=
  0 <= mr.1 /\ exists cl, plain_request (D := D) (W := timed) md5 table_name ip mr.2 cl.

Lemma timed_visits_mild (e : engine_t string) c ip rs n (f : front D timed) :
  mild e c -> ascii_text (to_text ip) -> Forall (request_ok ip) rs ->
  0 <= n -> n + 3 * Z.of_nat (length rs) < 10 ^ 14 -> between n f ->
  let evs := arrivals_at_redis ip (fst <$> rs) (t_lags (ext (f_world f))) in
  f_now f + span evs * Millisecond < 10 ^ 14 * Second ->
  exists vs f', timed_visits e md5 table_name rs f = (vs, f') /\
    Forall2 treated vs ((fun r => blocks (by_tokens (snd r))) <$>
      fst (run_trace plat_oob (redis e) evs (t_redis (f_world f)))).
Proof.
  intros He Hip Hrs. revert n f. induction Hrs as [|[ms r] rs [Hms [cl Hr]] Hrs IH]; intros n f Hn Hlen Hf evs Hspan.
  { exists [], f. by split. }
  cbn [fst snd fmap list_fmap] in Hms, Hr, evs. subst evs.
  destruct (next_lag (t_lags (ext (f_world f)))) as [l lags] eqn:Hl. rewrite (span_arrivals _ _ _ _ _ _ Hl) in Hspan.
  destruct (next_lag_ok _ _ _ (b_lags _ _ Hf) Hl) as [Hlok Hlags].
  assert (0 <= span (arrivals_at_redis ip (fst <$> rs) lags)) as Hrest.
  { apply arrivals_span; [|done]. apply Forall_fmap. eapply Forall_impl; [exact Hrs|]. by intros mr [? _]. }
  assert (Millisecond = 1000000) as HM by done. cbn [length] in Hlen.
  destruct (timed_visit_mild e c ip ms r cl n f l lags) as (v & f1 & rep & st & E1 & Ed & Hv & Hf1 & Hl1 & Hr1 & Ht1);
    try done; [lia|rewrite HM in *; lia|].
  destruct (IH (n + 3) f1) as (vs & f2 & E2 & Hvs); [lia|lia|exact Hf1| |].
  { rewrite Hl1, Ht1. rewrite HM in *. lia. }
  exists (v :: vs), f2. cbn [timed_visits]. rewrite E1, E2. split; [done|].
  cbn [arrivals_at_redis]. rewrite Hl. cbn [run_trace]. rewrite (run_trace_one _ _ _ _ _ _ _ Ed).
  rewrite Hl1, Hr1 in Hvs. by constructor.
Qed.

(** *** The engine alone, on a socket *)

(** What a request gets whose bucket [k] others came to before. *)
Definition ruled (cap k : Z) (d : Decision) : Prop :=
  if cap <=? k then d = MkDecision ActionBlock 0
  else d = MkDecision ActionAllow 0 \/ exists s, 72 <= s <= 102 /\ d = MkDecision ActionThrottle s.

Lemma policy_ruled (c : Config) rep x :
  ScoreBlockThreshold c = defaultBlock -> ScoreThrottleThreshold c = defaultThrottle ->
  f_gt x (f64_to_f32 defaultBlock) = false ->
  let d := policy plat_oob c (tokens_of rep) x in
  if blocks (by_tokens rep) then d = MkDecision ActionBlock 0
  else d = MkDecision ActionAllow 0 \/ exists s, 72 <= s <= 102 /\ d = MkDecision ActionThrottle s.
Proof.
  intros Hb Ht Hx d. rewrite <- (policy_by_tokens c rep x Hb Hx). fold d.
  pose proof (mild_retry plat_oob c (tokens_of rep) x Hb Ht Hx) as Hr. fold d in Hr.
  unfold blocks. case_bool_decide as Ha; destruct d as [[] s]; cbn in *; subst; try done; eauto.
Qed.

Lemma evaluate_timed_mild (e : engine_t string) c ip fvs (w : World timed) :
  mild e c -> no_lstm (t_peer w) -> t_net w = [] -> Forall (fun fv => ClientIp fv = ip) fvs ->
  exists ds w', evaluate_timed plat_oob e fvs w = (Returns ds, w') /\
    snd <$> ds = decision_times (time_now (ext w)) (length fvs) (t_lags (ext w)) /\
    Forall2 (fun d (b : bool) => if b then d = MkDecision ActionBlock 0
               else d = MkDecision ActionAllow 0 \/ exists s, 72 <= s <= 102 /\ d = MkDecision ActionThrottle s)
      (fst <$> ds) ((fun r => blocks (by_tokens (snd r))) <$>
        fst (run_trace plat_oob (redis e) (burst_at_redis ip (length fvs) (t_lags (ext w))) (t_redis w))).
Proof.
  intros (Hml & Hb & Ht) Hg Hnet Hip. revert w Hg Hnet.
  induction Hip as [|fv fvs Hfv _ IH]; intros w Hg Hnet; [exists [], w; by repeat constructor|].
  destruct (next_lag (t_lags (ext w))) as [l lags] eqn:Hl.
  destruct (timed_Evaluate e c (Some fv) w l lags Hml Hb Hg Hnet Hl)
    as (rep & st & x & w1 & Ed & E1 & Hx & Hg1 & Hn1 & Hl1 & Hr1 & Ht1).
  cbn [GetClientIp getter] in Ed. rewrite Hfv in Ed.
  destruct (IH w1 Hg1 Hn1) as (ds & w2 & E2 & Htimes & Hds). rewrite Hl1, Hr1, Ht1 in *.
  eexists (_ :: ds), w2. cbn [evaluate_timed length decision_times burst_at_redis fmap list_fmap].
  unfold mbind, go_bind. rewrite E1, E2, Hl. split; [reflexivity|]. cbn [fst snd fmap list_fmap].
  split; [by rewrite Ht1, Htimes|]. rewrite (run_trace_one _ _ _ _ _ _ _ Ed). cbn [fmap list_fmap snd].
  constructor; [|done]. by apply policy_ruled.
Qed.

Lemma mild_never_panics (e : engine_t string) c : mild e c -> never_panics (S := timed) e.
Proof.
  intros (Hml & _) fv s. cbn [Score timed_scorer]. destruct (next_lag (t_lags s)) as [l lags].
  destruct (client_never_panics (St := RSt) (G := peer) (M := M) e ltac:(by rewrite Hml) fv (t_sys s))
    as (r & s' & E).
  rewrite E. by do 2 eexists.
Qed.


(** C4: the rate limit, from the request to the status, over time.  nginx counts,
    builds the vector and sends it as JSON; the engine reads it, takes a token in Redis,
    asks the sidecar (of the repository, without the LSTM file) and answers; nginx acts.
    The requests of a new address come one after the other, with pauses before them and
    lags in the calls, but never longer apart at Redis than the TTL; Redis may evict
    buckets in between.  Then, in whatever time all this happens, each request whose
    answer is there in time is refused with a 403 if at least [bucketSize] requests came
    before it since the bucket of the address was evicted last, and only then, and
    otherwise goes on or is told to come back in 72 to 102 seconds; each of the others
    goes on.  If the bucket is not evicted, those are the requests from the
    [bucketSize]-th on. *)
Theorem nginx_limit_over_time (e : engine_t string) c ip rs n (f : front D timed) :
  let evs := arrivals_at_redis ip (fst <$> rs) (t_lags (ext (f_world f))) in
  client_ok plat_oob (redis e) -> 0 < bucketSize (redis e) ->
  well_formed (t_redis (f_world f)) -> represents (t_redis (f_world f)) (bucket_key ip) None ->
  no_silence (ttl_arg plat_oob (redis e) * 1000) ip None evs = true ->
  mild e c -> ascii_text (to_text ip) -> Forall (request_ok ip) rs ->
  0 <= n -> n + 3 * Z.of_nat (length rs) < 10 ^ 14 -> between n f ->
  f_now f + span evs * Millisecond < 10 ^ 14 * Second ->
  exists vs f', timed_visits e md5 table_name rs f = (vs, f') /\
    length vs = length rs /\ length (spent ip 0 evs) = length rs /\
    (forall i (in_time : bool) v k, vs !! i = Some (in_time, v) -> spent ip 0 evs !! i = Some k ->
      (if in_time then fair v else v = Ok Continue) /\
      forbidden v = in_time && (bucketSize (redis e) <=? k)) /\
    (evictions ip evs = 0%nat -> spent ip 0 evs = seqZ 0 (Z.of_nat (length rs))).
Proof.
  intros evs Hc Hcap Hwf Hrep Hns He Hip Hrs Hn Hlen Hf Hspan.
  destruct (timed_visits_mild e c ip rs n f He Hip Hrs Hn Hlen Hf Hspan) as (vs & f' & E & Hvs). fold evs in Hvs.
  destruct (served_arrivals ip (fst <$> rs) (t_lags (ext (f_world f)))) as (Hcl & Honly & Hreq).
  fold evs in Hcl, Honly, Hreq. rewrite length_fmap in Hreq.
  rewrite (trace_blocks e ip) in Hvs by done.
  pose proof (length_spent ip 0 evs) as Hlsp. rewrite Hreq in Hlsp.
  exists vs, f'. split; [done|]. split; [by rewrite (Forall2_length _ _ _ Hvs), length_fmap|].
  split; [done|split].
  - intros i in_time v k Hi Hk. destruct (Forall2_lookup_l _ _ _ _ _ Hvs Hi) as (b & Hb & Hv).
    rewrite list_lookup_fmap, Hk in Hb. injection Hb as <-. exact Hv.
  - intros Hev. by rewrite spent_all, Hreq.
Qed.
End Limit.

(** ** Witnesses: a bucket of two tokens, half minutes between the requests, slow scores *)

Module TimedDemo.
(** The bucket is evicted before the last request. *)
Definition lags : list lag :=
  [Lag 1 [] 2 15; Lag 1 [] 1 70; Lag 2 ["seq:{10.0}"] 1 20; Lag 1 [] 1 500; Lag 1 [bucket_key "10.0.0.7"] 1 10].
Definition f0 := Front MemDict.empty
  (MkWorld (MkTimed (ext ScoringDemo.w0) lags) []) None None "" 0 true.
Definition rs : list (Z * Fingerprint.request) := (fun ms => (ms, NginxDemo.r)) <$> [0; 30000; 59000; 100; 200].

(** On the socket: the score of the last request takes too long. *)
Definition w0 := MkWorld (MkTimed (ext ScoringDemo.w0)
  [Lag 1 [] 2 30; Lag 1 [] 1 30; Lag 2 [] 1 30; Lag 1 [bucket_key "10.0.0.7"] 1 30; Lag 1 [] 1 100]) [].
End TimedDemo.


(** The third request has no token left; the second and the fourth are answered too
    late; the fifth finds a new bucket. *)
Lemma nginx_limit_over_time_witness :
  exists vs f', timed_visits ScoringDemo.e NginxDemo.md5 NginxDemo.table_name TimedDemo.rs TimedDemo.f0 = (vs, f') /\
    fst <$> vs = [true; false; true; false; true] /\
    forbidden ∘ snd <$> vs = [false; false; true; false; false].
Proof.
  destruct (timed_visits ScoringDemo.e NginxDemo.md5 NginxDemo.table_name TimedDemo.rs TimedDemo.f0) as [vs f'] eqn:E.
  exists vs, f'. split; [done|].
  destruct (nginx_limit_over_time NginxDemo.md5 NginxDemo.table_name) with (e := ScoringDemo.e)
    (c := ScoringDemo.client) (ip := "10.0.0.7") (rs := TimedDemo.rs) (n := 0) (f := TimedDemo.f0)
    as (vs' & f'' & E' & Hlen & _ & Hvs & _).
  - intros s. unfold NginxDemo.md5. by case_bool_decide; repeat constructor.
  - exact Demo.client_fine.
  - reflexivity.
  - apply mem_empty_well_formed.
  - apply mem_empty_fresh.
  - vm_compute. reflexivity.
  - repeat split.
  - by repeat constructor.
  - apply Forall_fmap, Forall_forall. intros ms Hms. split; [|exists 12; apply NginxDemo.plain].
    rewrite !elem_of_cons, elem_of_nil in Hms. by destruct Hms as [->|[->|[->|[->|[->|[]]]]]].
  - done.
  - done.
  - split; [reflexivity..| | |].
    + intros ip w v x Hw Hl. by rewrite MemDict.empty_no_counters in Hl.
    + apply (bool_decide_unpack _). vm_compute. exact I.
    + apply Z.leb_le. vm_compute. reflexivity.
  - vm_compute. reflexivity.
  - rewrite E in E'. injection E' as <- <-.
    assert (fst <$> vs = [true; false; true; false; true]) as Hin
      by (change vs with (fst (vs, f')); rewrite <- E; vm_compute; reflexivity).
    split; [exact Hin|]. clear E Hlen.
    destruct vs as [|[b0 v0] [|[b1 v1] [|[b2 v2] [|[b3 v3] [|[b4 v4] [|]]]]]]; try discriminate Hin.
    injection Hin as -> -> -> -> ->.
    destruct (Hvs 0%nat true v0 0 eq_refl eq_refl) as [_ H0], (Hvs 1%nat false v1 1 eq_refl eq_refl) as [_ H1],
      (Hvs 2%nat true v2 2 eq_refl eq_refl) as [_ H2], (Hvs 3%nat false v3 3 eq_refl eq_refl) as [_ H3],
      (Hvs 4%nat true v4 0 eq_refl eq_refl) as [_ H4].
    cbn [fmap list_fmap compose snd]. by rewrite H0, H1, H2, H3, H4.
Defined.
