(* ===== verification/Shutdown.v ===== *)
(** * The life of the decision engine (cmd/server/main.go)

    The process of [System] from the moment the servers run to its end: the socket's
    listener, the goroutines that publish, the signal, the two seconds of draining,
    the deferred calls of [main], and the fatal exits that skip them.  The steps of
    a [life] interleave as the scheduler likes.  A step is where a call has its effect:
    the time that the call takes, also the waiting of [Kafka.Close] for writes that it
    still lets through, passes between the steps. *)

From S2P Require Import Prelude GoNet GoFloat Json Http Redis TokenBucket Config Ml Kafka.
From S2P Require Import Engine BpfMap Blocklist Server Events System.

(** The deferred calls of [main]. *)
Inductive cleanup := CloseRedis | CloseKafka | CloseMl | CloseBlocklist | StopSignals.

#[export] Instance cleanup_eq_dec : EqDecision cleanup.
Proof. solve_decision. Defined.

(** Where [main] is: waiting for a signal, asleep, unwinding its deferred calls, or
    gone. *)
Inductive main_phase :=
| Waiting
| Sleeping (until : Z)
| Unwinding (rest : list cleanup)
| Exited (fatal : bool).

(** The nap of [main] after the signal. *)
Definition drainTime : Z := 2 * Second.

(** The settings of the HTTP server in [runHTTP], and how long its shutdown may wait
    for requests. *)
Record http_server := MkServer {
  srv_Addr : string; srv_ReadTimeout : Z; srv_WriteTimeout : Z; srv_IdleTimeout : Z
}.

Definition runHTTP_server (port : string) : http_server :=
  MkServer (":" +:+ port) (5 * Second) (10 * Second) (60 * Second).

Definition shutdownTimeout : Z := 5 * Second.

Section Life.
Context `{Platform} {St Conn G M K : Type} `{RedisCmds St, Grpc Conn G, BpfMap M, KafkaCluster K}.

Abbreviation engine := (engine_t Conn).

(** The calls in the order of their [defer] statements. *)
Definition defers (e : engine) : list cleanup :=
  [CloseRedis; CloseKafka] ++ (match ml e with Some _ => [CloseMl] | None => [] end)
  ++ [CloseBlocklist; StopSignals].

(** They run last in, first out. *)
Definition unwinding (e : engine) : list cleanup := reverse (defers e).

(** [l_runs] are the goroutines of [Evaluate] that have run, with their times, and
    [l_late] those that ran after [main] had closed the producer.  [l_http] says whether the
    HTTP server accepts requests, and [l_requests] when those it is serving began. *)
Record life := Life {
  l_time : Z;
  l_process : process St G M;
  l_kafka : K;
  l_listening : bool;
  l_accepted : nat;
  l_main : main_phase;
  l_signalled : option Z;
  l_cleaned : list cleanup;
  l_runs : list (Z * task);
  l_late : list (Z * task);
  l_http : bool;
  l_requests : list Z
}.

(** The servers have been started, at time [t]. *)
Definition started (t : Z) (w : World (Sys St G M)) (k : K) : life :=
  Life t (Process w [] false) k true 0 Waiting None [] [] [] true [].

Definition alive (l : life) : Prop :=
  (forall fatal, l_main l <> Exited fatal) /\ p_crashed (l_process l) = false.

Definition set_main (ph : main_phase) (l : life) : life :=
  Life (l_time l) (l_process l) (l_kafka l) (l_listening l) (l_accepted l) ph
       (l_signalled l) (l_cleaned l) (l_runs l) (l_late l) (l_http l) (l_requests l).

Definition set_process (p : process St G M) (l : life) : life :=
  Life (l_time l) p (l_kafka l) (l_listening l) (l_accepted l) (l_main l)
       (l_signalled l) (l_cleaned l) (l_runs l) (l_late l) (l_http l) (l_requests l).

Definition set_http (open : bool) (requests : list Z) (l : life) : life :=
  Life (l_time l) (l_process l) (l_kafka l) (l_listening l) (l_accepted l) (l_main l)
       (l_signalled l) (l_cleaned l) (l_runs l) (l_late l) open requests.

(** The network towards Redis changes. *)
Definition set_net (net : list delivery) (l : life) : life :=
  let p := l_process l in
  let s := ext (p_world p) in
  set_process (Process (MkWorld (MkSys (sys_redis s) net (sys_ml s) (sys_map s) (sys_time s))
    (spawned (p_world p))) (p_flights p) (p_crashed p)) l.

(** Goroutine [i] of those spawned runs. *)
Definition run_spawned (e : engine) (i : nat) (t : task) (l : life) : life :=
  let p := l_process l in
  let w := p_world p in
  let closed := bool_decide (CloseKafka ∈ l_cleaned l) in
  Life (l_time l)
       (Process (MkWorld (ext w) (delete i (spawned w))) (p_flights p) (p_crashed p))
       (run_task (kafka e) (l_time l) t (l_kafka l)) (l_listening l) (l_accepted l) (l_main l)
       (l_signalled l) (l_cleaned l)
       (if closed then l_runs l else l_runs l ++ [(l_time l, t)])
       (if closed then l_late l ++ [(l_time l, t)] else l_late l) (l_http l) (l_requests l).

(** One deferred call.  What Redis does to the requests still in flight when its client
    is closed is in the steps of the network; closing the map or the signal handler
    changes nothing that is modelled. *)
Definition clean (e : engine) (c : cleanup) (l : life) : life :=
  let p := l_process l in
  let w := p_world p in
  let s := ext w in
  let g := match c with CloseMl => snd (Ml.Close (ml e) (sys_ml s)) | _ => sys_ml s end in
  let k := match c with CloseKafka => snd (Kafka.Close (kafka e) (l_kafka l)) | _ => l_kafka l end in
  Life (l_time l)
       (Process (MkWorld (MkSys (sys_redis s) (sys_net s) g (sys_map s) (sys_time s)) (spawned w))
          (p_flights p) (p_crashed p))
       k (l_listening l) (l_accepted l) (l_main l) (l_signalled l) (l_cleaned l ++ [c])
       (l_runs l) (l_late l) (l_http l) (l_requests l).

Inductive life_step (e : engine) (l : life) : life -> Prop :=
| life_tick d :
    alive l -> 0 <= d ->
    life_step e l (Life (l_time l + d) (l_process l) (l_kafka l) (l_listening l) (l_accepted l)
      (l_main l) (l_signalled l) (l_cleaned l) (l_runs l) (l_late l) (l_http l) (l_requests l))
| life_work evs p :
    alive l -> step e (l_process l) evs p -> life_step e l (set_process p l)
| life_publish i t :
    alive l -> spawned (p_world (l_process l)) !! i = Some t ->
    life_step e l (run_spawned e i t l)
| life_network net :
    (* calls begin to fail, as they do once the client is closed, or to succeed again *)
    alive l -> life_step e l (set_net net l)
| life_accept :
    alive l -> l_listening l = true ->
    life_step e l (Life (l_time l) (l_process l) (l_kafka l) true (l_accepted l + 1)
      (l_main l) (l_signalled l) (l_cleaned l) (l_runs l) (l_late l) (l_http l) (l_requests l))
| life_signal :
    alive l -> l_main l = Waiting ->
    life_step e l (Life (l_time l) (l_process l) (l_kafka l) (l_listening l) (l_accepted l)
      (Sleeping (l_time l + drainTime)) (Some (l_time l)) (l_cleaned l) (l_runs l) (l_late l) (l_http l) (l_requests l))
| life_close_listener :
    alive l -> l_signalled l <> None ->
    life_step e l (Life (l_time l) (l_process l) (l_kafka l) false (l_accepted l)
      (l_main l) (l_signalled l) (l_cleaned l) (l_runs l) (l_late l) (l_http l) (l_requests l))
| life_http_request :
    alive l -> l_http l = true ->
    life_step e l (set_http true (l_requests l ++ [l_time l]) l)
| life_http_reply i :
    alive l -> life_step e l (set_http (l_http l) (delete i (l_requests l)) l)
| life_http_shutdown :
    (* [srv.Shutdown] closes its listener and waits for the requests *)
    alive l -> l_signalled l <> None -> life_step e l (set_http false (l_requests l) l)
| life_wake t :
    alive l -> l_main l = Sleeping t -> t <= l_time l ->
    life_step e l (set_main (Unwinding (unwinding e)) l)
| life_cleanup c rest :
    alive l -> l_main l = Unwinding (c :: rest) ->
    life_step e l (set_main (Unwinding rest) (clean e c l))
| life_return :
    alive l -> l_main l = Unwinding [] -> life_step e l (set_main (Exited false) l)
| life_fatal :
    (* a server goroutine calls log.Fatal *)
    alive l -> life_step e l (set_main (Exited true) l).

Inductive lives (e : engine) (l : life) : life -> Prop :=
| lives_refl : lives e l l
| lives_step l1 l2 : lives e l l1 -> life_step e l1 l2 -> lives e l l2.
End Life.
Arguments life : clear implicits.

(** ** Lemmas *)

Lemma omap_insert {A B} (g : A -> option B) (l : list A) i a a' :
  l !! i = Some a -> g a = None ->
  omap g (<[i := a']> l) ≡ₚ match g a' with Some b => [b] | None => [] end ++ omap g l.
Proof.
  intros Hi Ha. destruct (list_elem_of_split_length l i a Hi) as (l1 & l2 & -> & ->).
  rewrite insert_app_r_alt, Nat.sub_diag by lia. cbn [insert list_insert]. rewrite !omap_app.
  assert (forall x, omap g (x :: l2) = match g x with Some b => [b] | None => [] end ++ omap g l2) as Hc.
  { intros x. cbn. by destruct (g x). }
  rewrite !Hc, Ha. apply Permutation_app_swap_app.
Qed.

Section Invariant.
Context `{Platform} {St Conn G M K : Type} `{RedisCmds St, Grpc Conn G, BpfMap M, KafkaCloseLaws K}.

(** The actions decided so far. *)
Definition decided_action (f : flight) : option string :=
  match f_phase f with Decided _ _ d => Some (action_text (d_Action d)) | _ => None end.

Definition decided (fs : list flight) : list string := omap decided_action fs.

(** The goroutines spawned so far: run in time, run too late, not yet run. *)
Definition all_tasks (l : life St G M K) : list task :=
  (snd <$> l_runs l) ++ (snd <$> l_late l) ++ spawned (p_world (l_process l)).

(** How far [main] has come with its deferred calls. *)
Definition cleaning (e : engine_t Conn) (l : life St G M K) : Prop :=
  match l_main l with
  | Waiting => l_cleaned l = [] /\ l_signalled l = None
  | Sleeping t => l_cleaned l = [] /\ exists s, l_signalled l = Some s /\ t = s + drainTime /\ s <= l_time l
  | Unwinding rest =>
      l_cleaned l ++ rest = unwinding e /\ exists s, l_signalled l = Some s /\ s + drainTime <= l_time l
  | Exited false =>
      l_cleaned l = unwinding e /\ exists s, l_signalled l = Some s /\ s + drainTime <= l_time l
  | Exited true => l_cleaned l `prefix_of` unwinding e
  end.

(** Kafka holds the messages of the goroutines that ran before it was closed. *)
Definition publishing (l : life St G M K) : Prop :=
  (CloseKafka ∉ l_cleaned l -> l_late l = []) /\
  (Forall run_ok (l_runs l) ->
     (if bool_decide (CloseKafka ∈ l_cleaned l) then kafka_shut (l_kafka l) else kafka_up (l_kafka l)) /\
     kafka_log (l_kafka l) ≡ₚ omap message_of (l_runs l)).

Record life_ok (e : engine_t Conn) (l : life St G M K) : Prop := {
  ok_actions : omap task_action (all_tasks l) ≡ₚ decided (p_flights (l_process l));
  ok_cleaning : cleaning e l;
  ok_publishing : publishing l
}.

(** The work of the requests: a decision spawns its goroutines. *)
Lemma step_actions (e : engine_t Conn) p evs p' ts :
  step e p evs p' ->
  omap task_action (ts ++ spawned (p_world p)) ≡ₚ decided (p_flights p) ->
  omap task_action (ts ++ spawned (p_world p')) ≡ₚ decided (p_flights p').
Proof.
  intros Hst Hact.
  destruct Hst as [w fs fv|w fs ms Hms|w fs key|w fs i fv r s' Hi Hd|w fs i fv r score ver err s' Hi Hs|
                   w fs i fv r msg s' Hi Hs|w fs i fv r score Hi d s']; cbn [p_world p_flights spawned] in *.
  - assert (decided (fs ++ [Flight fv Arrived]) = decided fs) as ->; [|done].
    unfold decided. rewrite omap_app. apply app_nil_r.
  - done.
  - done.
  - rewrite Hact. symmetry. exact (omap_insert decided_action _ _ _ (Flight fv (Counted r)) Hi eq_refl).
  - rewrite Hact. symmetry. exact (omap_insert decided_action _ _ _ (Flight fv (Scored r score)) Hi eq_refl).
  - done.
  - rewrite app_assoc, omap_app, Hact.
    etrans; [|symmetry; exact (omap_insert decided_action _ _ _ (Flight fv (Decided r score d)) Hi eq_refl)].
    cbn [decided_action f_phase]. rewrite (Permutation_app_comm (decided fs)). apply Permutation_app_tail.
    unfold decision_tasks. by destruct (d_Action d).
Qed.

Lemma run_task_shut p now t (k : K) : kafka_shut k -> run_task p now t k = k.
Proof.
  intros Hk. destruct t as [ip|evt]; cbn [run_task].
  - unfold PublishBlocked. destruct (Marshal _) as [b|]; [|done].
    destruct (shut_law (blocked p) (MkMessage ip b) k Hk) as [err E]. by rewrite E.
  - unfold PublishDecision. destruct (Marshal _) as [b|]; [|done].
    destruct (shut_law (decisions p) (MkMessage (ev_IP evt) b) k Hk) as [err E]. by rewrite E.
Qed.

Section Steps.
Variable e : engine_t Conn.
Variable brokers : list string.
Hypothesis He : kafka e = Kafka.New brokers.

Lemma started_ok t w (k : K) :
  spawned w = [] -> kafka_up k -> kafka_log k = [] -> life_ok e (started t w k).
Proof.
  intros Hw Hup Hlog. split.
  - unfold all_tasks. cbn. by rewrite Hw.
  - done.
  - split; [done|]. intros _. cbn. rewrite Hlog. by case_bool_decide as Hc; [apply elem_of_nil in Hc|].
Qed.

(** A goroutine publishes. *)
Lemma publish_ok i t (l : life St G M K) :
  spawned (p_world (l_process l)) !! i = Some t -> life_ok e l -> life_ok e (run_spawned e i t l).
Proof.
  intros Hi [Hact Hcl [Hlate Hpub]]. split.
  - etrans; [|exact Hact]. apply omap_Permutation. unfold all_tasks, run_spawned. cbn.
    pose proof (delete_Permutation _ _ _ Hi) as Hd. revert Hd.
    generalize (delete i (spawned (p_world (l_process l)))) as rest. intros rest ->.
    case_bool_decide; rewrite fmap_app; cbn [fmap list_fmap snd]; rewrite <- ?app_assoc;
      cbn [app]; repeat (apply Permutation_app_head || reflexivity).
    apply Permutation_middle.
  - exact Hcl.
  - unfold publishing, run_spawned. cbn [l_cleaned l_late l_runs l_kafka].
    case_bool_decide as Hc.
    + split; [done|]. intros Hok. destruct (Hpub Hok) as [Hshut Hlog].
      by rewrite run_task_shut.
    + split; [done|]. intros [Hok Hrun]%Forall_app. apply Forall_cons in Hrun as [Hrun _].
      destruct (Hpub Hok) as [Hup Hlog]. rewrite He.
      destruct (run_task_log brokers (l_time l, t) (l_kafka l) Hup Hrun) as [Hup' Hlog'].
      split; [exact Hup'|]. cbn [fst snd] in Hlog'. rewrite Hlog', Hlog, omap_app.
      cbn [omap list_omap]. rewrite Permutation_app_comm. by destruct (message_of (l_time l, t)).
Qed.

(** What the other steps leave alone. *)
Lemma same_publishing (l l' : life St G M K) :
  l_cleaned l' = l_cleaned l -> l_late l' = l_late l -> l_runs l' = l_runs l ->
  l_kafka l' = l_kafka l -> publishing l -> publishing l'.
Proof. unfold publishing. by intros -> -> -> ->. Qed.

Lemma clean_ok c rest (l : life St G M K) :
  l_main l = Unwinding (c :: rest) -> life_ok e l ->
  life_ok e (set_main (Unwinding rest) (clean e c l)).
Proof.
  intros Hm [Hact Hcl [Hlate Hpub]]. unfold cleaning in Hcl. rewrite Hm in Hcl.
  destruct Hcl as [Hcl Hsig].
  assert (CloseKafka ∈ l_cleaned l -> c <> CloseKafka) as Honce.
  { intros Hin ->. assert (NoDup (unwinding e)) as Hnd.
    { unfold unwinding, defers. destruct (ml e); apply (bool_decide_unpack _); vm_compute; exact I. }
    rewrite <- Hcl in Hnd. apply NoDup_app in Hnd as (_ & Hnd & _). by apply (Hnd CloseKafka Hin); left. }
  split.
  - exact Hact.
  - unfold cleaning. cbn. rewrite <- app_assoc. done.
  - unfold publishing, set_main, clean. cbn [l_cleaned l_late l_runs l_kafka]. split.
    + intros Hn. apply Hlate. intros Hin. apply Hn. apply elem_of_app. by left.
    + intros Hok. destruct (Hpub Hok) as [Hk Hlog]. case_bool_decide as Hc; case_bool_decide as Hc'.
      * specialize (Honce Hc). by destruct c.
      * destruct Hc'. apply elem_of_app. by left.
      * apply elem_of_app in Hc' as [Hc'|Hc']; [done|].
        apply list_elem_of_singleton in Hc' as <-.
        destruct (close_law (kafka e) (l_kafka l) Hk) as [Hshut Hlog'].
        split; [exact Hshut|]. by rewrite Hlog'.
      * destruct c; done || (exfalso; apply Hc', elem_of_app; right; by left).
Qed.

Lemma life_step_ok (l l' : life St G M K) : life_step e l l' -> life_ok e l -> life_ok e l'.
Proof.
  intros Hst Hok. pose proof Hok as [Hact Hcl Hpub].
  destruct Hst as [d Ha Hd|evs p Ha Hst|i t Ha Hi|net Ha|Ha Hs|Ha Hm|Ha Hs|Ha Hh|i Ha|Ha Hs|t Ha Hm Ht|c rest Ha Hm|Ha Hm|Ha].
  - split; [exact Hact| |by eapply same_publishing]. unfold cleaning in *. cbn.
    destruct (l_main l) as [|t|rest|[]]; try done;
      destruct Hcl as [? (s & ? & ?)]; (split; [done|]); exists s; split_and!; try done; lia.
  - split; [|exact Hcl|by eapply same_publishing]. unfold all_tasks in *. cbn.
    rewrite app_assoc in *. by eapply step_actions.
  - by apply publish_ok.
  - split; [exact Hact|exact Hcl|by eapply same_publishing].
  - split; [exact Hact|exact Hcl|by eapply same_publishing].
  - split; [exact Hact| |by eapply same_publishing]. unfold cleaning in *. rewrite Hm in Hcl. cbn.
    destruct Hcl as [? _]. split; [done|]. eexists. split_and!; [done|done|lia].
  - split; [exact Hact|exact Hcl|by eapply same_publishing].
  - split; [exact Hact|exact Hcl|by eapply same_publishing].
  - split; [exact Hact|exact Hcl|by eapply same_publishing].
  - split; [exact Hact|exact Hcl|by eapply same_publishing].
  - split; [exact Hact| |by eapply same_publishing]. unfold cleaning in *. rewrite Hm in Hcl. cbn.
    destruct Hcl as [-> (s & ? & -> & ?)]. split; [done|]. by exists s.
  - by apply clean_ok.
  - split; [exact Hact| |by eapply same_publishing]. unfold cleaning in *. rewrite Hm in Hcl. cbn.
    by rewrite app_nil_r in Hcl.
  - split; [exact Hact| |by eapply same_publishing]. unfold cleaning in *.
    cbn [set_main l_main l_cleaned]. destruct Ha as [Ha _]. destruct (l_main l) as [|t|rest|b].
    + destruct Hcl as [-> _]. apply prefix_nil.
    + destruct Hcl as [-> _]. apply prefix_nil.
    + destruct Hcl as [<- _]. by apply prefix_app_r.
    + by destruct (Ha b).
Qed.

Lemma lives_ok (l l' : life St G M K) : lives e l l' -> life_ok e l -> life_ok e l'.
Proof. induction 1 as [|l1 l2 _ IH Hst]; [done|]. intros Hok. by eapply life_step_ok; [|apply IH]. Qed.
End Steps.

(** The process goes away before the HTTP server's own shutdown would give up waiting for
    requests, and before a reply must be over. *)
Lemma shutdown_cut_off port : drainTime < shutdownTimeout < srv_WriteTimeout (runHTTP_server port).
Proof. done. Qed.

(** ** Properties *)


End Invariant.

(** ** Witnesses: one request of [System.Demo], allowed and published *)

Module LifeDemo.
Import Demo.

Definition state : Type := life MemRedis.t MockGrpc.t LruMap.t MemKafka.t.

Definition w1s : World sys := MkWorld (snd (Score (ml e) (Some vector) (ext w1))) [].
Definition decision : Decision := policy plat_oob (cfg e) (tokens_of (1, None)) f_zero.
Definition s_end : sys := apply_decision e (GetClientIp (Some vector)) decision (ext w1s).

Definition l0 : state := started 7 w0 MemKafka.empty.
Definition l1 : state := set_process (Process w0 [Flight (Some vector) Arrived] false) l0.
Definition l2 : state := set_process (Process w1 [Flight (Some vector) (Counted (1, None))] false) l1.
Definition l3 : state :=
  set_process (Process w1s [Flight (Some vector) (Scored (1, None) f_zero)] false) l2.
Definition l4 : state :=
  set_process
    (Process (MkWorld s_end ([] ++ decision_tasks (Some vector) f_zero decision (time_now s_end)))
       [Flight (Some vector) (Decided (1, None) f_zero decision)] false) l3.
Definition event : task :=
  PublishDecisionTask (MkDecisionEvent "1.2.3.4" f_zero "allow" (time_now s_end)
    (event_features (Some vector))).
Definition l5 : state := run_spawned e 0 event l4.

Lemma alive_running (l : state) :
  l_main l = Waiting -> p_crashed (l_process l) = false -> alive l.
Proof. intros Hm Hc. split; [by rewrite Hm|done]. Qed.

Lemma served : lives e l0 l5.
Proof.
  refine (lives_step _ _ l4 _ _ (life_publish e l4 0 event (alive_running l4 eq_refl eq_refl) eq_refl)).
  refine (lives_step _ _ l3 _ _ (life_work e l3 _ _ (alive_running l3 eq_refl eq_refl) _)).
  2: exact (step_decide e w1s [Flight (Some vector) (Scored (1, None) f_zero)] 0%nat (Some vector)
              (1, None) f_zero eq_refl).
  refine (lives_step _ _ l2 _ _ (life_work e l2 _ _ (alive_running l2 eq_refl eq_refl) _)).
  2: exact (step_score e w1 [Flight (Some vector) (Counted (1, None))] 0%nat (Some vector)
              (1, None) f_zero "v1" None (ext w1s) eq_refl eq_refl).
  refine (lives_step _ _ l1 _ _ (life_work e l1 _ _ (alive_running l1 eq_refl eq_refl) _)).
  2: exact (step_count e w0 [Flight (Some vector) Arrived] 0%nat (Some vector) (1, None) (ext w1)
              eq_refl eq_refl).
  refine (lives_step _ _ l0 _ (lives_refl _ _) (life_work e l0 _ _ (alive_running l0 eq_refl eq_refl) _)).
  exact (step_arrive e w0 [] (Some vector)).
Qed.
End LifeDemo.

